(** * Alien Survivor: the simulation core of [src/game], embedded in Rocq

    The [Game] class advances one mutable simulation object once per rendered
    frame ([animate]) and from a handful of [setTimeout] callbacks.  This file
    embeds the simulation-relevant part of that class as state-passing
    functions over a record [Game] and proves the properties listed in
    section 8 of the design document against it.

    Conventions of the embedding:
    - a JavaScript [number] is a rational [Q] with exact arithmetic, except
      for the fields that only ever receive integers (ammunition, wave
      counters, the level), which are [Z];
    - enemy and boss objects live in a store ([heap]) and are referred to by
      identity ([Ref]); [this.enemies], [this.boss] and [this.droneTarget]
      hold references, so that an object removed from the registry can still
      be reached through a reference held elsewhere;
    - the three.js geometry routines, [Math.sin]/[Math.cos] and
      [Math.random] are the interface [Host];
    - the scene graph, meshes, materials, lights, the HUD snapshots
      ([onStatsUpdate], [onBossUpdate], [onMessage]) and the screen shake are
      presentation and are left out; the camera orientation they influence is
      an input that may change between any two steps;
    - host callbacks that matter to the properties, and the places where the
      source rolls for loot, defeats an entity or emits a shot, are recorded
      in [trace]. *)

From Stdlib Require Import QArith Qminmax Qabs Qround Lqa ZArith Lia String.
From stdpp Require Import base option list gmap strings.

Open Scope Q_scope.

(** ** Numbers *)

(** [x < y] and [x <= y] on JavaScript numbers, as booleans. *)
Definition Qleb (x y : Q) : bool := Qle_bool x y.
Definition Qltb (x y : Q) : bool := negb (Qle_bool y x).

(** [x % 1] for a JavaScript number: the fractional part, with the sign of
    [x] (the remainder truncates toward zero). *)
Definition jsMod1 (x : Q) : Q :=
  x - inject_Z (Z.quot (Qnum x) (Zpos (Qden x))).

(** [Math.floor]. *)
Definition mathFloor (x : Q) : Z := Qfloor x.

(** ** Vectors ([THREE.Vector3]) *)

Record Vector3 : Type := mkVector3 { vx : Q; vy : Q; vz : Q }.

Definition vzero : Vector3 := mkVector3 0 0 0.
Definition vadd (a b : Vector3) : Vector3 :=
  mkVector3 (vx a + vx b) (vy a + vy b) (vz a + vz b).
Definition subVectors (a b : Vector3) : Vector3 :=
  mkVector3 (vx a - vx b) (vy a - vy b) (vz a - vz b).
Definition multiplyScalar (a : Vector3) (s : Q) : Vector3 :=
  mkVector3 (vx a * s) (vy a * s) (vz a * s).
(** [a.lerp(b, alpha)]. *)
Definition lerp (a b : Vector3) (alpha : Q) : Vector3 :=
  mkVector3 (vx a + (vx b - vx a) * alpha) (vy a + (vy b - vy a) * alpha)
            (vz a + (vz b - vz a) * alpha).
Definition set_vy (y : Q) (a : Vector3) : Vector3 := mkVector3 (vx a) y (vz a).

(** ** The host: three.js geometry, trigonometry and the random source *)

Class Host : Type := mkHost {
  (** the value returned by the [n]-th modelled call of [Math.random()] *)
  mathRandom : nat -> Q;
  mathSin : Q -> Q;
  mathCos : Q -> Q;
  mathPI : Q;
  (** [a.distanceTo(b)] *)
  distanceTo : Vector3 -> Vector3 -> Q;
  (** [a.normalize()] *)
  normalize : Vector3 -> Vector3;
  (** [a.angleTo(b)] *)
  angleTo : Vector3 -> Vector3 -> Q;
  (** rotation about the vertical axis: [a.applyAxisAngle((0,1,0), angle)],
      and [a.applyEuler(playerObject.rotation)] whose only free component is
      the yaw *)
  applyAxisAngleY : Vector3 -> Q -> Vector3;
  (** [p.worldToLocal(v)] for a particle at the given position with the
      given rotation about the vertical axis *)
  worldToLocal : Vector3 -> Q -> Vector3 -> Vector3;
  (** [weakPointPath.getPointAt(t)] for the closed curve built by
      [createBossMesh] from half the boss size *)
  getPointAt : Q -> Q -> Vector3;
  (** [camera.getWorldDirection] from yaw and pitch *)
  getWorldDirection : Q -> Q -> Vector3;
  (** [muzzleFlash.getWorldPosition] from the player position, yaw and pitch *)
  muzzleWorldPosition : Vector3 -> Q -> Q -> Vector3;
  (** the [Box3] test of a boss bullet (laser or sphere) at a position with
      a velocity against the boundary walls *)
  hitsBoundaryWall : bool -> Vector3 -> Vector3 -> bool
}.

(** ** Configuration ([config.ts]) *)

Inductive WeaponLevel : Type := W1 | W2.

Record WeaponConfig : Type := mkWeaponConfig {
  W_DAMAGE : Q; W_MAGAZINE_SIZE : Z; W_INITIAL_RESERVE_AMMO : Z;
  W_PICKUP_AMMO_AMOUNT : Z; W_COOLDOWN : Q; W_RELOAD_TIME : Q; W_SPREAD : Q
}.

Record EnemyConfig : Type := mkEnemyConfig {
  E_HP : Q; E_DAMAGE : Q; E_SPEED : Q; E_SIZE : Q; E_DROP_CHANCE : Q
}.

Record BossConfig : Type := mkBossConfig {
  B_HP : Q; B_DAMAGE : Q; B_SPEED : Q; B_SIZE : Q;
  B_WEAK_POINT_HP : option Q;
  B_ATTACK_COOLDOWN : Q; B_BULLET_SPEED : Q; B_BULLET_DAMAGE : Q
}.

Module CONFIG.
Module PLAYER.
Definition HP : Q := 100.
Definition SPEED : Q := 7.
Definition SPRINT_SPEED : Q := 12.
Definition JUMP_FORCE : Q := 8.
Definition STAMINA : Q := 100.
Definition STAMINA_COST : Q := 25.
Definition STAMINA_REGEN : Q := 35.
Definition DAMAGE_IMMUNITY : Q := 0.5.
Definition ADS_SPEED_MULTIPLIER : Q := 0.6.
End PLAYER.
Definition WEAPON (l : WeaponLevel) : WeaponConfig :=
  match l with
  | W1 => mkWeaponConfig 10 30 90 30 0.15 1.5 0.015
  | W2 => mkWeaponConfig 15 40 120 40 0.08 1.2 0.01
  end.
Module LASER_MODE.
Definition DAMAGE : Q := 25.
Definition COOLDOWN : Q := 0.1.
End LASER_MODE.
Module MELEE.
Definition DAMAGE : Q := 35.
Definition RANGE : Q := 4.5.
Definition COOLDOWN : Q := 1.2.
Definition SWING_DURATION : Q := 0.3.
End MELEE.
Module SKILL_Q.
Definition HEAL : Q := 35.
Definition COOLDOWN : Q := 20.
End SKILL_Q.
Module SKILL_Z.
Definition DURATION : Q := 5.
Definition COOLDOWN : Q := 30.
Definition DAMAGE : Q := 50.
Definition AOE_RADIUS : Q := 5.
End SKILL_Z.
Module SHIELD.
Definition DURATION : Q := 4.
Definition COOLDOWN : Q := 25.
End SHIELD.
Module DRONE.
Definition DAMAGE : Q := 4.
Definition FIRE_RATE : Q := 0.5.
Definition RANGE : Q := 40.
End DRONE.
Definition ENEMY_DRONE : EnemyConfig := mkEnemyConfig 40 10 3.5 2.1 0.5.
Definition ENEMY_SCOUT : EnemyConfig := mkEnemyConfig 25 8 5.5 1.5 0.4.
Definition ENEMY_TANK : EnemyConfig := mkEnemyConfig 90 15 2.5 2.8 0.6.
Definition ENEMY_KAMIKAZE : EnemyConfig := mkEnemyConfig 10 40 7 1.3 0.1.
(** [BOSS_BASE[level]]; [None] is the [undefined] of a missing key. *)
Definition BOSS_BASE (level : Z) : option BossConfig :=
  if (level =? 1)%Z then Some (mkBossConfig 800 20 3 7 None 3 25 15)
  else if (level =? 2)%Z then Some (mkBossConfig 1200 15 5 6 None 2 35 15)
  else if (level =? 3)%Z then Some (mkBossConfig 2000 25 4 9 None 2.5 30 20)
  else if (level =? 4)%Z then Some (mkBossConfig 3500 30 4.5 10 None 4 40 25)
  else if (level =? 5)%Z then Some (mkBossConfig 10000 40 2 30 (Some 500) 5 50 30)
  else None.
Module GAME.
Definition MAX_LEVEL : Z := 5.
Definition GRAVITY : Q := -25.
End GAME.
Module PICKUPS.
Definition HEALTH_AMOUNT : Q := 20.
Definition WEIGHT_AMMO : Q := 10.
Definition WEIGHT_HEALTH : Q := 4.
End PICKUPS.
End CONFIG.

(** ** Data model ([types.ts] and the fields of [Game]) *)

Inductive GameState : Type :=
  | start_screen | playing | wave_transition | boss_fight | game_over
  | victory | paused.

#[global] Instance GameState_eq_dec : EqDecision GameState.
Proof. solve_decision. Defined.

Inductive EnemyType : Type := Drone | Scout | Tank | Kamikaze.

#[global] Instance EnemyType_eq_dec : EqDecision EnemyType.
Proof. solve_decision. Defined.

Inductive PickupType : Type := Ammo | Health | ShieldCharge.

(** Identity of an enemy or boss object. *)
Definition Ref : Type := nat.

(** The final boss's weak point: its position (a child of the boss group),
    its own hit points, and its progress along the closed path. *)
Record WeakPoint : Type := mkWeakPoint {
  wp_position : Vector3;
  weakPointHp : Q;
  maxWeakPointHp : Q;
  weakPointProgress : Q
}.

(** The fields only a boss has.  [weak] is present exactly for the final
    boss: [createBossMesh] sets [isFinalBoss] and [weakPoint] together. *)
Record BossData : Type := mkBossData {
  boss_maxHp : Q;
  attackTimer : Q;
  weak : option WeakPoint
}.

Inductive Kind : Type :=
  | IsEnemy (type : EnemyType)
  | IsBoss (b : BossData).

(** An [Enemy] or the [BossType] object: both carry hp, damage, speed, size and a position. *)
Record Entity : Type := mkEntity {
  ent_hp : Q;  (* hp *)
  ent_damage : Q;  (* damage *)
  ent_speed : Q;  (* speed *)
  ent_size : Q;  (* size *)
  ent_position : Vector3;  (* position *)
  ent_kind : Kind  (* enemy type, or the boss-only fields *)
}.

Definition set_ent_hp (v : Q) (e : Entity) : Entity :=
  mkEntity v (ent_damage e) (ent_speed e) (ent_size e) (ent_position e) (ent_kind e).
Definition set_ent_position (v : Vector3) (e : Entity) : Entity :=
  mkEntity (ent_hp e) (ent_damage e) (ent_speed e) (ent_size e) v (ent_kind e).
Definition set_ent_kind (v : Kind) (e : Entity) : Entity :=
  mkEntity (ent_hp e) (ent_damage e) (ent_speed e) (ent_size e) (ent_position e) v.

Definition isFinalBoss (e : Entity) : bool :=
  match ent_kind e with
  | IsBoss b => match weak b with Some _ => true | None => false end
  | IsEnemy _ => false
  end.

(** [target.type === 'kamikaze']; a boss is a [THREE.Group], whose [type] is
    ['Group']. *)
Definition isKamikaze (e : Entity) : bool :=
  match ent_kind e with
  | IsEnemy Kamikaze => true
  | _ => false
  end.

Definition weakOf (e : Entity) : option WeakPoint :=
  match ent_kind e with
  | IsBoss b => weak b
  | IsEnemy _ => None
  end.

Record Bullet : Type := mkBullet {
  b_position : Vector3; b_velocity : Vector3; isLaser : bool; isExplosive : bool
}.

Record BossBullet : Type := mkBossBullet {
  bb_position : Vector3; bb_velocity : Vector3; bb_isLaser : bool
}.

Record DroneBullet : Type := mkDroneBullet {
  db_position : Vector3; db_velocity : Vector3
}.

Record Pickup : Type := mkPickup { pk_type : PickupType; pk_position : Vector3 }.

(** Entries of [this.particles].  A regular particle is visual; only its
    lifespan is kept.  The other three are the boss's area hazards, tagged in
    the source with [isShockwave], [isShockwaveRing] and [isSweepingLaser]. *)
Inductive Particle : Type :=
  | Regular (lifespan : Q)
  | Shockwave (lifespan : Q) (position : Vector3) (scaleX : Q) (damage : Q)
  | ShockwaveRing (lifespan : Q) (position : Vector3) (scaleX : Q) (damage : Q)
                  (expansionRate : Q)
  | SweepingLaser (lifespan : Q) (position : Vector3) (rotY : Q) (damage : Q)
                  (rotationSpeed : Q).

Definition isHazard (p : Particle) : bool :=
  match p with Regular _ => false | _ => true end.

Definition lifespanOf (p : Particle) : Q :=
  match p with
  | Regular l | Shockwave l _ _ _ | ShockwaveRing l _ _ _ _
  | SweepingLaser l _ _ _ _ => l
  end.

(** Bodies of the [setTimeout] callbacks the simulation schedules. *)
Inductive Callback : Type :=
  | CbStartNextWave
  | CbShowMessages (index : nat) (count : nat)
  | CbBeginBossFight
  | CbMeleeSweep (playerPos forward : Vector3)
  | CbRingShot (i : Z).

(** Observable effects.  The first four are callbacks into the host page;
    the others mark the place where the source emits a shot, rolls for loot,
    runs an enemy's or the boss's death sequence, or starts the boss
    sequence. *)
Inductive Event : Type :=
  | EvStateChange (s : GameState)
  | EvWaveUpdate (level killed total : Z)
  | EvGameOver
  | EvVictory
  | EvShot (laser : bool)
  | EvLootRoll (r : Ref) (dropped : bool)
  | EvEnemyDefeated (r : Ref)
  | EvBossDefeated (r : Ref)
  | EvBossSequence.

(** [PlayerStats] of types.ts together with the four extra fields the [Game] class adds to [this.player] (velocity, onGround, sprinting, lastShotTime). The nested skill, melee, shield and drone objects are flattened: [skills.q.cooldown] is [q_cooldown], [melee.attacking] is [melee_attacking], and so on. *)
Record Player : Type := mkPlayer {
  hp : Q;
  maxHp : Q;
  stamina : Q;
  maxStamina : Q;
  ammoInMagazine : Z;
  maxAmmoInMagazine : Z;
  reserveAmmo : Z;
  reloading : bool;
  reloadTime : Q;
  isAiming : bool;
  q_unlocked : bool;  (* skills.q.unlocked *)
  q_cooldown : Q;  (* skills.q.cooldown *)
  z_unlocked : bool;  (* skills.z.unlocked *)
  z_cooldown : Q;  (* skills.z.cooldown *)
  z_active : bool;  (* skills.z.active *)
  z_duration : Q;  (* skills.z.duration *)
  melee_attacking : bool;  (* melee.attacking *)
  melee_cooldown : Q;  (* melee.cooldown *)
  melee_swingTime : Q;  (* melee.swingTime *)
  lastHitTime : Q;
  shield_unlocked : bool;  (* shield.unlocked *)
  shield_cooldown : Q;  (* shield.cooldown *)
  shield_active : bool;  (* shield.active *)
  shield_duration : Q;  (* shield.duration *)
  drone_unlocked : bool;  (* drone.unlocked *)
  velocityY : Q;  (* velocity.y *)
  onGround : bool;
  sprinting : bool;
  lastShotTime : Q
}.

Definition set_hp (v : Q) (p : Player) : Player :=
  mkPlayer v (maxHp p) (stamina p) (maxStamina p) (ammoInMagazine p) (maxAmmoInMagazine
  p) (reserveAmmo p) (reloading p) (reloadTime p) (isAiming p) (q_unlocked p)
  (q_cooldown p) (z_unlocked p) (z_cooldown p) (z_active p) (z_duration p)
  (melee_attacking p) (melee_cooldown p) (melee_swingTime p) (lastHitTime p)
  (shield_unlocked p) (shield_cooldown p) (shield_active p) (shield_duration p)
  (drone_unlocked p) (velocityY p) (onGround p) (sprinting p) (lastShotTime p).
Definition set_maxHp (v : Q) (p : Player) : Player :=
  mkPlayer (hp p) v (stamina p) (maxStamina p) (ammoInMagazine p) (maxAmmoInMagazine p)
  (reserveAmmo p) (reloading p) (reloadTime p) (isAiming p) (q_unlocked p) (q_cooldown
  p) (z_unlocked p) (z_cooldown p) (z_active p) (z_duration p) (melee_attacking p)
  (melee_cooldown p) (melee_swingTime p) (lastHitTime p) (shield_unlocked p)
  (shield_cooldown p) (shield_active p) (shield_duration p) (drone_unlocked p)
  (velocityY p) (onGround p) (sprinting p) (lastShotTime p).
Definition set_stamina (v : Q) (p : Player) : Player :=
  mkPlayer (hp p) (maxHp p) v (maxStamina p) (ammoInMagazine p) (maxAmmoInMagazine p)
  (reserveAmmo p) (reloading p) (reloadTime p) (isAiming p) (q_unlocked p) (q_cooldown
  p) (z_unlocked p) (z_cooldown p) (z_active p) (z_duration p) (melee_attacking p)
  (melee_cooldown p) (melee_swingTime p) (lastHitTime p) (shield_unlocked p)
  (shield_cooldown p) (shield_active p) (shield_duration p) (drone_unlocked p)
  (velocityY p) (onGround p) (sprinting p) (lastShotTime p).
Definition set_maxStamina (v : Q) (p : Player) : Player :=
  mkPlayer (hp p) (maxHp p) (stamina p) v (ammoInMagazine p) (maxAmmoInMagazine p)
  (reserveAmmo p) (reloading p) (reloadTime p) (isAiming p) (q_unlocked p) (q_cooldown
  p) (z_unlocked p) (z_cooldown p) (z_active p) (z_duration p) (melee_attacking p)
  (melee_cooldown p) (melee_swingTime p) (lastHitTime p) (shield_unlocked p)
  (shield_cooldown p) (shield_active p) (shield_duration p) (drone_unlocked p)
  (velocityY p) (onGround p) (sprinting p) (lastShotTime p).
Definition set_ammoInMagazine (v : Z) (p : Player) : Player :=
  mkPlayer (hp p) (maxHp p) (stamina p) (maxStamina p) v (maxAmmoInMagazine p)
  (reserveAmmo p) (reloading p) (reloadTime p) (isAiming p) (q_unlocked p) (q_cooldown
  p) (z_unlocked p) (z_cooldown p) (z_active p) (z_duration p) (melee_attacking p)
  (melee_cooldown p) (melee_swingTime p) (lastHitTime p) (shield_unlocked p)
  (shield_cooldown p) (shield_active p) (shield_duration p) (drone_unlocked p)
  (velocityY p) (onGround p) (sprinting p) (lastShotTime p).
Definition set_maxAmmoInMagazine (v : Z) (p : Player) : Player :=
  mkPlayer (hp p) (maxHp p) (stamina p) (maxStamina p) (ammoInMagazine p) v (reserveAmmo
  p) (reloading p) (reloadTime p) (isAiming p) (q_unlocked p) (q_cooldown p) (z_unlocked
  p) (z_cooldown p) (z_active p) (z_duration p) (melee_attacking p) (melee_cooldown p)
  (melee_swingTime p) (lastHitTime p) (shield_unlocked p) (shield_cooldown p)
  (shield_active p) (shield_duration p) (drone_unlocked p) (velocityY p) (onGround p)
  (sprinting p) (lastShotTime p).
Definition set_reserveAmmo (v : Z) (p : Player) : Player :=
  mkPlayer (hp p) (maxHp p) (stamina p) (maxStamina p) (ammoInMagazine p)
  (maxAmmoInMagazine p) v (reloading p) (reloadTime p) (isAiming p) (q_unlocked p)
  (q_cooldown p) (z_unlocked p) (z_cooldown p) (z_active p) (z_duration p)
  (melee_attacking p) (melee_cooldown p) (melee_swingTime p) (lastHitTime p)
  (shield_unlocked p) (shield_cooldown p) (shield_active p) (shield_duration p)
  (drone_unlocked p) (velocityY p) (onGround p) (sprinting p) (lastShotTime p).
Definition set_reloading (v : bool) (p : Player) : Player :=
  mkPlayer (hp p) (maxHp p) (stamina p) (maxStamina p) (ammoInMagazine p)
  (maxAmmoInMagazine p) (reserveAmmo p) v (reloadTime p) (isAiming p) (q_unlocked p)
  (q_cooldown p) (z_unlocked p) (z_cooldown p) (z_active p) (z_duration p)
  (melee_attacking p) (melee_cooldown p) (melee_swingTime p) (lastHitTime p)
  (shield_unlocked p) (shield_cooldown p) (shield_active p) (shield_duration p)
  (drone_unlocked p) (velocityY p) (onGround p) (sprinting p) (lastShotTime p).
Definition set_reloadTime (v : Q) (p : Player) : Player :=
  mkPlayer (hp p) (maxHp p) (stamina p) (maxStamina p) (ammoInMagazine p)
  (maxAmmoInMagazine p) (reserveAmmo p) (reloading p) v (isAiming p) (q_unlocked p)
  (q_cooldown p) (z_unlocked p) (z_cooldown p) (z_active p) (z_duration p)
  (melee_attacking p) (melee_cooldown p) (melee_swingTime p) (lastHitTime p)
  (shield_unlocked p) (shield_cooldown p) (shield_active p) (shield_duration p)
  (drone_unlocked p) (velocityY p) (onGround p) (sprinting p) (lastShotTime p).
Definition set_isAiming (v : bool) (p : Player) : Player :=
  mkPlayer (hp p) (maxHp p) (stamina p) (maxStamina p) (ammoInMagazine p)
  (maxAmmoInMagazine p) (reserveAmmo p) (reloading p) (reloadTime p) v (q_unlocked p)
  (q_cooldown p) (z_unlocked p) (z_cooldown p) (z_active p) (z_duration p)
  (melee_attacking p) (melee_cooldown p) (melee_swingTime p) (lastHitTime p)
  (shield_unlocked p) (shield_cooldown p) (shield_active p) (shield_duration p)
  (drone_unlocked p) (velocityY p) (onGround p) (sprinting p) (lastShotTime p).
Definition set_q_unlocked (v : bool) (p : Player) : Player :=
  mkPlayer (hp p) (maxHp p) (stamina p) (maxStamina p) (ammoInMagazine p)
  (maxAmmoInMagazine p) (reserveAmmo p) (reloading p) (reloadTime p) (isAiming p) v
  (q_cooldown p) (z_unlocked p) (z_cooldown p) (z_active p) (z_duration p)
  (melee_attacking p) (melee_cooldown p) (melee_swingTime p) (lastHitTime p)
  (shield_unlocked p) (shield_cooldown p) (shield_active p) (shield_duration p)
  (drone_unlocked p) (velocityY p) (onGround p) (sprinting p) (lastShotTime p).
Definition set_q_cooldown (v : Q) (p : Player) : Player :=
  mkPlayer (hp p) (maxHp p) (stamina p) (maxStamina p) (ammoInMagazine p)
  (maxAmmoInMagazine p) (reserveAmmo p) (reloading p) (reloadTime p) (isAiming p)
  (q_unlocked p) v (z_unlocked p) (z_cooldown p) (z_active p) (z_duration p)
  (melee_attacking p) (melee_cooldown p) (melee_swingTime p) (lastHitTime p)
  (shield_unlocked p) (shield_cooldown p) (shield_active p) (shield_duration p)
  (drone_unlocked p) (velocityY p) (onGround p) (sprinting p) (lastShotTime p).
Definition set_z_unlocked (v : bool) (p : Player) : Player :=
  mkPlayer (hp p) (maxHp p) (stamina p) (maxStamina p) (ammoInMagazine p)
  (maxAmmoInMagazine p) (reserveAmmo p) (reloading p) (reloadTime p) (isAiming p)
  (q_unlocked p) (q_cooldown p) v (z_cooldown p) (z_active p) (z_duration p)
  (melee_attacking p) (melee_cooldown p) (melee_swingTime p) (lastHitTime p)
  (shield_unlocked p) (shield_cooldown p) (shield_active p) (shield_duration p)
  (drone_unlocked p) (velocityY p) (onGround p) (sprinting p) (lastShotTime p).
Definition set_z_cooldown (v : Q) (p : Player) : Player :=
  mkPlayer (hp p) (maxHp p) (stamina p) (maxStamina p) (ammoInMagazine p)
  (maxAmmoInMagazine p) (reserveAmmo p) (reloading p) (reloadTime p) (isAiming p)
  (q_unlocked p) (q_cooldown p) (z_unlocked p) v (z_active p) (z_duration p)
  (melee_attacking p) (melee_cooldown p) (melee_swingTime p) (lastHitTime p)
  (shield_unlocked p) (shield_cooldown p) (shield_active p) (shield_duration p)
  (drone_unlocked p) (velocityY p) (onGround p) (sprinting p) (lastShotTime p).
Definition set_z_active (v : bool) (p : Player) : Player :=
  mkPlayer (hp p) (maxHp p) (stamina p) (maxStamina p) (ammoInMagazine p)
  (maxAmmoInMagazine p) (reserveAmmo p) (reloading p) (reloadTime p) (isAiming p)
  (q_unlocked p) (q_cooldown p) (z_unlocked p) (z_cooldown p) v (z_duration p)
  (melee_attacking p) (melee_cooldown p) (melee_swingTime p) (lastHitTime p)
  (shield_unlocked p) (shield_cooldown p) (shield_active p) (shield_duration p)
  (drone_unlocked p) (velocityY p) (onGround p) (sprinting p) (lastShotTime p).
Definition set_z_duration (v : Q) (p : Player) : Player :=
  mkPlayer (hp p) (maxHp p) (stamina p) (maxStamina p) (ammoInMagazine p)
  (maxAmmoInMagazine p) (reserveAmmo p) (reloading p) (reloadTime p) (isAiming p)
  (q_unlocked p) (q_cooldown p) (z_unlocked p) (z_cooldown p) (z_active p) v
  (melee_attacking p) (melee_cooldown p) (melee_swingTime p) (lastHitTime p)
  (shield_unlocked p) (shield_cooldown p) (shield_active p) (shield_duration p)
  (drone_unlocked p) (velocityY p) (onGround p) (sprinting p) (lastShotTime p).
Definition set_melee_attacking (v : bool) (p : Player) : Player :=
  mkPlayer (hp p) (maxHp p) (stamina p) (maxStamina p) (ammoInMagazine p)
  (maxAmmoInMagazine p) (reserveAmmo p) (reloading p) (reloadTime p) (isAiming p)
  (q_unlocked p) (q_cooldown p) (z_unlocked p) (z_cooldown p) (z_active p) (z_duration
  p) v (melee_cooldown p) (melee_swingTime p) (lastHitTime p) (shield_unlocked p)
  (shield_cooldown p) (shield_active p) (shield_duration p) (drone_unlocked p)
  (velocityY p) (onGround p) (sprinting p) (lastShotTime p).
Definition set_melee_cooldown (v : Q) (p : Player) : Player :=
  mkPlayer (hp p) (maxHp p) (stamina p) (maxStamina p) (ammoInMagazine p)
  (maxAmmoInMagazine p) (reserveAmmo p) (reloading p) (reloadTime p) (isAiming p)
  (q_unlocked p) (q_cooldown p) (z_unlocked p) (z_cooldown p) (z_active p) (z_duration
  p) (melee_attacking p) v (melee_swingTime p) (lastHitTime p) (shield_unlocked p)
  (shield_cooldown p) (shield_active p) (shield_duration p) (drone_unlocked p)
  (velocityY p) (onGround p) (sprinting p) (lastShotTime p).
Definition set_melee_swingTime (v : Q) (p : Player) : Player :=
  mkPlayer (hp p) (maxHp p) (stamina p) (maxStamina p) (ammoInMagazine p)
  (maxAmmoInMagazine p) (reserveAmmo p) (reloading p) (reloadTime p) (isAiming p)
  (q_unlocked p) (q_cooldown p) (z_unlocked p) (z_cooldown p) (z_active p) (z_duration
  p) (melee_attacking p) (melee_cooldown p) v (lastHitTime p) (shield_unlocked p)
  (shield_cooldown p) (shield_active p) (shield_duration p) (drone_unlocked p)
  (velocityY p) (onGround p) (sprinting p) (lastShotTime p).
Definition set_lastHitTime (v : Q) (p : Player) : Player :=
  mkPlayer (hp p) (maxHp p) (stamina p) (maxStamina p) (ammoInMagazine p)
  (maxAmmoInMagazine p) (reserveAmmo p) (reloading p) (reloadTime p) (isAiming p)
  (q_unlocked p) (q_cooldown p) (z_unlocked p) (z_cooldown p) (z_active p) (z_duration
  p) (melee_attacking p) (melee_cooldown p) (melee_swingTime p) v (shield_unlocked p)
  (shield_cooldown p) (shield_active p) (shield_duration p) (drone_unlocked p)
  (velocityY p) (onGround p) (sprinting p) (lastShotTime p).
Definition set_shield_unlocked (v : bool) (p : Player) : Player :=
  mkPlayer (hp p) (maxHp p) (stamina p) (maxStamina p) (ammoInMagazine p)
  (maxAmmoInMagazine p) (reserveAmmo p) (reloading p) (reloadTime p) (isAiming p)
  (q_unlocked p) (q_cooldown p) (z_unlocked p) (z_cooldown p) (z_active p) (z_duration
  p) (melee_attacking p) (melee_cooldown p) (melee_swingTime p) (lastHitTime p) v
  (shield_cooldown p) (shield_active p) (shield_duration p) (drone_unlocked p)
  (velocityY p) (onGround p) (sprinting p) (lastShotTime p).
Definition set_shield_cooldown (v : Q) (p : Player) : Player :=
  mkPlayer (hp p) (maxHp p) (stamina p) (maxStamina p) (ammoInMagazine p)
  (maxAmmoInMagazine p) (reserveAmmo p) (reloading p) (reloadTime p) (isAiming p)
  (q_unlocked p) (q_cooldown p) (z_unlocked p) (z_cooldown p) (z_active p) (z_duration
  p) (melee_attacking p) (melee_cooldown p) (melee_swingTime p) (lastHitTime p)
  (shield_unlocked p) v (shield_active p) (shield_duration p) (drone_unlocked p)
  (velocityY p) (onGround p) (sprinting p) (lastShotTime p).
Definition set_shield_active (v : bool) (p : Player) : Player :=
  mkPlayer (hp p) (maxHp p) (stamina p) (maxStamina p) (ammoInMagazine p)
  (maxAmmoInMagazine p) (reserveAmmo p) (reloading p) (reloadTime p) (isAiming p)
  (q_unlocked p) (q_cooldown p) (z_unlocked p) (z_cooldown p) (z_active p) (z_duration
  p) (melee_attacking p) (melee_cooldown p) (melee_swingTime p) (lastHitTime p)
  (shield_unlocked p) (shield_cooldown p) v (shield_duration p) (drone_unlocked p)
  (velocityY p) (onGround p) (sprinting p) (lastShotTime p).
Definition set_shield_duration (v : Q) (p : Player) : Player :=
  mkPlayer (hp p) (maxHp p) (stamina p) (maxStamina p) (ammoInMagazine p)
  (maxAmmoInMagazine p) (reserveAmmo p) (reloading p) (reloadTime p) (isAiming p)
  (q_unlocked p) (q_cooldown p) (z_unlocked p) (z_cooldown p) (z_active p) (z_duration
  p) (melee_attacking p) (melee_cooldown p) (melee_swingTime p) (lastHitTime p)
  (shield_unlocked p) (shield_cooldown p) (shield_active p) v (drone_unlocked p)
  (velocityY p) (onGround p) (sprinting p) (lastShotTime p).
Definition set_drone_unlocked (v : bool) (p : Player) : Player :=
  mkPlayer (hp p) (maxHp p) (stamina p) (maxStamina p) (ammoInMagazine p)
  (maxAmmoInMagazine p) (reserveAmmo p) (reloading p) (reloadTime p) (isAiming p)
  (q_unlocked p) (q_cooldown p) (z_unlocked p) (z_cooldown p) (z_active p) (z_duration
  p) (melee_attacking p) (melee_cooldown p) (melee_swingTime p) (lastHitTime p)
  (shield_unlocked p) (shield_cooldown p) (shield_active p) (shield_duration p) v
  (velocityY p) (onGround p) (sprinting p) (lastShotTime p).
Definition set_velocityY (v : Q) (p : Player) : Player :=
  mkPlayer (hp p) (maxHp p) (stamina p) (maxStamina p) (ammoInMagazine p)
  (maxAmmoInMagazine p) (reserveAmmo p) (reloading p) (reloadTime p) (isAiming p)
  (q_unlocked p) (q_cooldown p) (z_unlocked p) (z_cooldown p) (z_active p) (z_duration
  p) (melee_attacking p) (melee_cooldown p) (melee_swingTime p) (lastHitTime p)
  (shield_unlocked p) (shield_cooldown p) (shield_active p) (shield_duration p)
  (drone_unlocked p) v (onGround p) (sprinting p) (lastShotTime p).
Definition set_onGround (v : bool) (p : Player) : Player :=
  mkPlayer (hp p) (maxHp p) (stamina p) (maxStamina p) (ammoInMagazine p)
  (maxAmmoInMagazine p) (reserveAmmo p) (reloading p) (reloadTime p) (isAiming p)
  (q_unlocked p) (q_cooldown p) (z_unlocked p) (z_cooldown p) (z_active p) (z_duration
  p) (melee_attacking p) (melee_cooldown p) (melee_swingTime p) (lastHitTime p)
  (shield_unlocked p) (shield_cooldown p) (shield_active p) (shield_duration p)
  (drone_unlocked p) (velocityY p) v (sprinting p) (lastShotTime p).
Definition set_sprinting (v : bool) (p : Player) : Player :=
  mkPlayer (hp p) (maxHp p) (stamina p) (maxStamina p) (ammoInMagazine p)
  (maxAmmoInMagazine p) (reserveAmmo p) (reloading p) (reloadTime p) (isAiming p)
  (q_unlocked p) (q_cooldown p) (z_unlocked p) (z_cooldown p) (z_active p) (z_duration
  p) (melee_attacking p) (melee_cooldown p) (melee_swingTime p) (lastHitTime p)
  (shield_unlocked p) (shield_cooldown p) (shield_active p) (shield_duration p)
  (drone_unlocked p) (velocityY p) (onGround p) v (lastShotTime p).
Definition set_lastShotTime (v : Q) (p : Player) : Player :=
  mkPlayer (hp p) (maxHp p) (stamina p) (maxStamina p) (ammoInMagazine p)
  (maxAmmoInMagazine p) (reserveAmmo p) (reloading p) (reloadTime p) (isAiming p)
  (q_unlocked p) (q_cooldown p) (z_unlocked p) (z_cooldown p) (z_active p) (z_duration
  p) (melee_attacking p) (melee_cooldown p) (melee_swingTime p) (lastHitTime p)
  (shield_unlocked p) (shield_cooldown p) (shield_active p) (shield_duration p)
  (drone_unlocked p) (velocityY p) (onGround p) (sprinting p) v.

(** [this.wave]. *)
Record Wave : Type := mkWave {
  totalToKill : Z;
  killedInWave : Z;
  spawnedInWave : Z;
  spawnInterval : Q;
  spawnTimer : Q;
  maxConcurrent : Z
}.

Definition set_totalToKill (v : Z) (w : Wave) : Wave :=
  mkWave v (killedInWave w) (spawnedInWave w) (spawnInterval w) (spawnTimer w)
  (maxConcurrent w).
Definition set_killedInWave (v : Z) (w : Wave) : Wave :=
  mkWave (totalToKill w) v (spawnedInWave w) (spawnInterval w) (spawnTimer w)
  (maxConcurrent w).
Definition set_spawnedInWave (v : Z) (w : Wave) : Wave :=
  mkWave (totalToKill w) (killedInWave w) v (spawnInterval w) (spawnTimer w)
  (maxConcurrent w).
Definition set_spawnInterval (v : Q) (w : Wave) : Wave :=
  mkWave (totalToKill w) (killedInWave w) (spawnedInWave w) v (spawnTimer w)
  (maxConcurrent w).
Definition set_spawnTimer (v : Q) (w : Wave) : Wave :=
  mkWave (totalToKill w) (killedInWave w) (spawnedInWave w) (spawnInterval w) v
  (maxConcurrent w).
Definition set_maxConcurrent (v : Z) (w : Wave) : Wave :=
  mkWave (totalToKill w) (killedInWave w) (spawnedInWave w) (spawnInterval w)
  (spawnTimer w) v.

(** The simulation fields of the [Game] class. *)
Record Game : Type := mkGame {
  gameState : GameState;
  previousGameState : option GameState;
  isNewGamePlus : bool;
  currentLevel : Z;
  weaponLevel : WeaponLevel;
  player : Player;
  wave : Wave;
  boss : option Ref;  (* this.boss: the active boss object, or null *)
  enemies : list Ref;  (* this.enemies: the registry of live enemy objects *)
  heap : gmap Ref Entity;  (* the enemy and boss objects themselves *)
  nextRef : Ref;  (* next fresh object identity *)
  keys : gmap string bool;
  bullets : list Bullet;
  bossBullets : list BossBullet;
  droneBullets : list DroneBullet;
  pickups : list Pickup;
  particles : list Particle;
  drone : option Vector3;  (* position of the drone group, once spawned *)
  droneTarget : option Ref;
  lastDroneShotTime : Q;
  playerPosition : Vector3;  (* playerObject.position *)
  rotationY : Q;  (* playerObject.rotation.y *)
  cameraRotationX : Q;  (* camera.rotation.x *)
  elapsedTime : Q;  (* clock.getElapsedTime() *)
  rngPos : nat;  (* number of Math.random() draws made so far *)
  timers : list (Q * Callback);  (* pending setTimeout callbacks with their delay in ms *)
  trace : list Event  (* observable effects, newest first *)
}.

Definition set_gameState (v : GameState) (g : Game) : Game :=
  mkGame v (previousGameState g) (isNewGamePlus g) (currentLevel g) (weaponLevel g)
  (player g) (wave g) (boss g) (enemies g) (heap g) (nextRef g) (keys g) (bullets g)
  (bossBullets g) (droneBullets g) (pickups g) (particles g) (drone g) (droneTarget g)
  (lastDroneShotTime g) (playerPosition g) (rotationY g) (cameraRotationX g)
  (elapsedTime g) (rngPos g) (timers g) (trace g).
Definition set_previousGameState (v : option GameState) (g : Game) : Game :=
  mkGame (gameState g) v (isNewGamePlus g) (currentLevel g) (weaponLevel g) (player g)
  (wave g) (boss g) (enemies g) (heap g) (nextRef g) (keys g) (bullets g) (bossBullets
  g) (droneBullets g) (pickups g) (particles g) (drone g) (droneTarget g)
  (lastDroneShotTime g) (playerPosition g) (rotationY g) (cameraRotationX g)
  (elapsedTime g) (rngPos g) (timers g) (trace g).
Definition set_isNewGamePlus (v : bool) (g : Game) : Game :=
  mkGame (gameState g) (previousGameState g) v (currentLevel g) (weaponLevel g) (player
  g) (wave g) (boss g) (enemies g) (heap g) (nextRef g) (keys g) (bullets g)
  (bossBullets g) (droneBullets g) (pickups g) (particles g) (drone g) (droneTarget g)
  (lastDroneShotTime g) (playerPosition g) (rotationY g) (cameraRotationX g)
  (elapsedTime g) (rngPos g) (timers g) (trace g).
Definition set_currentLevel (v : Z) (g : Game) : Game :=
  mkGame (gameState g) (previousGameState g) (isNewGamePlus g) v (weaponLevel g) (player
  g) (wave g) (boss g) (enemies g) (heap g) (nextRef g) (keys g) (bullets g)
  (bossBullets g) (droneBullets g) (pickups g) (particles g) (drone g) (droneTarget g)
  (lastDroneShotTime g) (playerPosition g) (rotationY g) (cameraRotationX g)
  (elapsedTime g) (rngPos g) (timers g) (trace g).
Definition set_weaponLevel (v : WeaponLevel) (g : Game) : Game :=
  mkGame (gameState g) (previousGameState g) (isNewGamePlus g) (currentLevel g) v
  (player g) (wave g) (boss g) (enemies g) (heap g) (nextRef g) (keys g) (bullets g)
  (bossBullets g) (droneBullets g) (pickups g) (particles g) (drone g) (droneTarget g)
  (lastDroneShotTime g) (playerPosition g) (rotationY g) (cameraRotationX g)
  (elapsedTime g) (rngPos g) (timers g) (trace g).
Definition set_player (v : Player) (g : Game) : Game :=
  mkGame (gameState g) (previousGameState g) (isNewGamePlus g) (currentLevel g)
  (weaponLevel g) v (wave g) (boss g) (enemies g) (heap g) (nextRef g) (keys g) (bullets
  g) (bossBullets g) (droneBullets g) (pickups g) (particles g) (drone g) (droneTarget
  g) (lastDroneShotTime g) (playerPosition g) (rotationY g) (cameraRotationX g)
  (elapsedTime g) (rngPos g) (timers g) (trace g).
Definition set_wave (v : Wave) (g : Game) : Game :=
  mkGame (gameState g) (previousGameState g) (isNewGamePlus g) (currentLevel g)
  (weaponLevel g) (player g) v (boss g) (enemies g) (heap g) (nextRef g) (keys g)
  (bullets g) (bossBullets g) (droneBullets g) (pickups g) (particles g) (drone g)
  (droneTarget g) (lastDroneShotTime g) (playerPosition g) (rotationY g)
  (cameraRotationX g) (elapsedTime g) (rngPos g) (timers g) (trace g).
Definition set_boss (v : option Ref) (g : Game) : Game :=
  mkGame (gameState g) (previousGameState g) (isNewGamePlus g) (currentLevel g)
  (weaponLevel g) (player g) (wave g) v (enemies g) (heap g) (nextRef g) (keys g)
  (bullets g) (bossBullets g) (droneBullets g) (pickups g) (particles g) (drone g)
  (droneTarget g) (lastDroneShotTime g) (playerPosition g) (rotationY g)
  (cameraRotationX g) (elapsedTime g) (rngPos g) (timers g) (trace g).
Definition set_enemies (v : list Ref) (g : Game) : Game :=
  mkGame (gameState g) (previousGameState g) (isNewGamePlus g) (currentLevel g)
  (weaponLevel g) (player g) (wave g) (boss g) v (heap g) (nextRef g) (keys g) (bullets
  g) (bossBullets g) (droneBullets g) (pickups g) (particles g) (drone g) (droneTarget
  g) (lastDroneShotTime g) (playerPosition g) (rotationY g) (cameraRotationX g)
  (elapsedTime g) (rngPos g) (timers g) (trace g).
Definition set_heap (v : gmap Ref Entity) (g : Game) : Game :=
  mkGame (gameState g) (previousGameState g) (isNewGamePlus g) (currentLevel g)
  (weaponLevel g) (player g) (wave g) (boss g) (enemies g) v (nextRef g) (keys g)
  (bullets g) (bossBullets g) (droneBullets g) (pickups g) (particles g) (drone g)
  (droneTarget g) (lastDroneShotTime g) (playerPosition g) (rotationY g)
  (cameraRotationX g) (elapsedTime g) (rngPos g) (timers g) (trace g).
Definition set_nextRef (v : Ref) (g : Game) : Game :=
  mkGame (gameState g) (previousGameState g) (isNewGamePlus g) (currentLevel g)
  (weaponLevel g) (player g) (wave g) (boss g) (enemies g) (heap g) v (keys g) (bullets
  g) (bossBullets g) (droneBullets g) (pickups g) (particles g) (drone g) (droneTarget
  g) (lastDroneShotTime g) (playerPosition g) (rotationY g) (cameraRotationX g)
  (elapsedTime g) (rngPos g) (timers g) (trace g).
Definition set_keys (v : gmap string bool) (g : Game) : Game :=
  mkGame (gameState g) (previousGameState g) (isNewGamePlus g) (currentLevel g)
  (weaponLevel g) (player g) (wave g) (boss g) (enemies g) (heap g) (nextRef g) v
  (bullets g) (bossBullets g) (droneBullets g) (pickups g) (particles g) (drone g)
  (droneTarget g) (lastDroneShotTime g) (playerPosition g) (rotationY g)
  (cameraRotationX g) (elapsedTime g) (rngPos g) (timers g) (trace g).
Definition set_bullets (v : list Bullet) (g : Game) : Game :=
  mkGame (gameState g) (previousGameState g) (isNewGamePlus g) (currentLevel g)
  (weaponLevel g) (player g) (wave g) (boss g) (enemies g) (heap g) (nextRef g) (keys g)
  v (bossBullets g) (droneBullets g) (pickups g) (particles g) (drone g) (droneTarget g)
  (lastDroneShotTime g) (playerPosition g) (rotationY g) (cameraRotationX g)
  (elapsedTime g) (rngPos g) (timers g) (trace g).
Definition set_bossBullets (v : list BossBullet) (g : Game) : Game :=
  mkGame (gameState g) (previousGameState g) (isNewGamePlus g) (currentLevel g)
  (weaponLevel g) (player g) (wave g) (boss g) (enemies g) (heap g) (nextRef g) (keys g)
  (bullets g) v (droneBullets g) (pickups g) (particles g) (drone g) (droneTarget g)
  (lastDroneShotTime g) (playerPosition g) (rotationY g) (cameraRotationX g)
  (elapsedTime g) (rngPos g) (timers g) (trace g).
Definition set_droneBullets (v : list DroneBullet) (g : Game) : Game :=
  mkGame (gameState g) (previousGameState g) (isNewGamePlus g) (currentLevel g)
  (weaponLevel g) (player g) (wave g) (boss g) (enemies g) (heap g) (nextRef g) (keys g)
  (bullets g) (bossBullets g) v (pickups g) (particles g) (drone g) (droneTarget g)
  (lastDroneShotTime g) (playerPosition g) (rotationY g) (cameraRotationX g)
  (elapsedTime g) (rngPos g) (timers g) (trace g).
Definition set_pickups (v : list Pickup) (g : Game) : Game :=
  mkGame (gameState g) (previousGameState g) (isNewGamePlus g) (currentLevel g)
  (weaponLevel g) (player g) (wave g) (boss g) (enemies g) (heap g) (nextRef g) (keys g)
  (bullets g) (bossBullets g) (droneBullets g) v (particles g) (drone g) (droneTarget g)
  (lastDroneShotTime g) (playerPosition g) (rotationY g) (cameraRotationX g)
  (elapsedTime g) (rngPos g) (timers g) (trace g).
Definition set_particles (v : list Particle) (g : Game) : Game :=
  mkGame (gameState g) (previousGameState g) (isNewGamePlus g) (currentLevel g)
  (weaponLevel g) (player g) (wave g) (boss g) (enemies g) (heap g) (nextRef g) (keys g)
  (bullets g) (bossBullets g) (droneBullets g) (pickups g) v (drone g) (droneTarget g)
  (lastDroneShotTime g) (playerPosition g) (rotationY g) (cameraRotationX g)
  (elapsedTime g) (rngPos g) (timers g) (trace g).
Definition set_drone (v : option Vector3) (g : Game) : Game :=
  mkGame (gameState g) (previousGameState g) (isNewGamePlus g) (currentLevel g)
  (weaponLevel g) (player g) (wave g) (boss g) (enemies g) (heap g) (nextRef g) (keys g)
  (bullets g) (bossBullets g) (droneBullets g) (pickups g) (particles g) v (droneTarget
  g) (lastDroneShotTime g) (playerPosition g) (rotationY g) (cameraRotationX g)
  (elapsedTime g) (rngPos g) (timers g) (trace g).
Definition set_droneTarget (v : option Ref) (g : Game) : Game :=
  mkGame (gameState g) (previousGameState g) (isNewGamePlus g) (currentLevel g)
  (weaponLevel g) (player g) (wave g) (boss g) (enemies g) (heap g) (nextRef g) (keys g)
  (bullets g) (bossBullets g) (droneBullets g) (pickups g) (particles g) (drone g) v
  (lastDroneShotTime g) (playerPosition g) (rotationY g) (cameraRotationX g)
  (elapsedTime g) (rngPos g) (timers g) (trace g).
Definition set_lastDroneShotTime (v : Q) (g : Game) : Game :=
  mkGame (gameState g) (previousGameState g) (isNewGamePlus g) (currentLevel g)
  (weaponLevel g) (player g) (wave g) (boss g) (enemies g) (heap g) (nextRef g) (keys g)
  (bullets g) (bossBullets g) (droneBullets g) (pickups g) (particles g) (drone g)
  (droneTarget g) v (playerPosition g) (rotationY g) (cameraRotationX g) (elapsedTime g)
  (rngPos g) (timers g) (trace g).
Definition set_playerPosition (v : Vector3) (g : Game) : Game :=
  mkGame (gameState g) (previousGameState g) (isNewGamePlus g) (currentLevel g)
  (weaponLevel g) (player g) (wave g) (boss g) (enemies g) (heap g) (nextRef g) (keys g)
  (bullets g) (bossBullets g) (droneBullets g) (pickups g) (particles g) (drone g)
  (droneTarget g) (lastDroneShotTime g) v (rotationY g) (cameraRotationX g) (elapsedTime
  g) (rngPos g) (timers g) (trace g).
Definition set_rotationY (v : Q) (g : Game) : Game :=
  mkGame (gameState g) (previousGameState g) (isNewGamePlus g) (currentLevel g)
  (weaponLevel g) (player g) (wave g) (boss g) (enemies g) (heap g) (nextRef g) (keys g)
  (bullets g) (bossBullets g) (droneBullets g) (pickups g) (particles g) (drone g)
  (droneTarget g) (lastDroneShotTime g) (playerPosition g) v (cameraRotationX g)
  (elapsedTime g) (rngPos g) (timers g) (trace g).
Definition set_cameraRotationX (v : Q) (g : Game) : Game :=
  mkGame (gameState g) (previousGameState g) (isNewGamePlus g) (currentLevel g)
  (weaponLevel g) (player g) (wave g) (boss g) (enemies g) (heap g) (nextRef g) (keys g)
  (bullets g) (bossBullets g) (droneBullets g) (pickups g) (particles g) (drone g)
  (droneTarget g) (lastDroneShotTime g) (playerPosition g) (rotationY g) v (elapsedTime
  g) (rngPos g) (timers g) (trace g).
Definition set_elapsedTime (v : Q) (g : Game) : Game :=
  mkGame (gameState g) (previousGameState g) (isNewGamePlus g) (currentLevel g)
  (weaponLevel g) (player g) (wave g) (boss g) (enemies g) (heap g) (nextRef g) (keys g)
  (bullets g) (bossBullets g) (droneBullets g) (pickups g) (particles g) (drone g)
  (droneTarget g) (lastDroneShotTime g) (playerPosition g) (rotationY g)
  (cameraRotationX g) v (rngPos g) (timers g) (trace g).
Definition set_rngPos (v : nat) (g : Game) : Game :=
  mkGame (gameState g) (previousGameState g) (isNewGamePlus g) (currentLevel g)
  (weaponLevel g) (player g) (wave g) (boss g) (enemies g) (heap g) (nextRef g) (keys g)
  (bullets g) (bossBullets g) (droneBullets g) (pickups g) (particles g) (drone g)
  (droneTarget g) (lastDroneShotTime g) (playerPosition g) (rotationY g)
  (cameraRotationX g) (elapsedTime g) v (timers g) (trace g).
Definition set_timers (v : list (Q * Callback)) (g : Game) : Game :=
  mkGame (gameState g) (previousGameState g) (isNewGamePlus g) (currentLevel g)
  (weaponLevel g) (player g) (wave g) (boss g) (enemies g) (heap g) (nextRef g) (keys g)
  (bullets g) (bossBullets g) (droneBullets g) (pickups g) (particles g) (drone g)
  (droneTarget g) (lastDroneShotTime g) (playerPosition g) (rotationY g)
  (cameraRotationX g) (elapsedTime g) (rngPos g) v (trace g).
Definition set_trace (v : list Event) (g : Game) : Game :=
  mkGame (gameState g) (previousGameState g) (isNewGamePlus g) (currentLevel g)
  (weaponLevel g) (player g) (wave g) (boss g) (enemies g) (heap g) (nextRef g) (keys g)
  (bullets g) (bossBullets g) (droneBullets g) (pickups g) (particles g) (drone g)
  (droneTarget g) (lastDroneShotTime g) (playerPosition g) (rotationY g)
  (cameraRotationX g) (elapsedTime g) (rngPos g) (timers g) v.

Section Model.
Context `{Host}.

(** ** Small helpers for the mutable fields *)

(** [this.keys[k]]: a key that was never pressed reads as [undefined]. *)
Definition key (k : string) (g : Game) : bool := default false (keys g !! k).
Definition setKey (k : string) (v : bool) (g : Game) : Game :=
  set_keys (<[k := v]> (keys g)) g.

Definition emit (ev : Event) (g : Game) : Game := set_trace (ev :: trace g) g.
Definition setTimeout (cb : Callback) (ms : Q) (g : Game) : Game :=
  set_timers (timers g ++ [(ms, cb)]) g.

Definition upd_player (f : Player -> Player) (g : Game) : Game :=
  set_player (f (player g)) g.
Definition upd_wave (f : Wave -> Wave) (g : Game) : Game :=
  set_wave (f (wave g)) g.

(** Reading and writing a field of a shared object. *)
Definition store (r : Ref) (e : Entity) (g : Game) : Game :=
  set_heap (<[r := e]> (heap g)) g.
Definition setHp (r : Ref) (v : Q) (g : Game) : Game :=
  match heap g !! r with
  | Some e => store r (set_ent_hp v e) g
  | None => g
  end.
Definition alloc (e : Entity) (g : Game) : Ref * Game :=
  (nextRef g, set_nextRef (S (nextRef g)) (store (nextRef g) e g)).

(** [Math.random()]. *)
Definition random (g : Game) : Q * Game :=
  (mathRandom (rngPos g), set_rngPos (S (rngPos g)) g).

(** [for (let i = n - 1; i >= 0; i--) body(i)], the bound being read once. *)
Fixpoint forDown (n : nat) (body : nat -> Game -> Game) (g : Game) : Game :=
  match n with
  | O => g
  | S i => forDown i body (body i g)
  end.

(** [l.indexOf(r)] when [l.includes(r)]. *)
Definition indexOf (r : Ref) (l : list Ref) : option nat :=
  fst <$> list_find (λ x, x = r) l.

(** The scan [for (j = enemies.length - 1; j >= 0; j--) { e = enemies[j];
    if (e && test(e)) { ...; break; } }]: the enemy it stops at. *)
Definition findEnemyHit (test : Entity -> bool) (g : Game) : option (Ref * Entity) :=
  List.find (λ re, test (snd re))
    (omap (λ r, (λ e, (r, e)) <$> heap g !! r) (reverse (enemies g))).

Definition changeGameState (newState : GameState) (g : Game) : Game :=
  emit (EvStateChange newState) (set_gameState newState g).

(** ** Visual particles *)

(** [n] regular particles; each consumes [draws] random numbers, the last of
    which fixes its lifespan. *)
Fixpoint visualParticles (n draws : nat) (life : Q -> Q) (k : nat) : list Particle :=
  match n with
  | O => []
  | S n' => Regular (life (mathRandom (k + draws - 1)))
              :: visualParticles n' draws life (k + draws)
  end.

Definition createExplosion (position : Vector3) (count : nat) (g : Game) : Game :=
  set_rngPos (rngPos g + 4 * count)
    (set_particles
       (particles g ++ Regular 0.15
          :: visualParticles count 4 (λ r, r * 0.8 + 0.4) (rngPos g)) g).

Definition createHealEffect (g : Game) : Game :=
  set_rngPos (rngPos g + 5 * 30)
    (set_particles
       (particles g ++ visualParticles 30 5 (λ r, r * 0.8 + 0.5) (rngPos g)) g).

Definition createMeleeSwingEffect (g : Game) : Game :=
  set_rngPos (rngPos g + 3 * 25)
    (set_particles
       (particles g ++ visualParticles 25 3 (λ r, r * 0.15 + 0.1) (rngPos g)) g).

(** ** Damage to the player *)

Definition playerTakeDamage (amount : Q) (g : Game) : Game :=
  if decide (gameState g = game_over) then g
  else if shield_active (player g) then g
  else
    let g := upd_player (λ p, set_hp (hp p - amount) p) g in
    if Qleb (hp (player g)) 0 then
      emit EvGameOver (changeGameState game_over (upd_player (set_hp 0) g))
    else g.

(** ** Enemy and boss death *)

Definition dropConfig (t : EnemyType) : EnemyConfig :=
  match t with
  | Drone => CONFIG.ENEMY_DRONE
  | Scout => CONFIG.ENEMY_SCOUT
  | Tank => CONFIG.ENEMY_TANK
  | Kamikaze => CONFIG.ENEMY_KAMIKAZE
  end.

Definition _spawnPickup (position : Vector3) (g : Game) : Game :=
  let totalWeight := CONFIG.PICKUPS.WEIGHT_AMMO + CONFIG.PICKUPS.WEIGHT_HEALTH in
  let '(r, g) := random g in
  let rand := r * totalWeight in
  let type := if Qltb rand CONFIG.PICKUPS.WEIGHT_AMMO then Ammo else Health in
  set_pickups (pickups g ++ [mkPickup type (set_vy 0.5 position)]) g.

(** The synchronous part of [triggerBossSequence]; the boss itself arrives
    in the callback scheduled once the intro text is available. *)
Definition triggerBossSequence (g : Game) : Game :=
  setTimeout CbBeginBossFight 3000
    (emit EvBossSequence (changeGameState wave_transition g)).

Definition onEnemyDefeated (enemy : Ref) (index : nat) (g : Game) : Game :=
  match heap g !! enemy with
  | Some (mkEntity _ _ _ _ position (IsEnemy type)) =>
      let g := emit (EvEnemyDefeated enemy) g in
      let g := createExplosion position 40 g in
      let g := set_enemies (delete index (enemies g)) g in
      let '(r, g) := random g in
      let dropped := Qltb r (E_DROP_CHANCE (dropConfig type)) in
      let g := emit (EvLootRoll enemy dropped) g in
      let g := if dropped then _spawnPickup position g else g in
      let g := upd_wave (λ w, set_killedInWave (killedInWave w + 1)%Z w) g in
      let g := emit (EvWaveUpdate (currentLevel g) (killedInWave (wave g))
                       (totalToKill (wave g))) g in
      if (totalToKill (wave g) <=? killedInWave (wave g))%Z
         && (length (enemies g) =? 0)%nat
      then triggerBossSequence g else g
  | _ => g
  end.

Definition onBossDefeated (g : Game) : Game :=
  match boss g with
  | None => g
  | Some b =>
      let g := emit (EvBossDefeated b) g in
      let g := match heap g !! b with
               | Some e => createExplosion (ent_position e) 200 g
               | None => g
               end in
      let g := set_boss None g in
      let g := set_bossBullets [] g in
      let g := set_particles (filter (λ p, isHazard p = false) (particles g)) g in
      if (CONFIG.GAME.MAX_LEVEL <=? currentLevel g)%Z then
        emit EvVictory (changeGameState victory g)
      else
        setTimeout CbStartNextWave 4000 (changeGameState wave_transition g)
  end.

(** The inline [this.boss.hp -= damage; if (this.boss.hp <= 0)
    this.onBossDefeated()] used wherever a hit lands on the boss without going
    through [dealDamageTo]. *)
Definition damageBossDirect (damage : Q) (g : Game) : Game :=
  match boss g with
  | Some b =>
      match heap g !! b with
      | Some e =>
          let g := setHp b (ent_hp e - damage) g in
          if Qleb (ent_hp e - damage) 0 then onBossDefeated g else g
      | None => g
      end
  | None => g
  end.

(** ** [dealDamageTo] and [triggerExplosion] *)

(** The closing block of [dealDamageTo]: [if (target.hp <= 0) ...]. *)
Definition dealDamageTo_death (target : Ref) (g : Game) : Game :=
  match heap g !! target with
  | Some t =>
      if Qleb (ent_hp t) 0 then
        match indexOf target (enemies g) with
        | Some index => onEnemyDefeated target index g
        | None => if decide (boss g = Some target) then onBossDefeated g else g
        end
      else g
  | None => g
  end.

(** [dealDamageTo] with the explosion it may trigger as a parameter: the
    source's [dealDamageTo] and [triggerExplosion] call each other, but an
    explosion only ever passes [fromExplosion = true], which never explodes
    again. *)
Definition dealDamageWith (explode : Vector3 -> Q -> Q -> nat -> Game -> Game)
    (target : Ref) (damage : Q) (fromExplosion : bool) (g : Game) : Game :=
  match heap g !! target with
  | None => g
  | Some t =>
      if Qleb (ent_hp t) 0 then g
      else
        let g :=
          if isKamikaze t && negb fromExplosion then
            setHp target 0
              (explode (ent_position t) (ent_size t * 5) (ent_damage t) 50%nat g)
          else if isFinalBoss t then g
          else setHp target (ent_hp t - damage) g in
        dealDamageTo_death target g
  end.

Definition noExplosion (_ : Vector3) (_ _ : Q) (_ : nat) (g : Game) : Game := g.

Definition triggerExplosion (position : Vector3) (radius damage : Q) (count : nat)
    (g : Game) : Game :=
  let g := createExplosion position count g in
  let g :=
    forDown (length (enemies g))
      (λ i g,
         match enemies g !! i with
         | Some r =>
             match heap g !! r with
             | Some enemy =>
                 if Qltb (distanceTo (ent_position enemy) position) radius
                 then dealDamageWith noExplosion r damage true g
                 else g
             | None => g
             end
         | None => g
         end) g in
  match boss g with
  | Some b =>
      match heap g !! b with
      | Some be =>
          if Qltb (distanceTo (ent_position be) position) (radius + ent_size be / 2)
          then
            match weakOf be with
            | Some wp =>
                if Qltb (distanceTo (wp_position wp) position) radius
                then damageBossDirect damage g
                else g
            | None => dealDamageWith noExplosion b damage true g
            end
          else g
      | None => g
      end
  | None => g
  end.

Definition dealDamageTo (target : Ref) (damage : Q) (fromExplosion : bool)
    (g : Game) : Game :=
  dealDamageWith triggerExplosion target damage fromExplosion g.

(** ** Collisions *)

(** A call that may raise a [TypeError] part-way: the state reached, and
    whether the call returned. *)
Inductive Outcome : Type :=
  | Normal (g : Game)
  | Threw (g : Game).

Definition stateOf (o : Outcome) : Game :=
  match o with Normal g | Threw g => g end.

Definition andThen (o : Outcome) (k : Game -> Outcome) : Outcome :=
  match o with
  | Normal g => k g
  | Threw g => Threw g
  end.

(** [forDown] for a body that may throw. *)
Fixpoint forDownM (n : nat) (body : nat -> Game -> Outcome) (g : Game) : Outcome :=
  match n with
  | O => Normal g
  | S i => andThen (body i g) (forDownM i body)
  end.

(** One iteration of the player-bullet loop of [_checkBulletCollisions]. *)
Definition bulletStep (i : nat) (g : Game) : Game :=
  let weaponConfig := CONFIG.WEAPON (weaponLevel g) in
  let laserDamage := CONFIG.LASER_MODE.DAMAGE in
  match bullets g !! i with
  | None => g
  | Some b =>
      let hit (g : Game) : Game :=
        if isLaser b then damageBossDirect laserDamage g
        else if negb (isExplosive b)
             then damageBossDirect (W_DAMAGE weaponConfig) g
             else g in
      let '(p, g) :=
        match findEnemyHit
                (λ e, Qltb (distanceTo (b_position b) (ent_position e)) (ent_size e)) g
        with
        | Some (r, e) =>
            let g := if isLaser b then dealDamageTo r laserDamage false g
                     else if negb (isExplosive b)
                          then dealDamageTo r (W_DAMAGE weaponConfig) false g
                          else g in
            (Some (ent_position e), g)
        | None =>
            match boss g with
            | Some br =>
                match heap g !! br with
                | Some be =>
                    let hitTarget :=
                      match weakOf be with
                      | Some wp =>
                          if Qltb (distanceTo (b_position b) (wp_position wp)) 1.5
                          then Some (wp_position wp) else None
                      | None =>
                          if Qltb (distanceTo (b_position b) (ent_position be))
                               (ent_size be / 2)
                          then Some (ent_position be) else None
                      end in
                    match hitTarget with
                    | Some tp => (Some tp, hit g)
                    | None => (None, g)
                    end
                | None => (None, g)
                end
            | None => (None, g)
            end
        end in
      match p with
      | Some p =>
          let g := if isExplosive b
                   then triggerExplosion p CONFIG.SKILL_Z.AOE_RADIUS
                          CONFIG.SKILL_Z.DAMAGE 50%nat g
                   else createExplosion (b_position b) 10%nat g in
          if negb (isLaser b) then set_bullets (delete i (bullets g)) g else g
      | None => g
      end
  end.

(** One iteration of the drone-bullet loop of [_checkBulletCollisions]. *)
Definition droneBulletStep (i : nat) (g : Game) : Game :=
  match droneBullets g !! i with
  | None => g
  | Some b =>
      let '(h, g) :=
        match findEnemyHit
                (λ e, Qltb (distanceTo (db_position b) (ent_position e)) (ent_size e)) g
        with
        | Some (r, e) => (true, dealDamageTo r CONFIG.DRONE.DAMAGE false g)
        | None =>
            match boss g with
            | Some br =>
                match heap g !! br with
                | Some be =>
                    match weakOf be with
                    | Some wp =>
                        if Qltb (distanceTo (db_position b) (wp_position wp)) 1.5
                        then (true, damageBossDirect CONFIG.DRONE.DAMAGE g)
                        else (false, g)
                    | None =>
                        if Qltb (distanceTo (db_position b) (ent_position be))
                             (ent_size be)
                        then (true, dealDamageTo br CONFIG.DRONE.DAMAGE false g)
                        else (false, g)
                    end
                | None => (false, g)
                end
            | None => (false, g)
            end
        end in
      if h then set_droneBullets (delete i (droneBullets g)) g else g
  end.

Definition _checkBulletCollisions (g : Game) : Game :=
  let g := forDown (length (bullets g)) bulletStep g in
  forDown (length (droneBullets g)) droneBulletStep g.

Definition _checkBossBulletCollisions (g : Game) : Outcome :=
  forDownM (length (bossBullets g))
    (λ i g,
       match bossBullets g !! i with
       | None => Threw g
       | Some bullet =>
           if Qltb (distanceTo (playerPosition g) (bb_position bullet)) 1.5 then
             match CONFIG.BOSS_BASE (currentLevel g) with
             | Some bossConfig =>
                 let g := playerTakeDamage (B_BULLET_DAMAGE bossConfig) g in
                 let g := createExplosion (bb_position bullet) 25%nat g in
                 Normal (set_bossBullets (delete i (bossBullets g)) g)
             | None => Threw g
             end
           else Normal g
       end) g.

(** [_checkPlayerCollisions], first half: contact with an enemy or the boss,
    rate-limited by the immunity window. *)
Definition _checkPlayerCollisions_contact (g : Game) : Game :=
  let now := elapsedTime g in
  if Qltb (lastHitTime (player g) + CONFIG.PLAYER.DAMAGE_IMMUNITY) now then
    match findEnemyHit
            (λ e, Qltb (distanceTo (playerPosition g) (ent_position e))
                       (1 + ent_size e / 2)) g
    with
    | Some (r, enemy) =>
        let g := if isKamikaze enemy then dealDamageTo r (ent_hp enemy) false g
                 else playerTakeDamage (ent_damage enemy) g in
        upd_player (set_lastHitTime now) g
    | None =>
        match boss g with
        | Some br =>
            match heap g !! br with
            | Some be =>
                if Qltb (distanceTo (playerPosition g) (ent_position be))
                     (ent_size be / 2)
                then upd_player (set_lastHitTime now)
                       (playerTakeDamage (ent_damage be) g)
                else g
            | None => g
            end
        | None => g
        end
    end
  else g.

(** [_checkPlayerCollisions], second half: pickups. *)
Definition _checkPlayerCollisions_pickups (g : Game) : Game :=
  let weaponConfig := CONFIG.WEAPON (weaponLevel g) in
  forDown (length (pickups g))
    (λ i g,
       match pickups g !! i with
       | None => g
       | Some pickup =>
           if Qltb (distanceTo (playerPosition g) (pk_position pickup)) 1.5 then
             let g :=
               match pk_type pickup with
               | Ammo =>
                   upd_player
                     (λ p, set_reserveAmmo
                             (reserveAmmo p + W_PICKUP_AMMO_AMOUNT weaponConfig)%Z p) g
               | Health =>
                   upd_player
                     (λ p, set_hp (Qmin (maxHp p)
                                     (hp p + CONFIG.PICKUPS.HEALTH_AMOUNT)) p) g
               | ShieldCharge => g
               end in
             set_pickups (delete i (pickups g)) g
           else g
       end) g.

Definition _checkPlayerCollisions (g : Game) : Game :=
  _checkPlayerCollisions_pickups (_checkPlayerCollisions_contact g).

Definition checkCollisions (g : Game) : Outcome :=
  andThen (_checkBossBulletCollisions (_checkBulletCollisions g))
    (λ g, Normal (_checkPlayerCollisions g)).

(** ** Particles and hazards *)

Definition setParticle (i : nat) (p : Particle) (g : Game) : Game :=
  set_particles (<[i := p]> (particles g)) g.

(** The closing [if (p.lifespan <= 0) splice] of the particle loop. *)
Definition expireParticle (i : nat) (g : Game) : Game :=
  match particles g !! i with
  | Some p => if Qleb (lifespanOf p) 0
              then set_particles (delete i (particles g)) g else g
  | None => g
  end.

Definition updateParticles (deltaTime : Q) (g : Game) : Game :=
  forDown (length (particles g))
    (λ i g,
       match particles g !! i with
       | None => g
       | Some (Regular l) =>
           expireParticle i (setParticle i (Regular (l - deltaTime)) g)
       | Some (Shockwave l position scaleX damage) =>
           let scaleX := scaleX + deltaTime * 50 in
           let g := setParticle i (Shockwave (l - deltaTime) position scaleX damage) g in
           let playerDist := distanceTo position (playerPosition g) in
           let g := if Qltb (Qabs (playerDist - scaleX * 0.1)) 1
                    then playerTakeDamage damage g else g in
           expireParticle i g
       | Some (ShockwaveRing l position scaleX damage expansionRate) =>
           let scaleX := scaleX + expansionRate * deltaTime in
           let g := setParticle i
                      (ShockwaveRing (l - deltaTime) position scaleX damage
                         expansionRate) g in
           let playerDist := distanceTo position (playerPosition g) in
           let g := if onGround (player g) && Qltb (Qabs (playerDist - scaleX)) 0.5
                    then setParticle i
                           (ShockwaveRing 0 position scaleX damage expansionRate)
                           (playerTakeDamage damage g)
                    else g in
           expireParticle i g
       | Some (SweepingLaser l position rotY damage rotationSpeed) =>
           let rotY := rotY + rotationSpeed * deltaTime in
           let g := setParticle i
                      (SweepingLaser (l - deltaTime) position rotY damage
                         rotationSpeed) g in
           let localPlayerPos := worldToLocal position rotY (playerPosition g) in
           let g := if Qltb (Qabs (vy localPlayerPos - vy position)) 1
                       && Qltb (Qabs (vz localPlayerPos - vz position)) 1
                    then playerTakeDamage (damage * deltaTime) g else g in
           expireParticle i g
       end) g.

(** ** Skills and melee *)

Definition useSkillQ (g : Game) : Game :=
  createHealEffect
    (upd_player
       (λ p, set_q_cooldown CONFIG.SKILL_Q.COOLDOWN
               (set_hp (Qmin (maxHp p) (hp p + CONFIG.SKILL_Q.HEAL)) p)) g).

Definition useSkillZ (g : Game) : Game :=
  upd_player
    (λ p, set_z_cooldown CONFIG.SKILL_Z.COOLDOWN
            (set_z_duration CONFIG.SKILL_Z.DURATION (set_z_active true p))) g.

Definition useSkillG (g : Game) : Game :=
  upd_player
    (λ p, set_shield_cooldown CONFIG.SHIELD.COOLDOWN
            (set_shield_duration CONFIG.SHIELD.DURATION (set_shield_active true p))) g.

Definition updateSkills (deltaTime : Q) (g : Game) : Game :=
  upd_player
    (λ p,
       let p := if Qltb 0 (q_cooldown p)
                then set_q_cooldown (q_cooldown p - deltaTime) p else p in
       let p := if Qltb 0 (z_cooldown p)
                then set_z_cooldown (z_cooldown p - deltaTime) p else p in
       let p := if z_active p then
                  let p := set_z_duration (z_duration p - deltaTime) p in
                  if Qleb (z_duration p) 0 then set_z_active false p else p
                else p in
       let p := if Qltb 0 (shield_cooldown p)
                then set_shield_cooldown (shield_cooldown p - deltaTime) p else p in
       if shield_active p then
         let p := set_shield_duration (shield_duration p - deltaTime) p in
         if Qleb (shield_duration p) 0 then set_shield_active false p else p
       else p) g.

Definition playerMeleeAttack (g : Game) : Game :=
  let p := player g in
  if Qltb 0 (melee_cooldown p) || melee_attacking p || isAiming p then g
  else
    let g := createMeleeSwingEffect g in
    let g := upd_player
               (λ p, set_melee_swingTime CONFIG.MELEE.SWING_DURATION
                       (set_melee_attacking true
                          (set_melee_cooldown CONFIG.MELEE.COOLDOWN p))) g in
    let playerPos := playerPosition g in
    let forward := getWorldDirection (rotationY g) (cameraRotationX g) in
    setTimeout (CbMeleeSweep playerPos forward)
      (CONFIG.MELEE.SWING_DURATION / 2 * 1000) g.

(** [checkHit] of [playerMeleeAttack]. *)
Definition checkHit (playerPos forward : Vector3) (target : Ref) (range damage : Q)
    (g : Game) : Game :=
  match heap g !! target with
  | Some t =>
      let distance := distanceTo (ent_position t) playerPos in
      let toTarget := normalize (subVectors (ent_position t) playerPos) in
      let angle := angleTo forward toTarget in
      if Qltb distance range && Qltb angle (mathPI / 2.5) then
        createExplosion (ent_position t) 15%nat (dealDamageTo target damage false g)
      else g
  | None => g
  end.

(** The callback [playerMeleeAttack] schedules half-way through the swing. *)
Definition meleeSweep (playerPos forward : Vector3) (g : Game) : Game :=
  let g :=
    forDown (length (enemies g))
      (λ j g,
         match enemies g !! j with
         | Some r => checkHit playerPos forward r CONFIG.MELEE.RANGE
                       CONFIG.MELEE.DAMAGE g
         | None => g
         end) g in
  match boss g with
  | Some b =>
      match heap g !! b with
      | Some be => checkHit playerPos forward b
                     (CONFIG.MELEE.RANGE + ent_size be / 2) CONFIG.MELEE.DAMAGE g
      | None => g
      end
  | None => g
  end.

Definition updateMelee (deltaTime : Q) (g : Game) : Game :=
  upd_player
    (λ p,
       let p := if Qltb 0 (melee_cooldown p)
                then set_melee_cooldown (melee_cooldown p - deltaTime) p else p in
       if melee_attacking p then
         let p := set_melee_swingTime (melee_swingTime p - deltaTime) p in
         if Qleb (melee_swingTime p) 0 then set_melee_attacking false p else p
       else p) g.

(** ** The player *)

(** [THREE.MathUtils.randFloat(low, high)]. *)
Definition randFloat (low high : Q) (g : Game) : Q * Game :=
  let '(r, g) := random g in (low + r * (high - low), g).

Definition playerShoot (laser : bool) (g : Game) : Game :=
  let g := if negb laser
           then upd_player (λ p, set_ammoInMagazine (ammoInMagazine p - 1)%Z p) g
           else g in
  let g := upd_player (set_lastShotTime (elapsedTime g)) g in
  let '(_, g) := random g in
  let direction := getWorldDirection (rotationY g) (cameraRotationX g) in
  let '(direction, g) :=
    if negb (isAiming (player g)) && negb laser then
      let spread := W_SPREAD (CONFIG.WEAPON (weaponLevel g)) in
      let '(dx, g) := randFloat (- spread) spread g in
      let '(dy, g) := randFloat (- spread) spread g in
      let '(dz, g) := randFloat (- spread) spread g in
      (vadd direction (mkVector3 dx dy dz), g)
    else (direction, g) in
  let direction := normalize direction in
  let spawnPos :=
    muzzleWorldPosition (playerPosition g) (rotationY g) (cameraRotationX g) in
  let bullet :=
    mkBullet spawnPos (multiplyScalar direction (if laser then 250 else 100))
      laser false in
  emit (EvShot laser) (set_bullets (bullets g ++ [bullet]) g).

(** [updatePlayer], first block: reloading. *)
Definition updatePlayer_reload (deltaTime : Q) (g : Game) : Game :=
  let weaponConfig := CONFIG.WEAPON (weaponLevel g) in
  let p := player g in
  if reloading p then
    let p := set_isAiming false p in
    let p := set_reloadTime (reloadTime p - deltaTime) p in
    let p :=
      if Qleb (reloadTime p) 0 then
        let ammoNeeded := (maxAmmoInMagazine p - ammoInMagazine p)%Z in
        let ammoToReload := Z.min ammoNeeded (reserveAmmo p) in
        set_reloadTime 0
          (set_reloading false
             (set_reserveAmmo (reserveAmmo p - ammoToReload)%Z
                (set_ammoInMagazine (ammoInMagazine p + ammoToReload)%Z p)))
      else p in
    set_player p g
  else if key "KeyR" g && (0 <? reserveAmmo p)%Z
          && (ammoInMagazine p <? maxAmmoInMagazine p)%Z then
    set_player (set_reloadTime (W_RELOAD_TIME weaponConfig) (set_reloading true p)) g
  else g.

(** [updatePlayer], second block: sprinting, stamina, walking, gravity and
    jumping. *)
Definition updatePlayer_move (deltaTime : Q) (g : Game) : Game :=
  let p := player g in
  let adsMultiplier := if isAiming p then CONFIG.PLAYER.ADS_SPEED_MULTIPLIER else 1 in
  let p := set_sprinting (key "ShiftLeft" g && negb (isAiming p)) p in
  let speed := if sprinting p && Qltb 0 (stamina p)
               then CONFIG.PLAYER.SPRINT_SPEED else CONFIG.PLAYER.SPEED in
  let isMoving := key "KeyW" g || key "KeyA" g || key "KeyS" g || key "KeyD" g in
  let mz := if key "KeyS" g then 1 else if key "KeyW" g then -1 else 0 in
  let mx := if key "KeyD" g then 1 else if key "KeyA" g then -1 else 0 in
  let moveDirection := mkVector3 mx 0 mz in
  let p := if sprinting p && isMoving
           then set_stamina (stamina p - CONFIG.PLAYER.STAMINA_COST * deltaTime) p
           else set_stamina (stamina p + CONFIG.PLAYER.STAMINA_REGEN * deltaTime) p in
  let p := set_stamina (Qmax 0 (Qmin CONFIG.PLAYER.STAMINA (stamina p))) p in
  let moveDirection :=
    multiplyScalar (applyAxisAngleY (normalize moveDirection) (rotationY g))
      (speed * adsMultiplier * deltaTime) in
  let position := vadd (playerPosition g) moveDirection in
  let p := set_velocityY (velocityY p + CONFIG.GAME.GRAVITY * deltaTime) p in
  let yPosBeforeBob := vy position + velocityY p * deltaTime in
  let '(yPosBeforeBob, p) :=
    if Qltb yPosBeforeBob 1.6
    then (1.6, set_onGround true (set_velocityY 0 p))
    else (yPosBeforeBob, p) in
  let position := set_vy yPosBeforeBob position in
  let p := if key "Space" g && onGround p
           then set_onGround false (set_velocityY CONFIG.PLAYER.JUMP_FORCE p)
           else p in
  set_playerPosition position (set_player p g).

(** [updatePlayer], third block: firing. *)
Definition updatePlayer_fire (g : Game) : Game :=
  let weaponConfig := CONFIG.WEAPON (weaponLevel g) in
  let p := player g in
  let shootCooldown := if z_active p then CONFIG.LASER_MODE.COOLDOWN
                       else W_COOLDOWN weaponConfig in
  let canShoot := Qltb (lastShotTime p + shootCooldown) (elapsedTime g) in
  if key "mouse0" g && canShoot && negb (reloading p) && negb (melee_attacking p)
  then
    if z_active p then playerShoot true g
    else if (0 <? ammoInMagazine p)%Z then
      let g := playerShoot false g in
      if (match weaponLevel g with W1 => true | W2 => false end) || isNewGamePlus g
      then setKey "mouse0" false g else g
    else g
  else g.

(** [updatePlayer], last block: melee and the three skills. *)
Definition updatePlayer_actions (g : Game) : Game :=
  let g := if key "KeyF" g then playerMeleeAttack g else g in
  let g := if key "KeyQ" g && q_unlocked (player g) && Qleb (q_cooldown (player g)) 0
           then useSkillQ g else g in
  let g := if key "KeyZ" g && z_unlocked (player g) && Qleb (z_cooldown (player g)) 0
           then useSkillZ g else g in
  if key "KeyG" g && shield_unlocked (player g) && Qleb (shield_cooldown (player g)) 0
  then useSkillG g else g.

Definition updatePlayer (deltaTime : Q) (g : Game) : Game :=
  updatePlayer_actions
    (updatePlayer_fire (updatePlayer_move deltaTime (updatePlayer_reload deltaTime g))).

(** ** Waves *)

Definition spawnDrone (g : Game) : Game := set_drone (Some vzero) g.

Definition unlockSkills (g : Game) : Game :=
  upd_player (λ p, set_z_unlocked true (set_q_unlocked true p)) g.

(** The wave object both branches of [startNextWave] create. *)
Definition newWave (level : Z) (isNGP : bool) : Wave :=
  mkWave (10 + level * 8)%Z 0%Z 0%Z
    (Qmax 0.5 ((if isNGP then 1.0 else 1.5) - inject_Z level * 0.1))
    1.5 (if isNGP then 15%Z else 12%Z).

(** The tail of [startNextWave]: the wave formally begins. *)
Definition beginWave (g : Game) : Game :=
  let g := changeGameState playing g in
  let g := set_wave (newWave (currentLevel g) (isNewGamePlus g)) g in
  let g := if (currentLevel g =? 2)%Z && negb (isNewGamePlus g)
           then unlockSkills g else g in
  emit (EvWaveUpdate (currentLevel g) 0%Z (totalToKill (wave g))) g.

(** [showMessages(index)] over [count] queued unlock messages, each shown
    for 4000 ms. *)
Definition showMessages (index count : nat) (g : Game) : Game :=
  if (index <? count)%nat then setTimeout (CbShowMessages (S index) count) 4000 g
  else beginWave g.

Definition startNextWave (g : Game) : Game :=
  let g := set_currentLevel (currentLevel g + 1)%Z g in
  let '(messages, g) :=
    if (currentLevel g =? 3)%Z && negb (shield_unlocked (player g))
    then (1%nat, upd_player (set_shield_unlocked true) g) else (0%nat, g) in
  let '(messages, g) :=
    if (currentLevel g =? 4)%Z && negb (drone_unlocked (player g))
    then (S messages, spawnDrone (upd_player (set_drone_unlocked true) g))
    else (messages, g) in
  let '(messages, g) :=
    if (currentLevel g =? 3)%Z then
      let weaponConfig := CONFIG.WEAPON W2 in
      (S messages,
       upd_player
         (λ p, set_reserveAmmo
                 (reserveAmmo p + (W_INITIAL_RESERVE_AMMO weaponConfig
                                   - W_INITIAL_RESERVE_AMMO (CONFIG.WEAPON W1)))%Z
                 (set_maxAmmoInMagazine (W_MAGAZINE_SIZE weaponConfig) p))
         (set_weaponLevel W2 g))
    else (messages, g) in
  if (0 <? messages)%nat then showMessages 0 messages g else beginWave g.

Definition spawnEnemy (g : Game) : Game :=
  let '(rand, g) := random g in
  let type :=
    if (currentLevel g <? 3)%Z then (if Qltb rand 0.6 then Drone else Scout)
    else if (currentLevel g =? 3)%Z then
      (if Qltb rand 0.4 then Drone else if Qltb rand 0.8 then Scout else Tank)
    else (if Qltb rand 0.3 then Drone else if Qltb rand 0.6 then Scout
          else if Qltb rand 0.85 then Tank else Kamikaze) in
  let enemyConfig := dropConfig type in
  let spawnEdge := 98 in
  let '(r, g) := random g in
  let angle := r * mathPI * 2 in
  let '(yPos, g) :=
    match type with
    | Tank => (E_SIZE enemyConfig / 2, g)
    | _ => let '(r, g) := random g in (r * 5 + 3, g)
    end in
  let position := mkVector3 (mathCos angle * spawnEdge) yPos (mathSin angle * spawnEdge) in
  let scale := if isNewGamePlus g then 1.2 else 1 in
  let growth := 1 + (inject_Z (currentLevel g) - 1) * 0.1 in
  let enemy :=
    mkEntity (E_HP enemyConfig * scale * growth) (E_DAMAGE enemyConfig * scale * growth)
      (E_SPEED enemyConfig * (if isNewGamePlus g then 1.1 else 1))
      (E_SIZE enemyConfig) position (IsEnemy type) in
  let '(r, g) := alloc enemy g in
  set_enemies (enemies g ++ [r]) g.

Definition updateWaveSpawning (deltaTime : Q) (g : Game) : Game :=
  if (totalToKill (wave g) <=? spawnedInWave (wave g))%Z
     || (maxConcurrent (wave g) <=? Z.of_nat (length (enemies g)))%Z
  then g
  else
    let g := upd_wave (λ w, set_spawnTimer (spawnTimer w - deltaTime) w) g in
    if Qleb (spawnTimer (wave g)) 0 then
      let g := upd_wave (λ w, set_spawnTimer (spawnInterval w) w) g in
      let g := spawnEnemy g in
      upd_wave (λ w, set_spawnedInWave (spawnedInWave w + 1)%Z w) g
    else g.

(** ** Enemies and bullets in flight *)

Definition updateEnemies (deltaTime : Q) (g : Game) : Game :=
  fold_left
    (λ g r,
       match heap g !! r with
       | Some enemy =>
           let dir := subVectors (playerPosition g) (ent_position enemy) in
           let dir := match ent_kind enemy with
                      | IsEnemy Drone | IsEnemy Scout => dir
                      | _ => set_vy 0 dir
                      end in
           let dir := normalize dir in
           store r
             (set_ent_position
                (vadd (ent_position enemy)
                   (multiplyScalar dir (ent_speed enemy * deltaTime))) enemy) g
       | None => g
       end) (enemies g) g.

Definition updateBullets (deltaTime : Q) (g : Game) : Game :=
  let g :=
    forDown (length (bullets g))
      (λ i g,
         match bullets g !! i with
         | Some bullet =>
             let position :=
               vadd (b_position bullet) (multiplyScalar (b_velocity bullet) deltaTime) in
             if Qltb 300 (distanceTo position (playerPosition g))
             then set_bullets (delete i (bullets g)) g
             else set_bullets
                    (<[i := mkBullet position (b_velocity bullet) (isLaser bullet)
                              (isExplosive bullet)]> (bullets g)) g
         | None => g
         end) g in
  forDown (length (droneBullets g))
    (λ i g,
       match droneBullets g !! i with
       | Some bullet =>
           let position :=
             vadd (db_position bullet) (multiplyScalar (db_velocity bullet) deltaTime) in
           if Qltb 300 (distanceTo position (playerPosition g))
           then set_droneBullets (delete i (droneBullets g)) g
           else set_droneBullets
                  (<[i := mkDroneBullet position (db_velocity bullet)]>
                     (droneBullets g)) g
       | None => g
       end) g.

Definition updateBossBullets (deltaTime : Q) (g : Game) : Game :=
  forDown (length (bossBullets g))
    (λ i g,
       match bossBullets g !! i with
       | Some bullet =>
           let position :=
             vadd (bb_position bullet) (multiplyScalar (bb_velocity bullet) deltaTime) in
           if Qltb 400 (distanceTo position (playerPosition g))
           then set_bossBullets (delete i (bossBullets g)) g
           else if hitsBoundaryWall (bb_isLaser bullet) position (bb_velocity bullet)
           then set_bossBullets (delete i (bossBullets g))
                  (createExplosion position 5%nat g)
           else set_bossBullets
                  (<[i := mkBossBullet position (bb_velocity bullet)
                            (bb_isLaser bullet)]> (bossBullets g)) g
       | None => g
       end) g.

(** ** The boss *)

(** Random draws [createBossMesh] spends on decoration. *)
Definition createBossMesh_draws (level : Z) : nat :=
  if (level =? 1)%Z then 16 else if (level =? 2)%Z then 6
  else if (level =? 3)%Z then 12 else 0.

(** The callback of [triggerBossSequence]: the boss enters. *)
Definition beginBossFight (g : Game) : Outcome :=
  let g := changeGameState boss_fight g in
  let scale := if isNewGamePlus g then 1.5 else 1 in
  match CONFIG.BOSS_BASE (currentLevel g) with
  | None => Threw g
  | Some bossConfig =>
      let g := set_rngPos (rngPos g + createBossMesh_draws (currentLevel g)) g in
      let weakPoint :=
        if (currentLevel g =? 5)%Z
        then (λ h, mkWeakPoint vzero h h 0) <$> B_WEAK_POINT_HP bossConfig
        else None in
      let b :=
        mkEntity (B_HP bossConfig * scale) (B_DAMAGE bossConfig * scale)
          (B_SPEED bossConfig * (if isNewGamePlus g then 1.2 else 1))
          (B_SIZE bossConfig) (mkVector3 0 (B_SIZE bossConfig / 2) (-80))
          (IsBoss (mkBossData (B_HP bossConfig * scale) 0 weakPoint)) in
      let '(r, g) := alloc b g in
      Normal (set_boss (Some r) g)
  end.

Definition bossShootSimple (direction : Vector3) (laser : bool) (g : Game) : Outcome :=
  match boss g with
  | None => Normal g
  | Some b =>
      match heap g !! b with
      | None => Normal g
      | Some be =>
          match CONFIG.BOSS_BASE (currentLevel g) with
          | None => Threw g
          | Some cfg =>
              let bullet :=
                mkBossBullet (ent_position be)
                  (multiplyScalar direction (B_BULLET_SPEED cfg)) laser in
              Normal (set_bossBullets (bossBullets g ++ [bullet]) g)
          end
      end
  end.

Definition setAttackTimer (v : Q) (e : Entity) : Entity :=
  match ent_kind e with
  | IsBoss bd => set_ent_kind (IsBoss (mkBossData (boss_maxHp bd) v (weak bd))) e
  | IsEnemy _ => e
  end.

Definition attackTimerOf (e : Entity) : Q :=
  match ent_kind e with
  | IsBoss bd => attackTimer bd
  | IsEnemy _ => 0
  end.

Definition setWeak (w : WeakPoint) (e : Entity) : Entity :=
  match ent_kind e with
  | IsBoss bd => set_ent_kind (IsBoss (mkBossData (boss_maxHp bd) (attackTimer bd) (Some w))) e
  | IsEnemy _ => e
  end.

(** The five-shot fan of the tier-2 boss: [for (i = -2; i <= 2; i++)]. *)
Fixpoint bossSpread (angles : list Q) (dirToPlayer : Vector3) (g : Game) : Outcome :=
  match angles with
  | [] => Normal g
  | i :: rest =>
      andThen (bossShootSimple (applyAxisAngleY dirToPlayer (i * mathPI / 16)) false g)
        (bossSpread rest dirToPlayer)
  end.

(** The staggered ring of the final boss: [for (i = 0; i < 20; i++)
    setTimeout(..., i * 50)]. *)
Definition scheduleRing (g : Game) : Game :=
  fold_left (λ g i, setTimeout (CbRingShot (Z.of_nat i)) (inject_Z (Z.of_nat i) * 50) g)
    (seq 0 20) g.

Definition executeBossAttack (g : Game) : Outcome :=
  match boss g with
  | None => Normal g
  | Some b =>
      match heap g !! b, CONFIG.BOSS_BASE (currentLevel g) with
      | None, _ => Normal g
      | Some _, None => Threw g
      | Some be, Some cfg =>
          let g := store b (setAttackTimer (B_ATTACK_COOLDOWN cfg) be) g in
          let bossPos := ent_position be in
          let dirToPlayer := normalize (subVectors (playerPosition g) bossPos) in
          let level := currentLevel g in
          if (level =? 1)%Z then bossShootSimple dirToPlayer false g
          else if (level =? 2)%Z then bossSpread [-2; -1; 0; 1; 2] dirToPlayer g
          else if (level =? 3)%Z then
            andThen (bossShootSimple dirToPlayer false g)
              (λ g, Normal
                      (set_particles
                         (particles g ++ [Shockwave 3 (set_vy 0.1 bossPos) 1
                                            (B_BULLET_DAMAGE cfg)]) g))
          else if (level =? 4)%Z then
            andThen (bossShootSimple dirToPlayer true g)
              (λ g, Normal
                      (set_particles
                         (particles g ++ [ShockwaveRing 4 (set_vy 0.2 bossPos) 1
                                            (B_BULLET_DAMAGE cfg) 25]) g))
          else if (level =? 5)%Z then
            let '(r, g) := random g in
            let attackType := mathFloor (r * 2) in
            if (attackType =? 0)%Z then Normal (scheduleRing g)
            else Normal
                   (set_particles
                      (particles g ++ [SweepingLaser 5 (set_vy 1.6 bossPos) 0
                                         (B_BULLET_DAMAGE cfg) 0.5]) g)
          else Normal g
      end
  end.

(** The callback of the staggered ring. *)
Definition ringShot (i : Z) (g : Game) : Outcome :=
  match boss g with
  | None => Normal g
  | Some _ =>
      let angle := inject_Z i / 20 * mathPI * 2 in
      bossShootSimple (mkVector3 (mathCos angle) 0 (mathSin angle)) false g
  end.

Definition updateBoss (deltaTime : Q) (g : Game) : Outcome :=
  match boss g with
  | None => Normal g
  | Some b =>
      match heap g !! b with
      | None => Normal g
      | Some be =>
          let dir := normalize (set_vy 0 (subVectors (playerPosition g) (ent_position be))) in
          let be := if (currentLevel g <? 5)%Z
                    then set_ent_position
                           (vadd (ent_position be)
                              (multiplyScalar dir (ent_speed be * deltaTime))) be
                    else be in
          let be := setAttackTimer (attackTimerOf be - deltaTime) be in
          let g := store b be g in
          andThen (if Qleb (attackTimerOf be) 0 then executeBossAttack g else Normal g)
            (λ g,
               match boss g with
               | Some b =>
                   match heap g !! b with
                   | Some be =>
                       match weakOf be with
                       | Some wp =>
                           let progress :=
                             jsMod1 (weakPointProgress wp + deltaTime * 0.1) in
                           Normal
                             (store b
                                (setWeak
                                   (mkWeakPoint (getPointAt (ent_size be / 2) progress)
                                      (weakPointHp wp) (maxWeakPointHp wp) progress)
                                   be) g)
                       | None => Normal g
                       end
                   | None => Normal g
                   end
               | None => Normal g
               end)
      end
  end.

(** ** The companion drone *)

Definition findDroneTarget (dronePos : Vector3) (g : Game) : Game :=
  let '(closestDist, target) :=
    fold_left
      (λ acc r,
         match heap g !! r with
         | Some enemy =>
             let dist := distanceTo dronePos (ent_position enemy) in
             if Qltb dist (fst acc) then (dist, Some r) else acc
         | None => acc
         end) (enemies g) (CONFIG.DRONE.RANGE, None) in
  let target :=
    match boss g with
    | Some b =>
        match heap g !! b with
        | Some be => if Qltb (distanceTo dronePos (ent_position be)) closestDist
                     then Some b else target
        | None => target
        end
    | None => target
    end in
  set_droneTarget target g.

Definition droneShoot (dronePos : Vector3) (g : Game) : Game :=
  match droneTarget g with
  | Some t =>
      match heap g !! t with
      | Some te =>
          let dir := normalize (subVectors (ent_position te) dronePos) in
          set_droneBullets
            (droneBullets g ++ [mkDroneBullet (vadd dronePos dir) (multiplyScalar dir 80)])
            g
      | None => g
      end
  | None => g
  end.

Definition updateDrone (deltaTime : Q) (g : Game) : Game :=
  match drone g with
  | None => g
  | Some dronePos =>
      let targetPos := vadd (playerPosition g) (mkVector3 (-2) 2 (-2)) in
      let dronePos := lerp dronePos targetPos 0.1 in
      let g := set_drone (Some dronePos) g in
      let now := elapsedTime g in
      if Qltb (lastDroneShotTime g + CONFIG.DRONE.FIRE_RATE) now then
        let stale :=
          match droneTarget g with
          | Some t =>
              match heap g !! t with
              | Some te => Qleb (ent_hp te) 0
                           || Qltb CONFIG.DRONE.RANGE
                                (distanceTo dronePos (ent_position te))
              | None => true
              end
          | None => true
          end in
        let g := if stale then findDroneTarget dronePos g else g in
        match droneTarget g with
        | Some _ => set_lastDroneShotTime now (droneShoot dronePos g)
        | None => g
        end
      else g
  end.

(** ** The frame *)

Definition inPlay (g : Game) : bool :=
  bool_decide (gameState g = playing) || bool_decide (gameState g = boss_fight).

(** The body of [animate] for a frame that took [deltaTime] seconds. *)
Definition animate (deltaTime : Q) (g : Game) : Outcome :=
  if bool_decide (gameState g = paused) then Normal g
  else
    let g := set_elapsedTime (elapsedTime g + deltaTime) g in
    andThen
      (if inPlay g then
         let g := updatePlayer deltaTime g in
         let g := updateEnemies deltaTime g in
         let g := updateBullets deltaTime g in
         let g := if drone_unlocked (player g) then updateDrone deltaTime g else g in
         andThen (checkCollisions g)
           (λ g, Normal (updateMelee deltaTime (updateSkills deltaTime g)))
       else Normal g)
      (λ g,
         let g := if bool_decide (gameState g = playing)
                  then updateWaveSpawning deltaTime g else g in
         andThen
           (if bool_decide (gameState g = boss_fight)
               && (match boss g with Some _ => true | None => false end)
            then andThen (updateBoss deltaTime g)
                   (λ g, Normal (updateBossBullets deltaTime g))
            else Normal g)
           (λ g, Normal (updateParticles deltaTime g))).

(** ** Starting, pausing, quitting *)

Definition startGame (g : Game) : Game :=
  setTimeout CbStartNextWave (if isNewGamePlus g then 4000 else 5000) g.

Definition resetGame (isNGP : bool) (g : Game) : Game :=
  let weaponConfig := CONFIG.WEAPON W1 in
  let g := set_isNewGamePlus isNGP g in
  let g := set_currentLevel 0%Z g in
  let g := set_weaponLevel W1 g in
  let g := set_previousGameState None g in
  let g := set_playerPosition (mkVector3 0 1.6 0) g in
  let g :=
    set_player
      (mkPlayer CONFIG.PLAYER.HP CONFIG.PLAYER.HP
         CONFIG.PLAYER.STAMINA CONFIG.PLAYER.STAMINA
         (W_MAGAZINE_SIZE weaponConfig) (W_MAGAZINE_SIZE weaponConfig)
         (W_INITIAL_RESERVE_AMMO weaponConfig)
         false 0 false
         isNGP 0 isNGP 0 false 0
         false 0 0
         0
         false 0 false 0
         false
         0 false false 0) g in
  let g := set_enemies [] g in
  let g := set_bullets [] g in
  let g := set_bossBullets [] g in
  let g := set_pickups [] g in
  let g := set_particles [] g in
  let g := set_droneBullets [] g in
  let g := set_boss None g in
  let g := set_drone None g in
  startGame g.

Definition togglePause (g : Game) : Game :=
  if bool_decide (gameState g = paused) then
    match previousGameState g with
    | Some s => set_previousGameState None (changeGameState s g)
    | None => g
    end
  else if inPlay g then
    changeGameState paused (set_previousGameState (Some (gameState g)) g)
  else g.

Definition quitToMainMenu (g : Game) : Game :=
  resetGame false (changeGameState start_screen g).

(** ** Input events *)

Definition onKeyDown (code : string) (g : Game) : Game :=
  if String.eqb code "Escape"
     && (inPlay g || bool_decide (gameState g = paused))
  then togglePause g
  else setKey code true g.

Definition onKeyUp (code : string) (g : Game) : Game := setKey code false g.

(** [onMouseDown] while the pointer is locked to the canvas. *)
Definition onMouseDown (button : Z) (g : Game) : Game :=
  let g := if (button =? 0)%Z then setKey "mouse0" true g else g in
  if (button =? 2)%Z && negb (melee_attacking (player g)) && negb (reloading (player g))
  then upd_player (set_isAiming true) g else g.

Definition onMouseUp (button : Z) (g : Game) : Game :=
  let g := if (button =? 0)%Z then setKey "mouse0" false g else g in
  if (button =? 2)%Z then upd_player (set_isAiming false) g else g.

Definition onMouseMove (movementX movementY : Q) (g : Game) : Game :=
  let g := set_rotationY (rotationY g - movementX / 500) g in
  set_cameraRotationX
    (Qmax (- mathPI / 2) (Qmin (mathPI / 2) (cameraRotationX g - movementY / 500))) g.

(** ** Timers *)

Definition runCallback (cb : Callback) (g : Game) : Outcome :=
  match cb with
  | CbStartNextWave => Normal (startNextWave g)
  | CbShowMessages index count => Normal (showMessages index count g)
  | CbBeginBossFight => beginBossFight g
  | CbMeleeSweep playerPos forward => Normal (meleeSweep playerPos forward g)
  | CbRingShot i => ringShot i g
  end.

(** The [i]-th pending timer fires. *)
Definition fireTimer (i : nat) (g : Game) : Outcome :=
  match timers g !! i with
  | Some (_, cb) => runCallback cb (set_timers (delete i (timers g)) g)
  | None => Normal g
  end.

End Model.

(** ** The state before the first [resetGame] *)

(** Field initialisers of the class; [player] and [wave] are assigned by
    [resetGame] and [startNextWave] before their first use, so their value
    here is never read. *)
Definition blankPlayer : Player :=
  mkPlayer 0 0 0 0 0 0 0 false 0 false false 0 false 0 false 0 false 0 0 0
    false 0 false 0 false 0 false false 0.

Definition constructed : Game :=
  mkGame start_screen None false 0%Z W1 blankPlayer (mkWave 0 0 0 0 0 0)
    None [] ∅ 0%nat ∅ [] [] [] [] [] None None 0 vzero 0 0 0 0%nat [] [].

(** ** A host to run the model on concrete states *)

(** Square root of a rational, exact whenever the argument is the square of
    a rational and rounded down on the numerator otherwise. *)
Definition sqrtDown (x : Q) : Q :=
  Qmake (Z.sqrt (Qnum x * Zpos (Qden x))) (Qden x).

Definition lengthSq (a : Vector3) : Q := vx a * vx a + vy a * vy a + vz a * vz a.

(** Euclidean distances through [sqrtDown]; directions are left unscaled and
    unrotated, every random draw is [0], and no wall is ever hit. *)
Definition testHost : Host :=
  mkHost (λ _, 0) (λ _, 0) (λ _, 1) 3.14159
    (λ a b, sqrtDown (lengthSq (subVectors a b)))
    (λ a, a)
    (λ _ _, 0)
    (λ a _, a)
    (λ position _ v, subVectors v position)
    (λ _ _, vzero)
    (λ _ _, mkVector3 0 0 (-1))
    (λ position _ _, position)
    (λ _ _ _, false).

(** * Vocabulary of the properties *)

(** ** Counting effects in the trace *)

Definition isDefeatOf (r : Ref) (ev : Event) : bool :=
  match ev with EvEnemyDefeated x => Nat.eqb x r | _ => false end.
Definition isLootRollOf (r : Ref) (ev : Event) : bool :=
  match ev with EvLootRoll x _ => Nat.eqb x r | _ => false end.
Definition isBossDefeat (ev : Event) : bool :=
  match ev with EvBossDefeated _ => true | _ => false end.
Definition isBossSequence (ev : Event) : bool :=
  match ev with EvBossSequence => true | _ => false end.
Definition isShot (ev : Event) : bool :=
  match ev with EvShot _ => true | _ => false end.
Definition isVictory (ev : Event) : bool :=
  match ev with EvVictory => true | _ => false end.

Definition count (P : Event -> bool) (g : Game) : nat :=
  length (List.filter P (trace g)).

(** ** Well-formed registry *)

(** Every registered enemy and the active boss are objects of the right
    kind with non-negative contact damage and, except possibly for the
    object [x] whose death is being resolved, positive hit points; no enemy
    is registered twice; object identities are allocated in order. *)
Definition regOKx (x : option Ref) (g : Game) : Prop :=
  NoDup (enemies g)
  /\ (forall r, r ∈ enemies g ->
        exists e t, heap g !! r = Some e /\ ent_kind e = IsEnemy t
                    /\ 0 <= ent_damage e /\ (x <> Some r -> 0 < ent_hp e))
  /\ (forall b, boss g = Some b ->
        exists e bd, heap g !! b = Some e /\ ent_kind e = IsBoss bd
                     /\ 0 <= ent_damage e /\ (x <> Some b -> 0 < ent_hp e))
  /\ (forall r, is_Some (heap g !! r) -> (r < nextRef g)%nat).

Definition regOK (g : Game) : Prop := regOKx None g.

(** ** What a damage call may change *)

(** [x] was registered in [g] and is no longer registered in [g']. *)
Definition removed (x : Ref) (g g' : Game) : nat :=
  if decide (x ∈ enemies g /\ x ∉ enemies g') then 1%nat else 0%nat.

Record Accounted (g g' : Game) : Prop := mkAccounted {
  acc_sub : sublist (enemies g') (enemies g);
  acc_defeat : forall x,
    count (isDefeatOf x) g' = (count (isDefeatOf x) g + removed x g g')%nat;
  acc_loot : forall x,
    count (isLootRollOf x) g' = (count (isLootRollOf x) g + removed x g g')%nat;
  acc_killed :
    killedInWave (wave g')
    = (killedInWave (wave g)
       + Z.of_nat (length (enemies g) - length (enemies g')))%Z;
  acc_player : player g' = player g;
  acc_level : currentLevel g' = currentLevel g;
  acc_shots : count isShot g' = count isShot g;
  acc_hazard : forall p, p ∈ particles g' -> isHazard p = true -> p ∈ particles g
}.

(** ** The frame invariant *)

Definition hazardDamage (p : Particle) : Q :=
  match p with
  | Regular _ => 0
  | Shockwave _ _ _ d | ShockwaveRing _ _ _ d _ | SweepingLaser _ _ _ d _ => d
  end.

Definition PlayerBounds (p : Player) : Prop :=
  0 <= hp p /\ hp p <= maxHp p /\ 0 <= stamina p /\ stamina p <= maxStamina p.

Record Inv (g : Game) : Prop := mkInv {
  inv_reg : regOK g;
  inv_player : PlayerBounds (player g);
  inv_maxStamina : maxStamina (player g) = CONFIG.PLAYER.STAMINA;
  inv_hazards : Forall (λ p, 0 <= hazardDamage p) (particles g);
  inv_level : (0 <= currentLevel g)%Z
}.

(** The bounds of section 8, as they read at the end of a frame. *)
Definition TickBounds (g : Game) : Prop :=
  (0 <= hp (player g) /\ hp (player g) <= maxHp (player g))
  /\ (0 <= stamina (player g) /\ stamina (player g) <= maxStamina (player g))
  /\ (forall r, r ∈ enemies g -> exists e, heap g !! r = Some e /\ 0 < ent_hp e)
  /\ (forall b, boss g = Some b -> exists e, heap g !! b = Some e /\ 0 < ent_hp e).

(** ** Everything that can happen to a game *)

Inductive step `{Host} : Game -> Game -> Prop :=
  | step_frame deltaTime g : 0 <= deltaTime -> step g (stateOf (animate deltaTime g))
  | step_timer i g : step g (stateOf (fireTimer i g))
  | step_reset isNGP g : step g (resetGame isNGP g)
  | step_quit g : step g (quitToMainMenu g)
  | step_pause g : step g (togglePause g)
  | step_keyDown code g : step g (onKeyDown code g)
  | step_keyUp code g : step g (onKeyUp code g)
  | step_mouseDown button g : step g (onMouseDown button g)
  | step_mouseUp button g : step g (onMouseUp button g)
  | step_mouseMove mx my g : step g (onMouseMove mx my g)
  | step_shake yaw pitch g : step g (set_cameraRotationX pitch (set_rotationY yaw g)).

(** States reachable once the player has pressed start. *)
Inductive reachable `{Host} : Game -> Prop :=
  | reach_start isNGP : reachable (resetGame isNGP constructed)
  | reach_step g g' : reachable g -> step g g' -> reachable g'.

(** ** Pulling the trigger *)

(** The primary button goes down, a second passes, and the firing block of
    [updatePlayer] runs. *)
Definition pullTrigger `{Host} (g : Game) : Game :=
  updatePlayer_fire (set_elapsedTime (elapsedTime g + 1) (onMouseDown 0 g)).

(** A state transformer of the damage family keeps the registry well
    formed and is accounted for. *)
Definition DamageOp (f : Game -> Game) : Prop :=
  forall g, regOK g -> regOK (f g) /\ Accounted g (f g).

(** What a damage call never touches: the player, and every object outside
    the set [T]; objects never move, the boss reference can only be
    cleared, and the registry can only shrink. *)
Record Touch (T : Ref -> Prop) (g g' : Game) : Prop := mkTouch {
  t_player : player g' = player g;
  t_heap : forall r, ~ T r -> heap g' !! r = heap g !! r;
  t_position : forall r e', heap g' !! r = Some e' ->
    exists e, heap g !! r = Some e /\ ent_position e = ent_position e'
              /\ ent_kind e = ent_kind e';
  t_boss : boss g' = boss g \/ boss g' = None;
  t_sub : sublist (enemies g') (enemies g)
}.

(** An explosion routine fit to be called from [dealDamageWith]. *)
Definition ExplosionOp (explode : Vector3 -> Q -> Q -> nat -> Game -> Game) : Prop :=
  forall position radius damage count, DamageOp (explode position radius damage count).

(** The objects an explosion may hurt: the registered enemies inside its
    radius and the boss. *)
Definition inBlast `{Host} (position : Vector3) (radius : Q) (g : Game) (r : Ref)
    : Prop :=
  (exists e, heap g !! r = Some e
             /\ Qltb (distanceTo (ent_position e) position) radius = true
             /\ r ∈ enemies g)
  \/ boss g = Some r.

(** The player after a hit or a pickup: only [hp], [lastHitTime] and
    [reserveAmmo] may differ. *)
Definition hitOnly (p p' : Player) : Prop :=
  exists h t a, p' = set_reserveAmmo a (set_lastHitTime t (set_hp h p)).

(** Everything the frame invariant reads, apart from the player, is as it
    was; particles may have come or gone, but no new hazard. *)
Definition sameWorld (g g' : Game) : Prop :=
  enemies g' = enemies g /\ boss g' = boss g /\ heap g' = heap g
  /\ nextRef g' = nextRef g /\ currentLevel g' = currentLevel g
  /\ (forall p, p ∈ particles g' -> isHazard p = true -> p ∈ particles g).

(** A step that changes nothing the registry, the accounting or the frame
    invariant can see. *)
Definition quiet (g g' : Game) : Prop :=
  sameWorld g g' /\ player g' = player g /\ trace g' = trace g /\ wave g' = wave g.

(** What a step of the frame outside [updatePlayer] may do to the player:
    hit them or hand over a pickup; and it never emits a shot. *)
Definition Stepped (g g' : Game) : Prop :=
  hitOnly (player g) (player g') /\ count isShot g' = count isShot g.

(** A step of the frame that keeps the invariant. *)
Definition FrameOp (f : Game -> Game) : Prop :=
  forall g, Inv g -> Inv (f g) /\ Stepped g (f g).

(** The four player fields the bounds of section 8 speak about. *)
Definition sameVitals (p p' : Player) : Prop :=
  hp p' = hp p /\ maxHp p' = maxHp p /\ stamina p' = stamina p
  /\ maxStamina p' = maxStamina p.

(** The guard of the firing block of [updatePlayer]. *)
Definition fireReady `{Host} (g : Game) : bool :=
  let p := player g in
  let shootCooldown := if z_active p then CONFIG.LASER_MODE.COOLDOWN
                       else W_COOLDOWN (CONFIG.WEAPON (weaponLevel g)) in
  key "mouse0" g && Qltb (lastShotTime p + shootCooldown) (elapsedTime g)
  && negb (reloading p) && negb (melee_attacking p).

(** What melee, the three skills and their timers leave alone: the world,
    the trace, the keys, the clock, and the player's aim, reload, magazine
    and bounds. *)
Definition actionFrame (g g' : Game) : Prop :=
  sameWorld g g' /\ trace g' = trace g /\ keys g' = keys g
  /\ elapsedTime g' = elapsedTime g /\ gameState g' = gameState g
  /\ bullets g' = bullets g
  /\ isAiming (player g') = isAiming (player g)
  /\ reloading (player g') = reloading (player g)
  /\ ammoInMagazine (player g') = ammoInMagazine (player g)
  /\ maxHp (player g') = maxHp (player g)
  /\ stamina (player g') = stamina (player g)
  /\ maxStamina (player g') = maxStamina (player g)
  /\ q_unlocked (player g') = q_unlocked (player g).

(** Two versions of an object that differ at most in where it is and, for
    a boss, in its attack timer and weak point. *)
Definition sameClass (e e' : Entity) : Prop :=
  ent_hp e' = ent_hp e /\ ent_damage e' = ent_damage e
  /\ match ent_kind e, ent_kind e' with
     | IsEnemy t, IsEnemy t' => t = t'
     | IsBoss _, IsBoss _ => True
     | _, _ => False
     end.

(** What the rest of a frame, after [updatePlayer], does to the player's
    actions: it emits no shot, it leaves the aim as it is, and the heal
    cooldown does not grow. *)
Definition Settled (g g' : Game) : Prop :=
  count isShot g' = count isShot g
  /\ isAiming (player g') = isAiming (player g)
  /\ q_cooldown (player g') <= q_cooldown (player g).

(** ** Reading the boss *)

Definition bossHp (g : Game) : option Q :=
  match boss g with
  | Some b => ent_hp <$> heap g !! b
  | None => None
  end.


(** The boss-death sequence ran once between [g] and [g']: the boss [b] is
    gone, its bullets and hazards with it, the game is won or goes back to
    the wave transition, and nothing of the boss can act any more. *)
Definition bossDeathRan `{Host} (b : Ref) (g g' : Game) : Prop :=
  boss g' = None /\ bossBullets g' = []
  /\ Forall (λ p, isHazard p = false) (particles g')
  /\ count isBossDefeat g' = S (count isBossDefeat g)
  /\ gameState g' = (if (CONFIG.GAME.MAX_LEVEL <=? currentLevel g)%Z
                     then victory else wave_transition)
  /\ count isVictory g' = ((if (CONFIG.GAME.MAX_LEVEL <=? currentLevel g)%Z
                            then 1 else 0) + count isVictory g)%nat
  /\ timers g' = (if (CONFIG.GAME.MAX_LEVEL <=? currentLevel g)%Z
                  then timers g else timers g ++ [(4000, CbStartNextWave)])
  /\ player g' = player g
  /\ (forall deltaTime, player (updateParticles deltaTime g') = player g')
  /\ stateOf (_checkBossBulletCollisions g') = g'
  /\ (forall i, ringShot i g' = Normal g')
  /\ (forall damage, damageBossDirect damage g' = g')
  /\ (forall damage fromExplosion, dealDamageTo b damage fromExplosion g' = g').

(** ** Checking a concrete registry *)

Definition soundObject (boss : bool) (e : Entity) : bool :=
  match ent_kind e, boss with
  | IsEnemy _, false | IsBoss _, true => Qleb 0 (ent_damage e) && Qltb 0 (ent_hp e)
  | _, _ => false
  end.

(** [regOK], computed. *)
Definition regOKb (g : Game) : bool :=
  bool_decide (NoDup (enemies g))
  && forallb (λ r, from_option (soundObject false) false (heap g !! r)) (enemies g)
  && match boss g with
     | Some b => from_option (soundObject true) false (heap g !! b)
     | None => true
     end
  && bool_decide (map_Forall (λ r _, (r < nextRef g)%nat) (heap g)).

(** * Sample states *)

(** The states below run on [testHost]. *)

(** A new game, and the same game once the timer of [startGame] has fired
    and the first wave has begun. *)
Definition freshGame : Game := resetGame false constructed.

Definition firstWave : Game := stateOf (fireTimer (H:=testHost) 0 freshGame).

(** The primary button goes down and a fifth of a second passes: a shot. *)
Definition afterShot : Game :=
  stateOf (animate (H:=testHost) 0.2 (onMouseDown 0 firstWave)).

(** [R] goes down and a frame passes: a reload is in progress. *)
Definition reloadingGame : Game :=
  stateOf (animate (H:=testHost) 0.016 (onKeyDown "KeyR" afterShot)).

(** [F] goes down and a frame passes: a melee swing is in progress. *)
Definition swingingGame : Game :=
  stateOf (animate (H:=testHost) 0.016 (onKeyDown "KeyF" firstWave)).

(** A scout with 25 hit points, ten units in front of the player. *)
Definition scout25 : Entity :=
  mkEntity 25 8 5.5 1.5 (mkVector3 0 1.6 (-10)) (IsEnemy Scout).

Definition scoutArena : Game :=
  let '(r, g) := alloc scout25 firstWave in set_enemies (enemies g ++ [r]) g.

(** A kamikaze in contact with the player, after the immunity window. *)
Definition kamikaze10 : Entity :=
  mkEntity 10 40 7 1.3 (mkVector3 0 1.6 0) (IsEnemy Kamikaze).

Definition kamikazeArena : Game :=
  let '(r, g) := alloc kamikaze10 (set_elapsedTime 10 firstWave) in
  set_enemies (enemies g ++ [r]) g.

(** The tier-3 boss with 2000 hit points, one of its bullets in flight and
    a shockwave on the ground. *)
Definition boss3 : Entity :=
  mkEntity 2000 25 4 9 (mkVector3 0 4.5 (-80))
    (IsBoss (mkBossData 2000 2.5 None)).

Definition bossArena3 : Game :=
  let g := set_currentLevel 3 (changeGameState boss_fight firstWave) in
  let '(r, g) := alloc boss3 g in
  let g := set_boss (Some r) g in
  let g := set_bossBullets [mkBossBullet (mkVector3 0 4.5 (-60))
                              (mkVector3 0 0 30) false] g in
  set_particles [Shockwave 3 (mkVector3 0 0.1 (-80)) 1 20] g.

(** The final boss, whole, its weak point at [(3, 20, -80)] holding 500 of
    500 points, and a bullet of the player inside the weak point. *)
Definition boss5 : Entity :=
  mkEntity 10000 40 2 30 (mkVector3 0 15 (-80))
    (IsBoss (mkBossData 10000 5
               (Some (mkWeakPoint (mkVector3 3 20 (-80)) 500 500 0)))).

Definition finalArena : Game :=
  let g := set_currentLevel 5 (changeGameState boss_fight firstWave) in
  let '(r, g) := alloc boss5 g in
  let g := set_boss (Some r) g in
  set_bullets [mkBullet (mkVector3 3 20 (-80)) (mkVector3 0 0 (-150)) false false] g.

(** The player at 50 of 100 hit points with the heal unlocked and [Q] held. *)
Definition woundedGame : Game :=
  onKeyDown "KeyQ"
    (upd_player (λ p, set_q_unlocked true (set_hp 50 p)) firstWave).

(** The player behind an active shield, a boss bullet on them and a
    shockwave passing through them. *)
Definition shieldedGame : Game :=
  let g := upd_player (set_shield_active true) bossArena3 in
  let g := set_bossBullets [mkBossBullet (mkVector3 0 1.6 0)
                              (mkVector3 0 0 30) false] g in
  set_particles [Shockwave 3 (mkVector3 0 1.6 0) 1 20] g.
(** * Presentation state with logic of its own *)

(** ** Expiring lights ([createExplosion], [updateExpiringLights]) *)

(** An entry of [this.expiringLights]; of the [THREE.PointLight] only the
    intensity is kept. *)
Record ExpiringLight : Type := mkExpiringLight {
  el_lifespan : Q; el_maxLifespan : Q; el_intensity : Q
}.

(** [for (let i = n - 1; i >= 0; i--) body(i)] over any state. *)
Fixpoint forDownOn {S : Type} (n : nat) (body : nat -> S -> S) (s : S) : S :=
  match n with
  | O => s
  | S i => forDownOn i body (body i s)
  end.

(** An index past the end would make [l.lifespan] throw; the loop never
    reaches one, and the list is then left as it is. *)
Definition updateExpiringLights (deltaTime : Q) (lights : list ExpiringLight)
    : list ExpiringLight :=
  forDownOn (length lights)
    (λ i lights,
       match lights !! i with
       | Some l =>
           let lifespan := el_lifespan l - deltaTime in
           if Qleb lifespan 0 then delete i lights
           else <[i := mkExpiringLight lifespan (el_maxLifespan l)
                         (15 * (lifespan / el_maxLifespan l))]> lights
       | None => lights
       end) lights.

(** ** Screen shake ([triggerScreenShake], [updateScreenShake]) *)




(** * Vocabulary of the further properties *)

(** A bullet after [deltaTime] seconds of flight. *)
Definition flownBullet (deltaTime : Q) (b : Bullet) : Bullet :=
  mkBullet (vadd (b_position b) (multiplyScalar (b_velocity b) deltaTime))
    (b_velocity b) (isLaser b) (isExplosive b).

Definition flownDroneBullet (deltaTime : Q) (b : DroneBullet) : DroneBullet :=
  mkDroneBullet (vadd (db_position b) (multiplyScalar (db_velocity b) deltaTime))
    (db_velocity b).

Definition flownBossBullet (deltaTime : Q) (b : BossBullet) : BossBullet :=
  mkBossBullet (vadd (bb_position b) (multiplyScalar (bb_velocity b) deltaTime))
    (bb_velocity b) (bb_isLaser b).

(** A light after [deltaTime] seconds, if it is still lit. *)
Definition agedLight (deltaTime : Q) (l : ExpiringLight) : option ExpiringLight :=
  if Qleb (el_lifespan l - deltaTime) 0 then None
  else Some (mkExpiringLight (el_lifespan l - deltaTime) (el_maxLifespan l)
               (15 * ((el_lifespan l - deltaTime) / el_maxLifespan l))).

(** The fields of the player a hit, a reload or a skill never touches and a
    new game resets: the player as [resetGame] makes it. *)
Definition newPlayer (isNGP : bool) : Player :=
  mkPlayer 100 100 100 100 30 30 90 false 0 false isNGP 0 isNGP 0 false 0
    false 0 0 0 false 0 false 0 false 0 false false 0.

(** * Further sample states *)

(** The wounded player of scenario 3 with a health pack at their feet and
    an ammunition box thirty units away. *)
Definition pickupArena : Game :=
  set_pickups [mkPickup Health (mkVector3 0 0.5 0); mkPickup Ammo (mkVector3 0 0.5 30)]
    woundedGame.


(** The primary button held for a second in the first wave. *)
Definition triggerHeld : Game :=
  set_elapsedTime (elapsedTime firstWave + 1) (onMouseDown 0 firstWave).

(** The scout arena with the drone deployed, ten seconds in. *)
Definition droneArena : Game := set_elapsedTime 10 (spawnDrone scoutArena).



(** * Proofs *)

(** ** Comparisons on numbers *)

Lemma Qleb_le (x y : Q) : Qleb x y = true <-> x <= y.
Proof. unfold Qleb. apply Qle_bool_iff. Qed.

Lemma Qleb_gt (x y : Q) : Qleb x y = false <-> y < x.
Proof.
  rewrite <- not_true_iff_false, Qleb_le. split; intros; lra.
Qed.

Lemma Qltb_lt (x y : Q) : Qltb x y = true <-> x < y.
Proof. unfold Qltb. rewrite negb_true_iff. apply Qleb_gt. Qed.

Lemma Qltb_ge (x y : Q) : Qltb x y = false <-> y <= x.
Proof. unfold Qltb. rewrite negb_false_iff. apply Qleb_le. Qed.

(** Turn boolean comparisons in the context into propositions. *)
Ltac qbool :=
  repeat match goal with
    | H : Qleb _ _ = true |- _ => apply Qleb_le in H
    | H : Qleb _ _ = false |- _ => apply Qleb_gt in H
    | H : Qltb _ _ = true |- _ => apply Qltb_lt in H
    | H : Qltb _ _ = false |- _ => apply Qltb_ge in H
    end.

(** ** Loops *)

Lemma forDown_inv (P : Game -> Prop) (body : nat -> Game -> Game) :
  (forall i g, P g -> P (body i g)) ->
  forall n g, P g -> P (forDown n body g).
Proof.
  intros Hbody n. induction n as [|n IH]; intros g Hg; simpl; auto.
Qed.

Lemma forDownM_inv `{Host} (P : Game -> Prop) (body : nat -> Game -> Outcome) :
  (forall i g, P g -> P (stateOf (body i g))) ->
  forall n g, P g -> P (stateOf (forDownM n body g)).
Proof.
  intros Hbody n. induction n as [|n IH]; intros g Hg; simpl; auto.
  specialize (Hbody n g Hg). destruct (body n g) as [g'|g']; simpl in *; auto.
Qed.

Lemma fold_left_inv {A} (P : Game -> Prop) (f : Game -> A -> Game) :
  (forall g a, P g -> P (f g a)) ->
  forall l g, P g -> P (fold_left f l g).
Proof.
  intros Hf l. induction l as [|a l IH]; intros g Hg; simpl; auto.
Qed.

Lemma andThen_inv `{Host} (P : Game -> Prop) (o : Outcome) (k : Game -> Outcome) :
  P (stateOf o) -> (forall g, P g -> P (stateOf (k g))) -> P (stateOf (andThen o k)).
Proof. destruct o; simpl; auto. Qed.

(** ** Counting *)

Lemma count_emit (P : Event -> bool) ev g :
  count P (emit ev g) = ((if P ev then 1 else 0) + count P g)%nat.
Proof. unfold count, emit. simpl. destruct (P ev); reflexivity. Qed.

Lemma count_same (P : Event -> bool) g g' :
  trace g' = trace g -> count P g' = count P g.
Proof. unfold count. intros ->. reflexivity. Qed.

(** ** Reading fields through setters *)

(** Reduce projections applied to setters without touching anything else. *)
Ltac gsimpl :=
  cbn [hp maxHp stamina maxStamina ammoInMagazine maxAmmoInMagazine reserveAmmo
       reloading reloadTime isAiming q_unlocked q_cooldown z_unlocked z_cooldown
       z_active z_duration melee_attacking melee_cooldown melee_swingTime
       lastHitTime shield_unlocked shield_cooldown shield_active shield_duration
       drone_unlocked velocityY onGround sprinting lastShotTime totalToKill
       killedInWave spawnedInWave spawnInterval spawnTimer maxConcurrent ent_hp
       ent_damage ent_speed ent_size ent_position ent_kind gameState
       previousGameState isNewGamePlus currentLevel weaponLevel player wave boss
       enemies heap nextRef keys bullets bossBullets droneBullets pickups
       particles drone droneTarget lastDroneShotTime playerPosition rotationY
       cameraRotationX elapsedTime rngPos timers trace set_hp set_maxHp
       set_stamina set_maxStamina set_ammoInMagazine set_maxAmmoInMagazine
       set_reserveAmmo set_reloading set_reloadTime set_isAiming set_q_unlocked
       set_q_cooldown set_z_unlocked set_z_cooldown set_z_active set_z_duration
       set_melee_attacking set_melee_cooldown set_melee_swingTime
       set_lastHitTime set_shield_unlocked set_shield_cooldown set_shield_active
       set_shield_duration set_drone_unlocked set_velocityY set_onGround
       set_sprinting set_lastShotTime set_totalToKill set_killedInWave
       set_spawnedInWave set_spawnInterval set_spawnTimer set_maxConcurrent
       set_ent_hp set_ent_position set_ent_kind set_gameState
       set_previousGameState set_isNewGamePlus set_currentLevel set_weaponLevel
       set_player set_wave set_boss set_enemies set_heap set_nextRef set_keys
       set_bullets set_bossBullets set_droneBullets set_pickups set_particles
       set_drone set_droneTarget set_lastDroneShotTime set_playerPosition
       set_rotationY set_cameraRotationX set_elapsedTime set_rngPos set_timers
       set_trace emit setTimeout changeGameState upd_player upd_wave store random
       createExplosion createHealEffect createMeleeSwingEffect
       fst snd stateOf andThen] in *.

(** The same, and count the events at the head of the trace. *)
Ltac tsimpl :=
  unfold count in *; gsimpl;
  cbn [List.filter length isDefeatOf isLootRollOf isBossDefeat isBossSequence
       isShot isVictory] in *.

(** ** Symbolic execution of a state-passing body *)

(** [H : g' = body]: name the value bound by the outermost [let] of [body]
    and step into it. *)
Ltac sym_let H :=
  match type of H with
  | context [let x := ?e in _] =>
      let y := fresh "s" in
      let Ey := fresh "E" y in
      remember e as y eqn:Ey in H;
      match type of H with
      | context G [let x := y in @?b x] =>
          let b' := eval cbv beta in (b y) in
          let G' := context G [b'] in change G' in H
      end
  end.

(** [H : g' = body]: name both components of the pair a [let '(x, y) := e]
    of [body] takes apart. *)
Ltac sym_pair H :=
  match type of H with
  | context [match ?e with pair _ _ => _ end] =>
      let rp := fresh "rp" in
      let E := fresh "Ep" in
      remember e as rp eqn:E in H;
      let a := fresh "v" in
      let b := fresh "s" in
      destruct rp as [a b];
      cbv beta iota in H;
      cbv beta iota delta [random randFloat] in E;
      try (injection E as ? ?)
  end.

Ltac sym_run H :=
  cbv beta iota in H;
  repeat first [ sym_let H; cbv beta iota in H | sym_pair H ].

(** Projections of interest of a state are kept as equations over the
    initial state. *)
Ltac gsimpl_in H :=
  cbn [hp maxHp stamina maxStamina ammoInMagazine maxAmmoInMagazine reserveAmmo
       reloading reloadTime isAiming q_unlocked q_cooldown z_unlocked z_cooldown
       z_active z_duration melee_attacking melee_cooldown melee_swingTime
       lastHitTime shield_unlocked shield_cooldown shield_active shield_duration
       drone_unlocked velocityY onGround sprinting lastShotTime totalToKill
       killedInWave spawnedInWave spawnInterval spawnTimer maxConcurrent ent_hp
       ent_damage ent_speed ent_size ent_position ent_kind gameState
       previousGameState isNewGamePlus currentLevel weaponLevel player wave boss
       enemies heap nextRef keys bullets bossBullets droneBullets pickups
       particles drone droneTarget lastDroneShotTime playerPosition rotationY
       cameraRotationX elapsedTime rngPos timers trace set_hp set_maxHp
       set_stamina set_maxStamina set_ammoInMagazine set_maxAmmoInMagazine
       set_reserveAmmo set_reloading set_reloadTime set_isAiming set_q_unlocked
       set_q_cooldown set_z_unlocked set_z_cooldown set_z_active set_z_duration
       set_melee_attacking set_melee_cooldown set_melee_swingTime
       set_lastHitTime set_shield_unlocked set_shield_cooldown set_shield_active
       set_shield_duration set_drone_unlocked set_velocityY set_onGround
       set_sprinting set_lastShotTime set_totalToKill set_killedInWave
       set_spawnedInWave set_spawnInterval set_spawnTimer set_maxConcurrent
       set_ent_hp set_ent_position set_ent_kind set_gameState
       set_previousGameState set_isNewGamePlus set_currentLevel set_weaponLevel
       set_player set_wave set_boss set_enemies set_heap set_nextRef set_keys
       set_bullets set_bossBullets set_droneBullets set_pickups set_particles
       set_drone set_droneTarget set_lastDroneShotTime set_playerPosition
       set_rotationY set_cameraRotationX set_elapsedTime set_rngPos set_timers
       set_trace emit setTimeout changeGameState upd_player upd_wave store random
       createExplosion createHealEffect createMeleeSwingEffect
       fst snd stateOf andThen
       _spawnPickup triggerBossSequence] in H.

Ltac rewrite_tracked_in Hp :=
  repeat match goal with
    | H : ?p ?x = _ |- _ =>
        is_var x; lazymatch type of x with Game => idtac end;
        lazymatch H with Hp => fail | _ => idtac end;
        progress rewrite H in Hp
    end.

Ltac track_proj p E :=
  let Hp := fresh "T" in
  pose proof (f_equal p E) as Hp;
  gsimpl_in Hp; rewrite_tracked_in Hp.

Ltac track_eq E :=
  rewrite_tracked_in E;
  repeat lazymatch type of E with
    | _ = (if ?c then _ else _) =>
        let Hc := fresh "C" in destruct c eqn:Hc
    end;
  track_proj enemies E; track_proj boss E; track_proj heap E;
  track_proj nextRef E; track_proj player E; track_proj wave E;
  track_proj currentLevel E; track_proj trace E; track_proj particles E;
  track_proj gameState E.

Ltac track_all :=
  repeat match reverse goal with
    | E : ?y = _ |- _ =>
        is_var y; lazymatch type of y with Game => idtac end;
        track_eq E; clear E
    end.

Ltac use_tracked :=
  repeat match goal with
    | H : ?p ?x = _ |- _ =>
        is_var x; lazymatch type of x with Game => idtac end;
        progress rewrite H
    end.


(** Read the goal's projections of the final state back through the named
    intermediate states, newest first. *)
Ltac is_state y :=
  is_var y;
  lazymatch type of y with
  | Game => idtac
  | Player => idtac
  end.

Ltac unwind :=
  repeat match goal with
    | E : ?y = ?rhs |- _ =>
        is_state y;
        lazymatch rhs with
        | (if ?c then _ else _) => destruct c eqn:?
        | _ => idtac
        end;
        subst y; gsimpl
    | E : (?a, ?y) = ?rhs |- _ =>
        is_state y;
        lazymatch rhs with
        | (if ?c then _ else _) => destruct c eqn:?
        | _ => idtac
        end;
        injection E as ? ?; subst y; gsimpl
    end.


(** ** The registry *)

Ltac split4 := split; [|split; [|split]].
Ltac split3d := split; [done|split; [done|split; [done|]]].

Lemma regOKx_same x g g' :
  enemies g' = enemies g -> boss g' = boss g -> heap g' = heap g ->
  nextRef g' = nextRef g -> regOKx x g -> regOKx x g'.
Proof. unfold regOKx. intros -> -> -> ->. auto. Qed.

Lemma regOK_weaken x g : regOK g -> regOKx x g.
Proof.
  intros (Hnd & He & Hb & Hn). split4; auto.
  - intros r Hr. destruct (He r Hr) as (e & t & ? & ? & ? & Hhp).
    exists e, t. split3d. intros _. apply Hhp. discriminate.
  - intros b Hbo. destruct (Hb b Hbo) as (e & t & ? & ? & ? & Hhp).
    exists e, t. split3d. intros _. apply Hhp. discriminate.
Qed.

(** Removing the exception restores the invariant when the excepted object
    is not registered (any more). *)
Lemma regOKx_strengthen r g :
  regOKx (Some r) g -> r ∉ enemies g -> boss g <> Some r -> regOK g.
Proof.
  intros (Hnd & He & Hb & Hn) Hnotin Hnb. split4; auto.
  - intros r' Hr'. destruct (He r' Hr') as (e & t & ? & ? & ? & Hhp).
    exists e, t. split3d. intros _. apply Hhp. congruence.
  - intros b Hbo. destruct (Hb b Hbo) as (e & t & ? & ? & ? & Hhp).
    exists e, t. split3d. intros _. apply Hhp. congruence.
Qed.

Lemma regOKx_alive r g e :
  regOKx (Some r) g -> heap g !! r = Some e -> 0 < ent_hp e -> regOK g.
Proof.
  intros (Hnd & He & Hb & Hn) Hr Hpos. split4; auto.
  - intros r' Hr'. destruct (He r' Hr') as (e' & t & Hl & ? & ? & Hhp).
    exists e', t. split3d. intros _.
    destruct (decide (r' = r)) as [->|Hne]; [congruence|]. apply Hhp. congruence.
  - intros b Hbo. destruct (Hb b Hbo) as (e' & t & Hl & ? & ? & Hhp).
    exists e', t. split3d. intros _.
    destruct (decide (b = r)) as [->|Hne]; [congruence|]. apply Hhp. congruence.
Qed.

Lemma setHp_fields r v g :
  enemies (setHp r v g) = enemies g /\ boss (setHp r v g) = boss g
  /\ nextRef (setHp r v g) = nextRef g /\ trace (setHp r v g) = trace g
  /\ wave (setHp r v g) = wave g /\ player (setHp r v g) = player g
  /\ currentLevel (setHp r v g) = currentLevel g
  /\ particles (setHp r v g) = particles g.
Proof. unfold setHp. destruct (heap g !! r); simpl; auto 10. Qed.

Lemma setHp_lookup r v g r' :
  heap (setHp r v g) !! r'
  = if decide (r' = r) then set_ent_hp v <$> heap g !! r else heap g !! r'.
Proof.
  unfold setHp. destruct (heap g !! r) as [e|] eqn:He; simpl.
  - rewrite lookup_insert. destruct (decide (r = r')), (decide (r' = r)); congruence.
  - destruct (decide (r' = r)); congruence.
Qed.

Lemma regOKx_setHp x r v g :
  regOKx x g -> x = None \/ x = Some r -> regOKx (Some r) (setHp r v g).
Proof.
  intros (Hnd & He & Hb & Hn) Hx.
  destruct (setHp_fields r v g) as (E1 & E2 & E3 & _).
  unfold regOKx. rewrite E1, E2, E3. split4; auto.
  - intros r' Hr'. destruct (He r' Hr') as (e & t & Hl & Hk & Hd & Hhp).
    rewrite setHp_lookup. destruct (decide (r' = r)) as [->|Hne].
    + rewrite Hl. simpl. exists (set_ent_hp v e), t. split3d. congruence.
    + exists e, t. split3d. intros _. apply Hhp.
      destruct Hx; subst; congruence.
  - intros b Hbo. destruct (Hb b Hbo) as (e & t & Hl & Hk & Hd & Hhp).
    rewrite setHp_lookup. destruct (decide (b = r)) as [->|Hne].
    + rewrite Hl. simpl. exists (set_ent_hp v e), t. split3d. congruence.
    + exists e, t. split3d. intros _. apply Hhp.
      destruct Hx; subst; congruence.
  - intros r' Hs. apply Hn. rewrite setHp_lookup in Hs.
    case_decide; subst; auto.
    destruct (heap g !! r) eqn:E; [eauto|]. exfalso. eapply is_Some_None. exact Hs.
Qed.

(** ** Accounting *)

Lemma removed_same x g g' : enemies g' = enemies g -> removed x g g' = 0%nat.
Proof.
  intros E. unfold removed. rewrite E. case_decide; [|reflexivity]. tauto.
Qed.

Lemma Accounted_quiet g g' :
  enemies g' = enemies g ->
  (forall x, count (isDefeatOf x) g' = count (isDefeatOf x) g) ->
  (forall x, count (isLootRollOf x) g' = count (isLootRollOf x) g) ->
  count isShot g' = count isShot g ->
  wave g' = wave g -> player g' = player g -> currentLevel g' = currentLevel g ->
  (forall p, p ∈ particles g' -> isHazard p = true -> p ∈ particles g) ->
  Accounted g g'.
Proof.
  intros E Hd Hl Hs Hw Hp Hlv Hh. constructor; auto.
  - rewrite E. reflexivity.
  - intros x. rewrite Hd, removed_same by done. lia.
  - intros x. rewrite Hl, removed_same by done. lia.
  - rewrite Hw, E. lia.
Qed.

Lemma Accounted_refl g : Accounted g g.
Proof. apply Accounted_quiet; auto. Qed.

Lemma removed_trans x g0 g1 g2 :
  sublist (enemies g1) (enemies g0) -> sublist (enemies g2) (enemies g1) ->
  removed x g0 g2 = (removed x g0 g1 + removed x g1 g2)%nat.
Proof.
  intros S1 S2. unfold removed.
  assert (H1 : x ∈ enemies g1 -> x ∈ enemies g0) by (apply sublist_subseteq, S1).
  assert (H2 : x ∈ enemies g2 -> x ∈ enemies g1) by (apply sublist_subseteq, S2).
  destruct (decide (x ∈ enemies g1)); repeat case_decide; try reflexivity; tauto.
Qed.

Lemma Accounted_trans g0 g1 g2 : Accounted g0 g1 -> Accounted g1 g2 -> Accounted g0 g2.
Proof.
  intros [S1 D1 L1 K1 P1 V1 T1 H1] [S2 D2 L2 K2 P2 V2 T2 H2]. constructor.
  - etrans; eauto.
  - intros x. rewrite D2, D1, (removed_trans x g0 g1 g2) by done. lia.
  - intros x. rewrite L2, L1, (removed_trans x g0 g1 g2) by done. lia.
  - rewrite K2, K1. apply sublist_length in S1, S2. lia.
  - congruence.
  - congruence.
  - congruence.
  - auto.
Qed.


(** ** Visual particles never are hazards *)

Lemma visualParticles_regular `{Host} n d life k p :
  p ∈ visualParticles n d life k -> isHazard p = false.
Proof.
  revert k. induction n as [|n IH]; intros k; simpl.
  - intros Hp. by apply elem_of_nil in Hp.
  - intros [->|Hp]%elem_of_cons; [reflexivity|eauto].
Qed.

Lemma hazard_app_regular (ps l : list Particle) p :
  (forall q, q ∈ l -> isHazard q = false) ->
  p ∈ ps ++ l -> isHazard p = true -> p ∈ ps.
Proof.
  intros Hl [Hp|Hp]%elem_of_app Hh; [done|]. apply Hl in Hp. congruence.
Qed.

(** Particles appended by the model's effects are regular. *)
Ltac regular_tail :=
  apply hazard_app_regular;
  let q := fresh "q" in let Hq := fresh "Hq" in
  intros q Hq;
  repeat match type of Hq with
         | _ ∈ _ :: _ => apply elem_of_cons in Hq as [->|Hq]; [reflexivity|]
         end;
  lazymatch type of Hq with
  | _ ∈ [] => by apply elem_of_nil in Hq
  | _ ∈ visualParticles _ _ _ _ => eapply visualParticles_regular; exact Hq
  end.

Section DamageFamily.
Context `{Host}.

Lemma createExplosion_hazard position n g p :
  p ∈ particles (createExplosion position n g) -> isHazard p = true -> p ∈ particles g.
Proof.
  unfold createExplosion. simpl. apply hazard_app_regular.
  intros q [->|Hq]%elem_of_cons; [reflexivity|].
  eapply visualParticles_regular; eauto.
Qed.

Lemma createExplosion_acc position n g : Accounted g (createExplosion position n g).
Proof.
  apply Accounted_quiet; try reflexivity. apply createExplosion_hazard.
Qed.

Lemma createExplosion_reg x position n g :
  regOKx x g -> regOKx x (createExplosion position n g).
Proof. apply regOKx_same; reflexivity. Qed.

(** ** Deleting from a duplicate-free registry *)

Lemma NoDup_delete_lookup (l : list Ref) i r x :
  NoDup l -> l !! i = Some r -> x ∈ delete i l <-> x ∈ l /\ x <> r.
Proof.
  revert i. induction l as [|a l IH]; intros i Hnd Hi; [done|].
  apply NoDup_cons in Hnd as [Ha Hnd].
  destruct i as [|i]; simpl in *.
  - injection Hi as ->. rewrite elem_of_cons. split.
    + intros Hx. split; [auto|]. intros ->. done.
    + intros [[->|Hx] Hne]; done.
  - rewrite !elem_of_cons, (IH i Hnd Hi). split.
    + intros [->|[Hx Hne]]; [|tauto]. split; [auto|].
      intros ->. apply Ha. eapply list_elem_of_lookup_2; eauto.
    + tauto.
Qed.

Lemma removed_delete g g' i r x :
  NoDup (enemies g) -> enemies g !! i = Some r ->
  enemies g' = delete i (enemies g) ->
  removed x g g' = if Nat.eqb x r then 1%nat else 0%nat.
Proof.
  intros Hnd Hi E. unfold removed. rewrite E.
  pose proof (NoDup_delete_lookup (enemies g) i r x Hnd Hi) as Hiff.
  assert (Hr : r ∈ enemies g) by (eapply list_elem_of_lookup_2; eauto).
  destruct (Nat.eqb_spec x r) as [->|Hne]; case_decide; try reflexivity; tauto.
Qed.

(** ** An enemy's death sequence *)

Lemma onEnemyDefeated_fields r i g e t :
  heap g !! r = Some e -> ent_kind e = IsEnemy t ->
  let g' := onEnemyDefeated r i g in
  enemies g' = delete i (enemies g) /\ heap g' = heap g /\ boss g' = boss g
  /\ nextRef g' = nextRef g /\ player g' = player g
  /\ currentLevel g' = currentLevel g
  /\ wave g' = set_killedInWave (killedInWave (wave g) + 1)%Z (wave g)
  /\ (forall x, count (isDefeatOf x) g'
                = ((if Nat.eqb r x then 1 else 0) + count (isDefeatOf x) g)%nat)
  /\ (forall x, count (isLootRollOf x) g'
                = ((if Nat.eqb r x then 1 else 0) + count (isLootRollOf x) g)%nat)
  /\ count isShot g' = count isShot g
  /\ count isBossDefeat g' = count isBossDefeat g
  /\ count isBossSequence g'
     = ((if (totalToKill (wave g) <=? killedInWave (wave g) + 1)%Z
            && (length (delete i (enemies g)) =? 0)%nat then 1 else 0)
        + count isBossSequence g)%nat
  /\ (forall p, p ∈ particles g' -> isHazard p = true -> p ∈ particles g).
Proof.
  intros He Hk g'. assert (Hg' : g' = onEnemyDefeated r i g) by reflexivity.
  clearbody g'. cbv beta delta [onEnemyDefeated] in Hg'. rewrite He in Hg'.
  destruct e as [ehp edmg espd esz epos ek]. simpl in Hk. subst ek.
  sym_run Hg'. track_all; unfold count; use_tracked; gsimpl_in C0;
    cbn [List.filter length isDefeatOf isLootRollOf isBossDefeat isBossSequence isShot];
    rewrite ?C0;
    (split; [reflexivity|]); (split; [reflexivity|]); (split; [reflexivity|]);
    (split; [reflexivity|]); (split; [reflexivity|]); (split; [reflexivity|]);
    (split; [reflexivity|]);
    (split; [intros x; destruct (Nat.eqb r x); reflexivity|]);
    (split; [intros x; destruct (Nat.eqb r x); reflexivity|]);
    (split; [reflexivity|]); (split; [reflexivity|]); (split; [reflexivity|]);
    intros p; regular_tail.
Qed.

Lemma onEnemyDefeated_ok r i g :
  regOKx (Some r) g -> enemies g !! i = Some r ->
  regOK (onEnemyDefeated r i g) /\ Accounted g (onEnemyDefeated r i g).
Proof.
  intros Hreg Hi.
  assert (Hr : r ∈ enemies g) by (eapply list_elem_of_lookup_2; eauto).
  destruct Hreg as (Hnd & He & Hb & Hn).
  destruct (He r Hr) as (e & t & Hl & Hk & _).
  destruct (onEnemyDefeated_fields r i g e t Hl Hk)
    as (E1 & E2 & E3 & E4 & E5 & E6 & E7 & E8 & E9 & E10 & _ & _ & E13).
  split.
  - unfold regOK, regOKx. rewrite E1, E2, E3, E4. split4; auto.
    + eapply sublist_NoDup; [done|apply sublist_delete].
    + intros r' [Hr' Hne]%(NoDup_delete_lookup _ _ r); [|done..].
      destruct (He r' Hr') as (e' & t' & ? & ? & ? & Hhp).
      exists e', t'. split3d. intros _. apply Hhp. congruence.
    + intros b Hbo. destruct (Hb b Hbo) as (e' & bd & Hl' & Hk' & ? & Hhp).
      exists e', bd. split3d. intros _. apply Hhp. intros [= ->]. congruence.
  - constructor; auto.
    + rewrite E1. apply sublist_delete.
    + intros x. rewrite E8, (removed_delete g _ i r x) by done.
      rewrite (Nat.eqb_sym r x). lia.
    + intros x. rewrite E9, (removed_delete g _ i r x) by done.
      rewrite (Nat.eqb_sym r x). lia.
    + rewrite E7, E1. simpl. rewrite length_delete by eauto.
      apply lookup_lt_Some in Hi. lia.
Qed.

(** ** The boss's death sequence *)

Lemma onBossDefeated_none g : boss g = None -> onBossDefeated g = g.
Proof. unfold onBossDefeated. intros ->. reflexivity. Qed.

Lemma onBossDefeated_fields b g :
  boss g = Some b ->
  let g' := onBossDefeated g in
  boss g' = None /\ bossBullets g' = []
  /\ Forall (λ p, isHazard p = false) (particles g')
  /\ enemies g' = enemies g /\ heap g' = heap g /\ nextRef g' = nextRef g
  /\ player g' = player g /\ currentLevel g' = currentLevel g
  /\ wave g' = wave g
  /\ gameState g' = (if (CONFIG.GAME.MAX_LEVEL <=? currentLevel g)%Z
                     then victory else wave_transition)
  /\ timers g' = (if (CONFIG.GAME.MAX_LEVEL <=? currentLevel g)%Z
                  then timers g else timers g ++ [(4000, CbStartNextWave)])
  /\ count isBossDefeat g' = S (count isBossDefeat g)
  /\ count isVictory g' = ((if (CONFIG.GAME.MAX_LEVEL <=? currentLevel g)%Z
                            then 1 else 0) + count isVictory g)%nat
  /\ (forall x, count (isDefeatOf x) g' = count (isDefeatOf x) g)
  /\ (forall x, count (isLootRollOf x) g' = count (isLootRollOf x) g)
  /\ count isShot g' = count isShot g
  /\ count isBossSequence g' = count isBossSequence g.
Proof.
  intros Hb g'. assert (Hg' : g' = onBossDefeated g) by reflexivity.
  clearbody g'. cbv beta delta [onBossDefeated] in Hg'. rewrite Hb in Hg'.
  sym_run Hg'.
  assert (Hs0 : particles s0 = particles s /\ trace s0 = trace s
                /\ enemies s0 = enemies s /\ boss s0 = boss s
                /\ heap s0 = heap s /\ nextRef s0 = nextRef s
                /\ player s0 = player s /\ wave s0 = wave s
                /\ currentLevel s0 = currentLevel s
                /\ gameState s0 = gameState s /\ timers s0 = timers s
                \/ exists pos, s0 = createExplosion pos 200 s).
  { destruct (heap s !! b); [right; eauto|left; subst s0; auto 20]. }
  assert (Hfilter : Forall (λ p, isHazard p = false) (particles s3)).
  { subst s3. cbn [particles set_particles]. apply Forall_forall.
    intros p [Hp _]%list_elem_of_filter. exact Hp. }
  assert (timers s3 = timers g /\ bossBullets s3 = [] /\ boss s3 = None
          /\ enemies s3 = enemies g /\ heap s3 = heap g /\ nextRef s3 = nextRef g
          /\ player s3 = player g /\ currentLevel s3 = currentLevel g
          /\ wave s3 = wave g /\ trace s3 = EvBossDefeated b :: trace g)
    as (F1 & F2 & F3 & F4 & F5 & F6 & F7 & F8 & F9 & F10).
  { subst s3 s2 s1. gsimpl.
    destruct Hs0 as [(_ & -> & -> & _ & -> & -> & -> & -> & -> & _ & ->)
                    |[pos ->]]; subst s; gsimpl; auto 20. }
  clear Es Es0 Es1 Es2 Hs0.
  rewrite <- F8.
  destruct (CONFIG.GAME.MAX_LEVEL <=? currentLevel s3)%Z; subst g'; unfold count;
    gsimpl; rewrite ?F1, ?F2, ?F3, ?F4, ?F5, ?F6, ?F7, ?F9, ?F10;
    cbn [List.filter length isDefeatOf isLootRollOf isBossDefeat isBossSequence
         isShot isVictory]; auto 20.
Qed.

Lemma onBossDefeated_ok x g :
  regOKx x g -> x = None \/ x = boss g ->
  regOK (onBossDefeated g) /\ Accounted g (onBossDefeated g).
Proof.
  intros Hreg Hx. destruct (boss g) as [b|] eqn:Hb.
  2:{ rewrite onBossDefeated_none by done. split; [|apply Accounted_refl].
      destruct Hx; subst; auto. }
  destruct (onBossDefeated_fields b g Hb)
    as (E1 & E2 & E3 & E4 & E5 & E6 & E7 & E8 & E9 & _ & _ & _ & _
        & E14 & E15 & E16 & _).
  destruct Hreg as (Hnd & He & Hbo & Hn). split.
  - unfold regOK, regOKx. rewrite E1, E4, E5, E6. split4; auto; [|done].
    intros r Hr. destruct (He r Hr) as (e & t & Hl & Hk & ? & Hhp).
    exists e, t. split3d. intros _. apply Hhp.
    destruct Hx as [-> | ->]; [done|]. intros [= ->].
    destruct (Hbo r Hb) as (e' & bd & Hl' & Hk' & _). congruence.
  - apply Accounted_quiet; auto.
    intros p Hp Hh. rewrite Forall_forall in E3. apply E3 in Hp. congruence.
Qed.

End DamageFamily.


(** ** Damage calls keep the registry well formed and are accounted for *)

Section DamageOps.
Context `{Host}.

Lemma DamageOp_id : DamageOp (λ g, g).
Proof. intros g Hg. split; [done|apply Accounted_refl]. Qed.

Lemma DamageOp_compose f h : DamageOp f -> DamageOp h -> DamageOp (λ g, h (f g)).
Proof.
  intros Hf Hh g Hg. destruct (Hf g Hg) as [R1 A1].
  destruct (Hh (f g) R1) as [R2 A2]. split; [done|].
  eapply Accounted_trans; eauto.
Qed.

Lemma DamageOp_forDown body n :
  (forall i, DamageOp (body i)) -> DamageOp (forDown n body).
Proof.
  intros Hbody g Hg.
  apply (forDown_inv (λ g', regOK g' /\ Accounted g g')); [|split; [done|apply Accounted_refl]].
  intros i g1 [R1 A1]. destruct (Hbody i g1 R1) as [R2 A2]. split; [done|].
  eapply Accounted_trans; eauto.
Qed.

Lemma setHp_acc r v g : Accounted g (setHp r v g).
Proof.
  destruct (setHp_fields r v g) as (E1 & E2 & E3 & E4 & E5 & E6 & E7 & E8).
  apply Accounted_quiet; auto; unfold count; rewrite ?E4; auto.
  intros p. rewrite E8. auto.
Qed.

Lemma createExplosion_op position n : DamageOp (createExplosion position n).
Proof.
  intros g Hg. split; [by apply createExplosion_reg|apply createExplosion_acc].
Qed.

Lemma damageBossDirect_ok damage : DamageOp (damageBossDirect damage).
Proof.
  intros g Hg. unfold damageBossDirect.
  destruct (boss g) as [b|] eqn:Hb; [|by apply DamageOp_id].
  destruct (heap g !! b) as [e|] eqn:He; [|by apply DamageOp_id].
  cbv zeta.
  pose proof (regOKx_setHp None b (ent_hp e - damage) g Hg (or_introl eq_refl)) as Hx.
  pose proof (setHp_acc b (ent_hp e - damage) g) as Ha.
  destruct (setHp_fields b (ent_hp e - damage) g) as (_ & Eb & _).
  destruct (Qleb (ent_hp e - damage) 0) eqn:Hle.
  - destruct (onBossDefeated_ok (Some b) (setHp b (ent_hp e - damage) g) Hx)
      as [R A]; [right; congruence|].
    split; [done|]. eapply Accounted_trans; eauto.
  - split; [|done]. apply Qleb_gt in Hle.
    apply (regOKx_alive b _ (set_ent_hp (ent_hp e - damage) e)); [done| |exact Hle].
    rewrite setHp_lookup, He. case_decide; [reflexivity|done].
Qed.

Lemma indexOf_Some r l i : indexOf r l = Some i -> l !! i = Some r.
Proof.
  unfold indexOf. destruct (list_find _ l) as [[j x]|] eqn:Hf; [|done].
  simpl. intros [= <-]. apply list_find_Some in Hf as (Hj & -> & _). done.
Qed.

Lemma indexOf_None r l : indexOf r l = None -> r ∉ l.
Proof.
  unfold indexOf. destruct (list_find _ l) as [[j x]|] eqn:Hf; [done|].
  intros _ Hr. apply list_find_None in Hf. rewrite Forall_forall in Hf.
  by apply (Hf r Hr).
Qed.

Lemma dealDamageTo_death_ok target g :
  regOKx (Some target) g ->
  regOK (dealDamageTo_death target g) /\ Accounted g (dealDamageTo_death target g).
Proof.
  intros Hx. unfold dealDamageTo_death.
  destruct (heap g !! target) as [t|] eqn:Ht.
  - destruct (Qleb (ent_hp t) 0) eqn:Hle.
    + destruct (indexOf target (enemies g)) as [i|] eqn:Hi.
      * apply onEnemyDefeated_ok; [done|]. by apply indexOf_Some.
      * apply indexOf_None in Hi. case_decide as Hb.
        -- apply (onBossDefeated_ok (Some target)); auto.
        -- split; [|apply Accounted_refl]. by apply (regOKx_strengthen target).
    + split; [|apply Accounted_refl]. apply Qleb_gt in Hle.
      by apply (regOKx_alive target g t).
  - split; [|apply Accounted_refl]. apply (regOKx_strengthen target); [done| |].
    + intros Hr. destruct Hx as (_ & He & _). destruct (He _ Hr) as (? & ? & ? & _).
      congruence.
    + intros Hb. destruct Hx as (_ & _ & Hbo & _).
      destruct (Hbo _ Hb) as (? & ? & ? & _). congruence.
Qed.

Lemma dealDamageWith_ok explode target damage fromExplosion :
  ExplosionOp explode ->
  DamageOp (dealDamageWith explode target damage fromExplosion).
Proof.
  intros Hex g Hg. unfold dealDamageWith.
  destruct (heap g !! target) as [t|] eqn:Ht; [|by apply DamageOp_id].
  destruct (Qleb (ent_hp t) 0); [by apply DamageOp_id|].
  cbv zeta.
  destruct (isKamikaze t && negb fromExplosion).
  - destruct (Hex (ent_position t) (ent_size t * 5) (ent_damage t) 50%nat g Hg)
      as [R1 A1].
    set (g1 := explode _ _ _ _ g) in *.
    pose proof (regOKx_setHp None target 0 g1 R1 (or_introl eq_refl)) as Hx.
    destruct (dealDamageTo_death_ok target _ Hx) as [R2 A2]. split; [done|].
    eapply Accounted_trans; [exact A1|].
    eapply Accounted_trans; [apply setHp_acc|exact A2].
  - destruct (isFinalBoss t).
    + apply dealDamageTo_death_ok. by apply regOK_weaken.
    + pose proof (regOKx_setHp None target (ent_hp t - damage) g Hg
                    (or_introl eq_refl)) as Hx.
      destruct (dealDamageTo_death_ok target _ Hx) as [R2 A2]. split; [done|].
      eapply Accounted_trans; [apply setHp_acc|exact A2].
Qed.

Lemma noExplosion_op : ExplosionOp noExplosion.
Proof. intros ? ? ? ?. apply DamageOp_id. Qed.

Lemma triggerExplosion_op : ExplosionOp triggerExplosion.
Proof.
  intros position radius damage n g Hg. unfold triggerExplosion.
  cbv zeta.
  destruct (createExplosion_op position n g Hg) as [R1 A1].
  set (g1 := createExplosion position n g) in *.
  assert (Hloop : forall i, DamageOp
            (λ g, match enemies g !! i with
                  | Some r =>
                      match heap g !! r with
                      | Some enemy =>
                          if Qltb (distanceTo (ent_position enemy) position) radius
                          then dealDamageWith noExplosion r damage true g
                          else g
                      | None => g
                      end
                  | None => g
                  end)).
  { intros i g' Hg'. destruct (enemies g' !! i); [|by apply DamageOp_id].
    destruct (heap g' !! r); [|by apply DamageOp_id].
    destruct (Qltb _ _); [|by apply DamageOp_id].
    apply dealDamageWith_ok; [apply noExplosion_op|done]. }
  destruct (DamageOp_forDown _ (length (enemies g1)) Hloop g1 R1) as [R2 A2].
  set (g2 := forDown _ _ g1) in *.
  assert (A02 : Accounted g g2) by (eapply Accounted_trans; eauto).
  destruct (boss g2) as [b|]; [|done].
  destruct (heap g2 !! b) as [be|]; [|done].
  destruct (Qltb _ _); [|done].
  destruct (weakOf be).
  - destruct (Qltb _ _); [|done].
    destruct (damageBossDirect_ok damage g2 R2) as [R3 A3]. split; [done|].
    eapply Accounted_trans; eauto.
  - destruct (dealDamageWith_ok noExplosion b damage true noExplosion_op g2 R2)
      as [R3 A3].
    split; [done|]. eapply Accounted_trans; eauto.
Qed.

Lemma dealDamageTo_ok target damage fromExplosion :
  DamageOp (dealDamageTo target damage fromExplosion).
Proof. apply dealDamageWith_ok, triggerExplosion_op. Qed.

(** A call from an explosion never explodes again, whatever routine is
    plugged in. *)
Lemma dealDamageWith_fromExplosion explode target damage g :
  dealDamageWith explode target damage true g = dealDamageTo target damage true g.
Proof.
  unfold dealDamageTo, dealDamageWith.
  destruct (heap g !! target) as [t|]; [|reflexivity].
  destruct (Qleb (ent_hp t) 0); [reflexivity|].
  rewrite andb_false_r. reflexivity.
Qed.

End DamageOps.


(** ** The footprint of a damage call *)

Section Footprint.
Context `{Host}.

Lemma Touch_refl T g : Touch T g g.
Proof. constructor; eauto. Qed.

Lemma Touch_trans T g0 g1 g2 : Touch T g0 g1 -> Touch T g1 g2 -> Touch T g0 g2.
Proof.
  intros [P1 H1 Q1 B1 S1] [P2 H2 Q2 B2 S2]. constructor.
  - congruence.
  - intros r Hr. rewrite H2, H1 by done. reflexivity.
  - intros r e2 He2. destruct (Q2 r e2 He2) as (e1 & He1 & ? & ?).
    destruct (Q1 r e1 He1) as (e0 & He0 & ? & ?). exists e0. split; [done|].
    split; congruence.
  - destruct B2 as [B2|B2]; [rewrite B2; exact B1|by right].
  - etrans; eauto.
Qed.

Lemma Touch_weaken (T T' : Ref -> Prop) g g' :
  (forall r, T r -> T' r) -> Touch T g g' -> Touch T' g g'.
Proof. intros HT [P1 H1 Q1 B1 S1]. constructor; auto. Qed.

Lemma Touch_same T g g' :
  player g' = player g -> heap g' = heap g -> boss g' = boss g \/ boss g' = None ->
  sublist (enemies g') (enemies g) ->
  Touch T g g'.
Proof. intros Hp Hh Hb Hs. constructor; auto; rewrite Hh; eauto. Qed.

Lemma setHp_touch r v g : Touch (eq r) g (setHp r v g).
Proof.
  destruct (setHp_fields r v g) as (Ee & Eb & _ & _ & _ & Ep & _).
  constructor; auto.
  - intros r' Hne. rewrite setHp_lookup. case_decide; [congruence|reflexivity].
  - intros r' e'. rewrite setHp_lookup. case_decide; [subst r'|eauto].
    destruct (heap g !! r) as [e|]; [|done]. simpl. intros [= <-]. eauto.
  - rewrite Ee. reflexivity.
Qed.

Lemma createExplosion_touch T position n g : Touch T g (createExplosion position n g).
Proof. apply Touch_same; auto. Qed.

Lemma onEnemyDefeated_touch T r i g : Touch T g (onEnemyDefeated r i g).
Proof.
  destruct (heap g !! r) as [e|] eqn:He.
  - destruct (ent_kind e) as [t|bd] eqn:Hk.
    + destruct (onEnemyDefeated_fields r i g e t He Hk)
        as (E1 & E2 & E3 & _ & E5 & _).
      apply Touch_same; auto. rewrite E1. apply sublist_delete.
    + unfold onEnemyDefeated. rewrite He. destruct e; simpl in Hk; subst.
      apply Touch_refl.
  - unfold onEnemyDefeated. rewrite He. apply Touch_refl.
Qed.

Lemma onBossDefeated_touch T g : Touch T g (onBossDefeated g).
Proof.
  destruct (boss g) as [b|] eqn:Hb.
  - destruct (onBossDefeated_fields b g Hb)
      as (E1 & _ & _ & E4 & E5 & _ & E7 & _).
    apply Touch_same; auto. by rewrite E4.
  - rewrite onBossDefeated_none by done. apply Touch_refl.
Qed.

Lemma damageBossDirect_touch damage g :
  Touch (λ r, boss g = Some r) g (damageBossDirect damage g).
Proof.
  unfold damageBossDirect.
  destruct (boss g) as [b|] eqn:Hb; [|apply Touch_refl].
  destruct (heap g !! b) as [e|]; [|apply Touch_refl].
  cbv zeta.
  assert (Touch (λ r, Some b = Some r) g (setHp b (ent_hp e - damage) g)) as Hs.
  { eapply Touch_weaken; [|apply setHp_touch]. intros r ->. reflexivity. }
  destruct (Qleb _ _); [|done].
  eapply Touch_trans; [exact Hs|apply onBossDefeated_touch].
Qed.

Lemma dealDamageTo_death_touch T target g : Touch T g (dealDamageTo_death target g).
Proof.
  unfold dealDamageTo_death.
  destruct (heap g !! target); [|apply Touch_refl].
  destruct (Qleb _ _); [|apply Touch_refl].
  destruct (indexOf _ _); [apply onEnemyDefeated_touch|].
  case_decide; [apply onBossDefeated_touch|apply Touch_refl].
Qed.

(** Calls from an explosion touch their target only. *)
Lemma dealDamageWith_touch target damage g :
  Touch (eq target) g (dealDamageWith noExplosion target damage true g).
Proof.
  unfold dealDamageWith.
  destruct (heap g !! target) as [t|]; [|apply Touch_refl].
  destruct (Qleb _ _); [apply Touch_refl|].
  rewrite andb_false_r. cbv zeta.
  destruct (isFinalBoss t); [apply dealDamageTo_death_touch|].
  eapply Touch_trans; [apply setHp_touch|apply dealDamageTo_death_touch].
Qed.

(** An explosion touches the registered enemies inside its radius and,
    possibly, the boss. *)
Lemma triggerExplosion_touch position radius damage n g :
  Touch (inBlast position radius g) g (triggerExplosion position radius damage n g).
Proof.
  unfold triggerExplosion. cbv zeta.
  set (g1 := createExplosion position n g).
  assert (T1 : Touch (inBlast position radius g) g g1)
    by apply createExplosion_touch.
  clearbody g1.
  set (body := λ (i : nat) (g : Game),
                 match enemies g !! i with Some _ => _ | None => g end).
  assert (T2 : Touch (inBlast position radius g) g
                 (forDown (length (enemies g1)) body g1)).
  { apply (forDown_inv (λ g', Touch (inBlast position radius g) g g')); [|done].
    intros i g' Tg'. subst body. cbv beta.
    destruct (enemies g' !! i) as [r|] eqn:Hi; [|done].
    destruct (heap g' !! r) as [enemy|] eqn:Hr; [|done].
    destruct (Qltb _ _) eqn:Hd; [|done].
    eapply Touch_trans; [exact Tg'|].
    eapply Touch_weaken; [|apply dealDamageWith_touch].
    intros ? <-. left.
    destruct (t_position _ _ _ Tg' r enemy Hr) as (e & He & Hp & _).
    exists e. rewrite Hp. split; [done|]. split; [done|].
    eapply sublist_subseteq; [apply (t_sub _ _ _ Tg')|].
    eapply list_elem_of_lookup_2; eauto. }
  set (g2 := forDown _ _ g1) in *. clearbody g2.
  assert (Hb2 : forall b, boss g2 = Some b -> boss g = Some b).
  { intros b Hb. destruct (t_boss _ _ _ T2); congruence. }
  destruct (boss g2) as [b|] eqn:Hb; [|done].
  destruct (heap g2 !! b) as [be|]; [|done].
  destruct (Qltb _ _); [|done].
  destruct (weakOf be).
  - destruct (Qltb _ _); [|done].
    eapply Touch_trans; [exact T2|].
    eapply Touch_weaken; [|apply damageBossDirect_touch].
    intros r Hr. right. rewrite Hb in Hr. injection Hr as <-. auto.
  - eapply Touch_trans; [exact T2|].
    eapply Touch_weaken; [|apply dealDamageWith_touch].
    intros ? <-. right. auto.
Qed.

(** With the real explosion plugged in. *)
Lemma dealDamageTo_player target damage fromExplosion g :
  player (dealDamageTo target damage fromExplosion g) = player g.
Proof.
  unfold dealDamageTo, dealDamageWith.
  destruct (heap g !! target) as [t|]; [|reflexivity].
  destruct (Qleb _ _); [reflexivity|]. cbv zeta.
  destruct (isKamikaze t && negb fromExplosion).
  - rewrite (t_player _ _ _ (dealDamageTo_death_touch (λ _, False) target _)).
    destruct (setHp_fields target 0
                (triggerExplosion (ent_position t) (ent_size t * 5) (ent_damage t) 50 g))
      as (_ & _ & _ & _ & _ & -> & _).
    apply (t_player _ _ _ (triggerExplosion_touch _ _ _ _ g)).
  - destruct (isFinalBoss t).
    + apply (t_player _ _ _ (dealDamageTo_death_touch (λ _, False) target _)).
    + rewrite (t_player _ _ _ (dealDamageTo_death_touch (λ _, False) target _)).
      by destruct (setHp_fields target (ent_hp t - damage) g)
        as (_ & _ & _ & _ & _ & -> & _).
Qed.

End Footprint.


(** ** The frame invariant: general facts *)

(** Solve [sameWorld g g'] when [g'] is a few setters away from [g]. *)
Ltac world :=
  unfold quiet; unfold sameWorld; gsimpl;
  repeat match goal with
    | |- _ /\ _ => split
    | |- _ = _ => reflexivity
    | |- forall p, p ∈ _ -> isHazard p = true -> p ∈ _ =>
        let p := fresh "p" in
        intros p; first [ exact (λ Hp _, Hp) | regular_tail ]
    end.

Lemma sameWorld_refl g : sameWorld g g.
Proof. world. Qed.

Lemma sameWorld_trans g0 g1 g2 : sameWorld g0 g1 -> sameWorld g1 g2 -> sameWorld g0 g2.
Proof.
  intros (A1 & A2 & A3 & A4 & A5 & A6) (B1 & B2 & B3 & B4 & B5 & B6).
  unfold sameWorld. repeat (split; [congruence|]). auto.
Qed.

Lemma hazard_regular_ok p : isHazard p = false -> 0 <= hazardDamage p.
Proof. destruct p; simpl; intros Hh; try discriminate Hh. lra. Qed.

Lemma Inv_world g g' :
  sameWorld g g' -> PlayerBounds (player g') ->
  maxStamina (player g') = CONFIG.PLAYER.STAMINA -> Inv g -> Inv g'.
Proof.
  intros (E1 & E2 & E3 & E4 & E5 & E6) Hp Hm [R _ _ Hz Hl]. constructor; auto.
  - eapply regOKx_same; eauto.
  - apply Forall_forall. intros p Hp'.
    destruct (isHazard p) eqn:Hh; [|by apply hazard_regular_ok].
    rewrite Forall_forall in Hz. auto.
  - rewrite E5. done.
Qed.

Lemma Inv_same g g' :
  sameWorld g g' -> player g' = player g -> Inv g -> Inv g'.
Proof.
  intros Hw Hp HI. eapply Inv_world; eauto; rewrite Hp; apply HI.
Qed.

Lemma hitOnly_refl p : hitOnly p p.
Proof. exists (hp p), (lastHitTime p), (reserveAmmo p). by destruct p. Qed.

Lemma hitOnly_trans p0 p1 p2 : hitOnly p0 p1 -> hitOnly p1 p2 -> hitOnly p0 p2.
Proof.
  intros (h1 & t1 & a1 & ->) (h2 & t2 & a2 & ->). by exists h2, t2, a2.
Qed.

Lemma hitOnly_set_hp h p : hitOnly p (set_hp h p).
Proof. exists h, (lastHitTime p), (reserveAmmo p). by destruct p. Qed.

Lemma hitOnly_set_lastHitTime t p : hitOnly p (set_lastHitTime t p).
Proof. exists (hp p), t, (reserveAmmo p). by destruct p. Qed.

Lemma hitOnly_set_reserveAmmo a p : hitOnly p (set_reserveAmmo a p).
Proof. exists (hp p), (lastHitTime p), a. by destruct p. Qed.

Lemma hitOnly_eq p p' : p' = p -> hitOnly p p'.
Proof. intros ->. apply hitOnly_refl. Qed.

(** A hit leaves the stamina and both maxima alone. *)
Lemma hitOnly_frame p p' :
  hitOnly p p' ->
  maxHp p' = maxHp p /\ stamina p' = stamina p /\ maxStamina p' = maxStamina p.
Proof. intros (h & t & a & ->). by destruct p. Qed.

Lemma Inv_damage (f : Game -> Game) g :
  DamageOp f -> Inv g -> Inv (f g) /\ player (f g) = player g.
Proof.
  intros Hf [R Hp Hm Hz Hl]. destruct (Hf g R) as [R' A]. split; [|apply A].
  constructor; auto.
  - rewrite (acc_player _ _ A). done.
  - rewrite (acc_player _ _ A). done.
  - apply Forall_forall. intros p Hp'.
    destruct (isHazard p) eqn:Hh; [|by apply hazard_regular_ok].
    rewrite Forall_forall in Hz. apply Hz. by apply (acc_hazard _ _ A).
  - rewrite (acc_level _ _ A). done.
Qed.

(** ** Damage to the player *)

Section PlayerDamage.
Context `{Host}.

Lemma playerTakeDamage_shield amount g :
  shield_active (player g) = true -> playerTakeDamage amount g = g.
Proof.
  intros Hs. unfold playerTakeDamage. rewrite Hs. by case_decide.
Qed.


Lemma playerTakeDamage_fields amount g :
  let g' := playerTakeDamage amount g in
  sameWorld g g' /\ bossBullets g' = bossBullets g /\ pickups g' = pickups g
  /\ playerPosition g' = playerPosition g
  /\ elapsedTime g' = elapsedTime g /\ weaponLevel g' = weaponLevel g
  /\ keys g' = keys g /\ count isShot g' = count isShot g
  /\ exists h, player g' = set_hp h (player g)
               /\ (0 <= hp (player g) -> 0 <= h)
               /\ (0 <= amount -> 0 <= hp (player g) -> h <= hp (player g)).
Proof.
  unfold playerTakeDamage. cbv zeta.
  assert (Hid : exists h, player g = set_hp h (player g)
              /\ (0 <= hp (player g) -> 0 <= h)
              /\ (0 <= amount -> 0 <= hp (player g) -> h <= hp (player g))).
  { exists (hp (player g)). split; [by destruct (player g)|]. split; intros; lra. }
  case_decide as Hs; [split; [world|by repeat split]|].
  destruct (shield_active (player g)); [split; [world|by repeat split]|].
  gsimpl. destruct (Qleb (hp (player g) - amount) 0) eqn:Hle; qbool; gsimpl.
  - split; [world|]. repeat (split; [reflexivity|]).
    exists 0. split; [by destruct (player g)|]. split; intros; lra.
  - split; [world|]. repeat (split; [reflexivity|]).
    exists (hp (player g) - amount). split; [done|]. split; intros; lra.
Qed.

Lemma playerTakeDamage_inv amount g :
  0 <= amount -> Inv g ->
  Inv (playerTakeDamage amount g)
  /\ hitOnly (player g) (player (playerTakeDamage amount g)).
Proof.
  intros Ha HI.
  destruct (playerTakeDamage_fields amount g)
    as (Hw & _ & _ & _ & _ & _ & _ & _ & h & Hp & H0 & Hle).
  assert (Hh : hitOnly (player g) (player (playerTakeDamage amount g)))
    by (rewrite Hp; apply hitOnly_set_hp).
  split; [|done].
  destruct (inv_player _ HI) as (B1 & B2 & B3 & B4).
  eapply Inv_world; eauto.
  - rewrite Hp. unfold PlayerBounds. cbn [hp maxHp stamina maxStamina set_hp].
    specialize (Hle Ha B1). specialize (H0 B1). repeat split; auto. lra.
  - rewrite Hp. apply (inv_maxStamina _ HI).
Qed.

End PlayerDamage.


(** ** Chains of damage calls *)

Lemma DamageStep (f : Game -> Game) g x :
  DamageOp f -> regOK x /\ Accounted g x -> regOK (f x) /\ Accounted g (f x).
Proof.
  intros Hf [R A]. destruct (Hf x R) as [R' A']. split; [done|].
  eapply Accounted_trans; eauto.
Qed.

Lemma quiet_acc g g' : quiet g g' -> Accounted g g'.
Proof.
  intros ((E1 & E2 & E3 & E4 & E5 & E6) & Hp & Ht & Hw).
  apply Accounted_quiet; auto; unfold count; rewrite ?Ht; auto.
Qed.

Lemma QuietStep g x y :
  quiet x y -> regOK x /\ Accounted g x -> regOK y /\ Accounted g y.
Proof.
  intros Hq [R A]. split.
  - destruct Hq as ((E1 & E2 & E3 & E4 & _) & _). eapply regOKx_same; eauto.
  - eapply Accounted_trans; [exact A|by apply quiet_acc].
Qed.

Ltac quiet_solve := world.

Section Collisions.
Context `{Host}.

(** Peel the outermost call of the state whose invariant is to be shown. *)
Ltac dmg :=
  lazymatch goal with
  | |- regOK ?y /\ Accounted ?g ?y =>
      lazymatch y with
      | set_bullets _ ?x => apply (QuietStep g x); [quiet_solve|dmg]
      | set_droneBullets _ ?x => apply (QuietStep g x); [quiet_solve|dmg]
      | createExplosion ?p ?n ?x =>
          apply (DamageStep (createExplosion p n) g x (createExplosion_op p n)); dmg
      | dealDamageTo ?t ?d ?f ?x =>
          apply (DamageStep (dealDamageTo t d f) g x (dealDamageTo_ok t d f)); dmg
      | triggerExplosion ?p ?r ?d ?n ?x =>
          apply (DamageStep (triggerExplosion p r d n) g x
                   (triggerExplosion_op p r d n)); dmg
      | damageBossDirect ?d ?x =>
          apply (DamageStep (damageBossDirect d) g x (damageBossDirect_ok d)); dmg
      | (if ?c then _ else _) => destruct c; dmg
      | _ => split; [assumption|apply Accounted_refl]
      end
  end.

Lemma bulletStep_op i : DamageOp (bulletStep i).
Proof.
  intros g Hg. unfold bulletStep.
  destruct (bullets g !! i) as [b|]; [|dmg].
  destruct (findEnemyHit _ g) as [[r e]|].
  - destruct (isExplosive b), (isLaser b); cbn [negb]; dmg.
  - destruct (boss g) as [br|]; [|dmg].
    destruct (heap g !! br) as [be|]; [|dmg].
    destruct (weakOf be) as [wp|].
    + destruct (Qltb _ _); [|dmg].
      destruct (isExplosive b), (isLaser b); cbn [negb]; dmg.
    + destruct (Qltb _ _); [|dmg].
      destruct (isExplosive b), (isLaser b); cbn [negb]; dmg.
Qed.

Lemma droneBulletStep_op i : DamageOp (droneBulletStep i).
Proof.
  intros g Hg. unfold droneBulletStep.
  destruct (droneBullets g !! i) as [b|]; [|dmg].
  destruct (findEnemyHit _ g) as [[r e]|]; [dmg|].
  destruct (boss g) as [br|]; [|dmg].
  destruct (heap g !! br) as [be|]; [|dmg].
  destruct (weakOf be) as [wp|]; destruct (Qltb _ _); dmg.
Qed.

Lemma _checkBulletCollisions_op : DamageOp _checkBulletCollisions.
Proof.
  intros g Hg. unfold _checkBulletCollisions. cbv zeta.
  destruct (DamageOp_forDown bulletStep (length (bullets g)) bulletStep_op g Hg)
    as [R1 A1].
  set (g1 := forDown _ bulletStep g) in *.
  destruct (DamageOp_forDown droneBulletStep (length (droneBullets g1))
              droneBulletStep_op g1 R1) as [R2 A2].
  split; [done|]. eapply Accounted_trans; eauto.
Qed.

Lemma checkHit_op playerPos forward target range damage :
  DamageOp (checkHit playerPos forward target range damage).
Proof.
  intros g Hg. unfold checkHit.
  destruct (heap g !! target) as [t|]; [|dmg].
  cbv zeta. destruct (_ && _); dmg.
Qed.

Lemma meleeSweep_op playerPos forward : DamageOp (meleeSweep playerPos forward).
Proof.
  intros g Hg. unfold meleeSweep. cbv zeta.
  set (body := λ (j : nat) (g : Game), match enemies g !! j with Some _ => _ | None => g end).
  assert (Hbody : forall j, DamageOp (body j)).
  { intros j g' Hg'. subst body. cbv beta.
    destruct (enemies g' !! j); [by apply checkHit_op|by apply DamageOp_id]. }
  destruct (DamageOp_forDown body (length (enemies g)) Hbody g Hg) as [R1 A1].
  set (g1 := forDown _ body g) in *.
  destruct (boss g1) as [b|]; [|done].
  destruct (heap g1 !! b) as [be|]; [|done].
  apply (DamageStep _ g g1 (checkHit_op _ _ _ _ _)). done.
Qed.

End Collisions.


(** ** Steps of the frame *)

Lemma Stepped_refl g : Stepped g g.
Proof. split; [apply hitOnly_refl|reflexivity]. Qed.

Lemma Stepped_trans g0 g1 g2 : Stepped g0 g1 -> Stepped g1 g2 -> Stepped g0 g2.
Proof.
  intros [P1 S1] [P2 S2]. split; [eapply hitOnly_trans; eauto|congruence].
Qed.

Lemma FrameOp_id : FrameOp (λ g, g).
Proof. intros g Hg. split; [done|apply Stepped_refl]. Qed.

Lemma FrameStep (f : Game -> Game) g x :
  FrameOp f -> Inv x /\ Stepped g x -> Inv (f x) /\ Stepped g (f x).
Proof.
  intros Hf [I1 P1]. destruct (Hf x I1) as [I2 P2]. split; [done|].
  eapply Stepped_trans; eauto.
Qed.

Lemma FrameOp_damage f : DamageOp f -> FrameOp f.
Proof.
  intros Hf g Hg. destruct (Inv_damage f g Hf Hg) as [I P]. split; [done|].
  split; [by apply hitOnly_eq|]. apply (Hf g), Hg.
Qed.

Lemma FrameOp_forDown body n : (forall i, FrameOp (body i)) -> FrameOp (forDown n body).
Proof.
  intros Hbody g Hg.
  apply (forDown_inv (λ g', Inv g' /\ Stepped g g'));
    [|split; [done|apply Stepped_refl]].
  intros i g1 Hg1. by apply FrameStep.
Qed.

(** A step that leaves the world and the player's vital fields alone. *)
Lemma FrameOp_world (f : Game -> Game) :
  (forall g, sameWorld g (f g) /\ hitOnly (player g) (player (f g))
             /\ hp (player (f g)) = hp (player g) /\ trace (f g) = trace g) ->
  FrameOp f.
Proof.
  intros Hf g Hg. destruct (Hf g) as (Hw & Hh & Hhp & Ht). split.
  - destruct (hitOnly_frame _ _ Hh) as (E1 & E2 & E3).
    eapply Inv_world; eauto.
    + unfold PlayerBounds. rewrite Hhp, E1, E2, E3. apply Hg.
    + rewrite E3. apply Hg.
  - split; [done|]. unfold count. by rewrite Ht.
Qed.

(** Discharge the premise of [FrameOp_world] for a few setters. *)
Ltac frame_world lem :=
  apply FrameOp_world; intros ?; split; [world|];
  split; [apply lem|]; split; reflexivity.

Section FrameSteps.
Context `{Host}.

Lemma findEnemyHit_Some test g r e :
  findEnemyHit test g = Some (r, e) ->
  r ∈ enemies g /\ heap g !! r = Some e /\ test e = true.
Proof.
  unfold findEnemyHit. intros Hf. apply find_some in Hf as [Hin Ht].
  apply list_elem_of_In, list_elem_of_omap in Hin as (r' & Hr' & Hl).
  rewrite elem_of_reverse in Hr'.
  destruct (heap g !! r') as [e'|] eqn:He'; [|done].
  simpl in Hl. injection Hl as <- <-. auto.
Qed.

Lemma findEnemyHit_None test g r e :
  findEnemyHit test g = None -> r ∈ enemies g -> heap g !! r = Some e ->
  test e = false.
Proof.
  unfold findEnemyHit. intros Hf Hr He.
  apply (find_none _ _ Hf (r, e)).
  apply list_elem_of_In, list_elem_of_omap. exists r.
  split; [by rewrite elem_of_reverse|]. by rewrite He.
Qed.

Lemma playerTakeDamage_frame amount : 0 <= amount -> FrameOp (playerTakeDamage amount).
Proof.
  intros Ha g Hg. destruct (playerTakeDamage_inv amount g Ha Hg) as [I P].
  split; [done|]. split; [done|]. apply playerTakeDamage_fields.
Qed.

Lemma set_lastHitTime_frame t : FrameOp (upd_player (set_lastHitTime t)).
Proof.
  frame_world hitOnly_set_lastHitTime.
Qed.

Lemma _checkPlayerCollisions_contact_frame : FrameOp _checkPlayerCollisions_contact.
Proof.
  intros g Hg. unfold _checkPlayerCollisions_contact. cbv zeta.
  destruct (Qltb _ _); [|by apply FrameOp_id].
  destruct (findEnemyHit _ g) as [[r enemy]|] eqn:Hf.
  - apply findEnemyHit_Some in Hf as (Hr & He & _).
    apply FrameStep; [apply set_lastHitTime_frame|].
    destruct (isKamikaze enemy).
    + by apply FrameOp_damage; [apply dealDamageTo_ok|].
    + apply playerTakeDamage_frame; [|done].
      destruct (inv_reg _ Hg) as (_ & Hen & _).
      destruct (Hen r Hr) as (e' & t & He' & _ & Hd & _). congruence.
  - destruct (boss g) as [br|] eqn:Hb; [|by apply FrameOp_id].
    destruct (heap g !! br) as [be|] eqn:Hbe; [|by apply FrameOp_id].
    destruct (Qltb _ _); [|by apply FrameOp_id].
    apply FrameStep; [apply set_lastHitTime_frame|].
    apply playerTakeDamage_frame; [|done].
    destruct (inv_reg _ Hg) as (_ & _ & Hbo & _).
    destruct (Hbo br Hb) as (e' & t & He' & _ & Hd & _). congruence.
Qed.

Lemma _checkPlayerCollisions_pickups_frame : FrameOp _checkPlayerCollisions_pickups.
Proof.
  intros g Hg. unfold _checkPlayerCollisions_pickups. cbv zeta.
  apply FrameOp_forDown; [|done].
  intros i g' Hg'. destruct (pickups g' !! i) as [pickup|]; [|by apply FrameOp_id].
  destruct (Qltb _ _); [|by apply FrameOp_id].
  apply (FrameStep (λ x, set_pickups (delete i (pickups x)) x)).
  { frame_world hitOnly_refl. }
  destruct (pk_type pickup).
  - revert g' Hg'. frame_world hitOnly_set_reserveAmmo.
  - split.
    + destruct (inv_player _ Hg') as (B1 & B2 & B3 & B4).
      eapply Inv_world; [| | |exact Hg']; [world| |apply Hg'].
      unfold PlayerBounds; gsimpl. repeat split; auto.
      * apply Q.min_glb; [lra|]. unfold CONFIG.PICKUPS.HEALTH_AMOUNT. lra.
      * apply Q.le_min_l.
    + split; [gsimpl; apply hitOnly_set_hp|reflexivity].
  - by apply FrameOp_id.
Qed.

Lemma BOSS_BASE_positive level cfg :
  CONFIG.BOSS_BASE level = Some cfg ->
  0 < B_HP cfg /\ 0 <= B_DAMAGE cfg /\ 0 <= B_BULLET_DAMAGE cfg
  /\ (1 <= level <= 5)%Z.
Proof.
  unfold CONFIG.BOSS_BASE. intros Hc.
  repeat match type of Hc with
    | (if (?l =? ?n)%Z then _ else _) = _ => destruct (Z.eqb_spec l n)
    end; try discriminate; injection Hc as <-; cbn;
    (split; [lra|split; [lra|split; [lra|lia]]]).
Qed.

Lemma _checkBossBulletCollisions_frame g :
  Inv g ->
  Inv (stateOf (_checkBossBulletCollisions g))
  /\ Stepped g (stateOf (_checkBossBulletCollisions g)).
Proof.
  intros Hg. unfold _checkBossBulletCollisions.
  apply (forDownM_inv (λ g', Inv g' /\ Stepped g g'));
    [|split; [done|apply Stepped_refl]].
  intros i g' Hg'.
  destruct (bossBullets g' !! i) as [bullet|]; [|done].
  destruct (Qltb _ _); [|done].
  destruct (CONFIG.BOSS_BASE (currentLevel g')) as [cfg|] eqn:Hc; [|done].
  cbv zeta. cbn [stateOf].
  apply BOSS_BASE_positive in Hc as (_ & _ & Hd & _).
  apply (FrameStep (λ x, set_bossBullets (delete i (bossBullets x)) x)).
  { frame_world hitOnly_refl. }
  apply (FrameStep (createExplosion _ _));
    [apply FrameOp_damage, createExplosion_op|].
  by apply FrameStep; [apply playerTakeDamage_frame|].
Qed.

Lemma checkCollisions_frame g :
  Inv g ->
  Inv (stateOf (checkCollisions g))
  /\ Stepped g (stateOf (checkCollisions g)).
Proof.
  intros Hg. unfold checkCollisions.
  pose proof (FrameOp_damage _ _checkBulletCollisions_op g Hg) as H1.
  destruct H1 as [I1 P1].
  destruct (_checkBossBulletCollisions_frame _ I1) as [I2 P2].
  assert (H2 : Inv (stateOf (_checkBossBulletCollisions (_checkBulletCollisions g)))
               /\ Stepped g (stateOf (_checkBossBulletCollisions
                                        (_checkBulletCollisions g))))
    by (split; [done|eapply Stepped_trans; eauto]).
  destruct (_checkBossBulletCollisions _) as [g2|g2]; cbn [andThen stateOf] in *;
    [|done].
  unfold _checkPlayerCollisions.
  apply FrameStep; [apply _checkPlayerCollisions_pickups_frame|].
  by apply FrameStep; [apply _checkPlayerCollisions_contact_frame|].
Qed.

End FrameSteps.


(** ** Particles and hazards *)

Lemma Inv_vitals g g' :
  sameWorld g g' -> sameVitals (player g) (player g') -> Inv g -> Inv g'.
Proof.
  intros Hw (E1 & E2 & E3 & E4) Hg. eapply Inv_world; eauto.
  - unfold PlayerBounds. rewrite E1, E2, E3, E4. apply Hg.
  - rewrite E4. apply Hg.
Qed.

Lemma sameVitals_refl p : sameVitals p p.
Proof. by repeat split. Qed.

Lemma sameVitals_trans p0 p1 p2 :
  sameVitals p0 p1 -> sameVitals p1 p2 -> sameVitals p0 p2.
Proof.
  intros (A1 & A2 & A3 & A4) (B1 & B2 & B3 & B4). repeat split; congruence.
Qed.

Lemma Inv_set_particles ps g :
  Forall (λ p, 0 <= hazardDamage p) ps -> Inv g -> Inv (set_particles ps g).
Proof.
  intros Hps [R Hp Hm _ Hl]. constructor; auto.
Qed.

(** Case analysis on the conditionals of the goal, simplifying on the way. *)
Ltac break_if :=
  match goal with
  | |- context [if ?c then _ else _] =>
      lazymatch c with
      | context [if _ then _ else _] => fail
      | _ => destruct c eqn:?
      end
  end.

Section Hazards.
Context `{Host}.

Lemma setParticle_frame i p : 0 <= hazardDamage p -> FrameOp (setParticle i p).
Proof.
  intros Hp g Hg. split; [|split; [apply hitOnly_refl|reflexivity]].
  unfold setParticle.
  apply Inv_set_particles; [|done].
  apply Forall_insert; [apply Hg|done].
Qed.

Lemma expireParticle_frame i : FrameOp (expireParticle i).
Proof.
  intros g Hg. unfold expireParticle.
  destruct (particles g !! i); [|by apply FrameOp_id].
  destruct (Qleb _ _); [|by apply FrameOp_id].
  split; [|split; [apply hitOnly_refl|reflexivity]].
  apply Inv_set_particles; [|done]. apply Forall_delete, Hg.
Qed.

Lemma updateParticles_frame deltaTime :
  0 <= deltaTime -> FrameOp (updateParticles deltaTime).
Proof.
  intros Hdt g Hg. unfold updateParticles.
  apply FrameOp_forDown; [|done]. clear g Hg.
  intros i g Hg. destruct (particles g !! i) as [p|] eqn:Hp; [|by apply FrameOp_id].
  pose proof (Forall_lookup_1 _ _ _ _ (inv_hazards _ Hg) Hp) as Hz.
  destruct p as [l|l position scaleX damage|l position scaleX damage rate
                |l position rotY damage speed]; cbn [hazardDamage] in Hz; cbv zeta.
  - apply FrameStep; [apply expireParticle_frame|].
    apply setParticle_frame; [simpl; lra|done].
  - apply FrameStep; [apply expireParticle_frame|].
    match goal with |- context [setParticle i ?q g] =>
      pose proof (setParticle_frame i q Hz g Hg) as Hs;
      set (g1 := setParticle i q g) in *; clearbody g1 end.
    destruct (Qltb _ _); [|done].
    by apply FrameStep; [apply playerTakeDamage_frame|].
  - apply FrameStep; [apply expireParticle_frame|].
    match goal with |- context [setParticle i ?q g] =>
      pose proof (setParticle_frame i q Hz g Hg) as Hs;
      set (g1 := setParticle i q g) in *; clearbody g1 end.
    destruct (_ && _); [|done].
    apply FrameStep; [by apply setParticle_frame|].
    by apply FrameStep; [apply playerTakeDamage_frame|].
  - apply FrameStep; [apply expireParticle_frame|].
    match goal with |- context [setParticle i ?q g] =>
      pose proof (setParticle_frame i q Hz g Hg) as Hs;
      set (g1 := setParticle i q g) in *; clearbody g1 end.
    destruct (_ && _); [|done].
    apply FrameStep; [apply playerTakeDamage_frame|done].
    apply Qmult_le_0_compat; done.
Qed.

(** Without hazards nothing in the particle loop reaches the player. *)
Lemma updateParticles_no_hazard deltaTime g :
  Forall (λ p, isHazard p = false) (particles g) ->
  player (updateParticles deltaTime g) = player g
  /\ gameState (updateParticles deltaTime g) = gameState g.
Proof.
  intros Hno. unfold updateParticles.
  apply (forDown_inv
           (λ g', Forall (λ p, isHazard p = false) (particles g')
                  /\ player g' = player g /\ gameState g' = gameState g));
    [|done].
  intros i g' (Hn & Hp & Hs).
  destruct (particles g' !! i) as [p|] eqn:Hl; [|done].
  pose proof (Forall_lookup_1 _ _ _ _ Hn Hl) as Hr.
  destruct p; try discriminate Hr.
  unfold expireParticle, setParticle. gsimpl.
  destruct (<[i:=_]> (particles g') !! i) eqn:Hi; gsimpl.
  - assert (Forall (λ p, isHazard p = false)
              (<[i:=Regular (lifespan - deltaTime)]> (particles g')))
      by (by apply Forall_insert).
    destruct (Qleb _ _); gsimpl; repeat split; auto. by apply Forall_delete.
  - repeat split; auto. by apply Forall_insert.
Qed.

End Hazards.


(** ** The player's own update *)

Ltac fields := repeat split; try reflexivity; try world.

Section PlayerUpdate.
Context `{Host}.

Lemma playerShoot_fields laser g :
  let g' := playerShoot laser g in
  sameWorld g g'
  /\ player g' = set_lastShotTime (elapsedTime g)
                   (if laser then player g
                    else set_ammoInMagazine (ammoInMagazine (player g) - 1)%Z (player g))
  /\ (exists b, bullets g' = bullets g ++ [b] /\ isLaser b = laser)
  /\ trace g' = EvShot laser :: trace g
  /\ keys g' = keys g /\ weaponLevel g' = weaponLevel g
  /\ isNewGamePlus g' = isNewGamePlus g /\ elapsedTime g' = elapsedTime g
  /\ timers g' = timers g /\ gameState g' = gameState g.
Proof.
  intros g'. assert (Hg' : g' = playerShoot laser g) by reflexivity.
  clearbody g'. cbv beta delta [playerShoot randFloat] in Hg'.
  sym_run Hg'.
  assert (Hs4 : s4 = s1 \/ exists n, s4 = set_rngPos n s1).
  { destruct (negb _ && negb laser); injection Ep as _ ->; eauto. }
  clear Ep.
  assert (Eb : isLaser s7 = laser) by (subst s7; reflexivity).
  clear Es7 Es6 Es5 Es3 Es2 H0.
  destruct Hs4 as [->|[n ->]]; destruct laser; cbn [negb] in *; subst g';
    unwind; (split; [world|]); (split; [reflexivity|]);
    (split; [by exists s7|]); repeat split.
Qed.

(** Solve a conjunction of field equations that hold by computation. *)

Lemma updatePlayer_reload_fields deltaTime g :
  let g' := updatePlayer_reload deltaTime g in
  sameWorld g g' /\ sameVitals (player g) (player g')
  /\ trace g' = trace g /\ bullets g' = bullets g /\ keys g' = keys g
  /\ elapsedTime g' = elapsedTime g /\ gameState g' = gameState g
  /\ melee_attacking (player g') = melee_attacking (player g)
  /\ q_cooldown (player g') = q_cooldown (player g)
  /\ q_unlocked (player g') = q_unlocked (player g)
  /\ (reloading (player g) = true -> isAiming (player g') = false)
  /\ (reloading (player g) = false ->
      isAiming (player g') = isAiming (player g)
      /\ ammoInMagazine (player g') = ammoInMagazine (player g)).
Proof.
  unfold updatePlayer_reload. cbv zeta.
  destruct (reloading (player g)) eqn:Hr.
  - gsimpl. break_if; gsimpl; fields; discriminate.
  - break_if; gsimpl; fields; rewrite ?Hr; try discriminate; reflexivity.
Qed.

Lemma clamp_bounds lo hi x : lo <= hi -> lo <= Qmax lo (Qmin hi x) /\ Qmax lo (Qmin hi x) <= hi.
Proof.
  intros Hle. split; [apply Q.le_max_l|].
  apply Q.max_lub; [done|apply Q.le_min_l].
Qed.

Lemma updatePlayer_move_fields deltaTime g :
  let g' := updatePlayer_move deltaTime g in
  sameWorld g g'
  /\ hp (player g') = hp (player g) /\ maxHp (player g') = maxHp (player g)
  /\ maxStamina (player g') = maxStamina (player g)
  /\ (0 <= stamina (player g') /\ stamina (player g') <= CONFIG.PLAYER.STAMINA)
  /\ trace g' = trace g /\ bullets g' = bullets g /\ keys g' = keys g
  /\ elapsedTime g' = elapsedTime g /\ gameState g' = gameState g
  /\ melee_attacking (player g') = melee_attacking (player g)
  /\ q_cooldown (player g') = q_cooldown (player g)
  /\ q_unlocked (player g') = q_unlocked (player g)
  /\ isAiming (player g') = isAiming (player g)
  /\ reloading (player g') = reloading (player g)
  /\ ammoInMagazine (player g') = ammoInMagazine (player g).
Proof.
  intros g'. assert (Hg' : g' = updatePlayer_move deltaTime g) by reflexivity.
  clearbody g'. cbv beta delta [updatePlayer_move] in Hg'.
  sym_run Hg'.
  assert (Hst : 0 <= stamina s8 /\ stamina s8 <= CONFIG.PLAYER.STAMINA).
  { subst s8. cbn [stamina set_stamina]. apply clamp_bounds.
    unfold CONFIG.PLAYER.STAMINA. lra. }
  assert (Hs8 : hp s8 = hp s /\ maxHp s8 = maxHp s /\ maxStamina s8 = maxStamina s
                /\ melee_attacking s8 = melee_attacking s
                /\ q_cooldown s8 = q_cooldown s /\ q_unlocked s8 = q_unlocked s
                /\ isAiming s8 = isAiming s /\ reloading s8 = reloading s
                /\ ammoInMagazine s8 = ammoInMagazine s).
  { clear Hst. unwind; fields. }
  clear Es8 Es7 Es2 Es1.
  destruct Hs8 as (F1 & F2 & F3 & F4 & F5 & F6 & F7 & F8 & F9).
  subst g'. unwind; rewrite ?F1, ?F2, ?F3, ?F4, ?F5, ?F6, ?F7, ?F8, ?F9;
    fields; apply Hst.
Qed.


Lemma key_setKey k k' v g :
  key k (setKey k' v g) = if decide (k' = k) then v else key k g.
Proof.
  unfold key, setKey. gsimpl. rewrite lookup_insert. by case_decide.
Qed.

Lemma updatePlayer_fire_unfold g :
  updatePlayer_fire g
  = if fireReady g then
      if z_active (player g) then playerShoot true g
      else if (0 <? ammoInMagazine (player g))%Z then
        let g1 := playerShoot false g in
        if (match weaponLevel g1 with W1 => true | W2 => false end) || isNewGamePlus g1
        then setKey "mouse0" false g1 else g1
      else g
    else g.
Proof. reflexivity. Qed.

Lemma updatePlayer_fire_melee g :
  melee_attacking (player g) = true -> updatePlayer_fire g = g.
Proof.
  intros Hm. rewrite updatePlayer_fire_unfold. unfold fireReady. cbv zeta.
  rewrite Hm. cbn [negb]. rewrite andb_false_r. reflexivity.
Qed.


Lemma updatePlayer_fire_empty g :
  z_active (player g) = false -> (ammoInMagazine (player g) <= 0)%Z ->
  updatePlayer_fire g = g.
Proof.
  intros Hz Ha. rewrite updatePlayer_fire_unfold. rewrite Hz.
  destruct (Z.ltb_spec 0 (ammoInMagazine (player g))); [lia|].
  by destruct (fireReady g).
Qed.

Lemma updatePlayer_fire_shot g :
  fireReady g = true -> z_active (player g) = false ->
  (0 < ammoInMagazine (player g))%Z ->
  let g' := updatePlayer_fire g in
  player g' = set_lastShotTime (elapsedTime g)
                (set_ammoInMagazine (ammoInMagazine (player g) - 1)%Z (player g))
  /\ count isShot g' = S (count isShot g)
  /\ (exists b, bullets g' = bullets g ++ [b] /\ isLaser b = false)
  /\ elapsedTime g' = elapsedTime g /\ weaponLevel g' = weaponLevel g.
Proof.
  intros Hf Hz Ha. rewrite updatePlayer_fire_unfold, Hf, Hz.
  destruct (Z.ltb_spec 0 (ammoInMagazine (player g))); [|lia].
  destruct (playerShoot_fields false g)
    as (_ & Hp & Hb & Ht & _ & Hw & _ & He & _).
  cbv zeta. set (g1 := playerShoot false g) in *. clearbody g1.
  assert (Hc : count isShot g1 = S (count isShot g))
    by (unfold count; rewrite Ht; reflexivity).
  destruct (_ || _); gsimpl; auto.
Qed.

Lemma updatePlayer_fire_fields g :
  let g' := updatePlayer_fire g in
  sameWorld g g' /\ sameVitals (player g) (player g')
  /\ elapsedTime g' = elapsedTime g /\ gameState g' = gameState g
  /\ timers g' = timers g
  /\ melee_attacking (player g') = melee_attacking (player g)
  /\ q_cooldown (player g') = q_cooldown (player g)
  /\ q_unlocked (player g') = q_unlocked (player g)
  /\ isAiming (player g') = isAiming (player g)
  /\ reloading (player g') = reloading (player g)
  /\ (forall k, k <> "mouse0"%string -> key k g' = key k g)
  /\ (count isShot g <= count isShot g' <= S (count isShot g))%nat
  /\ (z_active (player g) = false ->
      ammoInMagazine (player g')
      = (ammoInMagazine (player g)
         - Z.of_nat (count isShot g' - count isShot g))%Z).
Proof.
  rewrite updatePlayer_fire_unfold.
  assert (Hid : sameWorld g g /\ sameVitals (player g) (player g)
    /\ elapsedTime g = elapsedTime g /\ gameState g = gameState g
    /\ timers g = timers g
    /\ melee_attacking (player g) = melee_attacking (player g)
    /\ q_cooldown (player g) = q_cooldown (player g)
    /\ q_unlocked (player g) = q_unlocked (player g)
    /\ isAiming (player g) = isAiming (player g)
    /\ reloading (player g) = reloading (player g)
    /\ (forall k, k <> "mouse0"%string -> key k g = key k g)
    /\ (count isShot g <= count isShot g <= S (count isShot g))%nat
    /\ (z_active (player g) = false ->
        ammoInMagazine (player g)
        = (ammoInMagazine (player g)
           - Z.of_nat (count isShot g - count isShot g))%Z)).
  { fields; lia. }
  destruct (fireReady g); [|exact Hid].
  assert (Hshoot : forall laser,
    let g1 := playerShoot laser g in
    sameWorld g g1 /\ sameVitals (player g) (player g1)
    /\ elapsedTime g1 = elapsedTime g /\ gameState g1 = gameState g
    /\ timers g1 = timers g
    /\ melee_attacking (player g1) = melee_attacking (player g)
    /\ q_cooldown (player g1) = q_cooldown (player g)
    /\ q_unlocked (player g1) = q_unlocked (player g)
    /\ isAiming (player g1) = isAiming (player g)
    /\ reloading (player g1) = reloading (player g)
    /\ keys g1 = keys g
    /\ count isShot g1 = S (count isShot g)
    /\ ammoInMagazine (player g1)
       = if laser then ammoInMagazine (player g)
         else (ammoInMagazine (player g) - 1)%Z).
  { intros laser.
    destruct (playerShoot_fields laser g)
      as (Hw & Hp & _ & Ht & Hk & _ & _ & He & Hti & Hgs).
    cbv zeta. set (g1 := playerShoot laser g) in *. clearbody g1.
    unfold count. rewrite Hp, Ht. split; [exact Hw|]. destruct laser; gsimpl; fields; auto. }
  destruct (z_active (player g)) eqn:Hz.
  - destruct (Hshoot true) as (A1 & A2 & A3 & A4 & A5 & A6 & A7 & A8 & A9 & A10
                               & A11 & A12 & A13).
    repeat (split; [done|]). split; [intros k _; unfold key; by rewrite A11|].
    split; [lia|]. discriminate.
  - destruct (0 <? _)%Z; [|exact Hid].
    destruct (Hshoot false) as (A1 & A2 & A3 & A4 & A5 & A6 & A7 & A8 & A9 & A10
                                & A11 & A12 & A13).
    cbv zeta. set (g1 := playerShoot false g) in *. clearbody g1.
    destruct (_ || _).
    + assert (Hk : forall k, k <> "mouse0"%string ->
                key k (setKey "mouse0" false g1) = key k g).
      { intros k Hk; rewrite key_setKey; case_decide; [congruence|].
        unfold key; by rewrite A11. }
      revert Hk. unfold setKey, count in *. gsimpl. intros Hk.
      repeat (split; [done|]).
      split; [lia|]. intros _. rewrite A13, A12. lia.
    + repeat (split; [done|]). split; [intros k _; unfold key; by rewrite A11|].
      split; [lia|]. intros _. rewrite A13, A12. lia.
Qed.

End PlayerUpdate.


(** * Melee, skills and the whole of [updatePlayer] *)

Section PlayerActions.
Context `{Host}.

Lemma playerMeleeAttack_fields g :
  let g' := playerMeleeAttack g in
  sameWorld g g' /\ trace g' = trace g /\ keys g' = keys g
  /\ elapsedTime g' = elapsedTime g /\ gameState g' = gameState g
  /\ bullets g' = bullets g
  /\ player g'
     = (let p := player g in
        if Qltb 0 (melee_cooldown p) || melee_attacking p || isAiming p then p
        else set_melee_swingTime CONFIG.MELEE.SWING_DURATION
               (set_melee_attacking true
                  (set_melee_cooldown CONFIG.MELEE.COOLDOWN p))).
Proof.
  intros g'. assert (Hg' : g' = playerMeleeAttack g) by reflexivity.
  clearbody g'. cbv beta delta [playerMeleeAttack] in Hg'. cbv zeta.
  sym_run Hg'. subst.
  destruct (_ || _ || _); gsimpl; fields.
Qed.

Lemma useSkillQ_fields g :
  let g' := useSkillQ g in
  sameWorld g g' /\ trace g' = trace g /\ keys g' = keys g
  /\ elapsedTime g' = elapsedTime g /\ gameState g' = gameState g
  /\ bullets g' = bullets g
  /\ player g'
     = set_q_cooldown CONFIG.SKILL_Q.COOLDOWN
         (set_hp (Qmin (maxHp (player g)) (hp (player g) + CONFIG.SKILL_Q.HEAL))
            (player g)).
Proof. unfold useSkillQ. fields. Qed.


Lemma actionFrame_refl g : actionFrame g g.
Proof. unfold actionFrame. fields. Qed.

Lemma actionFrame_trans g0 g1 g2 :
  actionFrame g0 g1 -> actionFrame g1 g2 -> actionFrame g0 g2.
Proof.
  unfold actionFrame.
  intros (A0 & A) (B0 & B). split; [eapply sameWorld_trans; eauto|].
  intuition congruence.
Qed.

Lemma playerMeleeAttack_frame g :
  actionFrame g (playerMeleeAttack g)
  /\ hp (player (playerMeleeAttack g)) = hp (player g)
  /\ q_cooldown (player (playerMeleeAttack g)) = q_cooldown (player g).
Proof.
  destruct (playerMeleeAttack_fields g) as (A1 & A2 & A3 & A4 & A5 & A6 & A7).
  cbv zeta in A7. unfold actionFrame. rewrite A7.
  destruct (_ || _ || _); repeat split; try done; apply A1.
Qed.

Lemma useSkillQ_frame g : actionFrame g (useSkillQ g).
Proof. unfold actionFrame, useSkillQ. fields. Qed.

Lemma useSkillZ_frame g :
  actionFrame g (useSkillZ g)
  /\ hp (player (useSkillZ g)) = hp (player g)
  /\ q_cooldown (player (useSkillZ g)) = q_cooldown (player g).
Proof. unfold actionFrame, useSkillZ. fields. Qed.

Lemma useSkillG_frame g :
  actionFrame g (useSkillG g)
  /\ hp (player (useSkillG g)) = hp (player g)
  /\ q_cooldown (player (useSkillG g)) = q_cooldown (player g).
Proof. unfold actionFrame, useSkillG. fields. Qed.

(** The four action keys, in the order [updatePlayer] reads them. *)
Lemma updatePlayer_actions_fields g :
  let g' := updatePlayer_actions g in
  let p := player g in
  let heal := key "KeyQ" g && q_unlocked p && Qleb (q_cooldown p) 0 in
  actionFrame g g'
  /\ hp (player g')
     = (if heal then Qmin (maxHp p) (hp p + CONFIG.SKILL_Q.HEAL) else hp p)
  /\ q_cooldown (player g')
     = (if heal then CONFIG.SKILL_Q.COOLDOWN else q_cooldown p).
Proof.
  intros g'. assert (Hg' : g' = updatePlayer_actions g) by reflexivity.
  clearbody g'. cbv beta delta [updatePlayer_actions] in Hg'. cbv zeta.
  sym_run Hg'.
  assert (H1 : actionFrame g s /\ hp (player s) = hp (player g)
               /\ q_cooldown (player s) = q_cooldown (player g)).
  { subst s. destruct (key "KeyF" g); [apply playerMeleeAttack_frame|].
    split; [apply actionFrame_refl|done]. }
  clear Es. destruct H1 as (F1 & Fh & Fq).
  assert (Hk : key "KeyQ" s = key "KeyQ" g)
    by (unfold key; destruct F1 as (_ & _ & -> & _); done).
  assert (Hu : q_unlocked (player s) = q_unlocked (player g)) by apply F1.
  assert (Hm : maxHp (player s) = maxHp (player g)) by apply F1.
  rewrite Hk, Hu, Fq in Es0.
  set (heal := key "KeyQ" g && q_unlocked (player g)
               && Qleb (q_cooldown (player g)) 0) in *.
  assert (H2 : actionFrame g s0
    /\ hp (player s0)
       = (if heal then Qmin (maxHp (player g)) (hp (player g) + CONFIG.SKILL_Q.HEAL)
          else hp (player g))
    /\ q_cooldown (player s0)
       = (if heal then CONFIG.SKILL_Q.COOLDOWN else q_cooldown (player g))).
  { subst s0. destruct heal; [|done].
    split; [eapply actionFrame_trans; [exact F1|apply useSkillQ_frame]|].
    unfold useSkillQ. gsimpl. by rewrite Hm, Fh. }
  clear Es0 F1 Fh Fq Hk Hu Hm. destruct H2 as (F2 & Fh & Fq).
  assert (H3 : actionFrame g s1 /\ hp (player s1) = hp (player s0)
               /\ q_cooldown (player s1) = q_cooldown (player s0)).
  { subst s1. destruct (key "KeyZ" s0 && _ && _); [|done].
    destruct (useSkillZ_frame s0) as (A & B & C).
    split; [eapply actionFrame_trans; eauto|]. rewrite ?B, ?C. done. }
  clear Es1. destruct H3 as (F3 & Fh3 & Fq3).
  subst g'. rewrite <- Fh, <- Fq, <- Fh3, <- Fq3.
  destruct (key "KeyG" s1 && _ && _); [|done].
  destruct (useSkillG_frame s1) as (A & B & C).
  split; [eapply actionFrame_trans; eauto|]. rewrite ?B, ?C. done.
Qed.


(** The whole of [updatePlayer]. *)
Lemma updatePlayer_fields deltaTime g :
  let g' := updatePlayer deltaTime g in
  sameWorld g g'
  /\ elapsedTime g' = elapsedTime g /\ gameState g' = gameState g
  /\ maxHp (player g') = maxHp (player g)
  /\ maxStamina (player g') = maxStamina (player g)
  /\ (0 <= stamina (player g') /\ stamina (player g') <= CONFIG.PLAYER.STAMINA)
  /\ (hp (player g') = hp (player g)
      \/ hp (player g')
         = Qmin (maxHp (player g)) (hp (player g) + CONFIG.SKILL_Q.HEAL))
  /\ (count isShot g <= count isShot g' <= S (count isShot g))%nat
  /\ (melee_attacking (player g) = true -> count isShot g' = count isShot g)
  /\ (reloading (player g) = true -> isAiming (player g') = false)
  /\ (key "KeyQ" g && q_unlocked (player g) && Qleb (q_cooldown (player g)) 0
      = false ->
      hp (player g') = hp (player g)
      /\ q_cooldown (player g') = q_cooldown (player g)).
Proof.
  unfold updatePlayer.
  destruct (updatePlayer_reload_fields deltaTime g)
    as (R1 & (R2 & R3 & R4 & R5) & R6 & R7 & R8 & R9 & R10 & R11 & R12 & R13
        & R14 & R15).
  set (g1 := updatePlayer_reload deltaTime g) in *. clearbody g1.
  destruct (updatePlayer_move_fields deltaTime g1)
    as (M1 & M2 & M3 & M4 & M5 & M6 & M7 & M8 & M9 & M10 & M11 & M12 & M13
        & M14 & M15 & M16).
  set (g2 := updatePlayer_move deltaTime g1) in *. clearbody g2.
  destruct (updatePlayer_fire_fields g2)
    as (F1 & (F2 & F3 & F4 & F5) & F6 & F7 & F8 & F9 & F10 & F11 & F12 & F13
        & F14 & F15 & F16).
  pose proof (updatePlayer_fire_melee g2) as Fm.
  set (g3 := updatePlayer_fire g2) in *. clearbody g3.
  destruct (updatePlayer_actions_fields g3)
    as ((A1 & A2 & A3 & A4 & A5 & A6 & A7 & A8 & A9 & A10 & A11 & A12 & A13)
        & A14 & A15).
  set (g4 := updatePlayer_actions g3) in *. clearbody g4.
  assert (Hk : key "KeyQ" g3 = key "KeyQ" g).
  { rewrite F14 by done. unfold key. by rewrite M8, R8. }
  assert (Hc : count isShot g2 = count isShot g)
    by (unfold count; congruence).
  assert (Hc4 : count isShot g4 = count isShot g3)
    by (unfold count; congruence).
  split; [repeat (eapply sameWorld_trans; [eassumption|]); apply sameWorld_refl|].
  split; [congruence|]. split; [congruence|]. split; [congruence|].
  split; [congruence|]. split; [rewrite A11, F4; done|].
  split.
  { rewrite A14. destruct (_ && _ && _); [right|left]; congruence. }
  split; [lia|]. split.
  { intros Hm. rewrite Hc4, <- Hc. f_equal. apply Fm. congruence. }
  split.
  { intros Hr. rewrite A7, F12, M14. auto. }
  intros Hq.
  assert (Hu : q_unlocked (player g3) = q_unlocked (player g)) by congruence.
  assert (Hq3 : q_cooldown (player g3) = q_cooldown (player g)) by congruence.
  rewrite A14, A15, Hk, Hu, Hq3, Hq. split; congruence.
Qed.

Lemma updatePlayer_inv deltaTime g : Inv g -> Inv (updatePlayer deltaTime g).
Proof.
  intros Hg.
  destruct (updatePlayer_fields deltaTime g)
    as (W & _ & _ & Hm & Hs & Hst & Hh & _).
  destruct Hg as [R (B1 & B2 & B3 & B4) S Hz L].
  eapply Inv_world; [exact W| | |constructor; try done].
  - unfold PlayerBounds. rewrite Hm, Hs, S. split; [|split; [|exact Hst]].
    + destruct Hh as [-> | ->]; [done|].
      apply Q.min_glb; [lra|]. unfold CONFIG.SKILL_Q.HEAL. lra.
    + destruct Hh as [-> | ->]; [done|]. apply Q.le_min_l.
  - congruence.
Qed.

End PlayerActions.


(** * The world moves: enemies, bullets, the drone, spawning *)

Lemma sameClass_refl e : sameClass e e.
Proof. unfold sameClass. destruct (ent_kind e); auto. Qed.

Lemma sameClass_position v e : sameClass e (set_ent_position v e).
Proof. unfold sameClass. cbn. destruct (ent_kind e); auto. Qed.

Lemma regOK_store r e e' g :
  regOK g -> heap g !! r = Some e -> sameClass e e' -> regOK (store r e' g).
Proof.
  intros (Hnd & He & Hb & Hn) Hl (Chp & Cd & Ck). unfold regOK, regOKx, store.
  gsimpl. split4; auto.
  - intros x Hx. destruct (He x Hx) as (ex & t & Hlx & Hk & Hd & Hhp).
    rewrite lookup_insert. case_decide; [subst x|by exists ex, t].
    assert (ex = e) by congruence. subst ex. rewrite Hk in Ck.
    destruct (ent_kind e') as [t'|] eqn:Hk'; [|done]. subst t'.
    exists e', t. rewrite Chp, Cd. by split3d.
  - intros b Hbo. destruct (Hb b Hbo) as (ex & bd & Hlx & Hk & Hd & Hhp).
    rewrite lookup_insert. case_decide; [subst b|by exists ex, bd].
    assert (ex = e) by congruence. subst ex. rewrite Hk in Ck.
    destruct (ent_kind e') as [|bd'] eqn:Hk'; [done|].
    exists e', bd'. rewrite Chp, Cd. by split3d.
  - intros x Hs. apply Hn. rewrite lookup_insert in Hs.
    case_decide; [subst; eauto|done].
Qed.

Lemma store_frame r e e' g :
  Inv g -> heap g !! r = Some e -> sameClass e e' ->
  Inv (store r e' g) /\ Stepped g (store r e' g).
Proof.
  intros [R P S Hz L] Hl Hc.
  split; [|split; [apply hitOnly_refl|reflexivity]].
  constructor; auto. eapply regOK_store; eauto.
Qed.

Section WorldSteps.
Context `{Host}.

Lemma updateEnemies_frame deltaTime : FrameOp (updateEnemies deltaTime).
Proof.
  intros g Hg. unfold updateEnemies.
  apply (fold_left_inv (λ g', Inv g' /\ Stepped g g'));
    [|split; [done|apply Stepped_refl]].
  intros g1 r [I1 S1].
  destruct (heap g1 !! r) as [enemy|] eqn:Hl; [|done]. cbv zeta.
  destruct (store_frame r enemy
              (set_ent_position
                 (vadd (ent_position enemy)
                    (multiplyScalar
                       (normalize
                          match ent_kind enemy with
                          | IsEnemy Drone | IsEnemy Scout =>
                              subVectors (playerPosition g1) (ent_position enemy)
                          | _ => set_vy 0 (subVectors (playerPosition g1)
                                             (ent_position enemy))
                          end) (ent_speed enemy * deltaTime))) enemy) g1 I1 Hl
              (sameClass_position _ _)) as [I2 S2].
  split; [done|]. eapply Stepped_trans; eauto.
Qed.

Lemma updateBullets_frame deltaTime : FrameOp (updateBullets deltaTime).
Proof.
  unfold updateBullets. intros g Hg. cbv zeta.
  apply (FrameStep (forDown _ _)); [|apply FrameOp_forDown; [|exact Hg]].
  - apply FrameOp_forDown. intros i g1 Hg1.
    destruct (droneBullets g1 !! i); [|by apply FrameOp_id].
    cbv zeta. destruct (Qltb _ _).
    + revert g1 Hg1. frame_world hitOnly_refl.
    + revert g1 Hg1. frame_world hitOnly_refl.
  - intros i g1 Hg1.
    destruct (bullets g1 !! i); [|by apply FrameOp_id].
    cbv zeta. destruct (Qltb _ _).
    + revert g1 Hg1. frame_world hitOnly_refl.
    + revert g1 Hg1. frame_world hitOnly_refl.
Qed.


Lemma updateBossBullets_frame deltaTime : FrameOp (updateBossBullets deltaTime).
Proof.
  unfold updateBossBullets. intros g Hg.
  apply FrameOp_forDown; [|exact Hg]. intros i g1 Hg1.
  destruct (bossBullets g1 !! i); [|by apply FrameOp_id].
  cbv zeta. destruct (Qltb _ _).
  { revert g1 Hg1. frame_world hitOnly_refl. }
  destruct (hitsBoundaryWall _ _ _).
  - apply (FrameStep (λ x, set_bossBullets (delete i (bossBullets g1)) x)).
    { frame_world hitOnly_refl. }
    apply FrameOp_damage; [apply createExplosion_op|exact Hg1].
  - revert g1 Hg1. frame_world hitOnly_refl.
Qed.

Lemma findDroneTarget_frame dronePos : FrameOp (findDroneTarget dronePos).
Proof.
  unfold findDroneTarget. intros g.
  destruct (fold_left _ _ _) as [closestDist target]. revert g.
  frame_world hitOnly_refl.
Qed.

Lemma droneShoot_frame dronePos : FrameOp (droneShoot dronePos).
Proof.
  unfold droneShoot. intros g Hg.
  destruct (droneTarget g); [|by apply FrameOp_id].
  destruct (heap g !! _); [|by apply FrameOp_id].
  cbv zeta. revert g Hg. frame_world hitOnly_refl.
Qed.

Lemma updateDrone_frame deltaTime : FrameOp (updateDrone deltaTime).
Proof.
  unfold updateDrone. intros g Hg.
  destruct (drone g) as [dronePos|]; [|by apply FrameOp_id]. cbv zeta.
  assert (H0 : Inv (set_drone (Some (lerp dronePos
                 (vadd (playerPosition g) (mkVector3 (-2) 2 (-2))) 0.1)) g)
               /\ Stepped g (set_drone (Some (lerp dronePos
                 (vadd (playerPosition g) (mkVector3 (-2) 2 (-2))) 0.1)) g)).
  { revert g Hg. frame_world hitOnly_refl. }
  set (g0 := set_drone _ g) in *. clearbody g0.
  destruct (Qltb _ _); [|exact H0].
  assert (H1 : forall b : bool,
             Inv (if b then findDroneTarget (lerp dronePos
                    (vadd (playerPosition g) (mkVector3 (-2) 2 (-2))) 0.1) g0
                  else g0)
             /\ Stepped g (if b then findDroneTarget (lerp dronePos
                    (vadd (playerPosition g) (mkVector3 (-2) 2 (-2))) 0.1) g0
                  else g0)).
  { intros [|]; [|exact H0]. by apply FrameStep; [apply findDroneTarget_frame|]. }
  match goal with |- context [if ?b then findDroneTarget _ _ else _] =>
    specialize (H1 b); set (g1 := if b then _ else _) in *; clearbody g1 end.
  destruct (droneTarget g1); [|exact H1].
  apply (FrameStep (set_lastDroneShotTime _)); [frame_world hitOnly_refl|].
  by apply FrameStep; [apply droneShoot_frame|].
Qed.


Lemma dropConfig_positive type :
  0 < E_HP (dropConfig type) /\ 0 <= E_DAMAGE (dropConfig type).
Proof. destruct type; cbn; lra. Qed.

(** Registering a freshly allocated enemy keeps the registry well formed. *)
Lemma regOK_spawn e t g :
  regOK g -> ent_kind e = IsEnemy t -> 0 < ent_hp e -> 0 <= ent_damage e ->
  regOK (set_enemies (enemies g ++ [nextRef g])
           (set_nextRef (S (nextRef g)) (store (nextRef g) e g))).
Proof.
  intros (Hnd & He & Hb & Hn) Hk Hhp Hd. unfold regOK, regOKx, store. gsimpl.
  assert (Hfresh : heap g !! nextRef g = None).
  { destruct (heap g !! nextRef g) eqn:E; [|done].
    assert (nextRef g < nextRef g)%nat by (apply Hn; eauto). lia. }
  split4.
  - apply NoDup_app. split; [done|]. split; [|apply NoDup_singleton].
    intros x Hx Hx'. apply list_elem_of_singleton in Hx'. subst x.
    destruct (He _ Hx) as (ex & ? & Hl & _). congruence.
  - intros x Hx. rewrite lookup_insert. case_decide; [by exists e, t|].
    apply elem_of_app in Hx as [Hx|Hx]; [by apply He|].
    apply list_elem_of_singleton in Hx. congruence.
  - intros b Hbo. rewrite lookup_insert. case_decide; [|by apply Hb].
    subst b. destruct (Hb _ Hbo) as (ex & ? & Hl & _). congruence.
  - intros x Hs. rewrite lookup_insert in Hs.
    case_decide; [lia|]. apply Hn in Hs. lia.
Qed.

Lemma spawnEnemy_fields g :
  let g' := spawnEnemy g in
  exists e t,
    g' = set_enemies (enemies g ++ [nextRef g])
           (set_nextRef (S (nextRef g))
              (store (nextRef g) e (set_rngPos (rngPos g') g)))
    /\ ent_kind e = IsEnemy t
    /\ ((0 <= currentLevel g)%Z -> 0 < ent_hp e /\ 0 <= ent_damage e).
Proof.
  intros g'. assert (Hg' : g' = spawnEnemy g) by reflexivity.
  clearbody g'. cbv beta delta [spawnEnemy] in Hg'.
  sym_run Hg'.
  assert (Hs5 : exists n, s5 = set_rngPos n g).
  { destruct s0; injection Ep as _ ->; subst s3 s; eexists; reflexivity. }
  destruct Hs5 as [n Hs5]. clear Ep.
  exists s9, s0. split; [|split].
  - subst g' s10 v2 s5. reflexivity.
  - by subst s9.
  - intros Hl.
    destruct (dropConfig_positive s0) as [Hp Hd]. rewrite <- Es1 in Hp, Hd.
    assert (H7 : 0 < s7) by (subst s7; destruct (isNewGamePlus s5); lra).
    assert (H8 : 0 < s8).
    { subst s8 s5. gsimpl. rewrite Zle_Qle in Hl. change (inject_Z 0) with 0 in Hl. lra. }
    subst s9. cbn [ent_hp ent_damage]. split.
    + repeat apply Qmult_lt_0_compat; done.
    + repeat apply Qmult_le_0_compat; lra.
Qed.

Lemma spawnEnemy_frame : FrameOp spawnEnemy.
Proof.
  intros g Hg. destruct (spawnEnemy_fields g) as (e & t & Hg' & Hk & Hpos).
  cbv zeta in Hg'. set (n := rngPos (spawnEnemy g)) in *. clearbody n.
  rewrite Hg'. clear Hg'.
  destruct Hg as [R P St Hz L]. destruct (Hpos L) as [Hp Hd].
  split; [|split; [apply hitOnly_refl|reflexivity]].
  constructor; auto.
  apply (regOKx_same None (set_enemies (enemies g ++ [nextRef g])
           (set_nextRef (S (nextRef g)) (store (nextRef g) e g))));
    try reflexivity.
  eapply regOK_spawn; eauto.
Qed.

Lemma upd_wave_frame f : FrameOp (upd_wave f).
Proof. frame_world hitOnly_refl. Qed.

Lemma updateWaveSpawning_frame deltaTime : FrameOp (updateWaveSpawning deltaTime).
Proof.
  unfold updateWaveSpawning. intros g Hg.
  destruct (_ || _); [by apply FrameOp_id|]. cbv zeta.
  pose proof (upd_wave_frame (λ w, set_spawnTimer (spawnTimer w - deltaTime) w) g Hg)
    as H1.
  set (g1 := upd_wave _ g) in *. clearbody g1.
  destruct (Qleb _ _); [|exact H1].
  apply FrameStep; [apply upd_wave_frame|].
  apply FrameStep; [apply spawnEnemy_frame|].
  by apply FrameStep; [apply upd_wave_frame|].
Qed.


Lemma updateSkills_fields deltaTime g :
  let g' := updateSkills deltaTime g in
  actionFrame g g' /\ hp (player g') = hp (player g)
  /\ wave g' = wave g
  /\ q_cooldown (player g')
     = (if Qltb 0 (q_cooldown (player g)) then q_cooldown (player g) - deltaTime
        else q_cooldown (player g)).
Proof.
  intros g'. assert (Hg' : g' = updateSkills deltaTime g) by reflexivity.
  clearbody g'. cbv beta delta [updateSkills upd_player] in Hg'.
  sym_run Hg'. subst g'. unfold actionFrame. gsimpl.
  assert (Hs : isAiming s2 = isAiming (player g)
    /\ reloading s2 = reloading (player g)
    /\ ammoInMagazine s2 = ammoInMagazine (player g)
    /\ maxHp s2 = maxHp (player g) /\ stamina s2 = stamina (player g)
    /\ maxStamina s2 = maxStamina (player g)
    /\ q_unlocked s2 = q_unlocked (player g) /\ hp s2 = hp (player g)
    /\ q_cooldown s2 = q_cooldown s).
  { clear Es3. unwind; repeat (break_if; gsimpl); fields. }
  destruct Hs as (A1 & A2 & A3 & A4 & A5 & A6 & A7 & A8 & A9).
  assert (Hq : q_cooldown s
               = (if Qltb 0 (q_cooldown (player g))
                  then q_cooldown (player g) - deltaTime
                  else q_cooldown (player g))).
  { rewrite Es. destruct (Qltb 0 (q_cooldown (player g))); reflexivity. }
  rewrite <- Hq, <- A9. clear Es Es0 Es1 Es2 Hq. subst s3.
  repeat (break_if; gsimpl);
    rewrite ?A1, ?A2, ?A3, ?A4, ?A5, ?A6, ?A7, ?A8; fields.
Qed.

Lemma updateMelee_fields deltaTime g :
  let g' := updateMelee deltaTime g in
  actionFrame g g' /\ hp (player g') = hp (player g)
  /\ wave g' = wave g
  /\ q_cooldown (player g') = q_cooldown (player g).
Proof.
  intros g'. assert (Hg' : g' = updateMelee deltaTime g) by reflexivity.
  clearbody g'. cbv beta delta [updateMelee upd_player] in Hg'.
  sym_run Hg'. subst g'. unfold actionFrame. gsimpl.
  assert (Hs : isAiming s = isAiming (player g)
    /\ reloading s = reloading (player g)
    /\ ammoInMagazine s = ammoInMagazine (player g)
    /\ maxHp s = maxHp (player g) /\ stamina s = stamina (player g)
    /\ maxStamina s = maxStamina (player g)
    /\ q_unlocked s = q_unlocked (player g) /\ hp s = hp (player g)
    /\ q_cooldown s = q_cooldown (player g)).
  { unwind; repeat (break_if; gsimpl); fields. }
  destruct Hs as (A1 & A2 & A3 & A4 & A5 & A6 & A7 & A8 & A9). clear Es.
  destruct (melee_attacking s); [|fields; done].
  unwind; repeat (break_if; gsimpl);
    rewrite ?A1, ?A2, ?A3, ?A4, ?A5, ?A6, ?A7, ?A8, ?A9; fields.
Qed.

(** A step inside [actionFrame] that leaves the hit points alone keeps the
    invariant. *)
Lemma actionFrame_inv g g' :
  actionFrame g g' -> hp (player g') = hp (player g) -> Inv g -> Inv g'.
Proof.
  intros (W & _ & _ & _ & _ & _ & _ & _ & _ & E1 & E2 & E3 & _) Hh.
  apply Inv_vitals; [exact W|]. by repeat split.
Qed.

End WorldSteps.


(** * The boss *)

Lemma sameClass_trans e0 e1 e2 : sameClass e0 e1 -> sameClass e1 e2 -> sameClass e0 e2.
Proof.
  unfold sameClass. intros (A1 & A2 & A3) (B1 & B2 & B3).
  split; [congruence|]. split; [congruence|].
  destruct (ent_kind e0), (ent_kind e1), (ent_kind e2); try done. congruence.
Qed.

Lemma sameClass_setAttackTimer v e : sameClass e (setAttackTimer v e).
Proof.
  unfold sameClass, setAttackTimer. destruct (ent_kind e) eqn:E; cbn; by rewrite ?E.
Qed.

Lemma sameClass_setWeak w e : sameClass e (setWeak w e).
Proof.
  unfold sameClass, setWeak. destruct (ent_kind e) eqn:E; cbn; by rewrite ?E.
Qed.

(** A new hazard with non-negative damage keeps the invariant. *)
Lemma addHazard_frame p g :
  0 <= hazardDamage p -> Inv g ->
  Inv (set_particles (particles g ++ [p]) g)
  /\ Stepped g (set_particles (particles g ++ [p]) g).
Proof.
  intros Hp Hg. split; [|split; [apply hitOnly_refl|reflexivity]].
  apply Inv_set_particles; [|done].
  apply Forall_app. split; [apply Hg|]. by constructor.
Qed.

(** The boss enters: a fresh object becomes the active boss. *)
Lemma regOK_enter e bd g :
  regOK g -> ent_kind e = IsBoss bd -> 0 < ent_hp e -> 0 <= ent_damage e ->
  regOK (set_boss (Some (nextRef g))
           (set_nextRef (S (nextRef g)) (store (nextRef g) e g))).
Proof.
  intros (Hnd & He & Hb & Hn) Hk Hhp Hd. unfold regOK, regOKx, store. gsimpl.
  assert (Hfresh : heap g !! nextRef g = None).
  { destruct (heap g !! nextRef g) eqn:E; [|done].
    assert (nextRef g < nextRef g)%nat by (apply Hn; eauto). lia. }
  split4; [done| | |].
  - intros x Hx. rewrite lookup_insert. case_decide; [|by apply He].
    subst x. destruct (He _ Hx) as (ex & ? & Hl & _). congruence.
  - intros b [= <-]. rewrite lookup_insert. case_decide; [|done].
    by exists e, bd.
  - intros x Hs. rewrite lookup_insert in Hs.
    case_decide; [lia|]. apply Hn in Hs. lia.
Qed.

(** A step that leaves the world and the player alone and emits no shot. *)
Lemma FrameOp_silent (f : Game -> Game) :
  (forall g, sameWorld g (f g) /\ player (f g) = player g
             /\ count isShot (f g) = count isShot g) ->
  FrameOp f.
Proof.
  intros Hf g Hg. destruct (Hf g) as (Hw & Hp & Ht). split.
  - eapply Inv_same; eauto.
  - split; [by apply hitOnly_eq|done].
Qed.

Section Boss.
Context `{Host}.

Lemma changeGameState_frame s : FrameOp (changeGameState s).
Proof. apply FrameOp_silent. intros g. fields. Qed.

Lemma beginBossFight_frame g :
  Inv g ->
  Inv (stateOf (beginBossFight g)) /\ Stepped g (stateOf (beginBossFight g)).
Proof.
  intros Hg. unfold beginBossFight. cbv zeta.
  destruct (changeGameState_frame boss_fight g Hg) as [I1 S1].
  change (currentLevel (changeGameState boss_fight g)) with (currentLevel g).
  destruct (CONFIG.BOSS_BASE (currentLevel g)) as [cfg|] eqn:Hc; [|done].
  apply BOSS_BASE_positive in Hc as (Hh & Hd & _).
  unfold alloc. cbn [stateOf]. split; [|split; [apply hitOnly_refl|reflexivity]].
  destruct Hg as [R P St Hz L]. constructor; auto.
  match goal with |- regOK (set_boss _ (set_nextRef _ (store _ ?e _))) =>
    pose proof (regOK_enter e (mkBossData (ent_hp e) 0
       (if (currentLevel g =? 5)%Z
        then (λ h, mkWeakPoint vzero h h 0) <$> B_WEAK_POINT_HP cfg
        else None)) g R eq_refl) as Hr end.
  cbn [ent_hp ent_damage] in Hr.
  eapply regOKx_same; [| | | |apply Hr]; try reflexivity.
  - destruct (isNewGamePlus _); lra.
  - destruct (isNewGamePlus _); lra.
Qed.


Lemma bossShootSimple_frame direction laser g :
  Inv g ->
  Inv (stateOf (bossShootSimple direction laser g))
  /\ Stepped g (stateOf (bossShootSimple direction laser g)).
Proof.
  intros Hg. unfold bossShootSimple.
  destruct (boss g) as [b|]; [|by apply FrameOp_id].
  destruct (heap g !! b) as [be|]; [|by apply FrameOp_id].
  destruct (CONFIG.BOSS_BASE _); [|by apply FrameOp_id].
  cbv zeta. cbn [stateOf]. revert g Hg. frame_world hitOnly_refl.
Qed.

(** Sequencing two fallible steps of the frame. *)
Lemma FrameStepM g (o : Outcome) (k : Game -> Outcome) :
  Inv (stateOf o) /\ Stepped g (stateOf o) ->
  (forall x, Inv x -> Inv (stateOf (k x)) /\ Stepped x (stateOf (k x))) ->
  Inv (stateOf (andThen o k)) /\ Stepped g (stateOf (andThen o k)).
Proof.
  intros [I1 S1] Hk. destruct o as [x|x]; cbn [andThen stateOf] in *; [|done].
  destruct (Hk x I1) as [I2 S2]. split; [done|]. eapply Stepped_trans; eauto.
Qed.

Lemma bossSpread_frame angles dirToPlayer g :
  Inv g ->
  Inv (stateOf (bossSpread angles dirToPlayer g))
  /\ Stepped g (stateOf (bossSpread angles dirToPlayer g)).
Proof.
  revert g. induction angles as [|i rest IH]; intros g Hg; cbn [bossSpread].
  - by apply FrameOp_id.
  - apply FrameStepM; [by apply bossShootSimple_frame|exact IH].
Qed.

Lemma setTimeout_frame cb ms : FrameOp (setTimeout cb ms).
Proof. frame_world hitOnly_refl. Qed.

Lemma scheduleRing_frame : FrameOp scheduleRing.
Proof.
  intros g Hg. unfold scheduleRing.
  apply (fold_left_inv (λ g', Inv g' /\ Stepped g g'));
    [|split; [done|apply Stepped_refl]].
  intros g1 i Hg1. by apply FrameStep; [apply setTimeout_frame|].
Qed.

Lemma set_rngPos_frame n : FrameOp (set_rngPos n).
Proof. frame_world hitOnly_refl. Qed.

Lemma executeBossAttack_frame g :
  Inv g ->
  Inv (stateOf (executeBossAttack g)) /\ Stepped g (stateOf (executeBossAttack g)).
Proof.
  intros Hg. unfold executeBossAttack.
  destruct (boss g) as [b|]; [|by apply FrameOp_id].
  destruct (heap g !! b) as [be|] eqn:Hl; [|by apply FrameOp_id].
  destruct (CONFIG.BOSS_BASE (currentLevel g)) as [cfg|] eqn:Hc;
    [|by apply FrameOp_id].
  apply BOSS_BASE_positive in Hc as (_ & _ & Hd & _).
  cbv zeta.
  pose proof (store_frame b be (setAttackTimer (B_ATTACK_COOLDOWN cfg) be) g Hg Hl
                (sameClass_setAttackTimer _ _)) as H1.
  set (g1 := store b _ g) in *. clearbody g1.
  destruct H1 as [I1 S1].
  assert (Hs : forall o, Inv (stateOf o) /\ Stepped g1 (stateOf o) ->
                         Inv (stateOf o) /\ Stepped g (stateOf o)).
  { intros o [A B]. split; [done|]. eapply Stepped_trans; eauto. }
  apply Hs. clear Hs S1 Hl Hg.
  repeat match goal with
    | |- context [if (?l =? ?n)%Z then _ else _] => destruct (l =? n)%Z
    end.
  - by apply bossShootSimple_frame.
  - by apply bossSpread_frame.
  - apply FrameStepM; [by apply bossShootSimple_frame|].
    intros x Hx. cbn [stateOf]. by apply addHazard_frame.
  - apply FrameStepM; [by apply bossShootSimple_frame|].
    intros x Hx. cbn [stateOf]. by apply addHazard_frame.
  - unfold random. cbv beta iota zeta.
    pose proof (set_rngPos_frame (S (rngPos g1)) g1 I1) as H2.
    set (g2 := set_rngPos _ g1) in *.
    destruct (_ =? 0)%Z; cbn [stateOf].
    + by apply FrameStep; [apply scheduleRing_frame|].
    + destruct H2 as [I2 S2].
      destruct (addHazard_frame
                  (SweepingLaser 5 (set_vy 1.6 (ent_position be)) 0
                     (B_BULLET_DAMAGE cfg) 0.5) g2 Hd I2) as [I3 S3].
      split; [exact I3|]. eapply Stepped_trans; eauto.
  - by apply FrameOp_id.
Qed.

Lemma ringShot_frame i g :
  Inv g -> Inv (stateOf (ringShot i g)) /\ Stepped g (stateOf (ringShot i g)).
Proof.
  intros Hg. unfold ringShot. destruct (boss g); [|by apply FrameOp_id].
  by apply bossShootSimple_frame.
Qed.

Lemma updateBoss_frame deltaTime g :
  Inv g ->
  Inv (stateOf (updateBoss deltaTime g))
  /\ Stepped g (stateOf (updateBoss deltaTime g)).
Proof.
  intros Hg. unfold updateBoss.
  destruct (boss g) as [b|]; [|by apply FrameOp_id].
  destruct (heap g !! b) as [be|] eqn:Hl; [|by apply FrameOp_id].
  cbv zeta.
  match goal with |- context [store b ?e g] =>
    assert (Hc : sameClass be e);
    [|pose proof (store_frame b be e g Hg Hl Hc) as H1;
      set (be1 := e) in *; clearbody be1]
  end.
  { eapply sameClass_trans; [|apply sameClass_setAttackTimer].
    destruct (_ <? 5)%Z; [apply sameClass_position|apply sameClass_refl]. }
  set (g1 := store b be1 g) in *. clearbody g1.
  apply FrameStepM.
  { destruct (Qleb _ _); [|exact H1]. destruct H1 as [I1 S1].
    destruct (executeBossAttack_frame g1 I1) as [I2 S2].
    split; [done|]. eapply Stepped_trans; eauto. }
  intros x Hx. destruct (boss x) as [bx|]; [|by apply FrameOp_id].
  destruct (heap x !! bx) as [bex|] eqn:Hlx; [|by apply FrameOp_id].
  destruct (weakOf bex) as [wp|]; [|by apply FrameOp_id].
  cbv zeta. cbn [stateOf]. apply (store_frame bx bex); auto.
  apply sameClass_setWeak.
Qed.

End Boss.


(** * The frame *)

Lemma Settled_refl g : Settled g g.
Proof. unfold Settled. repeat split; lra. Qed.

Lemma Settled_trans g0 g1 g2 : Settled g0 g1 -> Settled g1 g2 -> Settled g0 g2.
Proof.
  intros (A1 & A2 & A3) (B1 & B2 & B3). repeat split; try congruence. lra.
Qed.

Lemma Stepped_Settled g g' : Stepped g g' -> Settled g g'.
Proof.
  intros [(h & t & a & Hp) Hs]. unfold Settled. rewrite Hp.
  split; [done|]. cbn. split; [reflexivity|lra].
Qed.

Section Frame.
Context `{Host}.

(** The second half of [animate]: spawning, the boss, the particles. *)
Lemma animate_tail deltaTime g :
  0 <= deltaTime -> Inv g ->
  let o :=
    let g := if bool_decide (gameState g = playing)
             then updateWaveSpawning deltaTime g else g in
    andThen
      (if bool_decide (gameState g = boss_fight)
          && (match boss g with Some _ => true | None => false end)
       then andThen (updateBoss deltaTime g)
              (λ g, Normal (updateBossBullets deltaTime g))
       else Normal g)
      (λ g, Normal (updateParticles deltaTime g)) in
  Inv (stateOf o) /\ Stepped g (stateOf o).
Proof.
  intros Hd Hg. cbv zeta.
  assert (H1 : Inv (if bool_decide (gameState g = playing)
                    then updateWaveSpawning deltaTime g else g)
               /\ Stepped g (if bool_decide (gameState g = playing)
                             then updateWaveSpawning deltaTime g else g)).
  { destruct (bool_decide _); [by apply updateWaveSpawning_frame|by apply FrameOp_id]. }
  set (g1 := if bool_decide (gameState g = playing) then _ else _) in *.
  clearbody g1. destruct H1 as [I1 S1].
  assert (Hs : forall o, Inv (stateOf o) /\ Stepped g1 (stateOf o) ->
                         Inv (stateOf o) /\ Stepped g (stateOf o)).
  { intros o [A B]. split; [done|]. eapply Stepped_trans; eauto. }
  apply Hs. clear Hs S1 Hg.
  apply FrameStepM.
  - destruct (_ && _); [|by apply FrameOp_id].
    apply FrameStepM; [by apply updateBoss_frame|].
    intros x Hx. cbn [stateOf]. by apply updateBossBullets_frame.
  - intros x Hx. cbn [stateOf]. by apply updateParticles_frame.
Qed.

(** The first half of [animate] after [updatePlayer]. *)
Lemma animate_play deltaTime g :
  0 <= deltaTime -> Inv g ->
  let o :=
    let g := updateEnemies deltaTime g in
    let g := updateBullets deltaTime g in
    let g := if drone_unlocked (player g) then updateDrone deltaTime g else g in
    andThen (checkCollisions g)
      (λ g, Normal (updateMelee deltaTime (updateSkills deltaTime g))) in
  Inv (stateOf o) /\ Settled g (stateOf o).
Proof.
  intros Hd Hg. cbv zeta.
  pose proof (updateEnemies_frame deltaTime g Hg) as H1.
  set (g1 := updateEnemies deltaTime g) in *. clearbody g1.
  apply (FrameStep (updateBullets deltaTime)) in H1; [|apply updateBullets_frame].
  set (g2 := updateBullets deltaTime g1) in *. clearbody g2.
  assert (H3 : Inv (if drone_unlocked (player g2) then updateDrone deltaTime g2 else g2)
               /\ Stepped g (if drone_unlocked (player g2)
                             then updateDrone deltaTime g2 else g2)).
  { destruct (drone_unlocked _); [|done].
    by apply FrameStep; [apply updateDrone_frame|]. }
  set (g3 := if drone_unlocked (player g2) then _ else _) in *. clearbody g3.
  clear H1. destruct H3 as [I3 S3].
  destruct (checkCollisions_frame g3 I3) as [I4 S4].
  assert (S5 : Settled g (stateOf (checkCollisions g3))).
  { apply Stepped_Settled. eapply Stepped_trans; eauto. }
  destruct (checkCollisions g3) as [g4|g4]; cbn [andThen stateOf] in *; [|done].
  destruct (updateSkills_fields deltaTime g4) as (A1 & A2 & _ & A3).
  set (g5 := updateSkills deltaTime g4) in *. clearbody g5.
  destruct (updateMelee_fields deltaTime g5) as (B1 & B2 & _ & B3).
  set (g6 := updateMelee deltaTime g5) in *. clearbody g6.
  split.
  - eapply actionFrame_inv; [exact B1|exact B2|].
    eapply actionFrame_inv; [exact A1|exact A2|exact I4].
  - eapply Settled_trans; [exact S5|].
    destruct A1 as (_ & At & _ & _ & _ & _ & Aa & _).
    destruct B1 as (_ & Bt & _ & _ & _ & _ & Ba & _).
    unfold Settled, count. rewrite Bt, At, Ba, Aa, B3, A3.
    split; [done|]. split; [done|]. destruct (Qltb _ _); lra.
Qed.


Lemma SettledStepM g (o : Outcome) (k : Game -> Outcome) :
  Inv (stateOf o) /\ Settled g (stateOf o) ->
  (forall x, Inv x -> Inv (stateOf (k x)) /\ Stepped x (stateOf (k x))) ->
  Inv (stateOf (andThen o k)) /\ Settled g (stateOf (andThen o k)).
Proof.
  intros [I1 S1] Hk. destruct o as [x|x]; cbn [andThen stateOf] in *; [|done].
  destruct (Hk x I1) as [I2 S2]. split; [done|].
  eapply Settled_trans; [exact S1|by apply Stepped_Settled].
Qed.

Lemma set_elapsedTime_inv t g : Inv g -> Inv (set_elapsedTime t g).
Proof. intros Hg. eapply Inv_same; [| |exact Hg]; [world|reflexivity]. Qed.

Lemma animate_paused deltaTime g :
  gameState g = paused -> animate deltaTime g = Normal g.
Proof. intros Hp. unfold animate. by rewrite bool_decide_eq_true_2. Qed.

(** A frame: [updatePlayer] acts, the rest of the frame settles. *)
Lemma animate_fields deltaTime g :
  0 <= deltaTime -> Inv g -> gameState g <> paused ->
  let g0 := set_elapsedTime (elapsedTime g + deltaTime) g in
  let g1 := if inPlay g0 then updatePlayer deltaTime g0 else g0 in
  Inv (stateOf (animate deltaTime g))
  /\ Settled g1 (stateOf (animate deltaTime g)).
Proof.
  intros Hd Hg Hp g0 g1. unfold animate.
  rewrite bool_decide_eq_false_2 by done. cbv zeta. fold g0.
  assert (I0 : Inv g0) by by apply set_elapsedTime_inv.
  assert (I1 : Inv g1).
  { subst g1. destruct (inPlay g0); [by apply updatePlayer_inv|done]. }
  apply SettledStepM; [|intros x Hx; by apply animate_tail].
  subst g1. destruct (inPlay g0).
  - by apply animate_play.
  - split; [done|apply Settled_refl].
Qed.

Lemma animate_inv deltaTime g :
  0 <= deltaTime -> Inv g -> Inv (stateOf (animate deltaTime g)).
Proof.
  intros Hd Hg. destruct (decide (gameState g = paused)) as [Hp|Hp].
  - by rewrite animate_paused.
  - by apply animate_fields.
Qed.

End Frame.


(** * Timers, input events and every reachable state *)

(** A step that keeps the registry, the hazards and the player's vital
    fields, and does not lower the level. *)
Lemma Inv_keep g g' :
  enemies g' = enemies g -> boss g' = boss g -> heap g' = heap g ->
  nextRef g' = nextRef g -> particles g' = particles g ->
  sameVitals (player g) (player g') ->
  (currentLevel g <= currentLevel g')%Z ->
  Inv g -> Inv g'.
Proof.
  intros E1 E2 E3 E4 E5 (V1 & V2 & V3 & V4) Hl [R P St Hz L].
  constructor.
  - by eapply regOKx_same.
  - unfold PlayerBounds. by rewrite V1, V2, V3, V4.
  - by rewrite V4.
  - by rewrite E5.
  - lia.
Qed.

Ltac keep :=
  eapply Inv_keep; [..|eassumption];
  first [ reflexivity | (repeat split; reflexivity) | (gsimpl; lia) | idtac ].

Section Events.
Context `{Host}.

Lemma beginWave_inv g : Inv g -> Inv (beginWave g).
Proof.
  intros Hg. unfold beginWave, unlockSkills. cbv zeta.
  destruct (_ && _); keep.
Qed.

Lemma showMessages_inv index count g : Inv g -> Inv (showMessages index count g).
Proof.
  intros Hg. unfold showMessages. destruct (_ <? _)%nat.
  - keep.
  - by apply beginWave_inv.
Qed.

Lemma startNextWave_inv g : Inv g -> Inv (startNextWave g).
Proof.
  intros Hg. set (g' := startNextWave g).
  assert (Hg' : g' = startNextWave g) by reflexivity.
  clearbody g'. cbv beta delta [startNextWave] in Hg'.
  sym_run Hg'.
  assert (I1 : Inv s) by (subst s; keep).
  clear Es Hg.
  assert (I2 : Inv s0).
  { destruct (_ && _); injection Ep as _ ->; [keep|done]. }
  clear Ep I1.
  assert (I3 : Inv s1).
  { destruct (_ && _); injection Ep0 as _ ->; [unfold spawnDrone; keep|done]. }
  clear Ep0 I2.
  assert (I4 : Inv s3).
  { destruct (_ =? 3)%Z; injection Ep1 as _ ->; [keep|done]. }
  clear Ep1 I3. subst g'.
  destruct (_ <? _)%nat; [by apply showMessages_inv|by apply beginWave_inv].
Qed.

Lemma runCallback_inv cb g : Inv g -> Inv (stateOf (runCallback cb g)).
Proof.
  intros Hg. destruct cb; cbn [runCallback stateOf].
  - by apply startNextWave_inv.
  - by apply showMessages_inv.
  - by apply beginBossFight_frame.
  - by apply (FrameOp_damage _ (meleeSweep_op _ _)).
  - by apply ringShot_frame.
Qed.

Lemma fireTimer_inv i g : Inv g -> Inv (stateOf (fireTimer i g)).
Proof.
  intros Hg. unfold fireTimer. destruct (timers g !! i) as [[ms cb]|]; [|done].
  apply runCallback_inv. keep.
Qed.


Lemma resetGame_inv isNGP g :
  (forall r, is_Some (heap g !! r) -> (r < nextRef g)%nat) ->
  Inv (resetGame isNGP g).
Proof.
  intros Hn. unfold resetGame, startGame. cbv zeta. constructor; gsimpl.
  - unfold regOK, regOKx. gsimpl. split4; [constructor| | |exact Hn].
    + intros r Hr. by apply elem_of_nil in Hr.
    + intros b Hb. discriminate.
  - unfold PlayerBounds. cbn. unfold CONFIG.PLAYER.HP, CONFIG.PLAYER.STAMINA. lra.
  - reflexivity.
  - constructor.
  - lia.
Qed.

Lemma Inv_heap_bound g :
  Inv g -> forall r, is_Some (heap g !! r) -> (r < nextRef g)%nat.
Proof. intros [(_ & _ & _ & Hn) _ _ _ _]. exact Hn. Qed.

Lemma togglePause_inv g : Inv g -> Inv (togglePause g).
Proof.
  intros Hg. unfold togglePause. destruct (bool_decide _).
  - destruct (previousGameState g); [keep|done].
  - destruct (inPlay g); [keep|done].
Qed.

Lemma setKey_inv k v g : Inv g -> Inv (setKey k v g).
Proof. intros Hg. unfold setKey. keep. Qed.

Lemma step_inv g g' : step g g' -> Inv g -> Inv g'.
Proof.
  intros Hs Hg. destruct Hs.
  - by apply animate_inv.
  - by apply fireTimer_inv.
  - by apply resetGame_inv, Inv_heap_bound.
  - unfold quitToMainMenu. apply resetGame_inv.
    change (heap (changeGameState start_screen g)) with (heap g).
    change (nextRef (changeGameState start_screen g)) with (nextRef g).
    by apply Inv_heap_bound.
  - by apply togglePause_inv.
  - unfold onKeyDown. destruct (_ && _);
      [by apply togglePause_inv|by apply setKey_inv].
  - by apply setKey_inv.
  - unfold onMouseDown. cbv zeta.
    assert (I1 : Inv (if (button =? 0)%Z then setKey "mouse0" true g else g))
      by (destruct (button =? 0)%Z; [by apply setKey_inv|done]).
    destruct (_ && _ && _); [keep|done].
  - unfold onMouseUp. cbv zeta.
    assert (I1 : Inv (if (button =? 0)%Z then setKey "mouse0" false g else g))
      by (destruct (button =? 0)%Z; [by apply setKey_inv|done]).
    destruct (button =? 2)%Z; [keep|done].
  - unfold onMouseMove. keep.
  - keep.
Qed.

(** Every state the game can reach satisfies the frame invariant. *)
Lemma reachable_inv g : reachable g -> Inv g.
Proof.
  induction 1 as [isNGP|g g' _ IH Hs].
  - apply resetGame_inv. intros r [e He]. unfold constructed in He. cbn [heap] in He.
    by rewrite lookup_empty in He.
  - by eapply step_inv.
Qed.

Lemma Inv_TickBounds g : Inv g -> TickBounds g.
Proof.
  intros [(_ & He & Hb & _) (P1 & P2 & P3 & P4) _ _ _]. unfold TickBounds.
  split; [done|]. split; [done|]. split.
  - intros r Hr. destruct (He r Hr) as (e & t & Hl & _ & _ & Hhp).
    exists e. split; [done|]. by apply Hhp.
  - intros b Hbo. destruct (Hb b Hbo) as (e & t & Hl & _ & _ & Hhp).
    exists e. split; [done|]. by apply Hhp.
Qed.

End Events.


(** * The shapes of a damage call *)

Lemma regOK_enemy_kind g r e :
  regOK g -> r ∈ enemies g -> heap g !! r = Some e ->
  (exists t, ent_kind e = IsEnemy t) /\ 0 < ent_hp e /\ isFinalBoss e = false.
Proof.
  intros (_ & He & _) Hr Hl. destruct (He r Hr) as (e' & t & Hl' & Hk & _ & Hhp).
  assert (e' = e) by congruence. subst e'.
  split; [eauto|]. split; [by apply Hhp|]. unfold isFinalBoss. by rewrite Hk.
Qed.

Lemma regOK_boss_kind g b e :
  regOK g -> boss g = Some b -> heap g !! b = Some e ->
  (exists bd, ent_kind e = IsBoss bd) /\ 0 < ent_hp e /\ isKamikaze e = false
  /\ b ∉ enemies g.
Proof.
  intros (_ & He & Hb & _) Hbo Hl.
  destruct (Hb b Hbo) as (e' & bd & Hl' & Hk & _ & Hhp).
  assert (e' = e) by congruence. subst e'.
  split; [eauto|]. split; [by apply Hhp|]. split.
  - unfold isKamikaze. by rewrite Hk.
  - intros Hin. destruct (He b Hin) as (e' & t & Hl'' & Hk' & _). congruence.
Qed.

Lemma indexOf_elem r l : r ∈ l -> exists i, indexOf r l = Some i.
Proof.
  intros Hr. unfold indexOf.
  destruct (list_find (λ x, x = r) l) as [[i x]|] eqn:E; [by exists i|].
  apply list_find_None in E. rewrite Forall_forall in E. by destruct (E r Hr).
Qed.

Section DamageShapes.
Context `{Host}.

(** A damage call on an object that is already dead does nothing. *)
Lemma dealDamageTo_noop r damage fromExplosion g e :
  heap g !! r = Some e -> ent_hp e <= 0 ->
  dealDamageTo r damage fromExplosion g = g.
Proof.
  intros Hl Hh. unfold dealDamageTo, dealDamageWith. rewrite Hl.
  by rewrite (proj2 (Qleb_le _ _) Hh).
Qed.


(** Any other object that does not blow itself up loses [damage] points and
    its death is resolved. *)
Lemma dealDamageTo_direct r damage fromExplosion g e :
  heap g !! r = Some e -> 0 < ent_hp e ->
  isKamikaze e && negb fromExplosion = false -> isFinalBoss e = false ->
  dealDamageTo r damage fromExplosion g
  = dealDamageTo_death r (setHp r (ent_hp e - damage) g).
Proof.
  intros Hl Hh Hk Hf. unfold dealDamageTo, dealDamageWith. rewrite Hl.
  rewrite (proj2 (Qleb_gt _ _) Hh), Hk, Hf. reflexivity.
Qed.

Lemma dealDamageTo_survive r damage fromExplosion g e :
  heap g !! r = Some e -> 0 < ent_hp e - damage -> 0 < ent_hp e ->
  isKamikaze e && negb fromExplosion = false -> isFinalBoss e = false ->
  dealDamageTo r damage fromExplosion g = setHp r (ent_hp e - damage) g.
Proof.
  intros Hl Hd Hh Hk Hf. rewrite (dealDamageTo_direct _ _ _ _ e) by done.
  unfold dealDamageTo_death. rewrite setHp_lookup. case_decide; [|done].
  rewrite Hl. cbn [fmap option_fmap option_map ent_hp set_ent_hp].
  by rewrite (proj2 (Qleb_gt _ _) Hd).
Qed.

Lemma dealDamageTo_kill r damage fromExplosion g e :
  regOK g -> r ∈ enemies g -> heap g !! r = Some e ->
  ent_hp e - damage <= 0 -> isKamikaze e && negb fromExplosion = false ->
  exists i, enemies g !! i = Some r
    /\ dealDamageTo r damage fromExplosion g
       = onEnemyDefeated r i (setHp r (ent_hp e - damage) g).
Proof.
  intros Hg Hr Hl Hd Hk.
  destruct (regOK_enemy_kind g r e Hg Hr Hl) as (_ & Hh & Hf).
  destruct (indexOf_elem r (enemies g) Hr) as [i Hi]. exists i.
  split; [by apply indexOf_Some|].
  rewrite (dealDamageTo_direct _ _ _ _ e) by done.
  unfold dealDamageTo_death. rewrite setHp_lookup. case_decide; [|done].
  rewrite Hl. cbn [fmap option_fmap option_map ent_hp set_ent_hp].
  rewrite (proj2 (Qleb_le _ _) Hd).
  destruct (setHp_fields r (ent_hp e - damage) g) as (-> & _). by rewrite Hi.
Qed.


Lemma damageBossDirect_kill damage g b be :
  boss g = Some b -> heap g !! b = Some be -> ent_hp be - damage <= 0 ->
  damageBossDirect damage g = onBossDefeated (setHp b (ent_hp be - damage) g).
Proof.
  intros Hb Hl Hd. unfold damageBossDirect. rewrite Hb, Hl. cbv zeta.
  by rewrite (proj2 (Qleb_le _ _) Hd).
Qed.

(** On a boss other than the final one, [dealDamageTo] is that same hit. *)
Lemma dealDamageTo_boss damage fromExplosion g b be :
  regOK g -> boss g = Some b -> heap g !! b = Some be ->
  isFinalBoss be = false ->
  dealDamageTo b damage fromExplosion g = damageBossDirect damage g.
Proof.
  intros Hg Hb Hl Hf.
  destruct (regOK_boss_kind g b be Hg Hb Hl) as (_ & Hh & Hk & Hn).
  rewrite (dealDamageTo_direct _ _ _ _ be) by (by rewrite ?Hk).
  unfold damageBossDirect, dealDamageTo_death. rewrite Hb, Hl. cbv zeta.
  rewrite setHp_lookup. case_decide; [|done].
  rewrite Hl. cbn [fmap option_fmap option_map ent_hp set_ent_hp].
  destruct (Qleb _ _); [|done].
  destruct (setHp_fields b (ent_hp be - damage) g) as (-> & -> & _).
  destruct (indexOf b (enemies g)) as [i|] eqn:Hi.
  - apply indexOf_Some, list_elem_of_lookup_2 in Hi. done.
  - by case_decide.
Qed.


(** The killing hit runs the boss-death sequence. *)
Lemma damageBossDirect_ran damage g b be :
  boss g = Some b -> heap g !! b = Some be -> ent_hp be - damage <= 0 ->
  bossDeathRan b g (damageBossDirect damage g).
Proof.
  intros Hb Hl Hd. rewrite (damageBossDirect_kill _ _ b be) by done.
  unfold setHp. rewrite Hl.
  set (g1 := store b (set_ent_hp (ent_hp be - damage) be) g).
  assert (Hb1 : boss g1 = Some b) by done.
  destruct (onBossDefeated_fields b g1 Hb1)
    as (E1 & E2 & E3 & E4 & E5 & E6 & E7 & E8 & E9 & E10 & E11 & E12 & E13 & _).
  set (g' := onBossDefeated g1) in *. clearbody g'.
  unfold bossDeathRan. repeat (split; [done|]).
  split; [intros deltaTime; by apply updateParticles_no_hazard|].
  split; [unfold _checkBossBulletCollisions; by rewrite E2|].
  split; [intros i; unfold ringShot; by rewrite E1|].
  split; [intros d; unfold damageBossDirect; by rewrite E1|].
  intros d fe. apply (dealDamageTo_noop _ _ _ _ (set_ent_hp (ent_hp be - damage) be)).
  - rewrite E5. subst g1. unfold store. gsimpl. by rewrite lookup_insert_eq.
  - done.
Qed.

(** ** Behind the shield *)

Lemma shield_contact g :
  shield_active (player g) = true ->
  hp (player (_checkPlayerCollisions_contact g)) = hp (player g).
Proof.
  intros Hs. unfold _checkPlayerCollisions_contact. cbv zeta.
  destruct (Qltb _ _); [|done].
  destruct (findEnemyHit _ g) as [[r enemy]|].
  - destruct (isKamikaze enemy); gsimpl.
    + by rewrite dealDamageTo_player.
    + by rewrite playerTakeDamage_shield.
  - destruct (boss g) as [br|]; [|done].
    destruct (heap g !! br) as [be|]; [|done].
    destruct (Qltb _ _); [|done]. gsimpl. by rewrite playerTakeDamage_shield.
Qed.

Lemma shield_bossBullets g :
  shield_active (player g) = true ->
  hp (player (stateOf (_checkBossBulletCollisions g))) = hp (player g).
Proof.
  intros Hs.
  assert (Hp : player (stateOf (_checkBossBulletCollisions g)) = player g);
    [|by rewrite Hp].
  unfold _checkBossBulletCollisions.
  apply (forDownM_inv (λ g', player g' = player g)); [|done].
  intros i g' Hg'. destruct (bossBullets g' !! i) as [bullet|]; [|done].
  destruct (Qltb _ _); [|done].
  destruct (CONFIG.BOSS_BASE _); [|done]. cbv zeta. cbn [stateOf]. gsimpl.
  rewrite playerTakeDamage_shield; [done|]. by rewrite Hg'.
Qed.

Lemma shield_particles deltaTime g :
  shield_active (player g) = true ->
  hp (player (updateParticles deltaTime g)) = hp (player g).
Proof.
  intros Hs.
  assert (Hp : player (updateParticles deltaTime g) = player g);
    [|by rewrite Hp].
  unfold updateParticles.
  apply (forDown_inv (λ g', player g' = player g)); [|done].
  intros i g' Hg'. assert (Hs' : shield_active (player g') = true) by by rewrite Hg'.
  assert (He : forall x, player (expireParticle i x) = player x).
  { intros x. unfold expireParticle. destruct (particles x !! i); [|done].
    by destruct (Qleb _ _). }
  destruct (particles g' !! i) as [[l|l pos sx d|l pos sx d er|l pos ry d rs]|];
    [| | | |done]; cbv zeta; rewrite He; unfold setParticle; gsimpl.
  - done.
  - destruct (Qltb _ _); [|done]. rewrite playerTakeDamage_shield; done.
  - destruct (_ && _); [|done]. gsimpl. rewrite playerTakeDamage_shield; done.
  - destruct (_ && _); [|done]. rewrite playerTakeDamage_shield; done.
Qed.


(** ** Every damage path leaves the player and the kinds of objects alone *)

Lemma Touch_any T g g' : Touch T g g' -> Touch (λ _, True) g g'.
Proof. apply Touch_weaken. auto. Qed.

Lemma dealDamageTo_touch target damage fromExplosion g :
  Touch (λ _, True) g (dealDamageTo target damage fromExplosion g).
Proof.
  unfold dealDamageTo, dealDamageWith.
  destruct (heap g !! target) as [t|]; [|apply Touch_refl].
  destruct (Qleb _ _); [apply Touch_refl|]. cbv zeta.
  eapply Touch_trans; [|apply dealDamageTo_death_touch].
  destruct (_ && _).
  - eapply Touch_trans; [eapply Touch_any, triggerExplosion_touch|].
    eapply Touch_any, setHp_touch.
  - destruct (isFinalBoss t); [apply Touch_refl|].
    eapply Touch_any, setHp_touch.
Qed.

Ltac tch :=
  lazymatch goal with
  | |- Touch _ ?g ?y =>
      lazymatch y with
      | set_bullets _ ?x =>
          apply (Touch_trans _ g x); [tch|by apply Touch_same; auto]
      | set_droneBullets _ ?x =>
          apply (Touch_trans _ g x); [tch|by apply Touch_same; auto]
      | createExplosion _ _ ?x =>
          apply (Touch_trans _ g x); [tch|apply createExplosion_touch]
      | dealDamageTo _ _ _ ?x =>
          apply (Touch_trans _ g x); [tch|apply dealDamageTo_touch]
      | triggerExplosion _ _ _ _ ?x =>
          apply (Touch_trans _ g x);
          [tch|eapply Touch_any, triggerExplosion_touch]
      | damageBossDirect _ ?x =>
          apply (Touch_trans _ g x);
          [tch|eapply Touch_any, damageBossDirect_touch]
      | (if ?c then _ else _) => destruct c; tch
      | _ => apply Touch_refl
      end
  end.

Lemma bulletStep_touch i g : Touch (λ _, True) g (bulletStep i g).
Proof.
  unfold bulletStep.
  destruct (bullets g !! i) as [b|]; [|tch].
  destruct (findEnemyHit _ g) as [[r e]|].
  - destruct (isExplosive b), (isLaser b); cbn [negb]; tch.
  - destruct (boss g) as [br|]; [|tch].
    destruct (heap g !! br) as [be|]; [|tch].
    destruct (weakOf be) as [wp|].
    + destruct (Qltb _ _); [|tch].
      destruct (isExplosive b), (isLaser b); cbn [negb]; tch.
    + destruct (Qltb _ _); [|tch].
      destruct (isExplosive b), (isLaser b); cbn [negb]; tch.
Qed.

Lemma droneBulletStep_touch i g : Touch (λ _, True) g (droneBulletStep i g).
Proof.
  unfold droneBulletStep.
  destruct (droneBullets g !! i) as [b|]; [|tch].
  destruct (findEnemyHit _ g) as [[r e]|]; [tch|].
  destruct (boss g) as [br|]; [|tch].
  destruct (heap g !! br) as [be|]; [|tch].
  destruct (weakOf be) as [wp|]; destruct (Qltb _ _); tch.
Qed.

Lemma _checkBulletCollisions_touch g :
  Touch (λ _, True) g (_checkBulletCollisions g).
Proof.
  unfold _checkBulletCollisions. cbv zeta.
  apply (forDown_inv (λ g', Touch (λ _, True) g g')).
  { intros i g1 H1. eapply Touch_trans; [exact H1|apply droneBulletStep_touch]. }
  apply (forDown_inv (λ g', Touch (λ _, True) g g')); [|apply Touch_refl].
  intros i g1 H1. eapply Touch_trans; [exact H1|apply bulletStep_touch].
Qed.


(** ** A kamikaze blows itself up *)

Lemma kamikaze_selfdestruct g r enemy damage :
  regOK g -> r ∈ enemies g -> heap g !! r = Some enemy ->
  isKamikaze enemy = true ->
  let g' := dealDamageTo r damage false g in
  player g' = player g /\ (r ∉ enemies g')
  /\ count (isDefeatOf r) g' = S (count (isDefeatOf r) g)
  /\ count (isLootRollOf r) g' = S (count (isLootRollOf r) g)
  /\ (forall d fe, dealDamageTo r d fe g' = g').
Proof.
  intros Hg Hr Hl Hk g'.
  destruct (dealDamageTo_ok r damage false g Hg) as [R1 A1]. fold g' in R1, A1.
  assert (Hheap : exists x, regOK x /\ sublist (enemies g') (enemies x)
                            /\ heap g' !! r = set_ent_hp 0 <$> heap x !! r).
  { destruct (regOK_enemy_kind g r enemy Hg Hr Hl) as (_ & Hh & _).
    subst g'. unfold dealDamageTo, dealDamageWith in *. rewrite Hl in *.
    rewrite (proj2 (Qleb_gt _ _) Hh), Hk in *. cbn [negb andb] in *. cbv zeta in *.
    set (x := triggerExplosion _ _ _ _ g) in *. exists x.
    split; [apply (triggerExplosion_op _ _ _ _ g Hg)|].
    set (y := setHp r 0 x) in *.
    pose proof (dealDamageTo_death_touch (λ _, False) r y) as [_ Th _ _ Ts].
    split.
    - subst y. by destruct (setHp_fields r 0 x) as (<- & _).
    - rewrite Th by auto. subst y. rewrite setHp_lookup. by rewrite decide_True. }
  destruct Hheap as (x & Rx & Ts & Hx).
  assert (Hout : r ∉ enemies g').
  { intros Hin. destruct (heap x !! r) as [ex|] eqn:Hxr.
    - destruct R1 as (_ & He & _).
      destruct (He r Hin) as (e1 & t & Hl1 & _ & _ & Hhp).
      rewrite Hx in Hl1. injection Hl1 as <-.
      specialize (Hhp ltac:(discriminate)). cbn in Hhp. lra.
    - eapply sublist_subseteq in Hin; [|exact Ts].
      destruct Rx as (_ & He & _). destruct (He r Hin) as (e1 & ? & Hl1 & _).
      congruence. }
  assert (Hrem : removed r g g' = 1%nat).
  { unfold removed. by rewrite decide_True. }
  split; [apply A1|]. split; [done|].
  destruct A1 as [_ Ad Al _ _ _ _ _]. rewrite Ad, Al, Hrem.
  split; [lia|]. split; [lia|].
  intros d fe. destruct (heap x !! r) as [ex|] eqn:Hxr.
  - by apply (dealDamageTo_noop _ _ _ _ (set_ent_hp 0 ex)).
  - unfold dealDamageTo, dealDamageWith. by rewrite Hx.
Qed.

Lemma kamikaze_contact g r enemy :
  regOK g ->
  Qltb (lastHitTime (player g) + CONFIG.PLAYER.DAMAGE_IMMUNITY) (elapsedTime g) = true ->
  findEnemyHit
    (λ e, Qltb (distanceTo (playerPosition g) (ent_position e)) (1 + ent_size e / 2)) g
  = Some (r, enemy) ->
  isKamikaze enemy = true ->
  let g' := _checkPlayerCollisions_contact g in
  hp (player g') = hp (player g) /\ (r ∉ enemies g')
  /\ count (isDefeatOf r) g' = S (count (isDefeatOf r) g).
Proof.
  intros Hg Hi Hf Hk. unfold _checkPlayerCollisions_contact. cbv zeta.
  rewrite Hi, Hf, Hk.
  apply findEnemyHit_Some in Hf as (Hr & Hl & _).
  destruct (kamikaze_selfdestruct g r enemy (ent_hp enemy) Hg Hr Hl Hk)
    as (Hp & Hout & Hd & _ & _).
  unfold count in *. gsimpl. by rewrite Hp.
Qed.

End DamageShapes.


(** * The sample states are well formed *)

Lemma regOKb_sound g : regOKb g = true -> regOK g.
Proof.
  unfold regOKb. rewrite !andb_true_iff.
  intros [[[Hnd He] Hb] Hn].
  apply bool_decide_eq_true in Hnd, Hn. rewrite forallb_forall in He.
  assert (Hs : forall bo e, soundObject bo e = true ->
            0 <= ent_damage e /\ 0 < ent_hp e
            /\ if bo then exists bd, ent_kind e = IsBoss bd
               else exists t, ent_kind e = IsEnemy t).
  { intros bo e. unfold soundObject.
    destruct (ent_kind e), bo; try discriminate;
      rewrite andb_true_iff, Qleb_le, Qltb_lt; intros [? ?]; eauto. }
  split4; [done| | |].
  - intros r Hr. apply list_elem_of_In in Hr. specialize (He r Hr).
    destruct (heap g !! r) as [e|]; [|discriminate].
    destruct (Hs false e He) as (Hd & Hh & t & Hk). exists e, t. by split3d.
  - intros b Hbo. rewrite Hbo in Hb.
    destruct (heap g !! b) as [e|]; [|discriminate].
    destruct (Hs true e Hb) as (Hd & Hh & bd & Hk). exists e, bd. by split3d.
  - intros r [e Hl]. by apply (Hn r e).
Qed.

Lemma reachable_firstWave : reachable (H:=testHost) firstWave.
Proof.
  unfold firstWave.
  apply (reach_step freshGame); [apply (reach_start false)|apply (step_timer 0)].
Qed.

Lemma reachable_swingingGame : reachable (H:=testHost) swingingGame.
Proof.
  unfold swingingGame.
  apply (reach_step (onKeyDown "KeyF" firstWave)).
  - apply (reach_step firstWave); [apply reachable_firstWave|apply step_keyDown].
  - apply (step_frame 0.016). lra.
Qed.


Lemma regOK_scoutArena : regOK scoutArena.
Proof. apply regOKb_sound. vm_compute. reflexivity. Qed.

Lemma regOK_kamikazeArena : regOK kamikazeArena.
Proof. apply regOKb_sound. vm_compute. reflexivity. Qed.

Lemma regOK_bossArena3 : regOK bossArena3.
Proof. apply regOKb_sound. vm_compute. reflexivity. Qed.


(** * The claims *)

Section FinalBoss.
Context `{Host}.


End FinalBoss.



Section Waves.
Context `{Host}.


End Waves.


Section Shield.
Context `{Host}.

(** Claim C3.  While [shield.active] is true, [playerTakeDamage] returns
    without changing anything, whatever the amount; so the contact check
    (enemy and boss contact), the boss-bullet check and the hazards of
    [updateParticles] (shockwave, ring, sweeping laser) leave the player's
    [hp] as it was. *)
Theorem C3_shield_blocks_damage (g : Game) :
  shield_active (player g) = true ->
  (forall amount, playerTakeDamage amount g = g)
  /\ hp (player (_checkPlayerCollisions_contact g)) = hp (player g)
  /\ hp (player (stateOf (_checkBossBulletCollisions g))) = hp (player g)
  /\ (forall deltaTime, hp (player (updateParticles deltaTime g)) = hp (player g)).
Proof.
  intros Hs. split; [|split; [|split]].
  - intros amount. by apply playerTakeDamage_shield.
  - by apply shield_contact.
  - by apply shield_bossBullets.
  - intros deltaTime. by apply shield_particles.
Qed.

End Shield.

Lemma C3_shield_blocks_damage_witness :
  playerTakeDamage 1000 shieldedGame = shieldedGame
  /\ hp (player (stateOf (_checkBossBulletCollisions (H:=testHost) shieldedGame)))
     = hp (player shieldedGame)
  /\ hp (player (updateParticles (H:=testHost) 0.016 shieldedGame))
     = hp (player shieldedGame).
Proof.
  assert (Hs : shield_active (player shieldedGame) = true) by (vm_compute; reflexivity).
  destruct (C3_shield_blocks_damage (H:=testHost) shieldedGame Hs) as (H1 & _ & H3 & H4).
  split; [apply H1|]. split; [exact H3|apply H4].
Defined.

Section DeathOnce.
Context `{Host}.

(** Claim C4.  A damage call on an object whose [hp] is already at or below
    zero changes nothing.  When a first damage call kills a registered enemy
    [r] -- it drives its [hp] to zero or below, or [r] is a kamikaze that
    blows itself up -- a second damage call on [r] changes nothing; after
    the two calls [r] is out of the registry, exactly one loot roll and one
    defeat were recorded for [r], and the kill counter grew by the number of
    enemies that left the registry, which is exactly one unless [r] blew
    itself up and took others with it. *)
Theorem C4_death_resolved_once (g : Game) (r : Ref) (e : Entity)
    (d1 d2 : Q) (f1 f2 : bool) :
  regOK g -> r ∈ enemies g -> heap g !! r = Some e ->
  ent_hp e - d1 <= 0 \/ isKamikaze e && negb f1 = true ->
  let g1 := dealDamageTo r d1 f1 g in
  let g2 := dealDamageTo r d2 f2 g1 in
  g2 = g1 /\ (r ∉ enemies g2)
  /\ count (isLootRollOf r) g2 = S (count (isLootRollOf r) g)
  /\ count (isDefeatOf r) g2 = S (count (isDefeatOf r) g)
  /\ killedInWave (wave g2)
     = (killedInWave (wave g)
        + Z.of_nat (length (enemies g) - length (enemies g2)))%Z
  /\ (isKamikaze e && negb f1 = false ->
      killedInWave (wave g2) = (killedInWave (wave g) + 1)%Z)
  /\ (forall x damage fromExplosion ex,
        heap g2 !! x = Some ex -> ent_hp ex <= 0 ->
        dealDamageTo x damage fromExplosion g2 = g2).
Proof.
  intros Hg Hr Hl Hkill g1 g2.
  destruct (dealDamageTo_ok r d1 f1 g Hg) as [R1 A1]. fold g1 in R1, A1.
  assert (Hfacts : (forall d fe, dealDamageTo r d fe g1 = g1) /\ (r ∉ enemies g1)
            /\ (isKamikaze e && negb f1 = false ->
                killedInWave (wave g1) = (killedInWave (wave g) + 1)%Z)).
  { destruct (isKamikaze e && negb f1) eqn:Hk.
    - apply andb_true_iff in Hk as [Hk Hf]. destruct f1; [discriminate|].
      destruct (kamikaze_selfdestruct g r e d1 Hg Hr Hl Hk)
        as (_ & Hout & _ & _ & Hno).
      split; [exact Hno|]. split; [exact Hout|discriminate].
    - destruct Hkill as [Hd|Hd]; [|discriminate].
      destruct (dealDamageTo_kill r d1 f1 g e Hg Hr Hl Hd Hk) as (i & Hi & Hg1).
      fold g1 in Hg1.
      assert (Hl1 : heap (setHp r (ent_hp e - d1) g) !! r
                    = Some (set_ent_hp (ent_hp e - d1) e)).
      { rewrite setHp_lookup, decide_True by done. by rewrite Hl. }
      destruct (regOK_enemy_kind g r e Hg Hr Hl) as ((t & Hkind) & _).
      destruct (onEnemyDefeated_fields r i _ _ t Hl1 Hkind)
        as (_ & E2 & _ & _ & _ & _ & E7 & _).
      rewrite <- Hg1 in E2, E7.
      assert (Hl2 : heap g1 !! r = Some (set_ent_hp (ent_hp e - d1) e))
        by (by rewrite E2).
      split; [|split].
      + intros d fe. by apply (dealDamageTo_noop _ _ _ _ _ Hl2).
      + intros Hin. destruct R1 as (_ & He & _).
        destruct (He r Hin) as (e1 & ? & Hle & _ & _ & Hhp).
        rewrite Hl2 in Hle. injection Hle as <-.
        specialize (Hhp ltac:(discriminate)). cbn in Hhp. lra.
      + intros _. rewrite E7.
        destruct (setHp_fields r (ent_hp e - d1) g) as (_ & _ & _ & _ & -> & _).
        reflexivity. }
  destruct Hfacts as (Hno & Hout & Hone).
  assert (E : g2 = g1) by apply Hno. rewrite E.
  assert (Hrem : removed r g g1 = 1%nat)
    by (unfold removed; by rewrite decide_True).
  split; [done|]. split; [done|].
  destruct A1 as [_ Ad Al Ak _ _ _ _]. rewrite Ad, Al, Hrem.
  split; [lia|]. split; [lia|]. split; [exact Ak|]. split; [exact Hone|].
  intros x damage fe ex Hx Hh. by apply (dealDamageTo_noop _ _ _ _ ex).
Qed.

End DeathOnce.

(** The scout of scenario 2 after the first hit of 15: 10 hit points left. *)
Lemma C4_death_resolved_once_witness :
  let g := dealDamageTo (H:=testHost) 0%nat 15 false scoutArena in
  let g2 := dealDamageTo (H:=testHost) 0%nat 15 false
              (dealDamageTo (H:=testHost) 0%nat 15 false g) in
  (ent_hp <$> heap g !! 0%nat) = Some 10 /\ enemies g = [0%nat]
  /\ (0%nat ∉ enemies g2)
  /\ count (isLootRollOf 0%nat) g2 = S (count (isLootRollOf 0%nat) g)
  /\ killedInWave (wave g2) = (killedInWave (wave g) + 1)%Z.
Proof.
  intros g g2.
  assert (Hg : regOK g) by apply (dealDamageTo_ok (H:=testHost)), regOK_scoutArena.
  assert (Hr : 0%nat ∈ enemies g) by (vm_compute; constructor).
  assert (Hl : heap g !! 0%nat
               = Some (mkEntity 10 8 5.5 1.5 (mkVector3 0 1.6 (-10)) (IsEnemy Scout)))
    by (vm_compute; reflexivity).
  assert (Hd : ent_hp (mkEntity 10 8 5.5 1.5 (mkVector3 0 1.6 (-10)) (IsEnemy Scout))
               - 15 <= 0
               \/ isKamikaze (mkEntity 10 8 5.5 1.5 (mkVector3 0 1.6 (-10))
                                (IsEnemy Scout)) && negb false = true)
    by (left; cbn; lra).
  destruct (C4_death_resolved_once (H:=testHost) g 0%nat _ 15 15 false false
              Hg Hr Hl Hd) as (_ & Hout & Hloot & _ & _ & Hone & _).
  split; [vm_compute; reflexivity|]. split; [vm_compute; reflexivity|].
  split; [exact Hout|]. split; [exact Hloot|]. by apply Hone.
Defined.

Section Bounds.
Context `{Host}.

(** Claim C5.  At the end of every frame of a game that was started, the
    player's [hp] lies between 0 and [maxHp], the stamina between 0 and
    [maxStamina], and every enemy still in the registry and the boss, if
    there is one, have [hp > 0]. *)
Theorem C5_tick_bounds (g : Game) (deltaTime : Q) :
  reachable g -> 0 <= deltaTime -> TickBounds (stateOf (animate deltaTime g)).
Proof.
  intros Hr Hd. by apply Inv_TickBounds, animate_inv, reachable_inv.
Qed.

End Bounds.

Lemma C5_tick_bounds_witness :
  TickBounds (stateOf (animate (H:=testHost) 0.016 swingingGame)).
Proof.
  apply (C5_tick_bounds (H:=testHost) swingingGame 0.016).
  - exact reachable_swingingGame.
  - lra.
Defined.


Section BossDeath.
Context `{Host}.

(** Claim C6.  The hit that brings the boss's [hp] to zero or below runs
    the boss-death sequence once: the boss is gone, [bossBullets] is empty
    and no shockwave, ring or sweeping laser is left among the particles, so
    that afterwards neither [updateParticles] nor the boss-bullet check nor
    a pending ring shot can touch the player, and further damage calls on
    the boss do nothing; the state becomes [victory] when the level is
    [MAX_LEVEL] or above and [wave_transition], with the next wave
    scheduled, otherwise.  For every boss but the final one [dealDamageTo]
    is that same hit. *)
Theorem C6_boss_death (g : Game) (b : Ref) (be : Entity) (damage : Q) :
  regOK g -> boss g = Some b -> heap g !! b = Some be ->
  ent_hp be - damage <= 0 ->
  bossDeathRan b g (damageBossDirect damage g)
  /\ (isFinalBoss be = false ->
      forall fromExplosion,
        dealDamageTo b damage fromExplosion g = damageBossDirect damage g).
Proof.
  intros Hg Hb Hl Hd. split.
  - by apply (damageBossDirect_ran _ _ _ be).
  - intros Hf fe. by apply (dealDamageTo_boss _ _ _ _ be).
Qed.

End BossDeath.

(** Scenario 4: the tier-3 boss with 2000 hit points after two bursts of
    750, and the third burst. *)
Lemma C6_boss_death_witness :
  let g := dealDamageTo (H:=testHost) 0%nat 750 false
             (dealDamageTo (H:=testHost) 0%nat 750 false bossArena3) in
  let g' := dealDamageTo (H:=testHost) 0%nat 750 false g in
  bossHp g = Some 500 /\ bossBullets g <> [] /\ bossDeathRan (H:=testHost) 0%nat g g'.
Proof.
  intros g g'.
  assert (Hg : regOK g).
  { apply (dealDamageTo_ok (H:=testHost)), (dealDamageTo_ok (H:=testHost)),
      regOK_bossArena3. }
  assert (Hb : boss g = Some 0%nat) by (vm_compute; reflexivity).
  assert (Hl : heap g !! 0%nat = Some (set_ent_hp 500 boss3))
    by (vm_compute; reflexivity).
  assert (Hd : ent_hp (set_ent_hp 500 boss3) - 750 <= 0) by (cbn; lra).
  destruct (C6_boss_death (H:=testHost) g 0%nat _ 750 Hg Hb Hl Hd) as [Hran Heq].
  split; [vm_compute; reflexivity|]. split; [vm_compute; discriminate|].
  unfold g'. rewrite (Heq eq_refl false). exact Hran.
Defined.

Section Ammo.
Context `{Host}.

Lemma pullTrigger_fields g :
  z_active (player g) = false -> reloading (player g) = false ->
  melee_attacking (player g) = false -> lastShotTime (player g) <= elapsedTime g ->
  (0 < ammoInMagazine (player g))%Z ->
  let g' := pullTrigger g in
  player g' = set_lastShotTime (elapsedTime g + 1)
                (set_ammoInMagazine (ammoInMagazine (player g) - 1)%Z (player g))
  /\ count isShot g' = S (count isShot g)
  /\ elapsedTime g' = elapsedTime g + 1.
Proof.
  intros Hz Hr Hm Ht Ha. unfold pullTrigger.
  set (g0 := set_elapsedTime (elapsedTime g + 1) (onMouseDown 0 g)).
  assert (Hp : player g0 = player g) by reflexivity.
  assert (He : elapsedTime g0 = elapsedTime g + 1) by reflexivity.
  assert (Hc : count isShot g0 = count isShot g) by reflexivity.
  assert (Hf : fireReady g0 = true).
  { unfold fireReady. cbv zeta. rewrite Hp, He, Hz, Hr, Hm. cbn [negb].
    rewrite !andb_true_r. apply andb_true_iff. split.
    - subst g0. unfold onMouseDown. cbv zeta. cbn [Z.eqb andb].
      change (key "mouse0" (setKey "mouse0" true g) = true).
      rewrite key_setKey. by rewrite decide_True.
    - apply Qltb_lt. destruct (weaponLevel g0); cbn; lra. }
  destruct (updatePlayer_fire_shot g0 Hf) as (E1 & E2 & _ & E4 & _);
    [by rewrite Hp|by rewrite Hp|].
  cbv zeta in *. rewrite E1, E2, E4, Hp, He, Hc. done.
Qed.

(** Claim C7.  Without overcharge, the firing block of [updatePlayer]
    takes exactly one round from the magazine for each shot it emits, and it
    emits at most one; with an empty magazine it changes nothing, and a pull
    of the trigger leaves the player as it was and emits no shot.  Pulling
    the trigger [n] times without reloading, [n] no more than the rounds in
    the magazine, emits [n] shots and leaves [n] rounds fewer: 29 after one
    pull from 30, and 0 after thirty. *)
Theorem C7_ammo_per_shot (g : Game) :
  z_active (player g) = false ->
  (let g' := updatePlayer_fire g in
   (count isShot g <= count isShot g' <= S (count isShot g))%nat
   /\ ammoInMagazine (player g')
      = (ammoInMagazine (player g)
         - Z.of_nat (count isShot g' - count isShot g))%Z)
  /\ ((ammoInMagazine (player g) <= 0)%Z ->
      updatePlayer_fire g = g
      /\ player (pullTrigger g) = player g
      /\ count isShot (pullTrigger g) = count isShot g)
  /\ (reloading (player g) = false -> melee_attacking (player g) = false ->
      lastShotTime (player g) <= elapsedTime g ->
      forall n : nat, (Z.of_nat n <= ammoInMagazine (player g))%Z ->
        ammoInMagazine (player (Nat.iter n pullTrigger g))
        = (ammoInMagazine (player g) - Z.of_nat n)%Z
        /\ count isShot (Nat.iter n pullTrigger g) = (count isShot g + n)%nat).
Proof.
  intros Hz. split; [|split].
  - destruct (updatePlayer_fire_fields g) as (_ & _ & _ & _ & _ & _ & _ & _ & _ & _
                                             & _ & Hc & Ha).
    cbv zeta in *. split; [exact Hc|by apply Ha].
  - intros Ha. split; [by apply updatePlayer_fire_empty|].
    unfold pullTrigger.
    rewrite updatePlayer_fire_empty by done. done.
  - intros Hr Hm Ht n.
    enough (Hn : (Z.of_nat n <= ammoInMagazine (player g))%Z ->
              let gn := Nat.iter n pullTrigger g in
              ammoInMagazine (player gn) = (ammoInMagazine (player g) - Z.of_nat n)%Z
              /\ count isShot gn = (count isShot g + n)%nat
              /\ z_active (player gn) = false /\ reloading (player gn) = false
              /\ melee_attacking (player gn) = false
              /\ lastShotTime (player gn) <= elapsedTime gn).
    { intros Hle. destruct (Hn Hle) as (A & B & _). by split. }
    induction n as [|n IH]; intros Hle.
    + cbv zeta. change (Nat.iter 0 pullTrigger g) with g.
      repeat split; try done; lia.
    + destruct IH as (A & B & Z1 & R1 & M1 & T1); [lia|].
      cbv zeta in *.
      change (Nat.iter (S n) pullTrigger g)
        with (pullTrigger (Nat.iter n pullTrigger g)).
      set (gn := Nat.iter n pullTrigger g) in *. clearbody gn.
      destruct (pullTrigger_fields gn Z1 R1 M1 T1) as (E1 & E2 & E3); [lia|].
      cbv zeta in *. rewrite E1, E2, E3.
      cbn [ammoInMagazine set_lastShotTime set_ammoInMagazine z_active reloading
           melee_attacking lastShotTime].
      repeat split; try done; try lia. lra.
Qed.

End Ammo.

(** Scenario 1: level 1, the tier-1 weapon, 30 rounds in the magazine. *)
Lemma C7_ammo_per_shot_witness :
  ammoInMagazine (player firstWave) = 30%Z
  /\ ammoInMagazine (player (Nat.iter 1 (pullTrigger (H:=testHost)) firstWave)) = 29%Z
  /\ ammoInMagazine (player (Nat.iter 30 (pullTrigger (H:=testHost)) firstWave)) = 0%Z
  /\ player (pullTrigger (H:=testHost)
               (Nat.iter 30 (pullTrigger (H:=testHost)) firstWave))
     = player (Nat.iter 30 (pullTrigger (H:=testHost)) firstWave).
Proof.
  assert (Hz : z_active (player firstWave) = false) by (vm_compute; reflexivity).
  assert (Hr : reloading (player firstWave) = false) by (vm_compute; reflexivity).
  assert (Hm : melee_attacking (player firstWave) = false) by (vm_compute; reflexivity).
  assert (Ht : lastShotTime (player firstWave) <= elapsedTime firstWave)
    by (vm_compute; discriminate).
  assert (Ha : ammoInMagazine (player firstWave) = 30%Z) by (vm_compute; reflexivity).
  destruct (C7_ammo_per_shot (H:=testHost) firstWave Hz) as (_ & _ & Hn).
  specialize (Hn Hr Hm Ht).
  split; [exact Ha|]. split; [|split].
  - destruct (Hn 1%nat) as [-> _]; [rewrite Ha; lia|]. rewrite Ha. reflexivity.
  - destruct (Hn 30%nat) as [-> _]; [rewrite Ha; lia|]. rewrite Ha. reflexivity.
  - assert (Hz' : z_active (player (Nat.iter 30 (pullTrigger (H:=testHost)) firstWave))
                  = false) by (vm_compute; reflexivity).
    destruct (C7_ammo_per_shot (H:=testHost) _ Hz') as (_ & He & _).
    apply He. vm_compute. discriminate.
Defined.

Section Exclusion.
Context `{Host}.


End Exclusion.


(** Two frames at the edge of claim C8, on [testHost].  A reload that
    starts in a frame does not clear the aim in that frame: it is cleared in
    the next.  And a swing may start in the frame of a shot, after it: the
    shot is emitted first, with no swing in progress, and [F] is read next. *)
Lemma reload_clears_aim_one_frame_late :
  let g0 := onKeyDown "KeyR" (onMouseDown 2 afterShot) in
  let g1 := stateOf (animate (H:=testHost) 0.016 g0) in
  let g2 := stateOf (animate (H:=testHost) 0.016 g1) in
  reloading (player g0) = false /\ isAiming (player g0) = true
  /\ reloading (player g1) = true /\ isAiming (player g1) = true
  /\ reloading (player g2) = true /\ isAiming (player g2) = false.
Proof. vm_compute. repeat split; reflexivity. Qed.

Lemma swing_may_follow_shot_in_frame :
  let g0 := onKeyDown "KeyF" (onMouseDown 0 firstWave) in
  let g1 := stateOf (animate (H:=testHost) 0.2 g0) in
  melee_attacking (player g0) = false
  /\ count isShot g1 = S (count isShot g0)
  /\ melee_attacking (player g1) = true.
Proof. vm_compute. repeat split; reflexivity. Qed.

Section Heal.
Context `{Host}.

(** Claim C9.  [useSkillQ] sets [hp] to [min(maxHp, hp + 35)] and the
    cooldown of the skill to 20; [updatePlayer] calls it when [Q] is down,
    the skill is unlocked and its cooldown is at or below zero; from 50 of
    100 hit points the result is 85.  [updateSkills] takes the frame time
    off a cooldown above zero and leaves one at or below zero alone, so it
    never raises it; and over a whole frame of a started game in which the
    skill is not activated the cooldown does not grow. *)
Theorem C9_heal_skill (g : Game) :
  (hp (player (useSkillQ g)) = Qmin (maxHp (player g)) (hp (player g) + 35)
   /\ q_cooldown (player (useSkillQ g)) = 20)
  /\ (key "KeyQ" g = true -> q_unlocked (player g) = true ->
      q_cooldown (player g) <= 0 ->
      hp (player (updatePlayer_actions g))
      = Qmin (maxHp (player g)) (hp (player g) + 35)
      /\ q_cooldown (player (updatePlayer_actions g)) = 20)
  /\ (hp (player g) == 50 -> maxHp (player g) == 100 ->
      hp (player (useSkillQ g)) == 85)
  /\ (forall deltaTime, 0 <= deltaTime ->
        q_cooldown (player (updateSkills deltaTime g))
        = (if Qltb 0 (q_cooldown (player g))
           then q_cooldown (player g) - deltaTime else q_cooldown (player g))
        /\ q_cooldown (player (updateSkills deltaTime g)) <= q_cooldown (player g))
  /\ (forall deltaTime, reachable g -> 0 <= deltaTime ->
        key "KeyQ" g && q_unlocked (player g) && Qleb (q_cooldown (player g)) 0
        = false ->
        q_cooldown (player (stateOf (animate deltaTime g)))
        <= q_cooldown (player g)).
Proof.
  split; [|split; [|split; [|split]]].
  - split; reflexivity.
  - intros Hk Hu Hc. destruct (updatePlayer_actions_fields g) as (_ & Hh & Hq).
    cbv zeta in Hh, Hq. rewrite Hk, Hu, (proj2 (Qleb_le _ _) Hc) in Hh, Hq.
    split; [exact Hh|exact Hq].
  - intros Hh Hm.
    change (hp (player (useSkillQ g)))
      with (Qmin (maxHp (player g)) (hp (player g) + 35)).
    rewrite Hh, Hm. apply Q.min_r. lra.
  - intros deltaTime Hd. destruct (updateSkills_fields deltaTime g) as (_ & _ & _ & Hq).
    cbv zeta in Hq. rewrite Hq. split; [reflexivity|].
    destruct (Qltb _ _); lra.
  - intros deltaTime Hr Hd Hno. apply reachable_inv in Hr.
    destruct (decide (gameState g = paused)) as [Hp|Hp].
    { rewrite animate_paused by done. cbn [stateOf]. lra. }
    destruct (animate_fields deltaTime g Hd Hr Hp) as (_ & _ & _ & Hq).
    eapply Qle_trans; [exact Hq|]. destruct (inPlay _); [|cbn; lra].
    destruct (updatePlayer_fields deltaTime
                (set_elapsedTime (elapsedTime g + deltaTime) g))
      as (_ & _ & _ & _ & _ & _ & _ & _ & _ & _ & Hk).
    destruct (Hk Hno) as [_ ->]. cbn. lra.
Qed.

End Heal.

(** Scenario 3: 50 of 100 hit points, the heal unlocked, [Q] held. *)
Lemma C9_heal_skill_witness :
  hp (player woundedGame) = 50
  /\ hp (player (updatePlayer_actions (H:=testHost) woundedGame)) = Qmin 100 (50 + 35)
  /\ q_cooldown (player (updatePlayer_actions (H:=testHost) woundedGame)) = 20
  /\ hp (player (useSkillQ (H:=testHost) woundedGame)) == 85.
Proof.
  assert (Hk : key "KeyQ" woundedGame = true) by (vm_compute; reflexivity).
  assert (Hu : q_unlocked (player woundedGame) = true) by (vm_compute; reflexivity).
  assert (Hc : q_cooldown (player woundedGame) <= 0) by (vm_compute; discriminate).
  assert (Hh : hp (player woundedGame) == 50) by (vm_compute; reflexivity).
  assert (Hm : maxHp (player woundedGame) == 100) by (vm_compute; reflexivity).
  destruct (C9_heal_skill (H:=testHost) woundedGame) as (_ & H2 & H3 & _).
  destruct (H2 Hk Hu Hc) as [E1 E2].
  split; [vm_compute; reflexivity|].
  split; [rewrite E1; vm_compute; reflexivity|].
  split; [exact E2|exact (H3 Hh Hm)].
Defined.

Section Bursts.
Context `{Host}.

(** Claim C10.  An explosion leaves the player as they were and touches
    only the objects in its blast: registered enemies within the radius and
    the boss (for the final boss, through its weak point).  No damage call
    and no bullet collision -- explosive bullets and overcharge explosions
    included -- changes the player.  A kamikaze in contact with the player
    blows itself up: it leaves the registry, its defeat is recorded once,
    and the player's [hp] is unchanged. *)
Theorem C10_bursts_spare_player (g : Game) :
  (forall position radius damage n,
     let g' := triggerExplosion position radius damage n g in
     player g' = player g
     /\ (forall r, ~ inBlast position radius g r -> heap g' !! r = heap g !! r))
  /\ (forall r damage fromExplosion,
        player (dealDamageTo r damage fromExplosion g) = player g)
  /\ player (_checkBulletCollisions g) = player g
  /\ (forall r enemy,
        regOK g ->
        Qltb (lastHitTime (player g) + CONFIG.PLAYER.DAMAGE_IMMUNITY) (elapsedTime g)
        = true ->
        findEnemyHit
          (λ e, Qltb (distanceTo (playerPosition g) (ent_position e))
                     (1 + ent_size e / 2)) g
        = Some (r, enemy) ->
        isKamikaze enemy = true ->
        let g' := _checkPlayerCollisions_contact g in
        hp (player g') = hp (player g) /\ (r ∉ enemies g')
        /\ count (isDefeatOf r) g' = S (count (isDefeatOf r) g)).
Proof.
  split; [|split; [|split]].
  - intros position radius damage n g'.
    destruct (triggerExplosion_touch position radius damage n g) as [Hp Hh _ _ _].
    split; [exact Hp|exact Hh].
  - intros r damage fe. apply dealDamageTo_player.
  - apply (_checkBulletCollisions_touch g).
  - intros r enemy Hg Hi Hf Hk. by apply (kamikaze_contact g r enemy).
Qed.

End Bursts.

Lemma C10_bursts_spare_player_witness :
  enemies kamikazeArena = [0%nat]
  /\ hp (player (_checkPlayerCollisions_contact (H:=testHost) kamikazeArena))
     = hp (player kamikazeArena)
  /\ (0%nat ∉ enemies (_checkPlayerCollisions_contact (H:=testHost) kamikazeArena)).
Proof.
  assert (Hi : Qltb (lastHitTime (player kamikazeArena) + CONFIG.PLAYER.DAMAGE_IMMUNITY)
                 (elapsedTime kamikazeArena) = true) by (vm_compute; reflexivity).
  assert (Hf : findEnemyHit
                 (λ e, Qltb (@distanceTo testHost (playerPosition kamikazeArena)
                               (ent_position e)) (1 + ent_size e / 2)) kamikazeArena
               = Some (0%nat, kamikaze10)) by (vm_compute; reflexivity).
  assert (Hk : isKamikaze kamikaze10 = true) by reflexivity.
  destruct (C10_bursts_spare_player (H:=testHost) kamikazeArena) as (_ & _ & _ & H4).
  destruct (H4 0%nat kamikaze10 regOK_kamikazeArena Hi Hf Hk) as (E1 & E2 & _).
  split; [vm_compute; reflexivity|]. split; [exact E1|exact E2].
Defined.


(** * Further properties of the code *)

(** ** Backward loops that splice *)

Lemma forDown_index (P : nat -> Game -> Prop) (body : nat -> Game -> Game) n g :
  P n g ->
  (forall i x, (i < n)%nat -> P (S i) x -> P i (body i x)) ->
  P 0%nat (forDown n body g).
Proof.
  revert g. induction n as [|n IH]; intros g H0 Hstep; [exact H0|].
  cbn [forDown]. apply IH.
  - apply Hstep; [lia|exact H0].
  - intros i x Hi. apply Hstep. lia.
Qed.

Lemma forDownOn_index {S : Type} (P : nat -> S -> Prop) (body : nat -> S -> S) n s :
  P n s ->
  (forall i x, (i < n)%nat -> P (Datatypes.S i) x -> P i (body i x)) ->
  P 0%nat (forDownOn n body s).
Proof.
  revert s. induction n as [|n IH]; intros s H0 Hstep; [exact H0|].
  cbn [forDownOn]. apply IH.
  - apply Hstep; [lia|exact H0].
  - intros i x Hi. apply Hstep. lia.
Qed.

Lemma middle_lookup {A} (l1 : list A) a l2 : (l1 ++ a :: l2) !! length l1 = Some a.
Proof. by rewrite list_lookup_middle. Qed.

Lemma middle_delete {A} (l1 : list A) a l2 :
  delete (length l1) (l1 ++ a :: l2) = l1 ++ l2.
Proof. apply delete_middle. Qed.

Lemma middle_insert {A} (l1 : list A) a b l2 :
  <[length l1 := b]> (l1 ++ a :: l2) = l1 ++ b :: l2.
Proof.
  rewrite <- (Nat.add_0_r (length l1)). by rewrite insert_app_r.
Qed.

(** A backward loop that, at each index, keeps the element (possibly
    updated) or splices it out computes an [omap]. *)
Lemma sweep_omap {S A : Type} (get : S -> list A) (keep : A -> option A)
    (I : S -> Prop) (loop : nat -> (nat -> S -> S) -> S -> S)
    (body : nat -> S -> S) (s : S) :
  (forall (P : nat -> S -> Prop) n x,
      P n x -> (forall i y, (i < n)%nat -> P (Datatypes.S i) y -> P i (body i y)) ->
      P 0%nat (loop n body x)) ->
  I s ->
  (forall x l1 a l2, I x -> get x = l1 ++ a :: l2 ->
      I (body (length l1) x)
      /\ get (body (length l1) x) = l1 ++ option_list (keep a) ++ l2) ->
  I (loop (length (get s)) body s)
  /\ get (loop (length (get s)) body s) = omap keep (get s).
Proof.
  intros Hloop Hs Hbody. set (l := get s).
  assert (H0 : I (loop (length l) body s)
               /\ get (loop (length l) body s)
                  = take 0 l ++ omap keep (drop 0 l)).
  { apply (Hloop (λ i x, I x /\ get x = take i l ++ omap keep (drop i l))).
    - split; [done|]. by rewrite firstn_all, drop_all, app_nil_r.
    - intros i y Hi [Iy Hy].
      destruct (lookup_lt_is_Some_2 l i Hi) as [a Ha].
      rewrite (take_S_r _ _ _ Ha), <- app_assoc in Hy. cbn [app] in Hy.
      assert (Hlen : length (take i l) = i) by (rewrite length_take; lia).
      destruct (Hbody y _ _ _ Iy Hy) as [I' H']. rewrite Hlen in I', H'.
      split; [done|]. rewrite H'.
      rewrite (drop_S _ _ _ Ha). cbn [omap list_omap].
      by destruct (keep a). }
  destruct H0 as [H1 H2]. split; [done|]. by rewrite H2.
Qed.

Lemma omap_filter_fmap {A B} (f : A -> B) (P : B -> Prop) `{forall b, Decision (P b)}
    (l : list A) :
  omap (λ a, if decide (P (f a)) then Some (f a) else None) l = filter P (f <$> l).
Proof.
  induction l as [|a l IH]; [reflexivity|]. cbn [omap list_omap fmap list_fmap].
  rewrite filter_cons. case_decide; by rewrite IH.
Qed.

Section Flight.
Context `{Host}.

(** Property X1.  [updateBullets] moves every bullet of the player and of
    the drone along its velocity for the time of the frame and then drops
    exactly those that are more than 300 units from the player; the order of
    the others is kept, and nothing else in the game changes. *)
Theorem X1_updateBullets_flies_and_culls (deltaTime : Q) (g : Game) :
  let g' := updateBullets deltaTime g in
  bullets g'
  = filter (λ b, Qltb 300 (distanceTo (b_position b) (playerPosition g)) = false)
      (flownBullet deltaTime <$> bullets g)
  /\ droneBullets g'
     = filter (λ b, Qltb 300 (distanceTo (db_position b) (playerPosition g)) = false)
         (flownDroneBullet deltaTime <$> droneBullets g)
  /\ g' = set_droneBullets (droneBullets g') (set_bullets (bullets g') g).
Proof.
  unfold updateBullets. cbv zeta.
  set (body1 := λ (i : nat) (g : Game), match bullets g !! i with
                                        | Some _ => _ | None => g end).
  set (body2 := λ (i : nat) (g : Game), match droneBullets g !! i with
                                        | Some _ => _ | None => g end).
  destruct (sweep_omap bullets
              (λ a, if decide (Qltb 300 (distanceTo (b_position (flownBullet deltaTime a))
                                           (playerPosition g)) = false)
                    then Some (flownBullet deltaTime a) else None)
              (λ x, x = set_bullets (bullets x) g)
              forDown body1 g) as [I1 B1].
  { intros P n x. apply forDown_index. }
  { by destruct g. }
  { intros x l1 a l2 Ix Hx. subst body1. cbv beta.
    rewrite Hx, middle_lookup. cbv zeta.
    assert (Hp : playerPosition x = playerPosition g) by (by rewrite Ix).
    rewrite Hp. fold (flownBullet deltaTime a).
    change (vadd (b_position a) (multiplyScalar (b_velocity a) deltaTime))
      with (b_position (flownBullet deltaTime a)).
    destruct (Qltb 300 _) eqn:Hd.
    - rewrite decide_False by congruence. cbn [option_list app].
      rewrite middle_delete. split; [|reflexivity]. rewrite Ix. reflexivity.
    - rewrite decide_True by done. cbn [option_list app].
      rewrite middle_insert. split; [|reflexivity]. rewrite Ix. reflexivity. }
  set (g1 := forDown (length (bullets g)) body1 g) in *. clearbody g1.
  destruct (sweep_omap droneBullets
              (λ a, if decide (Qltb 300 (distanceTo
                                           (db_position (flownDroneBullet deltaTime a))
                                           (playerPosition g)) = false)
                    then Some (flownDroneBullet deltaTime a) else None)
              (λ x, x = set_droneBullets (droneBullets x) g1)
              forDown body2 g1) as [I2 B2].
  { intros P n x. apply forDown_index. }
  { by destruct g1. }
  { intros x l1 a l2 Ix Hx. subst body2. cbv beta.
    rewrite Hx, middle_lookup. cbv zeta.
    assert (Hp : playerPosition x = playerPosition g) by (by rewrite Ix, I1).
    rewrite Hp. fold (flownDroneBullet deltaTime a).
    change (vadd (db_position a) (multiplyScalar (db_velocity a) deltaTime))
      with (db_position (flownDroneBullet deltaTime a)).
    destruct (Qltb 300 _) eqn:Hd.
    - rewrite decide_False by congruence. cbn [option_list app].
      rewrite middle_delete. split; [|reflexivity]. rewrite Ix. reflexivity.
    - rewrite decide_True by done. cbn [option_list app].
      rewrite middle_insert. split; [|reflexivity]. rewrite Ix. reflexivity. }
  set (g2 := forDown (length (droneBullets g1)) body2 g1) in *. clearbody g2.
  assert (Hb : bullets g2 = bullets g1) by (by rewrite I2).
  assert (Hd : droneBullets g1 = droneBullets g) by (by rewrite I1).
  pose proof (omap_filter_fmap (flownBullet deltaTime)
                (λ b, Qltb 300 (distanceTo (b_position b) (playerPosition g)) = false)
                (bullets g)) as E1.
  pose proof (omap_filter_fmap (flownDroneBullet deltaTime)
                (λ b, Qltb 300 (distanceTo (db_position b) (playerPosition g)) = false)
                (droneBullets g)) as E2.
  cbv beta in E1, E2. rewrite <- E1, <- E2, <- Hd, <- B1, <- B2, Hb.
  split; [reflexivity|]. split; [reflexivity|].
  rewrite I2 at 1. rewrite I1 at 1. reflexivity.
Qed.


(** Property X2.  [updateBossBullets] moves every boss bullet along its
    velocity and then drops exactly those that are more than 400 units from
    the player or have hit a boundary wall; a wall hit only leaves an
    explosion effect, so the player, the registry and the trace are as they
    were. *)
Theorem X2_updateBossBullets_flies_and_culls (deltaTime : Q) (g : Game) :
  let g' := updateBossBullets deltaTime g in
  bossBullets g'
  = filter (λ b, Qltb 400 (distanceTo (bb_position b) (playerPosition g)) = false
                 /\ hitsBoundaryWall (bb_isLaser b) (bb_position b) (bb_velocity b)
                    = false)
      (flownBossBullet deltaTime <$> bossBullets g)
  /\ player g' = player g /\ enemies g' = enemies g /\ boss g' = boss g
  /\ heap g' = heap g /\ trace g' = trace g /\ gameState g' = gameState g.
Proof.
  unfold updateBossBullets. cbv zeta.
  set (body := λ (i : nat) (g : Game), match bossBullets g !! i with
                                       | Some _ => _ | None => g end).
  set (keepP := λ b : BossBullet,
         Qltb 400 (distanceTo (bb_position b) (playerPosition g)) = false
         /\ hitsBoundaryWall (bb_isLaser b) (bb_position b) (bb_velocity b) = false).
  destruct (sweep_omap bossBullets
              (λ a, if decide (keepP (flownBossBullet deltaTime a))
                    then Some (flownBossBullet deltaTime a) else None)
              (λ x, playerPosition x = playerPosition g /\ player x = player g
                    /\ enemies x = enemies g /\ boss x = boss g /\ heap x = heap g
                    /\ trace x = trace g /\ gameState x = gameState g)
              forDown body g) as [I1 B1].
  { intros P n x. apply forDown_index. }
  { by repeat split. }
  { intros x l1 a l2 (Hp & J1 & J2 & J3 & J4 & J5 & J6) Hx. subst body. cbv beta.
    rewrite Hx, middle_lookup. cbv zeta. rewrite Hp.
    destruct (decide (keepP (flownBossBullet deltaTime a))) as [[K1 K2]|K];
      unfold keepP, flownBossBullet in *;
      cbn [bb_position bb_velocity bb_isLaser] in *.
    - rewrite K1, K2. cbn [option_list app]. rewrite middle_insert.
      gsimpl. by repeat split.
    - cbn [option_list app].
      destruct (Qltb 400 _) eqn:Hd;
        [rewrite middle_delete; gsimpl; by repeat split|].
      destruct (hitsBoundaryWall _ _ _) eqn:Hw; [|by destruct K].
      gsimpl. rewrite middle_delete. by repeat split. }
  pose proof (omap_filter_fmap (flownBossBullet deltaTime) keepP (bossBullets g)) as E.
  cbv beta in E. rewrite <- E, <- B1. split; [reflexivity|]. apply I1.
Qed.

End Flight.

(** ** Particles *)

Lemma drop_delete_same {A} (l : list A) i :
  (i < length l)%nat -> drop i (delete i l) = drop (S i) l.
Proof.
  intros Hi. rewrite delete_take_drop, drop_app_ge by (rewrite length_take; lia).
  rewrite length_take, Nat.min_l by lia. by rewrite Nat.sub_diag.
Qed.

Lemma playerTakeDamage_particles amount g :
  particles (playerTakeDamage amount g) = particles g
  /\ enemies (playerTakeDamage amount g) = enemies g
  /\ heap (playerTakeDamage amount g) = heap g
  /\ boss (playerTakeDamage amount g) = boss g
  /\ wave (playerTakeDamage amount g) = wave g.
Proof.
  unfold playerTakeDamage. case_decide; [done|].
  destruct (shield_active _); [done|]. cbv zeta. by destruct (Qleb _ _).
Qed.

Section Expiry.
Context `{Host}.

Lemma expireParticle_alive i x :
  Forall (λ p, 0 < lifespanOf p) (drop (S i) (particles x)) ->
  Forall (λ p, 0 < lifespanOf p) (drop i (particles (expireParticle i x)))
  /\ (length (particles (expireParticle i x)) <= length (particles x))%nat
  /\ enemies (expireParticle i x) = enemies x /\ heap (expireParticle i x) = heap x
  /\ boss (expireParticle i x) = boss x /\ wave (expireParticle i x) = wave x.
Proof.
  intros Ha. unfold expireParticle.
  destruct (particles x !! i) as [p|] eqn:Hl.
  - destruct (Qleb _ _) eqn:Hq; gsimpl.
    + rewrite drop_delete_same by (by eapply lookup_lt_Some).
      rewrite length_delete by eauto. repeat split; [done|lia].
    + rewrite (drop_S _ _ _ Hl). repeat split; [|lia].
      constructor; [by apply Qleb_gt|done].
  - rewrite drop_ge by (by apply lookup_ge_None). by repeat split.
Qed.

(** Property X3.  After [updateParticles] every particle that is left has a
    positive lifespan -- the ones whose time ran out in this frame, and a
    ring that hit the player, were spliced out -- and the list has not
    grown; enemies, the boss and the wave counters are untouched. *)
Theorem X3_updateParticles_expires (deltaTime : Q) (g : Game) :
  let g' := updateParticles deltaTime g in
  Forall (λ p, 0 < lifespanOf p) (particles g')
  /\ (length (particles g') <= length (particles g))%nat
  /\ enemies g' = enemies g /\ heap g' = heap g /\ boss g' = boss g
  /\ wave g' = wave g.
Proof.
  unfold updateParticles. cbv zeta.
  apply (forDown_index
           (λ i x, Forall (λ p, 0 < lifespanOf p) (drop i (particles x))
                   /\ (length (particles x) <= length (particles g))%nat
                   /\ enemies x = enemies g /\ heap x = heap g /\ boss x = boss g
                   /\ wave x = wave g)).
  { rewrite drop_all. by repeat split. }
  intros i x Hi (Ha & Hlen & E1 & E2 & E3 & E4).
  assert (Hstep : forall y,
            drop (S i) (particles y) = drop (S i) (particles x) ->
            length (particles y) = length (particles x) ->
            enemies y = enemies x -> heap y = heap x -> boss y = boss x ->
            wave y = wave x ->
            Forall (λ p, 0 < lifespanOf p) (drop i (particles (expireParticle i y)))
            /\ (length (particles (expireParticle i y)) <= length (particles g))%nat
            /\ enemies (expireParticle i y) = enemies g
            /\ heap (expireParticle i y) = heap g
            /\ boss (expireParticle i y) = boss g
            /\ wave (expireParticle i y) = wave g).
  { intros y Hd Hl F1 F2 F3 F4.
    destruct (expireParticle_alive i y) as (A1 & A2 & A3 & A4 & A5 & A6);
      [by rewrite Hd|].
    split; [done|]. split; [lia|]. repeat split; congruence. }
  assert (Hset : forall p y, drop (S i) (particles (setParticle i p y))
                             = drop (S i) (particles y)
                             /\ length (particles (setParticle i p y))
                                = length (particles y)).
  { intros p y. unfold setParticle. gsimpl.
    rewrite drop_insert_lt by lia. by rewrite length_insert. }
  destruct (particles x !! i) as [[l|l pos sx d|l pos sx d er|l pos ry d rs]|] eqn:Hl.
  - apply Hstep; try reflexivity; apply Hset.
  - cbv zeta. destruct (Qltb _ _).
    + destruct (playerTakeDamage_particles d (setParticle i
                  (Shockwave (l - deltaTime) pos (sx + deltaTime * 50) d) x))
        as (P1 & P2 & P3 & P4 & P5).
      apply Hstep; rewrite ?P1, ?P2, ?P3, ?P4, ?P5; try reflexivity; apply Hset.
    + apply Hstep; try reflexivity; apply Hset.
  - cbv zeta. destruct (_ && _).
    + destruct (playerTakeDamage_particles d (setParticle i
                  (ShockwaveRing (l - deltaTime) pos (sx + er * deltaTime) d er) x))
        as (P1 & P2 & P3 & P4 & P5).
      apply Hstep; unfold setParticle at 1; gsimpl;
        rewrite ?P1, ?P2, ?P3, ?P4, ?P5; try reflexivity.
      * rewrite drop_insert_lt by lia. apply Hset.
      * rewrite length_insert. apply Hset.
    + apply Hstep; try reflexivity; apply Hset.
  - cbv zeta. destruct (_ && _).
    + destruct (playerTakeDamage_particles (d * deltaTime) (setParticle i
                  (SweepingLaser (l - deltaTime) pos (ry + rs * deltaTime) d rs) x))
        as (P1 & P2 & P3 & P4 & P5).
      apply Hstep; rewrite ?P1, ?P2, ?P3, ?P4, ?P5; try reflexivity; apply Hset.
    + apply Hstep; try reflexivity; apply Hset.
  - rewrite drop_ge by (by apply lookup_ge_None). by repeat split.
Qed.

End Expiry.

Section Pickups.
Context `{Host}.

(** Property X4.  The pickup half of [_checkPlayerCollisions] collects
    exactly the pickups within 1.5 units of the player and leaves the others
    in their order.  Collecting never lowers the reserve ammunition; it never
    lowers [hp] nor takes it above [maxHp] when it was not above it; and it
    leaves the enemies and the boss alone. *)
Theorem X4_pickups_in_reach_collected (g : Game) :
  let g' := _checkPlayerCollisions_pickups g in
  pickups g'
  = filter (λ pk, Qltb (distanceTo (playerPosition g) (pk_position pk)) 1.5 = false)
      (pickups g)
  /\ maxHp (player g') = maxHp (player g)
  /\ (hp (player g) <= maxHp (player g) ->
      hp (player g) <= hp (player g') /\ hp (player g') <= maxHp (player g))
  /\ (reserveAmmo (player g) <= reserveAmmo (player g'))%Z
  /\ enemies g' = enemies g /\ boss g' = boss g /\ heap g' = heap g.
Proof.
  unfold _checkPlayerCollisions_pickups. cbv zeta.
  set (body := λ (i : nat) (g : Game), match pickups g !! i with
                                       | Some _ => _ | None => g end).
  set (keepP := λ pk : Pickup,
         Qltb (distanceTo (playerPosition g) (pk_position pk)) 1.5 = false).
  destruct (sweep_omap pickups
              (λ a, if decide (keepP (id a)) then Some (id a) else None)
              (λ x, playerPosition x = playerPosition g
                    /\ maxHp (player x) = maxHp (player g)
                    /\ (hp (player g) <= maxHp (player g) ->
                        hp (player g) <= hp (player x)
                        /\ hp (player x) <= maxHp (player g))
                    /\ (reserveAmmo (player g) <= reserveAmmo (player x))%Z
                    /\ enemies x = enemies g /\ boss x = boss g /\ heap x = heap g)
              forDown body g) as [I1 B1].
  { intros P n x. apply forDown_index. }
  { repeat split; try done; lra. }
  { intros x l1 a l2 (Hp & J1 & J2 & J3 & J4 & J5 & J6) Hx. subst body. cbv beta.
    rewrite Hx, middle_lookup. rewrite Hp. unfold id.
    destruct (decide (keepP a)) as [K|K]; unfold keepP in K.
    - rewrite K. unfold option_list. cbn [app]. repeat split; try done; by apply J2.
    - destruct (Qltb _ 1.5); [|done]. cbv zeta. unfold option_list. cbn [app].
      assert (Ha : (0 <= W_PICKUP_AMMO_AMOUNT (CONFIG.WEAPON (weaponLevel g)))%Z)
        by (destruct (weaponLevel g); cbn; lia).
      destruct (pk_type a); gsimpl; rewrite Hx, middle_delete;
        (split; [|reflexivity]); (split; [done|]); (split; [done|]);
        (split; [|repeat split; try done; lia]).
      + exact J2.
      + intros Hh. destruct (J2 Hh) as [Hlo Hhi]. rewrite J1.
        unfold CONFIG.PICKUPS.HEALTH_AMOUNT. split.
        * apply Q.min_glb; lra.
        * apply Q.le_min_l.
      + exact J2. }
  pose proof (omap_filter_fmap id keepP (pickups g)) as E.
  cbv beta in E. rewrite list_fmap_id in E. rewrite <- E, <- B1.
  split; [reflexivity|]. apply I1.
Qed.

End Pickups.


(** ** Lights and screen shake *)

(** Property X5.  [updateExpiringLights] ages every light by the time of
    the frame, removes exactly those whose lifespan is then zero or less, and
    dims each of the others to [15 * lifespan / maxLifespan]; so every light
    that is left has a positive lifespan. *)
Theorem X5_updateExpiringLights_ages (deltaTime : Q) (lights : list ExpiringLight) :
  updateExpiringLights deltaTime lights = omap (agedLight deltaTime) lights
  /\ Forall (λ l, 0 < el_lifespan l
                  /\ el_intensity l = 15 * (el_lifespan l / el_maxLifespan l))
       (updateExpiringLights deltaTime lights).
Proof.
  assert (E : updateExpiringLights deltaTime lights = omap (agedLight deltaTime) lights).
  { unfold updateExpiringLights.
    set (body := λ (i : nat) (ls : list ExpiringLight),
           match ls !! i with Some _ => _ | None => ls end).
    apply (sweep_omap (λ ls : list ExpiringLight, ls) (agedLight deltaTime)
             (λ _, True) forDownOn body lights); [|done|].
    - intros P n x. apply forDownOn_index.
    - intros x l1 a l2 _ ->. subst body. cbv beta. rewrite middle_lookup.
      cbv zeta. unfold agedLight. split; [done|].
      destruct (Qleb _ _); unfold option_list; cbn [app].
      + apply middle_delete.
      + apply middle_insert. }
  split; [exact E|]. rewrite E. apply Forall_forall. intros l Hl.
  apply list_elem_of_omap in Hl as (l0 & _ & Hl0). unfold agedLight in Hl0.
  destruct (Qleb _ _) eqn:Hq; [discriminate|]. injection Hl0 as <-.
  cbn [el_lifespan el_intensity el_maxLifespan]. split; [by apply Qleb_gt|reflexivity].
Qed.

Section ScreenShake.
Context `{Host}.


End ScreenShake.


(** ** The player's weapon and movement *)

Section Weapon.
Context `{Host}.

(** Property X7.  A reload only moves rounds from the reserve to the
    magazine: the sum of the two is the same after the reload block of
    [updatePlayer] as before, and the capacity is unchanged.  When the
    reserve is not negative and the magazine not over capacity, the reserve
    stays non-negative and the magazine only grows, never past capacity. *)
Theorem X7_reload_conserves_rounds (deltaTime : Q) (g : Game) :
  let p := player g in
  let p' := player (updatePlayer_reload deltaTime g) in
  (ammoInMagazine p' + reserveAmmo p' = ammoInMagazine p + reserveAmmo p)%Z
  /\ maxAmmoInMagazine p' = maxAmmoInMagazine p
  /\ ((0 <= reserveAmmo p)%Z -> (ammoInMagazine p <= maxAmmoInMagazine p)%Z ->
      (0 <= reserveAmmo p')%Z
      /\ (ammoInMagazine p <= ammoInMagazine p')%Z
      /\ (ammoInMagazine p' <= maxAmmoInMagazine p)%Z).
Proof.
  unfold updatePlayer_reload. cbv zeta.
  destruct (reloading (player g)).
  - gsimpl. destruct (Qleb _ _); gsimpl; repeat split; lia.
  - destruct (_ && _ && _); gsimpl; repeat split; lia.
Qed.




(** Property X9.  The three fire modes of the firing block of
    [updatePlayer], when it is ready to fire.  In overcharge it emits a laser
    bolt and takes no round from the magazine, and the trigger stays down.
    With rounds in the magazine and no overcharge it emits a normal bullet;
    the tier-1 weapon, and every weapon in New Game Plus, then releases the
    trigger, so that the firing block run again without a new press emits
    nothing; the tier-2 weapon outside New Game Plus keeps the trigger
    down. *)
Theorem X9_fire_modes (g : Game) :
  fireReady g = true ->
  let g' := updatePlayer_fire g in
  (z_active (player g) = true ->
   ammoInMagazine (player g') = ammoInMagazine (player g)
   /\ (exists b, bullets g' = bullets g ++ [b] /\ isLaser b = true)
   /\ key "mouse0" g' = true)
  /\ (z_active (player g) = false -> (0 < ammoInMagazine (player g))%Z ->
      (exists b, bullets g' = bullets g ++ [b] /\ isLaser b = false)
      /\ key "mouse0" g'
         = negb ((match weaponLevel g with W1 => true | W2 => false end)
                 || isNewGamePlus g)
      /\ (key "mouse0" g' = false -> updatePlayer_fire g' = g')).
Proof.
  intros Hf g'. subst g'. rewrite updatePlayer_fire_unfold, Hf.
  assert (Hk : key "mouse0" g = true).
  { unfold fireReady in Hf. cbv zeta in Hf.
    by apply andb_true_iff in Hf as [Hf _]; apply andb_true_iff in Hf as [Hf _];
      apply andb_true_iff in Hf as [Hf _]. }
  split.
  - intros Hz. rewrite Hz.
    destruct (playerShoot_fields true g) as (_ & Hp & Hb & _ & Hkeys & _).
    cbv zeta in *. rewrite Hp. split; [reflexivity|]. split; [exact Hb|].
    unfold key in *. by rewrite Hkeys.
  - intros Hz Ha. rewrite Hz.
    destruct (Z.ltb_spec 0 (ammoInMagazine (player g))); [|lia].
    destruct (playerShoot_fields false g)
      as (_ & Hp & Hb & _ & Hkeys & Hw & Hn & _).
    cbv zeta in *. rewrite Hw, Hn.
    set (g1 := playerShoot false g) in *. clearbody g1.
    destruct (_ || _) eqn:Hsemi; cbn [negb].
    + split; [exact Hb|]. split; [by rewrite key_setKey, decide_True|].
      intros _. rewrite updatePlayer_fire_unfold. unfold fireReady. cbv zeta.
      rewrite key_setKey, decide_True by done. reflexivity.
    + split; [exact Hb|]. split; [unfold key in *; by rewrite Hkeys|].
      intros Hk'. unfold key in *. rewrite Hkeys in Hk'. congruence.
Qed.

(** Property X10.  Whatever the frame time, the movement block of
    [updatePlayer] leaves the stamina between 0 and 100 and the player's
    height at 1.6 or above; the player sprints only with [ShiftLeft] down and
    not while aiming; with [Space] down the player is off the ground after
    the block; and the block touches neither [hp] nor the magazine. *)
Theorem X10_move_bounds (deltaTime : Q) (g : Game) :
  let g' := updatePlayer_move deltaTime g in
  (0 <= stamina (player g') /\ stamina (player g') <= 100)
  /\ 1.6 <= vy (playerPosition g')
  /\ sprinting (player g') = key "ShiftLeft" g && negb (isAiming (player g))
  /\ (key "Space" g = true -> onGround (player g') = false)
  /\ hp (player g') = hp (player g)
  /\ ammoInMagazine (player g') = ammoInMagazine (player g).
Proof.
  intros g'. assert (Hg' : g' = updatePlayer_move deltaTime g) by reflexivity.
  clearbody g'. cbv beta delta [updatePlayer_move] in Hg'.
  sym_run Hg'.
  assert (Hst : 0 <= stamina s8 /\ stamina s8 <= 100).
  { subst s8. cbn [stamina set_stamina]. apply clamp_bounds.
    unfold CONFIG.PLAYER.STAMINA. lra. }
  assert (Hs8 : hp s8 = hp (player g)
                /\ ammoInMagazine s8 = ammoInMagazine (player g)
                /\ sprinting s8 = key "ShiftLeft" g && negb (isAiming (player g))).
  { clear Hst. subst s8 s7 s1 s. destruct (sprinting _ && s3); gsimpl; (split; [reflexivity|split; reflexivity]). }
  clear Es8 Es7 Es2 Es1.
  assert (Hv : 1.6 <= v).
  { destruct (Qltb s12 1.6) eqn:Hq; injection Ep as -> _; [lra|].
    by apply Qltb_ge. }
  assert (Hs13 : stamina s13 = stamina s8 /\ hp s13 = hp s8
                 /\ ammoInMagazine s13 = ammoInMagazine s8
                 /\ sprinting s13 = sprinting s8).
  { destruct (Qltb s12 1.6); injection Ep as _ ->; subst s11; gsimpl; by repeat split. }
  clear Ep Es11.
  assert (Hs15 : stamina s15 = stamina s13 /\ hp s15 = hp s13
                 /\ ammoInMagazine s15 = ammoInMagazine s13
                 /\ sprinting s15 = sprinting s13
                 /\ (key "Space" g = true -> onGround s15 = false)).
  { subst s15. destruct (key "Space" g); cbn [andb].
    - destruct (onGround s13) eqn:Hg; gsimpl; by repeat split.
    - gsimpl. by repeat split. }
  clear Es15.
  destruct Hs8 as (A1 & A2 & A3). destruct Hs13 as (B1 & B2 & B3 & B4).
  destruct Hs15 as (C1 & C2 & C3 & C4 & C5).
  subst g' s14. gsimpl. cbn [vy set_vy].
  rewrite C1, C2, C3, C4, B1, B2, B3, B4, A1, A2, A3.
  split; [exact Hst|]. split; [exact Hv|]. split; [reflexivity|].
  split; [exact C5|]. split; reflexivity.
Qed.

End Weapon.


(** ** Damage to the player *)

Section PlayerDamage.
Context `{Host}.

Lemma playerTakeDamage_hp amount g :
  hp (player (playerTakeDamage amount g)) = hp (player g)
  \/ hp (player (playerTakeDamage amount g)) = hp (player g) - amount
  \/ hp (player (playerTakeDamage amount g)) = 0.
Proof.
  unfold playerTakeDamage. cbv zeta. case_decide; [by left|].
  destruct (shield_active (player g)); [by left|]. gsimpl.
  destruct (Qleb _ _); gsimpl; auto.
Qed.

(** Property X11.  Damage to an unshielded player in a running game: while
    it leaves hit points above zero it only lowers [hp] by the amount; the
    blow that takes [hp] to zero or below sets it to exactly 0, switches the
    game to [game_over] and reports the game over once, and from then on no
    further damage changes anything. *)
Theorem X11_fatal_damage_ends_game (amount : Q) (g : Game) :
  gameState g <> game_over -> shield_active (player g) = false ->
  let g' := playerTakeDamage amount g in
  (0 < hp (player g) - amount ->
   g' = upd_player (set_hp (hp (player g) - amount)) g)
  /\ (hp (player g) - amount <= 0 ->
      hp (player g') = 0 /\ gameState g' = game_over
      /\ trace g' = EvGameOver :: EvStateChange game_over :: trace g
      /\ enemies g' = enemies g /\ boss g' = boss g /\ heap g' = heap g
      /\ forall a, playerTakeDamage a g' = g').
Proof.
  intros Hs Hsh. unfold playerTakeDamage. cbv zeta.
  rewrite decide_False by done. rewrite Hsh. gsimpl. split.
  - intros Hp. by rewrite (proj2 (Qleb_gt _ _) Hp).
  - intros Hp. rewrite (proj2 (Qleb_le _ _) Hp). gsimpl.
    repeat (split; [reflexivity|]). intros a. by rewrite decide_True.
Qed.

(** Property X12.  Contact damage is rate-limited: while the immunity
    window of the last hit is still open the contact check changes nothing;
    when it does act, it stamps [lastHitTime] with the current time, which
    closes the window again, and the player pays for one object at most,
    however many are in reach: [hp] is unchanged (shield, or a kamikaze that
    blew itself up), lowered by that one object's damage, or set to 0. *)
Theorem X12_contact_once_per_window (g : Game) :
  let g' := _checkPlayerCollisions_contact g in
  (elapsedTime g <= lastHitTime (player g) + CONFIG.PLAYER.DAMAGE_IMMUNITY -> g' = g)
  /\ (g' = g
      \/ lastHitTime (player g') = elapsedTime g
         /\ exists r e, heap g !! r = Some e /\ (r ∈ enemies g \/ boss g = Some r)
              /\ (hp (player g') = hp (player g)
                  \/ hp (player g') = hp (player g) - ent_damage e
                  \/ hp (player g') = 0)).
Proof.
  unfold _checkPlayerCollisions_contact. cbv zeta. split.
  - intros Hw. by rewrite (proj2 (Qltb_ge _ _) Hw).
  - destruct (Qltb _ _); [|by left].
    destruct (findEnemyHit _ g) as [[r enemy]|] eqn:Hf.
    + right. apply findEnemyHit_Some in Hf as (Hr & Hl & _). gsimpl.
      split; [reflexivity|]. exists r, enemy. split; [done|]. split; [by left|].
      destruct (isKamikaze enemy).
      * left. by rewrite dealDamageTo_player.
      * apply playerTakeDamage_hp.
    + destruct (boss g) as [br|] eqn:Hb; [|by left].
      destruct (heap g !! br) as [be|] eqn:Hbe; [|by left].
      destruct (Qltb _ _); [|by left]. right. gsimpl.
      split; [reflexivity|]. exists br, be. split; [done|]. split; [by right|].
      apply playerTakeDamage_hp.
Qed.

End PlayerDamage.


(** ** The companion drone *)

Section Drone.
Context `{Host}.

(** The scan of [findDroneTarget] over the registry: the distance it ends
    with is a lower bound for every registered object, and the target it
    ends with, when it changed, is an object at exactly that distance. *)
Lemma nearest_scan (dronePos : Vector3) (g : Game) (l : list Ref) (acc : Q * option Ref) :
  let f := λ (acc : Q * option Ref) (r : Ref),
             match heap g !! r with
             | Some enemy =>
                 let dist := distanceTo dronePos (ent_position enemy) in
                 if Qltb dist (fst acc) then (dist, Some r) else acc
             | None => acc
             end in
  let res := fold_left f l acc in
  fst res <= fst acc
  /\ (forall r e, r ∈ l -> heap g !! r = Some e ->
        fst res <= distanceTo dronePos (ent_position e))
  /\ (res = acc
      \/ exists r e, snd res = Some r /\ r ∈ l /\ heap g !! r = Some e
           /\ distanceTo dronePos (ent_position e) = fst res /\ fst res < fst acc).
Proof.
  intros f. revert acc. induction l as [|a l IH]; intros acc res.
  - subst res. cbn. split; [lra|]. split; [|by left].
    intros r e Hr. by apply elem_of_nil in Hr.
  - subst res. cbn [fold_left].
    destruct (IH (f acc a)) as (I1 & I2 & I3). cbv zeta in *.
    set (res := fold_left f l (f acc a)) in *. clearbody res.
    assert (Hstep : fst (f acc a) <= fst acc
                    /\ (forall e, heap g !! a = Some e ->
                          fst (f acc a) <= distanceTo dronePos (ent_position e))
                    /\ (f acc a = acc
                        \/ exists e, f acc a = (distanceTo dronePos (ent_position e), Some a)
                             /\ heap g !! a = Some e
                             /\ distanceTo dronePos (ent_position e) < fst acc)).
    { unfold f. destruct (heap g !! a) as [e|] eqn:He.
      - cbv zeta. destruct (Qltb _ _) eqn:Hq.
        + apply Qltb_lt in Hq. cbn [fst]. split; [lra|]. split.
          * intros e' [= <-]. lra.
          * right. by exists e.
        + apply Qltb_ge in Hq. split; [lra|]. split; [|by left].
          by intros e' [= <-].
      - split; [lra|]. split; [done|by left]. }
    destruct Hstep as (S1 & S2 & S3).
    split; [lra|]. split.
    + intros r e Hr He. apply elem_of_cons in Hr as [->|Hr].
      * specialize (S2 e He). lra.
      * exact (I2 r e Hr He).
    + destruct I3 as [I3|(r & e & Ht & Hr & He & Hd & Hlt)].
      * destruct S3 as [S3|(e & S3 & He & Hlt)].
        -- left. congruence.
        -- right. exists a, e. rewrite I3, S3. cbn [fst snd].
           split; [done|]. split; [by left|]. done.
      * right. exists r, e. split; [done|]. split; [by right|].
        split; [done|]. split; [done|]. lra.
Qed.

Lemma findDroneTarget_nearest (dronePos : Vector3) (g : Game) :
  let g' := findDroneTarget dronePos g in
  g' = set_droneTarget (droneTarget g') g
  /\ (forall t, droneTarget g' = Some t ->
        (t ∈ enemies g \/ boss g = Some t)
        /\ exists e, heap g !! t = Some e
             /\ distanceTo dronePos (ent_position e) < CONFIG.DRONE.RANGE
             /\ forall r e', (r ∈ enemies g \/ boss g = Some r) ->
                  heap g !! r = Some e' ->
                  distanceTo dronePos (ent_position e)
                  <= distanceTo dronePos (ent_position e'))
  /\ (droneTarget g' = None ->
        forall r e', (r ∈ enemies g \/ boss g = Some r) ->
          heap g !! r = Some e' ->
          CONFIG.DRONE.RANGE <= distanceTo dronePos (ent_position e')).
Proof.
  unfold findDroneTarget.
  destruct (nearest_scan dronePos g (enemies g) (CONFIG.DRONE.RANGE, None))
    as (N1 & N2 & N3). cbv zeta in *.
  destruct (fold_left _ (enemies g) _) as [d t]. cbn [fst snd] in *.
  split; [reflexivity|]. gsimpl.
  assert (Ht : forall r, t = Some r ->
             r ∈ enemies g /\ exists e, heap g !! r = Some e
               /\ distanceTo dronePos (ent_position e) = d /\ d < CONFIG.DRONE.RANGE).
  { intros r ->. destruct N3 as [[= ]|(r' & e & [= <-] & Hr & He & Hd & Hlt)].
    split; [done|]. by exists e. }
  assert (Hn : t = None -> d = CONFIG.DRONE.RANGE).
  { intros ->. destruct N3 as [[= ->]|(r' & e & [= ] & _)]. reflexivity. }
  destruct (boss g) as [b|] eqn:Hb.
  - destruct (heap g !! b) as [be|] eqn:Hbe.
    + destruct (Qltb _ d) eqn:Hq.
      * apply Qltb_lt in Hq. split.
        -- intros t' [= <-]. split; [by right|]. exists be.
           split; [done|]. split; [lra|].
           intros r e' [Hr|[= <-]] He'.
           ++ specialize (N2 r e' Hr He'). lra.
           ++ rewrite Hbe in He'. injection He' as <-. lra.
        -- done.
      * apply Qltb_ge in Hq. split.
        -- intros t' ->. destruct (Ht t' eq_refl) as (Hr & e & He & Hd & Hlt).
           split; [by left|]. exists e. split; [done|]. rewrite Hd. split; [lra|].
           intros r e' [Hr'|[= <-]] He'.
           ++ specialize (N2 r e' Hr' He'). lra.
           ++ rewrite Hbe in He'. injection He' as <-. lra.
        -- intros ->. specialize (Hn eq_refl). subst d.
           intros r e' [Hr'|[= <-]] He'.
           ++ exact (N2 r e' Hr' He').
           ++ rewrite Hbe in He'. by injection He' as <-.
    + split.
      * intros t' ->. destruct (Ht t' eq_refl) as (Hr & e & He & Hd & Hlt).
        split; [by left|]. exists e. split; [done|]. rewrite Hd. split; [lra|].
        intros r e' [Hr'|[= <-]] He'; [|congruence].
        specialize (N2 r e' Hr' He'). lra.
      * intros ->. specialize (Hn eq_refl). subst d.
        intros r e' [Hr'|[= <-]] He'; [|congruence]. exact (N2 r e' Hr' He').
  - split.
    + intros t' ->. destruct (Ht t' eq_refl) as (Hr & e & He & Hd & Hlt).
      split; [by left|]. exists e. split; [done|]. rewrite Hd. split; [lra|].
      intros r e' [Hr'|[= ]] He'. specialize (N2 r e' Hr' He'). lra.
    + intros ->. specialize (Hn eq_refl). subst d.
      intros r e' [Hr'|[= ]] He'. exact (N2 r e' Hr' He').
Qed.

(** Property X13.  [findDroneTarget] changes the drone's target and nothing
    else.  The target it picks is a registered enemy or the boss, strictly
    inside the drone's range, and no registered enemy nor the boss is nearer
    to the drone; it picks no target exactly when every one of them is at
    the range or beyond. *)
Theorem X13_drone_targets_nearest (dronePos : Vector3) (g : Game) :
  let g' := findDroneTarget dronePos g in
  g' = set_droneTarget (droneTarget g') g
  /\ (forall t, droneTarget g' = Some t ->
        (t ∈ enemies g \/ boss g = Some t)
        /\ exists e, heap g !! t = Some e
             /\ distanceTo dronePos (ent_position e) < CONFIG.DRONE.RANGE
             /\ forall r e', (r ∈ enemies g \/ boss g = Some r) ->
                  heap g !! r = Some e' ->
                  distanceTo dronePos (ent_position e)
                  <= distanceTo dronePos (ent_position e'))
  /\ (droneTarget g' = None ->
        forall r e', (r ∈ enemies g \/ boss g = Some r) ->
          heap g !! r = Some e' ->
          CONFIG.DRONE.RANGE <= distanceTo dronePos (ent_position e')).
Proof. exact (findDroneTarget_nearest dronePos g). Qed.

(** Property X14.  The drone fires at most one bolt per call and only once
    its fire interval has passed; every bolt goes to a target that is alive
    and within the drone's range of where the drone now is, and restarts the
    interval.  The call never touches the registry, the objects or the
    player. *)
Theorem X14_drone_fire_discipline (deltaTime : Q) (g : Game) :
  regOK g ->
  let g' := updateDrone deltaTime g in
  (elapsedTime g <= lastDroneShotTime g + CONFIG.DRONE.FIRE_RATE ->
   droneBullets g' = droneBullets g /\ droneTarget g' = droneTarget g
   /\ lastDroneShotTime g' = lastDroneShotTime g)
  /\ (droneBullets g' = droneBullets g /\ lastDroneShotTime g' = lastDroneShotTime g
      \/ exists pos t te b,
           drone g' = Some pos /\ droneTarget g' = Some t /\ heap g !! t = Some te
           /\ 0 < ent_hp te /\ distanceTo pos (ent_position te) <= CONFIG.DRONE.RANGE
           /\ droneBullets g' = droneBullets g ++ [b]
           /\ lastDroneShotTime g' = elapsedTime g)
  /\ enemies g' = enemies g /\ heap g' = heap g /\ boss g' = boss g
  /\ player g' = player g.
Proof.
  intros Hg. unfold updateDrone.
  destruct (drone g) as [dronePos|] eqn:Hd; [|cbv zeta; by auto 10].
  cbv zeta. gsimpl.
  set (pos := lerp dronePos (vadd (playerPosition g) (mkVector3 (-2) 2 (-2))) 0.1).
  destruct (Qltb _ (elapsedTime g)) eqn:Hq.
  2:{ gsimpl. by auto 10. }
  apply Qltb_lt in Hq. split; [intros Hw; lra|].
  set (g0 := set_drone (Some pos) g).
  assert (Hfresh :
    forall t, droneTarget (findDroneTarget pos g0) = Some t ->
      exists te, heap g !! t = Some te /\ 0 < ent_hp te
                 /\ distanceTo pos (ent_position te) <= CONFIG.DRONE.RANGE).
  { intros t Ht.
    destruct (findDroneTarget_nearest pos g0) as (_ & Hn & _). cbv zeta in Hn.
    destruct (Hn t Ht) as (Hin & e & He & Hlt & _). subst g0. gsimpl.
    exists e. split; [done|]. split; [|lra].
    destruct Hg as (_ & Hen & Hbo & _). destruct Hin as [Hin|Hin].
    - destruct (Hen t Hin) as (e' & ty & He' & _ & _ & Hp).
      rewrite He in He'. injection He' as <-. by apply Hp.
    - destruct (Hbo t Hin) as (e' & bd & He' & _ & _ & Hp).
      rewrite He in He'. injection He' as <-. by apply Hp. }
  assert (Hshape : findDroneTarget pos g0
                   = set_droneTarget (droneTarget (findDroneTarget pos g0)) g0)
    by apply findDroneTarget_nearest.
  set (g1 := findDroneTarget pos g0) in *. clearbody g1.
  match goal with |- context [if ?b then g1 else g0] => destruct b eqn:Hstale end.
  - destruct (droneTarget g1) as [t|] eqn:Ht.
    + destruct (Hfresh t eq_refl) as (te & Hte & Hhp & Hr).
      unfold droneShoot. rewrite Ht, Hshape. subst g0. gsimpl. rewrite Hte. gsimpl.
      split; [|by auto]. right. by eexists pos, t, te, _.
    + rewrite Hshape. subst g0. gsimpl. split; [by left|by auto].
  - destruct (droneTarget g0) as [t|] eqn:Ht; [|subst g0; gsimpl; split; [by left|by auto]].
    subst g0. gsimpl_in Ht. gsimpl. rewrite Ht in Hstale.
    destruct (heap g !! t) as [te|] eqn:Hte; [|done].
    apply orb_false_iff in Hstale as [Hh Hr].
    apply Qleb_gt in Hh. apply Qltb_ge in Hr.
    unfold droneShoot. gsimpl. rewrite Ht, Hte. gsimpl.
    split; [|by auto]. right. by eexists pos, t, te, _.
Qed.

End Drone.


(** ** Spawning and the start of a wave *)

Section Spawning.
Context `{Host}.

Lemma spawnEnemy_roster (g : Game) :
  let g' := spawnEnemy g in
  exists e t,
    enemies g' = enemies g ++ [nextRef g]
    /\ heap g' = <[nextRef g := e]> (heap g)
    /\ nextRef g' = S (nextRef g)
    /\ ent_kind e = IsEnemy t
    /\ ((currentLevel g < 3)%Z -> t = Drone \/ t = Scout)
    /\ ((currentLevel g = 3)%Z -> t <> Kamikaze)
    /\ ent_hp e = E_HP (dropConfig t) * (if isNewGamePlus g then 1.2 else 1)
                  * (1 + (inject_Z (currentLevel g) - 1) * 0.1)
    /\ ent_damage e = E_DAMAGE (dropConfig t) * (if isNewGamePlus g then 1.2 else 1)
                      * (1 + (inject_Z (currentLevel g) - 1) * 0.1)
    /\ ent_size e = E_SIZE (dropConfig t)
    /\ (t = Tank -> vy (ent_position e) = E_SIZE (dropConfig t) / 2)
    /\ (t <> Tank -> exists k, vy (ent_position e) = mathRandom k * 5 + 3)
    /\ wave g' = wave g /\ player g' = player g /\ boss g' = boss g.
Proof.
  intros g'. assert (Hg' : g' = spawnEnemy g) by reflexivity.
  clearbody g'. cbv beta delta [spawnEnemy] in Hg'.
  sym_run Hg'.
  assert (Hs5 : (exists n, s5 = set_rngPos n g)
                /\ (s0 = Tank -> v1 = E_SIZE s1 / 2)
                /\ (s0 <> Tank -> exists k, v1 = mathRandom k * 5 + 3)).
  { destruct s0; injection Ep as -> ->; subst s3 s;
      (split; [eexists; reflexivity|]); (split; [done|]); try done;
      intros _; eexists; reflexivity. }
  destruct Hs5 as ([n Hs5] & Ht1 & Ht2). clear Ep.
  exists s9, s0. subst g' s10 v2 s5 s9 s8 s7 s6 s1. gsimpl.
  repeat (split; [reflexivity|]).
  assert (Hl : currentLevel s = currentLevel g) by (subst s; reflexivity).
  rewrite Hl in Es0. clear Hl.
  split; [|split; [|split; [reflexivity|split; [reflexivity|split; [reflexivity|]]]]].
  - intros Hl. apply Z.ltb_lt in Hl. rewrite Hl in Es0.
    destruct (Qltb v 0.6); auto.
  - intros Hl. rewrite Hl in Es0. cbn in Es0. subst s0.
    by repeat destruct (Qltb v _).
  - split; [exact Ht1|]. split; [exact Ht2|]. done.
Qed.

(** Property X15.  [spawnEnemy] registers exactly one new object, under
    the next free identity, and touches no other object, nor the wave, the
    player or the boss.  Below level 3 it is a drone or a scout; at level 3 a
    tank may come but never a kamikaze.  Its hit points and contact damage
    are the configured ones, times 1.2 in New Game Plus, times one tenth more
    per level after the first; tanks stand on the ground at half their size,
    the others are put at a random height of the form [random * 5 + 3]. *)
Theorem X15_spawn_roster (g : Game) :
  let g' := spawnEnemy g in
  exists e t,
    enemies g' = enemies g ++ [nextRef g]
    /\ heap g' = <[nextRef g := e]> (heap g)
    /\ nextRef g' = S (nextRef g)
    /\ ent_kind e = IsEnemy t
    /\ ((currentLevel g < 3)%Z -> t = Drone \/ t = Scout)
    /\ ((currentLevel g = 3)%Z -> t <> Kamikaze)
    /\ ent_hp e = E_HP (dropConfig t) * (if isNewGamePlus g then 1.2 else 1)
                  * (1 + (inject_Z (currentLevel g) - 1) * 0.1)
    /\ ent_damage e = E_DAMAGE (dropConfig t) * (if isNewGamePlus g then 1.2 else 1)
                      * (1 + (inject_Z (currentLevel g) - 1) * 0.1)
    /\ ent_size e = E_SIZE (dropConfig t)
    /\ (t = Tank -> vy (ent_position e) = E_SIZE (dropConfig t) / 2)
    /\ (t <> Tank -> exists k, vy (ent_position e) = mathRandom k * 5 + 3)
    /\ wave g' = wave g /\ player g' = player g /\ boss g' = boss g.
Proof. exact (spawnEnemy_roster g). Qed.

(** Property X16.  [updateWaveSpawning] spawns at most one enemy per call,
    and [spawnedInWave] counts exactly the enemies it registers.  It never
    overshoots: the number spawned stays within the wave's quota and the
    number alive within [maxConcurrent] if they were so before.  The quota,
    the limit and the kill counter are not touched, and after a spawn the
    timer is back at the full spawn interval. *)
Theorem X16_spawning_respects_quota (deltaTime : Q) (g : Game) :
  let g' := updateWaveSpawning deltaTime g in
  let w := wave g in
  let w' := wave g' in
  ((enemies g' = enemies g /\ spawnedInWave w' = spawnedInWave w)
   \/ (enemies g' = enemies g ++ [nextRef g]
       /\ spawnedInWave w' = (spawnedInWave w + 1)%Z
       /\ spawnTimer w' = spawnInterval w
       /\ spawnTimer w - deltaTime <= 0))
  /\ ((spawnedInWave w <= totalToKill w)%Z -> (spawnedInWave w' <= totalToKill w')%Z)
  /\ ((Z.of_nat (length (enemies g)) <= maxConcurrent w)%Z ->
      (Z.of_nat (length (enemies g')) <= maxConcurrent w')%Z)
  /\ totalToKill w' = totalToKill w /\ maxConcurrent w' = maxConcurrent w
  /\ killedInWave w' = killedInWave w /\ spawnInterval w' = spawnInterval w.
Proof.
  unfold updateWaveSpawning. cbv zeta.
  destruct (Z.leb_spec (totalToKill (wave g)) (spawnedInWave (wave g))) as [Hq|Hq];
    cbn [orb]; [by auto 10|].
  destruct (Z.leb_spec (maxConcurrent (wave g)) (Z.of_nat (length (enemies g))))
    as [Hm|Hm]; [by auto 10|].
  gsimpl. destruct (Qleb _ 0) eqn:Ht; gsimpl; [|by auto 10].
  apply Qleb_le in Ht.
  match goal with |- context [spawnEnemy ?s] =>
    destruct (spawnEnemy_roster s) as (e & t & He & _ & _ & _ & _ & _ & _ & _ & _ & _ & _ & Hw & _);
    set (g1 := spawnEnemy s) in *; clearbody g1 end.
  gsimpl_in He. gsimpl_in Hw. rewrite He, Hw. gsimpl.
  split; [right; by auto|]. split; [intros _; lia|].
  split; [|by auto]. intros _. rewrite length_app. cbn [length]. lia.
Qed.

Lemma startNextWave_upgrades (g : Game) :
  let g' := startNextWave g in
  let level := (currentLevel g + 1)%Z in
  currentLevel g' = level
  /\ (level = 3%Z ->
      weaponLevel g' = W2 /\ maxAmmoInMagazine (player g') = 40%Z
      /\ reserveAmmo (player g') = (reserveAmmo (player g) + 30)%Z
      /\ ammoInMagazine (player g') = ammoInMagazine (player g)
      /\ shield_unlocked (player g') = true
      /\ gameState g' = gameState g /\ wave g' = wave g
      /\ timers g' = timers g
                     ++ [(4000, CbShowMessages 1
                                  (if shield_unlocked (player g) then 1 else 2))])
  /\ (level = 4%Z ->
      drone_unlocked (player g') = true
      /\ (drone_unlocked (player g) = false ->
          drone g' = Some vzero /\ gameState g' = gameState g /\ wave g' = wave g
          /\ timers g' = timers g ++ [(4000, CbShowMessages 1 1)])
      /\ (drone_unlocked (player g) = true ->
          drone g' = drone g /\ gameState g' = playing
          /\ wave g' = newWave level (isNewGamePlus g)))
  /\ (level <> 3%Z -> level <> 4%Z ->
      gameState g' = playing /\ wave g' = newWave level (isNewGamePlus g)
      /\ timers g' = timers g /\ weaponLevel g' = weaponLevel g
      /\ drone g' = drone g
      /\ player g' = (if (level =? 2)%Z && negb (isNewGamePlus g)
                      then set_z_unlocked true (set_q_unlocked true (player g))
                      else player g)).
Proof.
  unfold startNextWave, showMessages, beginWave, unlockSkills, spawnDrone.
  cbv zeta. gsimpl.
  remember (currentLevel g + 1)%Z as level eqn:El.
  assert (Hw : W_MAGAZINE_SIZE (CONFIG.WEAPON W2) = 40%Z
               /\ (W_INITIAL_RESERVE_AMMO (CONFIG.WEAPON W2)
                   - W_INITIAL_RESERVE_AMMO (CONFIG.WEAPON W1) = 30)%Z) by done.
  destruct Hw as [-> ->].
  destruct (Z.eqb_spec level 3) as [H3|H3].
  - assert (H4 : (level =? 4)%Z = false) by (apply Z.eqb_neq; lia).
    assert (H2 : (level =? 2)%Z = false) by (apply Z.eqb_neq; lia).
    cbn [andb].
    destruct (shield_unlocked (player g)) eqn:Hs; cbn [negb]; gsimpl;
      rewrite ?H4; cbn [andb]; gsimpl;
      (destruct (Z.eqb_spec level 3) as [_|]; [|contradiction]);
      cbn [Nat.ltb Nat.leb]; gsimpl;
      (split; [reflexivity|]);
      (split; [|split; [intros Hx; exfalso; lia|intros Hx; contradiction]]);
      intros _; repeat (split; [first [reflexivity|exact Hs]|]); reflexivity.
  - cbn [andb]. gsimpl. destruct (Z.eqb_spec level 4) as [H4|H4].
    + assert (H2 : (level =? 2)%Z = false) by (apply Z.eqb_neq; lia).
      cbn [andb].
      destruct (drone_unlocked (player g)) eqn:Hd; cbn [negb]; gsimpl;
        (destruct (Z.eqb_spec level 3) as [|_]; [contradiction|]);
        cbn [Nat.ltb Nat.leb]; gsimpl; rewrite ?H2; cbn [andb]; gsimpl;
        (split; [reflexivity|]); (split; [intros Hx; contradiction|]);
        (split; [|intros _ Hx; contradiction]); intros _.
      * split; [exact Hd|]. split; [intros Hx; discriminate|].
        intros _. repeat (split; [reflexivity|]); reflexivity.
      * split; [reflexivity|]. split; [|intros Hx; discriminate].
        intros _. repeat (split; [reflexivity|]); reflexivity.
    + cbn [andb]. gsimpl.
      destruct (Z.eqb_spec level 3) as [|_]; [contradiction|].
      cbn [Nat.ltb Nat.leb]. gsimpl.
      destruct ((level =? 2)%Z && negb (isNewGamePlus g)); gsimpl;
        (split; [reflexivity|]); (split; [intros Hx; contradiction|]);
        (split; [intros Hx; contradiction|]);
        intros _ _; repeat (split; [reflexivity|]); reflexivity.
Qed.

(** Property X17.  [startNextWave] always moves to the next level.  On
    entering level 3 the weapon becomes tier 2: the magazine capacity is 40
    and the reserve grows by 30, but the rounds in the magazine stay as they
    are; the shield is unlocked.  On entering level 4 the drone is unlocked,
    and deployed if it was not before.  Whenever an unlock is announced the
    wave does not begin yet: the game state and the wave are left alone and
    one timer of 4000 ms is queued for the messages.  Otherwise the wave
    begins at once with a fresh wave record, and the heal and overcharge
    skills are unlocked at level 2 outside New Game Plus. *)
Theorem X17_wave_upgrades (g : Game) :
  let g' := startNextWave g in
  let level := (currentLevel g + 1)%Z in
  currentLevel g' = level
  /\ (level = 3%Z ->
      weaponLevel g' = W2 /\ maxAmmoInMagazine (player g') = 40%Z
      /\ reserveAmmo (player g') = (reserveAmmo (player g) + 30)%Z
      /\ ammoInMagazine (player g') = ammoInMagazine (player g)
      /\ shield_unlocked (player g') = true
      /\ gameState g' = gameState g /\ wave g' = wave g
      /\ timers g' = timers g
                     ++ [(4000, CbShowMessages 1
                                  (if shield_unlocked (player g) then 1 else 2))])
  /\ (level = 4%Z ->
      drone_unlocked (player g') = true
      /\ (drone_unlocked (player g) = false ->
          drone g' = Some vzero /\ gameState g' = gameState g /\ wave g' = wave g
          /\ timers g' = timers g ++ [(4000, CbShowMessages 1 1)])
      /\ (drone_unlocked (player g) = true ->
          drone g' = drone g /\ gameState g' = playing
          /\ wave g' = newWave level (isNewGamePlus g)))
  /\ (level <> 3%Z -> level <> 4%Z ->
      gameState g' = playing /\ wave g' = newWave level (isNewGamePlus g)
      /\ timers g' = timers g /\ weaponLevel g' = weaponLevel g
      /\ drone g' = drone g
      /\ player g' = (if (level =? 2)%Z && negb (isNewGamePlus g)
                      then set_z_unlocked true (set_q_unlocked true (player g))
                      else player g)).
Proof. exact (startNextWave_upgrades g). Qed.

End Spawning.


(** ** The boss enters and attacks *)

Section BossFight.
Context `{Host}.

(** Property X18.  The boss-fight callback at a level from 1 to 5 switches
    to [boss_fight] and registers the boss under the next free identity, at
    full health (its [maxHp], the configured value, times 1.5 in New Game
    Plus), standing at [(0, size/2, -80)]; the boss has a weak point exactly
    at level 5, holding 500 of 500 points.  At any other level the
    configuration lookup finds nothing and the callback throws, after the
    switch to [boss_fight] and before any boss exists. *)
Theorem X18_boss_entry (g : Game) :
  ((1 <= currentLevel g <= 5)%Z ->
   exists g' e bd cfg,
     beginBossFight g = Normal g'
     /\ CONFIG.BOSS_BASE (currentLevel g) = Some cfg
     /\ boss g' = Some (nextRef g) /\ heap g' = <[nextRef g := e]> (heap g)
     /\ gameState g' = boss_fight /\ enemies g' = enemies g /\ player g' = player g
     /\ ent_kind e = IsBoss bd
     /\ ent_hp e = B_HP cfg * (if isNewGamePlus g then 1.5 else 1)
     /\ 0 < ent_hp e /\ boss_maxHp bd = ent_hp e
     /\ ent_position e = mkVector3 0 (ent_size e / 2) (-80)
     /\ (is_Some (weak bd) <-> currentLevel g = 5%Z)
     /\ (forall wp, weak bd = Some wp ->
           weakPointHp wp = 500 /\ maxWeakPointHp wp = 500))
  /\ (~ (1 <= currentLevel g <= 5)%Z ->
      beginBossFight g = Threw (changeGameState boss_fight g)
      /\ boss (changeGameState boss_fight g) = boss g).
Proof.
  unfold beginBossFight. cbv zeta. gsimpl. split.
  - intros Hl.
    destruct (CONFIG.BOSS_BASE (currentLevel g)) as [cfg|] eqn:Hc.
    2:{ unfold CONFIG.BOSS_BASE in Hc.
        repeat match type of Hc with
          | (if (?l =? ?n)%Z then _ else _) = _ => destruct (Z.eqb_spec l n)
          end; try discriminate; lia. }
    pose proof (BOSS_BASE_positive _ _ Hc) as (Hhp & _).
    unfold alloc. gsimpl.
    eexists _, _, _, cfg. split; [reflexivity|]. gsimpl.
    repeat (split; [reflexivity|]). gsimpl. cbn [boss_maxHp weak].
    split; [destruct (isNewGamePlus g); lra|]. split; [reflexivity|].
    split; [reflexivity|].
    destruct (Z.eqb_spec (currentLevel g) 5) as [H5|H5].
    + rewrite H5 in Hc. cbn in Hc. injection Hc as <-.
      cbn [B_WEAK_POINT_HP fmap option_fmap option_map].
      split; [split; [done|by eexists]|]. by intros wp [= <-].
    + split; [split; [by intros [? [=]]|by intros]|]. by intros wp [=].
  - intros Hl. destruct (CONFIG.BOSS_BASE (currentLevel g)) as [cfg|] eqn:Hc; [|done].
    apply BOSS_BASE_positive in Hc as (_ & _ & _ & Hc). lia.
Qed.

Ltac all_list :=
  repeat (apply Forall_cons_2; [cbv beta; first [reflexivity | split; reflexivity]|]);
  apply Forall_nil_2.

Lemma bossShootSimple_fires direction laser g b be cfg :
  boss g = Some b -> heap g !! b = Some be ->
  CONFIG.BOSS_BASE (currentLevel g) = Some cfg ->
  bossShootSimple direction laser g
  = Normal (set_bossBullets
              (bossBullets g
               ++ [mkBossBullet (ent_position be)
                     (multiplyScalar direction (B_BULLET_SPEED cfg)) laser]) g).
Proof. intros Hb He Hc. unfold bossShootSimple. by rewrite Hb, He, Hc. Qed.

Lemma bossSpread_fires angles dirToPlayer g b be cfg :
  boss g = Some b -> heap g !! b = Some be ->
  CONFIG.BOSS_BASE (currentLevel g) = Some cfg ->
  bossSpread angles dirToPlayer g
  = Normal (set_bossBullets
              (bossBullets g
               ++ ((λ i, mkBossBullet (ent_position be)
                           (multiplyScalar (applyAxisAngleY dirToPlayer (i * mathPI / 16))
                              (B_BULLET_SPEED cfg)) false) <$> angles)) g).
Proof.
  revert g. induction angles as [|i rest IH]; intros g Hb He Hc.
  - cbn. rewrite app_nil_r. by destruct g.
  - cbn [bossSpread fmap list_fmap].
    rewrite (bossShootSimple_fires _ _ g b be cfg Hb He Hc). cbn [andThen].
    rewrite IH by done. gsimpl. by rewrite <- app_assoc.
Qed.

Lemma executeBossAttack_table (g : Game) (b : Ref) (be : Entity) (cfg : BossConfig) :
  boss g = Some b -> heap g !! b = Some be ->
  CONFIG.BOSS_BASE (currentLevel g) = Some cfg ->
  exists g' new hz,
    executeBossAttack g = Normal g'
    /\ bossBullets g' = bossBullets g ++ new
    /\ particles g' = particles g ++ hz
    /\ heap g' = <[b := setAttackTimer (B_ATTACK_COOLDOWN cfg) be]> (heap g)
    /\ boss g' = Some b /\ currentLevel g' = currentLevel g
    /\ Forall (λ bl, bb_position bl = ent_position be
                     /\ bb_isLaser bl = (currentLevel g =? 4)%Z) new
    /\ Forall (λ p, hazardDamage p = B_BULLET_DAMAGE cfg) hz
    /\ match currentLevel g with
       | 1%Z | 2%Z =>
           length new = (if (currentLevel g =? 1)%Z then 1 else 5)%nat
           /\ hz = [] /\ timers g' = timers g
       | 3%Z =>
           length new = 1%nat /\ timers g' = timers g
           /\ hz = [Shockwave 3 (set_vy 0.1 (ent_position be)) 1 (B_BULLET_DAMAGE cfg)]
       | 4%Z =>
           length new = 1%nat /\ timers g' = timers g
           /\ hz = [ShockwaveRing 4 (set_vy 0.2 (ent_position be)) 1
                      (B_BULLET_DAMAGE cfg) 25]
       | _ =>
           new = []
           /\ (hz = []
               /\ timers g'
                  = timers g
                    ++ ((λ i : nat, (inject_Z (Z.of_nat i) * 50, CbRingShot (Z.of_nat i)))
                          <$> seq 0 20)
               \/ hz = [SweepingLaser 5 (set_vy 1.6 (ent_position be)) 0
                          (B_BULLET_DAMAGE cfg) 0.5]
                  /\ timers g' = timers g)
       end.
Proof.
  intros Hb He Hc. unfold executeBossAttack. rewrite Hb, He, Hc. cbv zeta. gsimpl.
  pose proof (BOSS_BASE_positive _ _ Hc) as (_ & _ & _ & Hl).
  set (be' := setAttackTimer (B_ATTACK_COOLDOWN cfg) be).
  assert (Hp : ent_position be' = ent_position be).
  { unfold be', setAttackTimer. by destruct (ent_kind be). }
  set (g0 := store b be' g).
  assert (Hb0 : boss g0 = Some b) by exact Hb.
  assert (He0 : heap g0 !! b = Some be') by apply lookup_insert_eq.
  assert (Hc0 : CONFIG.BOSS_BASE (currentLevel g0) = Some cfg) by exact Hc.
  remember (currentLevel g) as level eqn:El.
  assert (Hcases : level = 1%Z \/ level = 2%Z \/ level = 3%Z \/ level = 4%Z
                   \/ level = 5%Z) by lia.
  destruct Hcases as [->|[->|[->|[->| ->]]]]; cbn [Z.eqb Pos.eqb].
  - rewrite (bossShootSimple_fires _ _ g0 b be' cfg Hb0 He0 Hc0). rewrite Hp.
    eexists _, [_], []. split; [reflexivity|]. subst g0. gsimpl.
    rewrite app_nil_r. repeat (split; [first [reflexivity | exact Hb | (symmetry; exact El)]|]).
    split; [all_list|]. split; [all_list|]. done.
  - rewrite (bossSpread_fires _ _ g0 b be' cfg Hb0 He0 Hc0). rewrite Hp.
    eexists _, _, []. split; [reflexivity|]. subst g0. gsimpl.
    split; [reflexivity|]. rewrite app_nil_r. repeat (split; [first [reflexivity | exact Hb | (symmetry; exact El)]|]).
    cbn [fmap list_fmap]. split; [all_list|]. split; [all_list|]. done.
  - rewrite (bossShootSimple_fires _ _ g0 b be' cfg Hb0 He0 Hc0). rewrite Hp.
    cbn [andThen]. eexists _, [_], [_]. split; [reflexivity|]. subst g0. gsimpl.
    repeat (split; [first [reflexivity | exact Hb | (symmetry; exact El)]|]).
    split; [all_list|]. split; [all_list|]. done.
  - rewrite (bossShootSimple_fires _ _ g0 b be' cfg Hb0 He0 Hc0). rewrite Hp.
    cbn [andThen]. eexists _, [_], [_]. split; [reflexivity|]. subst g0. gsimpl.
    repeat (split; [first [reflexivity | exact Hb | (symmetry; exact El)]|]).
    split; [all_list|]. split; [all_list|]. done.
  - destruct (mathFloor _ =? 0)%Z.
    + eexists _, [], []. split; [reflexivity|]. unfold scheduleRing. subst g0.
      cbn [seq fold_left]. gsimpl. rewrite !app_nil_r.
      repeat (split; [first [reflexivity | exact Hb | (symmetry; exact El)]|]).
      split; [all_list|]. split; [all_list|]. split; [reflexivity|].
      left. split; [reflexivity|]. rewrite <- !app_assoc. reflexivity.
    + eexists _, [], [_]. split; [reflexivity|]. subst g0. gsimpl.
      rewrite !app_nil_r. repeat (split; [first [reflexivity | exact Hb | (symmetry; exact El)]|]).
      split; [all_list|]. split; [all_list|]. split; [reflexivity|].
      right. done.
Qed.

(** Property X19.  The attack table of a boss that is present, at a level
    with a configuration.  Every attack resets the boss's attack timer to the
    configured cooldown and leaves the rest of the boss as it is.  Level 1
    fires one bullet, level 2 a fan of five, level 3 one bullet and a
    shockwave, level 4 one laser bolt and an expanding ring, and level 5
    fires nothing at once: it either queues the twenty staggered ring shots,
    50 ms apart, or lays a sweeping laser.  Every bullet starts at the boss,
    and each hazard carries the configured bullet damage. *)
Theorem X19_boss_attack_table (g : Game) (b : Ref) (be : Entity) (cfg : BossConfig) :
  boss g = Some b -> heap g !! b = Some be ->
  CONFIG.BOSS_BASE (currentLevel g) = Some cfg ->
  exists g' new hz,
    executeBossAttack g = Normal g'
    /\ bossBullets g' = bossBullets g ++ new
    /\ particles g' = particles g ++ hz
    /\ heap g' = <[b := setAttackTimer (B_ATTACK_COOLDOWN cfg) be]> (heap g)
    /\ boss g' = Some b /\ currentLevel g' = currentLevel g
    /\ Forall (λ bl, bb_position bl = ent_position be
                     /\ bb_isLaser bl = (currentLevel g =? 4)%Z) new
    /\ Forall (λ p, hazardDamage p = B_BULLET_DAMAGE cfg) hz
    /\ match currentLevel g with
       | 1%Z | 2%Z =>
           length new = (if (currentLevel g =? 1)%Z then 1 else 5)%nat
           /\ hz = [] /\ timers g' = timers g
       | 3%Z =>
           length new = 1%nat /\ timers g' = timers g
           /\ hz = [Shockwave 3 (set_vy 0.1 (ent_position be)) 1 (B_BULLET_DAMAGE cfg)]
       | 4%Z =>
           length new = 1%nat /\ timers g' = timers g
           /\ hz = [ShockwaveRing 4 (set_vy 0.2 (ent_position be)) 1
                      (B_BULLET_DAMAGE cfg) 25]
       | _ =>
           new = []
           /\ (hz = []
               /\ timers g'
                  = timers g
                    ++ ((λ i : nat, (inject_Z (Z.of_nat i) * 50, CbRingShot (Z.of_nat i)))
                          <$> seq 0 20)
               \/ hz = [SweepingLaser 5 (set_vy 1.6 (ent_position be)) 0
                          (B_BULLET_DAMAGE cfg) 0.5]
                  /\ timers g' = timers g)
       end.
Proof. exact (executeBossAttack_table g b be cfg). Qed.

End BossFight.


(** ** How long the timed effects last *)


Section Timed.
Context `{Host}.





End Timed.


(** ** Pausing, looking around, and the end of the game *)

Section Control.
Context `{Host}.


(** Property X21.  Aiming and looking.  The secondary button starts to
    aim only while the player is neither swinging nor reloading; releasing it
    always stops aiming; neither touches anything but the aim flag.  A mouse
    move turns the player by [movementX / 500] without limit, while the
    pitch, whatever it was, ends within a quarter turn up or down. *)
Theorem X21_aim_and_look (movementX movementY : Q) (g : Game) :
  0 <= mathPI ->
  onMouseDown 2 g
  = (if melee_attacking (player g) || reloading (player g) then g
     else upd_player (set_isAiming true) g)
  /\ onMouseUp 2 g = upd_player (set_isAiming false) g
  /\ (let g' := onMouseMove movementX movementY g in
      - mathPI / 2 <= cameraRotationX g' /\ cameraRotationX g' <= mathPI / 2
      /\ rotationY g' = rotationY g - movementX / 500
      /\ (- mathPI / 2 <= cameraRotationX g - movementY / 500 <= mathPI / 2 ->
          cameraRotationX g' == cameraRotationX g - movementY / 500)
      /\ player g' = player g /\ keys g' = keys g).
Proof.
  intros Hpi. split; [|split].
  - unfold onMouseDown. cbn [Z.eqb Pos.eqb andb].
    by destruct (melee_attacking (player g)), (reloading (player g)).
  - reflexivity.
  - unfold onMouseMove. cbv zeta. gsimpl.
    set (c := cameraRotationX g - movementY / 500).
    assert (Hle : - mathPI / 2 <= mathPI / 2).
    { assert (A : - mathPI / 2 == - (mathPI * (1 # 2))) by field.
      assert (B : mathPI / 2 == mathPI * (1 # 2)) by field.
      rewrite A, B. lra. }
    destruct (clamp_bounds _ _ c Hle) as [Hlo Hhi].
    split; [exact Hlo|]. split; [exact Hhi|].
    split; [reflexivity|]. split; [|by split].
    intros [Hl Hh]. rewrite Q.min_r by exact Hh. by rewrite Q.max_r.
Qed.

End Control.


(** ** Game over, restart, and loot *)

Section Lifecycle.
Context `{Host}.



(** Property X25.  [resetGame] gives the player a fresh record (full
    health and stamina, the tier-1 magazine and reserve, skills unlocked only
    in New Game Plus), puts the game at level 0 with the tier-1 weapon, and
    empties the registry and every list of bullets, pickups and particles.
    It does not touch the game state, the held keys or the drone's last
    target, and it cancels no pending timer: it only queues the start timer
    (4000 ms in New Game Plus, 5000 ms otherwise).  When that timer fires,
    wave 1 begins: the game is [playing] at level 1 with a fresh wave
    record. *)
Theorem X25_restart (isNGP : bool) (g : Game) :
  let g' := resetGame isNGP g in
  player g' = newPlayer isNGP
  /\ currentLevel g' = 0%Z /\ weaponLevel g' = W1 /\ isNewGamePlus g' = isNGP
  /\ enemies g' = [] /\ boss g' = None /\ drone g' = None
  /\ bullets g' = [] /\ bossBullets g' = [] /\ droneBullets g' = []
  /\ pickups g' = [] /\ particles g' = []
  /\ gameState g' = gameState g /\ keys g' = keys g
  /\ droneTarget g' = droneTarget g
  /\ timers g' = timers g ++ [(if isNGP then 4000 else 5000, CbStartNextWave)]
  /\ (let g1 := stateOf (fireTimer (length (timers g)) g') in
      gameState g1 = playing /\ currentLevel g1 = 1%Z
      /\ wave g1 = newWave 1 isNGP /\ timers g1 = timers g
      /\ player g1 = newPlayer isNGP).
Proof.
  intros g'. assert (Hg' : g' = resetGame isNGP g) by reflexivity.
  clearbody g'. cbv zeta.
  assert (Ht : timers g' = timers g ++ [(if isNGP then 4000 else 5000, CbStartNextWave)])
    by (rewrite Hg'; reflexivity).
  assert (Hp : player g' = newPlayer isNGP) by (rewrite Hg'; reflexivity).
  assert (Hl : currentLevel g' = 0%Z) by (rewrite Hg'; reflexivity).
  assert (Hn : isNewGamePlus g' = isNGP) by (rewrite Hg'; reflexivity).
  split; [exact Hp|]. split; [exact Hl|]. split; [rewrite Hg'; reflexivity|].
  split; [exact Hn|].
  do 11 (split; [rewrite Hg'; reflexivity|]).
  split; [exact Ht|]. clear Hg'.
  unfold fireTimer. rewrite Ht, list_lookup_middle by reflexivity.
  rewrite delete_middle, app_nil_r.
  cbn [runCallback stateOf].
  set (g2 := set_timers (timers g) g').
  destruct (startNextWave_upgrades g2) as (U1 & _ & _ & U4). cbv zeta in U1, U4.
  change (currentLevel g2) with (currentLevel g') in U1, U4.
  change (isNewGamePlus g2) with (isNewGamePlus g') in U4.
  change (player g2) with (player g') in U4.
  change (timers g2) with (timers g) in U4.
  rewrite Hl, Hn, Hp in *. cbn [Z.add Z.eqb Pos.eqb andb] in U1, U4.
  destruct U4 as (V1 & V2 & V3 & _ & _ & V4); [done|done|].
  split; [exact V1|]. split; [exact U1|]. split; [exact V2|]. split; [exact V3|].
  exact V4.
Qed.

Lemma visualParticles_length n draws life k :
  length (visualParticles n draws life k) = n.
Proof.
  revert k. induction n as [|n IH]; intros k; cbn [visualParticles length];
    [reflexivity|]. by rewrite IH.
Qed.

(** Property X26.  What a defeated enemy leaves behind.  The death plays
    an explosion of 41 particles and is decided by one random draw against
    the drop chance of the enemy's type: at or above it nothing drops, below
    it exactly one pickup is added.  The pickup lies where the enemy was, at
    height 0.5, and is ammunition when a second draw, scaled by the total
    weight of 14, is below the ammunition weight of 10, and health
    otherwise -- never a shield charge. *)
Theorem X26_loot_drop (r : Ref) (i : nat) (g : Game) (e : Entity) (t : EnemyType) :
  heap g !! r = Some e -> ent_kind e = IsEnemy t ->
  let g' := onEnemyDefeated r i g in
  length (particles g') = (length (particles g) + 41)%nat
  /\ exists k,
       (E_DROP_CHANCE (dropConfig t) <= mathRandom k /\ pickups g' = pickups g)
       \/ (mathRandom k < E_DROP_CHANCE (dropConfig t)
           /\ pickups g'
              = pickups g
                ++ [mkPickup
                      (if Qltb (mathRandom (S k)
                                * (CONFIG.PICKUPS.WEIGHT_AMMO + CONFIG.PICKUPS.WEIGHT_HEALTH))
                            CONFIG.PICKUPS.WEIGHT_AMMO
                       then Ammo else Health)
                      (set_vy 0.5 (ent_position e))]).
Proof.
  intros He Hk g'. assert (Hg' : g' = onEnemyDefeated r i g) by reflexivity.
  clearbody g'. cbv beta delta [onEnemyDefeated] in Hg'. rewrite He in Hg'.
  destruct e as [ehp edmg espd esz epos ek]. simpl in Hk. subst ek.
  sym_run Hg'. cbn [ent_position].
  assert (A : pickups g' = pickups s5 /\ particles g' = particles s5).
  { subst g' s7 s6. unfold triggerBossSequence. destruct (_ && _); split; reflexivity. }
  destruct A as [-> ->]. clear Hg' Es7 Es6 s7 s6.
  assert (B : pickups s4 = pickups g /\ particles s4 = particles s0
              /\ rngPos s4 = S (rngPos s1)).
  { subst s4 s2 s1 s0 s. repeat split; reflexivity. }
  destruct B as (B1 & B2 & B3).
  assert (C : length (particles s0) = (length (particles g) + 41)%nat).
  { subst s0 s. gsimpl. rewrite length_app. cbn [length].
    rewrite visualParticles_length. lia. }
  split.
  - rewrite Es5. unfold _spawnPickup. cbv zeta.
    destruct s3; gsimpl; rewrite ?B2; exact C.
  - exists (rngPos s1). rewrite <- H0. rewrite Es5.
    destruct s3; symmetry in Es3.
    + right. apply Qltb_lt in Es3. split; [exact Es3|].
      unfold _spawnPickup. cbv zeta. gsimpl. by rewrite B1, B3.
    + left. apply Qltb_ge in Es3. split; [exact Es3|]. exact B1.
Qed.

End Lifecycle.


(** ** The final boss between attacks *)

Lemma jsMod1_range x : 0 <= x -> 0 <= jsMod1 x /\ jsMod1 x < 1.
Proof.
  intros Hx. unfold jsMod1.
  assert (Hq : Z.quot (Qnum x) (Zpos (Qden x)) = Qfloor x).
  { destruct x as [n d]. cbn [Qnum Qden Qfloor].
    apply Z.quot_div_nonneg; [|lia].
    unfold Qle in Hx. cbn in Hx. lia. }
  rewrite Hq. pose proof (Qfloor_le x) as H1. pose proof (Qlt_floor x) as H2.
  rewrite inject_Z_plus in H2. change (inject_Z 1) with 1 in H2. split; lra.
Qed.

Section FinalBoss.
Context `{Host}.

Lemma setAttackTimer_fields v e :
  ent_hp (setAttackTimer v e) = ent_hp e
  /\ ent_position (setAttackTimer v e) = ent_position e
  /\ ent_size (setAttackTimer v e) = ent_size e
  /\ weakOf (setAttackTimer v e) = weakOf e.
Proof. destruct e as [? ? ? ? ? [t|bd]]; by cbn. Qed.

Lemma setWeak_fields w e wp :
  weakOf e = Some wp ->
  ent_hp (setWeak w e) = ent_hp e
  /\ ent_position (setWeak w e) = ent_position e
  /\ weakOf (setWeak w e) = Some w.
Proof. destruct e as [? ? ? ? ? [t|bd]]; by cbn. Qed.

(** Property X28.  A frame of the final boss.  At level 5 [updateBoss]
    never throws and never moves the boss, and it changes neither the boss's
    hit points nor the hit points of its weak point; the weak point advances
    along its path by a tenth of the frame time, its progress wrapping
    around so that it stays in [0, 1), and is placed at the point of the path
    that progress names. *)
Theorem X28_final_boss_frame (deltaTime : Q) (g : Game) (b : Ref) (be : Entity)
    (wp : WeakPoint) :
  boss g = Some b -> heap g !! b = Some be -> weakOf be = Some wp ->
  currentLevel g = 5%Z ->
  0 <= weakPointProgress wp + deltaTime * 0.1 ->
  exists g' be' wp',
    updateBoss deltaTime g = Normal g'
    /\ boss g' = Some b /\ heap g' !! b = Some be' /\ weakOf be' = Some wp'
    /\ ent_position be' = ent_position be /\ ent_hp be' = ent_hp be
    /\ weakPointHp wp' = weakPointHp wp /\ maxWeakPointHp wp' = maxWeakPointHp wp
    /\ weakPointProgress wp' = jsMod1 (weakPointProgress wp + deltaTime * 0.1)
    /\ (0 <= weakPointProgress wp' /\ weakPointProgress wp' < 1)
    /\ wp_position wp' = getPointAt (ent_size be / 2) (weakPointProgress wp').
Proof.
  intros Hb He Hw Hl Hpr. unfold updateBoss. rewrite Hb, He. cbv zeta.
  rewrite Hl. cbn [Z.ltb Z.compare Pos.compare Pos.compare_cont].
  set (be1 := setAttackTimer (attackTimerOf be - deltaTime) be).
  destruct (setAttackTimer_fields (attackTimerOf be - deltaTime) be)
    as (F1 & F2 & F3 & F4). fold be1 in F1, F2, F3, F4.
  set (g0 := store b be1 g).
  assert (Hb0 : boss g0 = Some b) by exact Hb.
  assert (He0 : heap g0 !! b = Some be1) by apply lookup_insert_eq.
  pose proof (jsMod1_range _ Hpr) as Hrange.
  destruct (Qleb (attackTimerOf be1) 0).
  - assert (Hc : CONFIG.BOSS_BASE (currentLevel g0)
                 = Some (mkBossConfig 10000 40 2 30 (Some 500) 5 50 30)).
    { change (currentLevel g0) with (currentLevel g). by rewrite Hl. }
    destruct (executeBossAttack_table g0 b be1 _ Hb0 He0 Hc)
      as (g1 & new & hz & -> & _ & _ & Hh & Hb1 & _).
    cbn [andThen]. rewrite Hb1.
    set (be2 := setAttackTimer
                  (B_ATTACK_COOLDOWN (mkBossConfig 10000 40 2 30 (Some 500) 5 50 30))
                  be1) in *.
    destruct (setAttackTimer_fields
                (B_ATTACK_COOLDOWN (mkBossConfig 10000 40 2 30 (Some 500) 5 50 30)) be1)
      as (G1 & G2 & G3 & G4). fold be2 in G1, G2, G3, G4.
    assert (He1 : heap g1 !! b = Some be2) by (rewrite Hh; apply lookup_insert_eq).
    rewrite He1. rewrite G4, F4, Hw.
    eexists _, _, _. split; [reflexivity|]. unfold store. gsimpl.
    split; [exact Hb1|]. split; [apply lookup_insert_eq|].
    match goal with |- context [setWeak ?w be2] =>
      destruct (setWeak_fields w be2 wp) as (S1 & S2 & S3); [by rewrite G4, F4|] end.
    split; [exact S3|]. rewrite S1, S2, G1, G2, G3, F1, F2, F3.
    cbn [weakPointHp maxWeakPointHp weakPointProgress wp_position].
    do 5 (split; [reflexivity|]). split; [exact Hrange|reflexivity].
  - cbn [andThen]. rewrite Hb0, He0, F4, Hw.
    eexists _, _, _. split; [reflexivity|]. unfold store. gsimpl.
    split; [exact Hb|]. split; [apply lookup_insert_eq|].
    match goal with |- context [setWeak ?w be1] =>
      destruct (setWeak_fields w be1 wp) as (S1 & S2 & S3); [by rewrite F4|] end.
    split; [exact S3|]. rewrite S1, S2, F1, F2, F3.
    cbn [weakPointHp maxWeakPointHp weakPointProgress wp_position].
    do 5 (split; [reflexivity|]). split; [exact Hrange|reflexivity].
Qed.

End FinalBoss.

(** ** When the timed skills may be raised *)

Section SkillGates.
Context `{Host}.

(** Property X27.  The last block of [updatePlayer] raises the shield
    exactly when [G] is held, the shield is unlocked and its cooldown has run
    out, and the overcharge exactly when [Z] is held under the same two
    conditions; raising one starts its duration (4 and 5 seconds) and its
    cooldown (25 and 30 seconds).  Otherwise the block leaves the effect, its
    duration and its cooldown as they are, and it never unlocks or locks
    either skill.  Melee and the heal, which the same block may trigger, do
    not interfere. *)
Theorem X27_skill_gates (g : Game) :
  let g' := updatePlayer_actions g in
  let p := player g in
  let p' := player g' in
  let raiseG := key "KeyG" g && shield_unlocked p && Qleb (shield_cooldown p) 0 in
  let raiseZ := key "KeyZ" g && z_unlocked p && Qleb (z_cooldown p) 0 in
  shield_active p' = (raiseG || shield_active p)
  /\ shield_cooldown p' = (if raiseG then CONFIG.SHIELD.COOLDOWN else shield_cooldown p)
  /\ shield_duration p' = (if raiseG then CONFIG.SHIELD.DURATION else shield_duration p)
  /\ z_active p' = (raiseZ || z_active p)
  /\ z_cooldown p' = (if raiseZ then CONFIG.SKILL_Z.COOLDOWN else z_cooldown p)
  /\ z_duration p' = (if raiseZ then CONFIG.SKILL_Z.DURATION else z_duration p)
  /\ shield_unlocked p' = shield_unlocked p /\ z_unlocked p' = z_unlocked p.
Proof.
  cbv zeta.
  unfold updatePlayer_actions, playerMeleeAttack, useSkillQ, useSkillZ, useSkillG,
    createHealEffect, createMeleeSwingEffect, key. cbv zeta.
  destruct (default false (keys g !! "KeyF"));
    [destruct (Qltb 0 (melee_cooldown (player g)) || melee_attacking (player g)
               || isAiming (player g))|]; gsimpl;
    (destruct (default false (keys g !! "KeyQ") && q_unlocked (player g)
               && Qleb (q_cooldown (player g)) 0); gsimpl);
    (destruct (default false (keys g !! "KeyZ") && z_unlocked (player g)
               && Qleb (z_cooldown (player g)) 0); gsimpl);
    (destruct (default false (keys g !! "KeyG") && shield_unlocked (player g)
               && Qleb (shield_cooldown (player g)) 0); gsimpl);
    repeat split; reflexivity.
Qed.

End SkillGates.


(** * The further properties on the sample states *)

(** The wounded player picks up the health pack at their feet, 50 becomes
    70 of 100, and the ammunition box thirty units away stays. *)
Lemma X4_pickups_in_reach_collected_witness :
  pickups (_checkPlayerCollisions_pickups (H:=testHost) pickupArena)
  = [mkPickup Ammo (mkVector3 0 0.5 30)]
  /\ hp (player pickupArena)
     <= hp (player (_checkPlayerCollisions_pickups (H:=testHost) pickupArena))
  /\ hp (player (_checkPlayerCollisions_pickups (H:=testHost) pickupArena))
     <= maxHp (player pickupArena)
  /\ hp (player (_checkPlayerCollisions_pickups (H:=testHost) pickupArena)) == 70.
Proof.
  destruct (X4_pickups_in_reach_collected (H:=testHost) pickupArena)
    as (_ & _ & E3 & _).
  assert (Hh : hp (player pickupArena) <= maxHp (player pickupArena))
    by (vm_compute; discriminate).
  destruct (E3 Hh) as [L1 L2].
  split; [vm_compute; reflexivity|]. split; [exact L1|]. split; [exact L2|].
  vm_compute. reflexivity.
Defined.


(** The reload of scenario 1 runs out: 29 + 90 rounds before, 30 + 89
    after. *)
Lemma X7_reload_conserves_rounds_witness :
  (ammoInMagazine (player (updatePlayer_reload 2 reloadingGame))
   + reserveAmmo (player (updatePlayer_reload 2 reloadingGame))
   = ammoInMagazine (player reloadingGame) + reserveAmmo (player reloadingGame))%Z
  /\ (0 <= reserveAmmo (player (updatePlayer_reload 2 reloadingGame)))%Z
  /\ (ammoInMagazine (player (updatePlayer_reload 2 reloadingGame))
      <= maxAmmoInMagazine (player reloadingGame))%Z
  /\ ammoInMagazine (player (updatePlayer_reload 2 reloadingGame)) = 30%Z.
Proof.
  destruct (X7_reload_conserves_rounds 2 reloadingGame) as (E1 & _ & E3).
  assert (H1 : (0 <= reserveAmmo (player reloadingGame))%Z) by (vm_compute; discriminate).
  assert (H2 : (ammoInMagazine (player reloadingGame)
                <= maxAmmoInMagazine (player reloadingGame))%Z)
    by (vm_compute; discriminate).
  destruct (E3 H1 H2) as (L1 & _ & L3).
  split; [exact E1|]. split; [exact L1|]. split; [exact L3|].
  vm_compute. reflexivity.
Defined.


(** The trigger held for a second in the first wave: one bullet, and the
    tier-1 weapon lets go of the trigger. *)
Lemma X9_fire_modes_witness :
  key "mouse0" (updatePlayer_fire (H:=testHost) triggerHeld) = false
  /\ updatePlayer_fire (H:=testHost) (updatePlayer_fire (H:=testHost) triggerHeld)
     = updatePlayer_fire (H:=testHost) triggerHeld.
Proof.
  assert (Hf : fireReady (H:=testHost) triggerHeld = true) by (vm_compute; reflexivity).
  assert (Hz : z_active (player triggerHeld) = false) by (vm_compute; reflexivity).
  assert (Ha : (0 < ammoInMagazine (player triggerHeld))%Z) by (vm_compute; reflexivity).
  destruct (X9_fire_modes (H:=testHost) triggerHeld Hf) as (_ & E2).
  destruct (E2 Hz Ha) as (_ & Ek & Eid).
  assert (Hk : key "mouse0" (updatePlayer_fire (H:=testHost) triggerHeld) = false)
    by (rewrite Ek; vm_compute; reflexivity).
  split; [exact Hk|exact (Eid Hk)].
Defined.

(** A blow of 100 on a player with 100 hit points. *)
Lemma X11_fatal_damage_ends_game_witness :
  hp (player (playerTakeDamage 100 firstWave)) = 0
  /\ gameState (playerTakeDamage 100 firstWave) = game_over
  /\ forall a, playerTakeDamage a (playerTakeDamage 100 firstWave)
               = playerTakeDamage 100 firstWave.
Proof.
  assert (Hs : gameState firstWave <> game_over) by (vm_compute; discriminate).
  assert (Hsh : shield_active (player firstWave) = false) by (vm_compute; reflexivity).
  assert (Hp : hp (player firstWave) - 100 <= 0) by (vm_compute; discriminate).
  destruct (X11_fatal_damage_ends_game 100 firstWave Hs Hsh) as (_ & E2).
  destruct (E2 Hp) as (L1 & L2 & _ & _ & _ & _ & L3).
  split; [exact L1|]. split; [exact L2|exact L3].
Defined.

(** The drone over the scout arena, its fire interval long past: it fires
    one bolt at the scout, which is alive and in range. *)
Lemma X14_drone_fire_discipline_witness :
  exists pos t te b,
    drone (updateDrone (H:=testHost) 0.016 droneArena) = Some pos
    /\ droneTarget (updateDrone (H:=testHost) 0.016 droneArena) = Some t
    /\ heap droneArena !! t = Some te
    /\ 0 < ent_hp te
    /\ distanceTo (Host:=testHost) pos (ent_position te) <= CONFIG.DRONE.RANGE
    /\ droneBullets (updateDrone (H:=testHost) 0.016 droneArena)
       = droneBullets droneArena ++ [b]
    /\ lastDroneShotTime (updateDrone (H:=testHost) 0.016 droneArena)
       = elapsedTime droneArena.
Proof.
  assert (Hg : regOK droneArena) by (apply regOKb_sound; vm_compute; reflexivity).
  destruct (X14_drone_fire_discipline (H:=testHost) 0.016 droneArena Hg)
    as (_ & [[E _]|E] & _).
  - exfalso. vm_compute in E. discriminate E.
  - exact E.
Defined.

(** Entering level 3 from level 2: the tier-2 weapon and the shield, the
    wave held back for two messages. *)
Lemma X17_wave_upgrades_witness :
  weaponLevel (startNextWave (set_currentLevel 2 firstWave)) = W2
  /\ maxAmmoInMagazine
       (player (startNextWave (set_currentLevel 2 firstWave))) = 40%Z
  /\ shield_unlocked
       (player (startNextWave (set_currentLevel 2 firstWave))) = true
  /\ gameState (startNextWave (set_currentLevel 2 firstWave))
     = gameState (set_currentLevel 2 firstWave).
Proof.
  destruct (X17_wave_upgrades (set_currentLevel 2 firstWave))
    as (_ & E3 & _).
  assert (Hl : (currentLevel (set_currentLevel 2 firstWave) + 1)%Z = 3%Z)
    by (vm_compute; reflexivity).
  destruct (E3 Hl) as (L1 & L2 & _ & _ & L5 & L6 & _).
  split; [exact L1|]. split; [exact L2|]. split; [exact L5|exact L6].
Defined.

(** The boss of level 1 enters the first wave; before any wave, at level
    0, the callback throws. *)
Lemma X18_boss_entry_witness :
  (exists g', beginBossFight firstWave = Normal g'
              /\ boss g' = Some (nextRef firstWave) /\ gameState g' = boss_fight)
  /\ beginBossFight constructed
     = Threw (changeGameState boss_fight constructed).
Proof.
  destruct (X18_boss_entry firstWave) as (E1 & _).
  destruct (X18_boss_entry constructed) as (_ & E2).
  assert (H1 : (1 <= currentLevel firstWave <= 5)%Z) by (vm_compute; split; discriminate).
  assert (H2 : ~ (1 <= currentLevel constructed <= 5)%Z).
  { intros [Hlo _]. vm_compute in Hlo. by apply Hlo. }
  destruct (E1 H1) as (g' & e & bd & cfg & L1 & _ & L3 & _ & L5 & _).
  destruct (E2 H2) as (T1 & _).
  split; [exists g'; split; [exact L1|split; [exact L3|exact L5]]|exact T1].
Defined.

(** The tier-3 boss attacks: one bullet and a shockwave of 20. *)
Lemma X19_boss_attack_table_witness :
  exists g' new,
    executeBossAttack (H:=testHost) bossArena3 = Normal g'
    /\ bossBullets g' = bossBullets bossArena3 ++ new
    /\ length new = 1%nat
    /\ particles g'
       = particles bossArena3
         ++ [Shockwave 3 (set_vy 0.1 (ent_position boss3)) 1
               (B_BULLET_DAMAGE (mkBossConfig 2000 25 4 9 None 2.5 30 20))].
Proof.
  assert (Hb : boss bossArena3 = Some 0%nat) by (vm_compute; reflexivity).
  assert (He : heap bossArena3 !! 0%nat = Some boss3) by (vm_compute; reflexivity).
  assert (Hc : CONFIG.BOSS_BASE (currentLevel bossArena3)
               = Some (mkBossConfig 2000 25 4 9 None 2.5 30 20))
    by (vm_compute; reflexivity).
  assert (Hl : currentLevel bossArena3 = 3%Z) by (vm_compute; reflexivity).
  destruct (X19_boss_attack_table (H:=testHost) bossArena3 0%nat boss3 _ Hb He Hc)
    as (g' & new & hz & E & Eb & Ep & _ & _ & _ & _ & _ & M).
  rewrite Hl in M. destruct M as (M1 & _ & M3).
  exists g', new. split; [exact E|]. split; [exact Eb|]. split; [exact M1|].
  rewrite Ep, M3. reflexivity.
Defined.


(** A violent mouse move upwards: the pitch stops at a quarter turn. *)
Lemma X21_aim_and_look_witness :
  cameraRotationX (onMouseMove (H:=testHost) 100 (-100000) firstWave)
  <= mathPI (Host:=testHost) / 2
  /\ rotationY (onMouseMove (H:=testHost) 100 (-100000) firstWave)
     = rotationY firstWave - 100 / 500.
Proof.
  assert (Hpi : 0 <= mathPI (Host:=testHost)) by (vm_compute; discriminate).
  destruct (X21_aim_and_look (H:=testHost) 100 (-100000) firstWave Hpi)
    as (_ & _ & _ & L2 & L3 & _).
  split; [exact L2|exact L3].
Defined.




(** The scout of scenario 2 dies: 41 particles, and one roll for its
    loot. *)
Lemma X26_loot_drop_witness :
  length (particles (onEnemyDefeated (H:=testHost) 0%nat 0%nat scoutArena))
  = (length (particles scoutArena) + 41)%nat
  /\ length (pickups (onEnemyDefeated (H:=testHost) 0%nat 0%nat scoutArena)) = 1%nat.
Proof.
  assert (He : heap scoutArena !! 0%nat = Some scout25) by (vm_compute; reflexivity).
  assert (Hk : ent_kind scout25 = IsEnemy Scout) by reflexivity.
  destruct (X26_loot_drop (H:=testHost) 0%nat 0%nat scoutArena scout25 Scout He Hk)
    as (L1 & _).
  split; [exact L1|vm_compute; reflexivity].
Defined.

(** A frame of the final boss of scenario 4. *)
Lemma X28_final_boss_frame_witness :
  exists g' be' wp',
    updateBoss (H:=testHost) 0.016 finalArena = Normal g'
    /\ heap g' !! 0%nat = Some be' /\ weakOf be' = Some wp'
    /\ ent_position be' = ent_position boss5 /\ ent_hp be' = ent_hp boss5
    /\ weakPointHp wp' = 500
    /\ (0 <= weakPointProgress wp' /\ weakPointProgress wp' < 1).
Proof.
  assert (Hb : boss finalArena = Some 0%nat) by (vm_compute; reflexivity).
  assert (He : heap finalArena !! 0%nat = Some boss5) by (vm_compute; reflexivity).
  assert (Hw : weakOf boss5 = Some (mkWeakPoint (mkVector3 3 20 (-80)) 500 500 0))
    by reflexivity.
  assert (Hl : currentLevel finalArena = 5%Z) by (vm_compute; reflexivity).
  assert (Hp : 0 <= weakPointProgress (mkWeakPoint (mkVector3 3 20 (-80)) 500 500 0)
                    + 0.016 * 0.1) by (vm_compute; discriminate).
  destruct (X28_final_boss_frame (H:=testHost) 0.016 finalArena 0%nat boss5 _
              Hb He Hw Hl Hp)
    as (g' & be' & wp' & E & _ & L2 & L3 & L4 & L5 & L6 & _ & _ & L9 & _).
  exists g', be', wp'. split; [exact E|]. split; [exact L2|]. split; [exact L3|].
  split; [exact L4|]. split; [exact L5|]. split; [exact L6|exact L9].
Defined.
